(** * analyzer.py: the analyzers, the reports and the program

    A shallow embedding of [src/analyzer.py]: the seven pattern analyzers
    ([StringExtractor], [CredentialHunter], [JSONExtractor],
    [BSONFieldAnalyzer], [EmailExtractor], [IPAddressExtractor],
    [HexDumpAnalyzer]) with their methods [format_result], the aggregator
    [HTMLReportGenerator] ([add_analyzer], [analyze_all], [generate_html],
    [_format_result_html]) and [main].

    Layout of the development:
    - [Py]: the Python values, exceptions and builtins the analyzers use
      (bytes, str, dict, [bytes.decode], [int], [sorted], [set], [Counter]);
    - [Re]: the fragment of the [re] module the patterns need, as a
      backtracking matcher over byte positions, with [finditer];
    - the analyzers and the aggregator, written statement by statement;
    - [PyObj]: the operations of the rendering layer on Python objects
      (subscripts, slices, loops, [len], format specifications,
      [html.escape]), with the errors they raise;
    - the methods [format_result], the HTML page, and [main] on a world of
      files and a standard output;
    - the properties: of the analyzers and of the aggregator, of the text
      report, of the HTML report, and of the program. *)

From Stdlib Require Import String ZArith NArith Lia Bool Arith List.
From Stdlib Require Import Strings.Byte.
From Stdlib Require Import Permutation Sorted.
From Stdlib Require Import DecimalString.
From Stdlib Require Import Floats Uint63.
Import ListNotations.

Local Open Scope list_scope.
Set Warnings "-register-all".

(* ===================================================================== *)
(** * Python values and builtins                                          *)
(* ===================================================================== *)

Module Py.

(** [bytes]: an immutable sequence of integers in [0, 255]. *)
Definition bytes := list byte.

(** [str]: a sequence of Unicode code points. *)
Definition str := list N.

(** A [bytes] literal written as a Rocq string (its bytes, as they are). *)
Definition b (s : string) : bytes := list_byte_of_string s.

(** A [str] literal: exact for ASCII text, which is all the source has in
    the keys and messages modelled here. *)
Definition s (lit : string) : str := map Byte.to_N (list_byte_of_string lit).

(** Python floats are IEEE binary64 numbers.  [float(n)] for a count or a
    size [n]: exact below 2^53, which the size of a buffer in memory is. *)
Definition float_of_nat (n : nat) : float :=
  PrimFloat.of_uint63 (Uint63.of_Z (Z.of_nat n)).

(** The values that cross into the rendering layer: nested mappings and
    sequences of primitives.  Dictionaries keep their insertion order; their
    keys are the literal keys of the source. *)
Inductive pyval : Type :=
| VNone
| VInt (z : Z)
| VFloat (f : float)
| VStr (t : str)
| VList (l : list pyval)
| VTuple (l : list pyval)
| VDict (d : list (string * pyval)).

(** An error: an exception that is an instance of [Exception], with its
    class and what [str(e)] gives.  (The exits of the interpreter, such as
    KeyboardInterrupt and SystemExit, are no errors and are not modelled.) *)
Record exn : Type := mk_exn { exn_class : string; exn_str : str }.

(** The outcome of a call: it returns a value or raises. *)
Inductive outcome (A : Type) : Type :=
| Returns (a : A)
| Raises (e : exn).
Arguments Returns {A} a.
Arguments Raises {A} e.

Definition bind {A B} (c : outcome A) (k : A -> outcome B) : outcome B :=
  match c with
  | Returns a => k a
  | Raises e => Raises e
  end.

Declare Scope py_scope.
Delimit Scope py_scope with py.
Notation "x <- c ;; k" := (bind c (fun x => k))
  (at level 61, c at next level, right associativity) : py_scope.

(** [try: c  except: h] with a bare except clause. *)
Definition try_except {A} (c : outcome A) (h : exn -> outcome A) : outcome A :=
  match c with
  | Returns a => Returns a
  | Raises e => h e
  end.

(** [for x in l: body], threading the variables the body assigns. *)
Fixpoint for_each {A S} (l : list A) (st : S) (body : S -> A -> outcome S)
  : outcome S :=
  match l with
  | [] => Returns st
  | x :: l' => bind (body st x) (fun st' => for_each l' st' body)
  end.

(** ** Insertion-ordered dictionaries ([dict], [defaultdict], [Counter]) *)

Section OrderedDict.
Context {K V : Type}.
Variable K_eq_dec : forall x y : K, {x = y} + {x <> y}.

Definition dict := list (K * V).

Fixpoint dict_get (k : K) (d : dict) : option V :=
  match d with
  | [] => None
  | (k', v) :: d' => if K_eq_dec k k' then Some v else dict_get k d'
  end.

(** [d[k] = v]: an existing key keeps its place, a new key goes last. *)
Fixpoint dict_set (k : K) (v : V) (d : dict) : dict :=
  match d with
  | [] => [(k, v)]
  | (k', v') :: d' =>
      if K_eq_dec k k' then (k', v) :: d' else (k', v') :: dict_set k v d'
  end.

Definition dict_keys (d : dict) : list K := map fst d.

(** [d[k]] on a [defaultdict] whose factory gives [default], followed by an
    update of the entry: the lookup creates the entry when it is missing. *)
Definition defaultdict_update (default : V) (k : K) (f : V -> V) (d : dict)
  : dict :=
  match dict_get k d with
  | Some v => dict_set k (f v) d
  | None => dict_set k (f default) d
  end.
End OrderedDict.

Arguments dict : clear implicits.

Definition str_eq_dec : forall x y : str, {x = y} + {x <> y} :=
  list_eq_dec N.eq_dec.

Definition bytes_eq_dec : forall x y : bytes, {x = y} + {x <> y} :=
  list_eq_dec Byte.byte_eq_dec.

(** ** Slices *)

(** [l[i:j]] for [0 <= i]: Python clamps both ends to the length. *)
Definition slice {A} (l : list A) (i j : nat) : list A :=
  firstn (j - i) (skipn i l).

(** [range(start, stop, step)] for a positive step. *)
Definition range (start stop step : Z) : list Z :=
  map (fun k => (start + step * Z.of_nat k)%Z)
      (seq 0 (Z.to_nat ((stop - start + step - 1) / step))).

(** ** [bytes.decode] *)

Inductive encoding := Ascii | Utf8.
Inductive error_policy := Strict | Ignore | Replace.

(** What the decoder finds at the head of its input: a code point and the
    number of bytes it takes, or an error and the number of bytes the error
    spans (the bytes an error handler skips or replaces). *)
Inductive decode_step :=
| Char (cp : N) (width : nat)
| Bad (reason : string) (width : nat).

Definition is_continuation (x : N) : bool := ((128 <=? x) && (x <=? 191))%N.

(** The second byte of a three-byte sequence: E0 needs A0..BF (no overlong
    form), ED needs 80..9F (no surrogate). *)
Definition second_of_three (b0 b1 : N) : bool :=
  (is_continuation b1
   && negb ((b0 =? 224) && (b1 <? 160))
   && negb ((b0 =? 237) && (160 <=? b1)))%N.

(** The second byte of a four-byte sequence: F0 needs 90..BF, F4 needs
    80..8F (nothing above U+10FFFF). *)
Definition second_of_four (b0 b1 : N) : bool :=
  (is_continuation b1
   && negb ((b0 =? 240) && (b1 <? 144))
   && negb ((b0 =? 244) && (144 <=? b1)))%N.

Definition low6 (x : N) : N := N.land x 63.

Definition utf8_step (l : list N) : option decode_step :=
  match l with
  | [] => None
  | b0 :: r =>
      Some
        (if (b0 <? 128)%N then Char b0 1
         else if (b0 <? 194)%N then Bad "invalid start byte" 1
         else if (b0 <? 224)%N then
           match r with
           | [] => Bad "unexpected end of data" 1
           | b1 :: _ =>
               if is_continuation b1
               then Char (N.lor (N.shiftl (N.land b0 31) 6) (low6 b1)) 2
               else Bad "invalid continuation byte" 1
           end
         else if (b0 <? 240)%N then
           match r with
           | [] => Bad "unexpected end of data" 1
           | b1 :: r1 =>
               if negb (second_of_three b0 b1)
               then Bad "invalid continuation byte" 1
               else
                 match r1 with
                 | [] => Bad "unexpected end of data" 2
                 | b2 :: _ =>
                     if is_continuation b2
                     then Char (N.lor (N.shiftl (N.land b0 15) 12)
                                  (N.lor (N.shiftl (low6 b1) 6) (low6 b2))) 3
                     else Bad "invalid continuation byte" 2
                 end
           end
         else if (b0 <? 245)%N then
           match r with
           | [] => Bad "unexpected end of data" 1
           | b1 :: r1 =>
               if negb (second_of_four b0 b1)
               then Bad "invalid continuation byte" 1
               else
                 match r1 with
                 | [] => Bad "unexpected end of data" 2
                 | b2 :: r2 =>
                     if negb (is_continuation b2)
                     then Bad "invalid continuation byte" 2
                     else
                       match r2 with
                       | [] => Bad "unexpected end of data" 3
                       | b3 :: _ =>
                           if is_continuation b3
                           then Char (N.lor (N.shiftl (N.land b0 7) 18)
                                        (N.lor (N.shiftl (low6 b1) 12)
                                           (N.lor (N.shiftl (low6 b2) 6)
                                              (low6 b3)))) 4
                           else Bad "invalid continuation byte" 3
                       end
                 end
           end
         else Bad "invalid start byte" 1)
  end.

Definition ascii_step (l : list N) : option decode_step :=
  match l with
  | [] => None
  | b0 :: _ =>
      Some (if (b0 <? 128)%N then Char b0 1
            else Bad "ordinal not in range(128)" 1)
  end.

Definition codec_step (enc : encoding) : list N -> option decode_step :=
  match enc with Ascii => ascii_step | Utf8 => utf8_step end.

(** U+FFFD, the replacement character. *)
Definition replacement_character : N := 65533.

Definition UnicodeDecodeError (reason : string) : exn :=
  mk_exn "UnicodeDecodeError" (s reason).

(** The decoding loop.  Every step takes at least one byte, so [fuel] equal
    to the length of the input is never used up (see [decode_loop_fuel]). *)
Fixpoint decode_loop (enc : encoding) (errors : error_policy) (fuel : nat)
  (l : list N) : outcome str :=
  match fuel with
  | O => Returns []
  | S fuel' =>
      match codec_step enc l with
      | None => Returns []
      | Some (Char cp w) =>
          bind (decode_loop enc errors fuel' (skipn w l))
               (fun t => Returns (cp :: t))
      | Some (Bad reason w) =>
          match errors with
          | Strict => Raises (UnicodeDecodeError reason)
          | Ignore => decode_loop enc errors fuel' (skipn w l)
          | Replace =>
              bind (decode_loop enc errors fuel' (skipn w l))
                   (fun t => Returns (replacement_character :: t))
          end
      end
  end.

(** [data.decode(encoding, errors=policy)] *)
Definition decode (enc : encoding) (errors : error_policy) (data : bytes)
  : outcome str :=
  decode_loop enc errors (length data) (map Byte.to_N data).

(** ** [int(text)] *)

Definition is_ascii_digit (c : N) : bool := ((48 <=? c) && (c <=? 57))%N.

Definition ValueError (msg : string) : exn := mk_exn "ValueError" (s msg).

(** [int(t)] for a str that is a non-empty run of ASCII digits.  Python
    accepts a few more spellings (blanks around the number, a sign,
    underscores between digits, other decimal digits); this model raises on
    them, so it raises at least whenever Python does. *)
Definition int (t : str) : outcome Z :=
  match t with
  | [] => Raises (ValueError "invalid literal for int() with base 10")
  | _ :: _ =>
      if forallb is_ascii_digit t
      then Returns (fold_left (fun acc c => (acc * 10 + Z.of_N (c - 48))%Z) t 0%Z)
      else Raises (ValueError "invalid literal for int() with base 10")
  end.

(** [a / b] on integers: the quotient rounded to the nearest float, which
    for operands below 2^53 is the quotient of the two floats. *)
Definition truediv (a c : nat) : outcome float :=
  if Nat.eqb c 0
  then Raises (mk_exn "ZeroDivisionError" (s "division by zero"))
  else Returns (PrimFloat.div (float_of_nat a) (float_of_nat c)).

(** [all(p(x) for x in l)]: stops at the first false, raises when [p] does. *)
Fixpoint all_ {A} (p : A -> outcome bool) (l : list A) : outcome bool :=
  match l with
  | [] => Returns true
  | x :: l' => bind (p x) (fun ok => if ok then all_ p l' else Returns false)
  end.

(** ** [str] methods and comparison *)

(** [t.split(sep)] for a separator of one character. *)
Fixpoint split (sep : N) (t : str) : list str :=
  match t with
  | [] => [[]]
  | c :: t' =>
      if (c =? sep)%N then [] :: split sep t'
      else
        match split sep t' with
        | [] => [[c]]
        | w :: ws => (c :: w) :: ws
        end
  end.

(** [x < y] on str: lexicographic on code points. *)
Fixpoint str_ltb (x y : str) : bool :=
  match x, y with
  | _, [] => false
  | [], _ :: _ => true
  | a :: x', c :: y' =>
      if (a <? c)%N then true
      else if (c <? a)%N then false
      else str_ltb x' y'
  end.

(** [data.hex()] *)
Definition hex_digit (n : N) : N := (if n <? 10 then 48 + n else 87 + n)%N.

Definition hex (data : bytes) : str :=
  flat_map (fun x => let n := Byte.to_N x in
                     [hex_digit (n / 16); hex_digit (n mod 16)]) data.

(** ** [sorted] *)

(** [sorted] is stable.  [ahead y x] says that [y], which stood after [x]
    in the input, must come out before it. *)
Section Sorting.
Context {A : Type}.
Variable ahead : A -> A -> bool.

Fixpoint insert_sorted (x : A) (l : list A) : list A :=
  match l with
  | [] => [x]
  | y :: l' => if ahead y x then y :: insert_sorted x l' else x :: y :: l'
  end.

Definition sort_stable (l : list A) : list A := fold_right insert_sorted [] l.
End Sorting.

(** [sorted(l)] on a list of str. *)
Definition sorted_str (l : list str) : list str := sort_stable str_ltb l.

(** [sorted(l, key=key, reverse=True)] for an integer key: descending keys,
    equal keys in their input order. *)
Definition sorted_reverse {A} (key : A -> nat) (l : list A) : list A :=
  sort_stable (fun y x => key x <? key y) l.

(** ** [set] of str *)

(** The elements of a set, kept here in the order they were added. *)
Definition pyset := list str.

Definition set_add (x : str) (st : pyset) : pyset :=
  if in_dec str_eq_dec x st then st else st ++ [x].

Definition set_contains (x : str) (st : pyset) : bool :=
  if in_dec str_eq_dec x st then true else false.

(** The order in which a set of str is iterated depends on the hash seed of
    the process and is not specified.  A seed selects an order: the element
    added first is put at index [hd 0 seed] among the others, and so on. *)
Definition hash_seed := list nat.

Fixpoint insert_at {A} (n : nat) (x : A) (l : list A) : list A :=
  match n, l with
  | S n', y :: l' => y :: insert_at n' x l'
  | _, _ => x :: l
  end.

Fixpoint iteration_order {A} (seed : hash_seed) (l : list A) : list A :=
  match l with
  | [] => []
  | x :: l' => insert_at (hd 0 seed) x (iteration_order (tl seed) l')
  end.

(** [list(st)] *)
Definition list_of_set (seed : hash_seed) (st : pyset) : list str :=
  iteration_order seed st.

(** ** [Counter] *)

(** [Counter(l)]: counts in the order of first encounter. *)
Definition Counter (l : list str) : dict str nat :=
  fold_left (fun d x => defaultdict_update str_eq_dec 0 x S d) l [].

(** [c.most_common(n)]: the [n] largest counts, equal counts in the order
    first encountered. *)
Definition most_common (n : nat) (c : dict str nat) : list (str * nat) :=
  firstn n (sorted_reverse snd c).

End Py.

(* ===================================================================== *)
(** * The [re] module on bytes patterns                                   *)
(* ===================================================================== *)

Module Re.
Import Py.

(** An item of a bracketed set. *)
Inductive set_item :=
| Range (lo hi : byte)
| One (c : byte)
| Space.

(** The patterns of the analyzers use literals, sets, concatenation, greedy
    repetition ([+], [?], [{m,n}], [{m,}]), one capturing group and the word
    boundary.  A non-capturing group is the pattern inside it. *)
Inductive regex :=
| Lit (c : byte)
| In_ (negate : bool) (items : list set_item)
| Seq (r1 r2 : regex)
| Repeat (lo : nat) (hi : option nat) (r : regex)
| Group (n : nat) (r : regex)
| Boundary.

Definition code (x : byte) : N := Byte.to_N x.

Definition between (lo hi n : N) : bool := ((lo <=? n) && (n <=? hi))%N.

Definition is_upper (n : N) : bool := between 65 90 n.
Definition is_lower (n : N) : bool := between 97 122 n.
Definition lower (n : N) : N := (if is_upper n then n + 32 else n)%N.
Definition upper (n : N) : N := (if is_lower n then n - 32 else n)%N.

(** [\s] on bytes: blank, [\t\n\r\f\v]. *)
Definition is_space (n : N) : bool := (n =? 32)%N || between 9 13 n.

(** [\w] on bytes: [a-zA-Z0-9_]. *)
Definition is_word (n : N) : bool :=
  is_upper n || is_lower n || between 48 57 n || (n =? 95)%N.

Definition item_match (it : set_item) (n : N) : bool :=
  match it with
  | Range lo hi => between (code lo) (code hi) n
  | One c => (n =? code c)%N
  | Space => is_space n
  end.

(** With IGNORECASE the set and the byte are both lowered: a byte belongs to
    the set when one of its two cases does. *)
Definition set_match (ignorecase negate : bool) (items : list set_item)
  (x : byte) : bool :=
  let n := code x in
  xorb negate
    (existsb (fun it =>
                if ignorecase
                then item_match it (lower n) || item_match it (upper n)
                else item_match it n) items).

Definition lit_match (ignorecase : bool) (c x : byte) : bool :=
  if ignorecase then (lower (code x) =? lower (code c))%N
  else (code x =? code c)%N.

(** The spans of the groups that have matched, the last one closed first. *)
Definition captures := list (nat * (nat * nat)).

Fixpoint group_span (n : nat) (caps : captures) : option (nat * nat) :=
  match caps with
  | [] => None
  | (g, sp) :: caps' => if Nat.eqb g n then Some sp else group_span n caps'
  end.

Section Matcher.
Variable ignorecase : bool.
Variable data : bytes.

(** [\b]: the bytes before and after position [i] differ in being word
    bytes; outside the buffer there is no word byte. *)
Definition word_at (i : nat) : bool :=
  match nth_error data i with
  | Some x => is_word (code x)
  | None => false
  end.

Definition at_boundary (i : nat) : bool :=
  negb (Bool.eqb (match i with O => false | S j => word_at j end) (word_at i)).

(** A greedy repetition of [body], which has matched [done] times and may
    match [more] times more: one more iteration is tried before stopping is;
    an iteration that takes no byte is not repeated. *)
Fixpoint repeat_loop {X : Type}
  (body : nat -> captures -> (nat -> captures -> option X) -> option X)
  (lo : nat) (k : nat -> captures -> option X)
  (more done : nat) (i : nat) (caps : captures) {struct more} : option X :=
  let stop := if lo <=? done then k i caps else None in
  match more with
  | O => stop
  | S more' =>
      match body i caps
              (fun j c =>
                 if Nat.eqb j i then None
                 else repeat_loop body lo k more' (S done) j c) with
      | Some x => Some x
      | None => stop
      end
  end.

(** The number of iterations a repetition may make: its upper bound, or, as
    every iteration takes a byte, the length of the buffer (a larger number
    changes nothing, see [repeat_budget]). *)
Definition iterations (hi : option nat) : nat :=
  match hi with Some h => h | None => length data end.

(** The backtracking matcher, in continuation-passing style: [k] is what
    remains to be matched after [r]; the result is the first success, in the
    order a backtracking engine tries the alternatives. *)
Fixpoint run {X : Type} (r : regex) (i : nat) (caps : captures)
  (k : nat -> captures -> option X) {struct r} : option X :=
  match r with
  | Lit c =>
      match nth_error data i with
      | Some x => if lit_match ignorecase c x then k (S i) caps else None
      | None => None
      end
  | In_ negate items =>
      match nth_error data i with
      | Some x =>
          if set_match ignorecase negate items x then k (S i) caps else None
      | None => None
      end
  | Seq r1 r2 => run r1 i caps (fun j c => run r2 j c k)
  | Repeat lo hi r1 => repeat_loop (run r1) lo k (iterations hi) 0 i caps
  | Group n r1 => run r1 i caps (fun j c => k j ((n, (i, j)) :: c))
  | Boundary => if at_boundary i then k i caps else None
  end.

(** What a pattern matches, without the search order: [spans r i c j c']
    when [r] can match the bytes from position [i] to position [j], taking
    the group spans from [c] to [c']. *)
Fixpoint times (R : nat -> captures -> nat -> captures -> Prop) (n : nat)
  (i : nat) (c : captures) (j : nat) (c' : captures) : Prop :=
  match n with
  | O => j = i /\ c' = c
  | S n' => exists m cm, R i c m cm /\ m <> i /\ times R n' m cm j c'
  end.

Definition within (lo : nat) (hi : option nat) (n : nat) : Prop :=
  lo <= n /\ match hi with Some h => n <= h | None => True end.

Fixpoint spans (r : regex) (i : nat) (c : captures) (j : nat) (c' : captures)
  : Prop :=
  match r with
  | Lit x =>
      exists y, nth_error data i = Some y /\ lit_match ignorecase x y = true
                /\ j = S i /\ c' = c
  | In_ negate items =>
      exists y, nth_error data i = Some y
                /\ set_match ignorecase negate items y = true
                /\ j = S i /\ c' = c
  | Seq r1 r2 => exists m cm, spans r1 i c m cm /\ spans r2 m cm j c'
  | Repeat lo hi r1 => exists n, within lo hi n /\ times (spans r1) n i c j c'
  | Group n r1 => exists cm, spans r1 i c j cm /\ c' = (n, (i, j)) :: cm
  | Boundary => at_boundary i = true /\ j = i /\ c' = c
  end.

(** A match object: [start()], [end()] and the spans of its groups. *)
Record match_object := mk_match {
  m_start : nat;
  m_end : nat;
  m_groups : captures
}.

(** The match that begins at position [i], if there is one. *)
Definition match_at (r : regex) (i : nat) : option match_object :=
  run r i [] (fun j c => Some (mk_match i j c)).

(** The leftmost match that begins at [pos] or later: [tries] positions are
    tried. *)
Fixpoint search (r : regex) (tries pos : nat) : option match_object :=
  match tries with
  | O => None
  | S tries' =>
      match match_at r pos with
      | Some mt => Some mt
      | None => search r tries' (S pos)
      end
  end.

(** The scanner behind [finditer]: after a match the search resumes where
    the match ended.  After an empty match it resumes one byte further; no
    pattern of the analyzers matches the empty string (see [takes_bytes] and
    [finditer_inside]), so that case does not arise here.  Every match
    moves the position forward, so [fuel] above the bytes left is never
    used up (see [scan_fuel]). *)
Fixpoint scan (r : regex) (fuel pos : nat) : list match_object :=
  match fuel with
  | O => []
  | S fuel' =>
      match search r (S (length data) - pos) pos with
      | None => []
      | Some mt =>
          mt :: scan r fuel'
                  (if Nat.eqb (m_end mt) (m_start mt)
                   then S (m_end mt) else m_end mt)
      end
  end.

(** [m.group(0)] *)
Definition group0 (mt : match_object) : bytes :=
  slice data (m_start mt) (m_end mt).

(** [m.group(n)] for a group that took part in the match; [b""] stands for
    the [None] of a group that did not. *)
Definition group (n : nat) (mt : match_object) : bytes :=
  match group_span n (m_groups mt) with
  | Some (i, j) => slice data i j
  | None => []
  end.

(** [m.lastindex] *)
Definition lastindex (mt : match_object) : option nat :=
  match m_groups mt with
  | [] => None
  | (g, _) :: _ => Some g
  end.

End Matcher.

(** [re.finditer(pattern, data, flags)], as the list of its matches. *)
Definition finditer (ignorecase : bool) (r : regex) (data : bytes)
  : list match_object :=
  scan ignorecase data r (S (length data)) 0.

(** ** Writing patterns *)

(** A run of literal bytes. *)
Fixpoint lits (l : bytes) (rest : regex) : regex :=
  match l with
  | [] => rest
  | c :: l' => Seq (Lit c) (lits l' rest)
  end.

Definition plus (r : regex) : regex := Repeat 1 None r.
Definition opt (r : regex) : regex := Repeat 0 (Some 1) r.
Definition at_least (n : nat) (r : regex) : regex := Repeat n None r.
Definition from_to (lo hi : nat) (r : regex) : regex := Repeat lo (Some hi) r.
Definition set (items : list set_item) : regex := In_ false items.
Definition set_not (items : list set_item) : regex := In_ true items.

End Re.

(* ===================================================================== *)
(** * The analyzers                                                       *)
(* ===================================================================== *)

Import Py Re.
Local Open Scope py_scope.
Local Open Scope string_scope.
Local Open Scope list_scope.

(** class BaseAnalyzer: [get_name] and [analyze] ([format_result] belongs
    to the rendering layer).  [analyze] returns a result or raises. *)
Record BaseAnalyzer := mk_analyzer {
  get_name : string;
  analyze : bytes -> outcome pyval
}.

Definition nat_py (n : nat) : pyval := VInt (Z.of_nat n).

(** ** StringExtractor *)

(** rb'[\x20-\x7E]{4,}' *)
Definition StringExtractor_pattern : regex :=
  at_least 4 (set [Range " " "~"]).

(** {'offset': ..., 'length': ..., 'content': ...} *)
Record string_item := mk_string_item {
  string_offset : nat;
  string_length : nat;
  string_content : str
}.

Definition string_item_py (it : string_item) : pyval :=
  VDict [("offset", nat_py (string_offset it));
         ("length", nat_py (string_length it));
         ("content", VStr (string_content it))].

(** The loop of [StringExtractor.analyze]: the list [strings]. *)
Definition StringExtractor_strings (data : bytes) : outcome (list string_item) :=
  for_each (finditer false StringExtractor_pattern data) []
    (fun strings mt =>
       s <- decode Ascii Ignore (group0 data mt) ;;
       Returns (strings ++ [mk_string_item (m_start mt) (length s) s])).

Definition StringExtractor_analyze (data : bytes) : outcome pyval :=
  strings <- StringExtractor_strings data ;;
  Returns (VDict [("total_strings", nat_py (length strings));
                  ("findings", VList (map string_item_py (firstn 500 strings)))]).

Definition StringExtractor : BaseAnalyzer :=
  mk_analyzer "字符串提取" StringExtractor_analyze.

(** ** CredentialHunter *)

(** The separator set followed by +: a double quote (byte 22 in hex),
    \s, a colon or an equals sign. *)
Definition separator (rest : regex) : regex :=
  Seq (plus (set [One x22; Space; One ":"; One "="])) rest.

(** ([^\s\x00]{n,}) *)
Definition captured_word (n : nat) : regex :=
  Group 1 (at_least n (set_not [Space; One x00])).

(** ([A-Za-z0-9_-]{n,}) *)
Definition captured_key (n : nat) : regex :=
  Group 1 (at_least n (set [Range "A" "Z"; Range "a" "z"; Range "0" "9";
                            One "_"; One "-"])).

(** ([A-Za-z0-9_.-]{n,}) *)
Definition captured_token (n : nat) : regex :=
  Group 1 (at_least n (set [Range "A" "Z"; Range "a" "z"; Range "0" "9";
                            One "_"; One "."; One "-"])).

(** The dictionary [patterns], in the order the source writes it. *)
Definition CredentialHunter_patterns : list (string * list regex) :=
  [ ("passwords",
      [ lits (b "password") (separator (captured_word 4));
        lits (b "passwd") (separator (captured_word 4));
        lits (b "pwd") (separator (captured_word 4)) ]);
    ("usernames",
      [ lits (b "username") (separator (captured_word 3));
        lits (b "user") (separator (captured_word 3));
        lits (b "login") (separator (captured_word 3)) ]);
    ("api_keys",
      [ lits (b "api") (Seq (opt (set [One "_"; One "-"]))
                          (lits (b "key") (separator (captured_key 16))));
        lits (b "apikey") (separator (captured_key 16)) ]);
    ("tokens",
      [ lits (b "token") (separator (captured_token 16));
        lits (b "auth") (separator (captured_token 16)) ]);
    ("secrets",
      [ lits (b "secret") (separator (captured_key 8)) ]);
    ("aws_keys",
      [ Group 1 (lits (b "AKIA")
                   (Repeat 16 (Some 16) (set [Range "0" "9"; Range "A" "Z"]))) ]);
    ("mongodb_uris",
      [ lits (b "mongodb://") (plus (set_not [Space; One x00]));
        lits (b "mongodb+srv://") (plus (set_not [Space; One x00])) ]) ].

(** {'offset': ..., 'value': ...} *)
Record cred_item := mk_cred_item {
  cred_offset : nat;
  cred_value : str
}.

Definition cred_item_py (it : cred_item) : pyval :=
  VDict [("offset", nat_py (cred_offset it)); ("value", VStr (cred_value it))].

(** match.group(1 if match.lastindex else 0) *)
Definition captured (data : bytes) (mt : match_object) : bytes :=
  match lastindex mt with
  | Some (S _) => group data 1 mt
  | _ => group0 data mt
  end.

(** The first loop of [CredentialHunter.analyze]: every match of every
    pattern of every category is appended to [findings[category]]. *)
Definition CredentialHunter_collect (data : bytes)
  : outcome (dict string (list cred_item)) :=
  for_each CredentialHunter_patterns []
    (fun findings entry =>
       let '(category, pattern_list) := entry in
       for_each pattern_list findings
         (fun findings pattern =>
            for_each (finditer true pattern data) findings
              (fun findings mt =>
                 v <- decode Utf8 Replace (captured data mt) ;;
                 Returns (defaultdict_update string_dec [] category
                            (fun l => l ++ [mk_cred_item (m_start mt) (firstn 200 v)])
                            findings)))).

(** The body of the second loop: [seen] and [unique]. *)
Definition unique_step (st : pyset * list cred_item) (item : cred_item)
  : pyset * list cred_item :=
  let '(seen, unique) := st in
  if set_contains (cred_value item) seen then (seen, unique)
  else (set_add (cred_value item) seen, unique ++ [item]).

Definition unique_items (items : list cred_item) : list cred_item :=
  snd (fold_left unique_step items ([], [])).

(** The second loop: [for category in findings: findings[category] = unique]. *)
Definition CredentialHunter_dedup (findings : dict string (list cred_item))
  : dict string (list cred_item) :=
  fold_left (fun fs category =>
               defaultdict_update string_dec [] category unique_items fs)
            (dict_keys findings) findings.

Definition CredentialHunter_findings (data : bytes)
  : outcome (dict string (list cred_item)) :=
  findings <- CredentialHunter_collect data ;;
  Returns (CredentialHunter_dedup findings).

Definition CredentialHunter_analyze (data : bytes) : outcome pyval :=
  findings <- CredentialHunter_findings data ;;
  Returns (VDict (map (fun entry => (fst entry, VList (map cred_item_py (snd entry))))
                      findings)).

Definition CredentialHunter : BaseAnalyzer :=
  mk_analyzer "凭证搜索" CredentialHunter_analyze.

(** ** JSONExtractor *)

(** rb'\{[^\x00]{10,500}\}' *)
Definition JSONExtractor_pattern : regex :=
  Seq (Lit "{") (Seq (from_to 10 500 (set_not [One x00])) (Lit "}")).

(** {'offset': ..., 'data': ...} *)
Record json_item := mk_json_item {
  json_offset : nat;
  json_data : pyval
}.

Definition json_item_py (it : json_item) : pyval :=
  VDict [("offset", nat_py (json_offset it)); ("data", json_data it)].

Section JSON.
(** [json.loads] belongs to the Python library: a function from a text to
    the parsed value, or an error. *)
Variable json_loads : str -> outcome pyval.

(** The body of the loop of [JSONExtractor.analyze], with its try/except. *)
Definition JSONExtractor_step (data : bytes) (findings : list json_item)
  (mt : match_object) : outcome (list json_item) :=
  try_except
    (json_str <- decode Utf8 Ignore (group0 data mt) ;;
     parsed <- json_loads json_str ;;
     Returns (findings ++ [mk_json_item (m_start mt) parsed]))
    (fun _ => Returns findings).

Definition JSONExtractor_findings (data : bytes) : outcome (list json_item) :=
  for_each (finditer false JSONExtractor_pattern data) []
           (JSONExtractor_step data).

Definition JSONExtractor_analyze (data : bytes) : outcome pyval :=
  findings <- JSONExtractor_findings data ;;
  Returns (VDict [("findings", VList (map json_item_py findings))]).

Definition JSONExtractor : BaseAnalyzer :=
  mk_analyzer "JSON数据提取" JSONExtractor_analyze.
End JSON.

(** ** BSONFieldAnalyzer *)

Definition field_head : list set_item :=
  [Range "a" "z"; Range "A" "Z"; One "_"].

Definition field_tail : list set_item :=
  [Range "a" "z"; Range "A" "Z"; Range "0" "9"; One "_"; One "."].

(** rb'([a-zA-Z_][a-zA-Z0-9_\.]{1,50})\x00' *)
Definition BSONFieldAnalyzer_pattern : regex :=
  Seq (Group 1 (Seq (set field_head) (from_to 1 50 (set field_tail))))
      (Lit x00).

(** {'offset': ..., 'name': ...} *)
Record field_item := mk_field_item {
  field_offset : nat;
  field_name : str
}.

Definition field_item_py (it : field_item) : pyval :=
  VDict [("offset", nat_py (field_offset it)); ("name", VStr (field_name it))].

(** The loop of [BSONFieldAnalyzer.analyze]: the list [field_names]. *)
Definition BSONFieldAnalyzer_field_names (data : bytes)
  : outcome (list field_item) :=
  for_each (finditer false BSONFieldAnalyzer_pattern data) []
    (fun field_names mt =>
       name <- decode Utf8 Ignore (group data 1 mt) ;;
       Returns (field_names ++ [mk_field_item (m_start mt) name])).

Definition count_py (entry : str * nat) : pyval :=
  VTuple [VStr (fst entry); nat_py (snd entry)].

Definition BSONFieldAnalyzer_analyze (data : bytes) : outcome pyval :=
  field_names <- BSONFieldAnalyzer_field_names data ;;
  let name_counts := Counter (map field_name field_names) in
  Returns (VDict [("total_fields", nat_py (length field_names));
                  ("unique_fields", nat_py (length name_counts));
                  ("top_fields", VList (map count_py (most_common 50 name_counts)));
                  ("all_fields", VList (map field_item_py (firstn 1000 field_names)))]).

Definition BSONFieldAnalyzer : BaseAnalyzer :=
  mk_analyzer "BSON字段分析" BSONFieldAnalyzer_analyze.

(** ** EmailExtractor *)

(** rb'[a-zA-Z0-9._%+-]+@[a-zA-Z0-9.-]+\.[a-zA-Z]{2,}' *)
Definition EmailExtractor_pattern : regex :=
  Seq (plus (set [Range "a" "z"; Range "A" "Z"; Range "0" "9";
                  One "."; One "_"; One "%"; One "+"; One "-"]))
      (Seq (Lit "@")
         (Seq (plus (set [Range "a" "z"; Range "A" "Z"; Range "0" "9";
                          One "."; One "-"]))
            (Seq (Lit ".")
               (at_least 2 (set [Range "a" "z"; Range "A" "Z"]))))).

(** The loop of [EmailExtractor.analyze]: the set [emails]. *)
Definition EmailExtractor_emails (data : bytes) : outcome pyset :=
  for_each (finditer false EmailExtractor_pattern data) []
    (fun emails mt =>
       email <- decode Utf8 Ignore (group0 data mt) ;;
       Returns (set_add email emails)).

Definition EmailExtractor_analyze (seed : hash_seed) (data : bytes)
  : outcome pyval :=
  emails <- EmailExtractor_emails data ;;
  Returns (VDict [("findings",
                   VList (map VStr (sorted_str (list_of_set seed emails))))]).

Definition EmailExtractor (seed : hash_seed) : BaseAnalyzer :=
  mk_analyzer "邮箱地址提取" (EmailExtractor_analyze seed).

(** ** IPAddressExtractor *)

Definition digit : regex := set [Range "0" "9"].

(** rb'\b(?:[0-9]{1,3}\.){3}[0-9]{1,3}\b' *)
Definition IPAddressExtractor_pattern : regex :=
  Seq Boundary
      (Seq (Repeat 3 (Some 3) (Seq (from_to 1 3 digit) (Lit ".")))
         (Seq (from_to 1 3 digit) Boundary)).

(** 0 <= int(p) <= 255 *)
Definition octet (p : str) : outcome bool :=
  n <- int p ;;
  Returns ((0 <=? n)%Z && (n <=? 255)%Z).

(** The body of the loop of [IPAddressExtractor.analyze]. *)
Definition IPAddressExtractor_step (data : bytes) (ips : pyset)
  (mt : match_object) : outcome pyset :=
  ip <- decode Utf8 Strict (group0 data mt) ;;
  let parts := split 46 ip in
  ok <- all_ octet parts ;;
  Returns (if ok then set_add ip ips else ips).

Definition IPAddressExtractor_ips (data : bytes) : outcome pyset :=
  for_each (finditer false IPAddressExtractor_pattern data) []
           (IPAddressExtractor_step data).

Definition IPAddressExtractor_analyze (seed : hash_seed) (data : bytes)
  : outcome pyval :=
  ips <- IPAddressExtractor_ips data ;;
  Returns (VDict [("findings",
                   VList (map VStr (sorted_str (list_of_set seed ips))))]).

Definition IPAddressExtractor (seed : hash_seed) : BaseAnalyzer :=
  mk_analyzer "IP地址提取" (IPAddressExtractor_analyze seed).

(** ** HexDumpAnalyzer *)

(** The loop over [range(0, len(data) - 4, 4)]: the dictionary [patterns]. *)
Definition HexDumpAnalyzer_patterns (data : bytes) : dict bytes nat :=
  fold_left
    (fun patterns i =>
       let chunk := slice data (Z.to_nat i) (Z.to_nat (i + 4)) in
       defaultdict_update bytes_eq_dec 0 chunk S patterns)
    (range 0 (Z.of_nat (length data) - 4) 4) [].

(** sorted(patterns.items(), key=lambda x: x[1], reverse=True)[:10] *)
Definition HexDumpAnalyzer_top_patterns (data : bytes) : list (bytes * nat) :=
  firstn 10 (sorted_reverse snd (HexDumpAnalyzer_patterns data)).

(** (part / total_size * 100) if total_size > 0 else 0 *)
Definition percentage (part total_size : nat) : outcome pyval :=
  if (0 <? total_size)%nat
  then q <- truediv part total_size ;;
       Returns (VFloat (PrimFloat.mul q (float_of_nat 100)))
  else Returns (VInt 0).

Definition pattern_py (entry : bytes * nat) : pyval :=
  VTuple [VStr (hex (fst entry)); nat_py (snd entry)].

Definition HexDumpAnalyzer_analyze (data : bytes) : outcome pyval :=
  let total_size := length data in
  let null_bytes := count_occ Byte.byte_eq_dec data x00 in
  let printable :=
    length (filter (fun x => between 32 126 (code x)) data) in
  let top_patterns := HexDumpAnalyzer_top_patterns data in
  null_percentage <- percentage null_bytes total_size ;;
  printable_percentage <- percentage printable total_size ;;
  Returns (VDict [("total_size", nat_py total_size);
                  ("null_bytes", nat_py null_bytes);
                  ("null_percentage", null_percentage);
                  ("printable_bytes", nat_py printable);
                  ("printable_percentage", printable_percentage);
                  ("top_patterns", VList (map pattern_py top_patterns))]).

Definition HexDumpAnalyzer : BaseAnalyzer :=
  mk_analyzer "内存布局分析" HexDumpAnalyzer_analyze.

(* ===================================================================== *)
(** * The aggregator: class HTMLReportGenerator                           *)
(* ===================================================================== *)

(** What [print] writes: the progress line of an analyzer and the line of
    its failure, with the text of the error. *)
Inductive printed :=
| Running (name : string)
| Failed (name : string) (message : str).

(** The object: the list [analyzers] and the dictionary [results]. *)
Record HTMLReportGenerator := mk_generator {
  analyzers : list BaseAnalyzer;
  results : dict string pyval
}.

(** __init__ *)
Definition new_generator : HTMLReportGenerator := mk_generator [] [].

Definition add_analyzer (self : HTMLReportGenerator) (analyzer : BaseAnalyzer)
  : HTMLReportGenerator :=
  mk_generator (analyzers self ++ [analyzer]) (results self).

(** {'error': str(e)} *)
Definition error_record (e : exn) : pyval := VDict [("error", VStr (exn_str e))].

(** The body of the loop of [analyze_all], on the dictionary [results] and
    the standard output. *)
Definition analyze_one (data : bytes) (st : dict string pyval * list printed)
  (analyzer : BaseAnalyzer) : dict string pyval * list printed :=
  let '(res, out) := st in
  let out := out ++ [Running (get_name analyzer)] in
  match analyze analyzer data with
  | Returns result => (dict_set string_dec (get_name analyzer) result res, out)
  | Raises e =>
      (dict_set string_dec (get_name analyzer) (error_record e) res,
       out ++ [Failed (get_name analyzer) (exn_str e)])
  end.

(** [analyze_all]: the object after the run, and what was printed. *)
Definition analyze_all (self : HTMLReportGenerator) (data : bytes)
  : HTMLReportGenerator * list printed :=
  let '(res, out) :=
    fold_left (analyze_one data) (analyzers self) (results self, []) in
  (mk_generator (analyzers self) res, out).

(** The list [analyzers] of [main], in its order. *)
Definition main_analyzers (json_loads : str -> outcome pyval)
  (seed : hash_seed) : list BaseAnalyzer :=
  [ HexDumpAnalyzer;
    CredentialHunter;
    BSONFieldAnalyzer;
    StringExtractor;
    JSONExtractor json_loads;
    EmailExtractor seed;
    IPAddressExtractor seed ].

(** [main] up to the reports: a new generator, the analyzers added in
    order, then [analyze_all]. *)
Definition register_all (l : list BaseAnalyzer) : HTMLReportGenerator :=
  fold_left add_analyzer l new_generator.

Definition run_pipeline (l : list BaseAnalyzer) (data : bytes)
  : HTMLReportGenerator * list printed :=
  analyze_all (register_all l) data.

(* ===================================================================== *)
(** * Definitions used to state the properties                            *)
(* ===================================================================== *)

(** ** The aggregator *)

(** What [analyze_all] stores for an analyzer: its result, or the record
    of its error. *)
Definition entry_of (analyzer : BaseAnalyzer) (data : bytes) : pyval :=
  match analyze analyzer data with
  | Returns result => result
  | Raises e => error_record e
  end.





(** A [json.loads] that rejects every text, for concrete runs. *)
Definition json_rejects (t : str) : outcome pyval :=
  Raises (ValueError "Expecting value").

(** A [json.loads] that returns the text it is given, to observe the text
    the Structured-Record Extractor parses. *)
Definition json_echo (t : str) : outcome pyval := Returns (VStr t).

(** ** Values *)




(** ** Decoding *)

(** The text a decode gives when it does not raise. *)
Definition decoded (enc : encoding) (errors : error_policy) (data : bytes)
  : str :=
  match decode enc errors data with
  | Returns t => t
  | Raises _ => []
  end.

(** The text of ASCII bytes: the bytes themselves. *)
Definition text (w : bytes) : str := map code w.

Definition is_ascii (x : byte) : bool := (code x <? 128)%N.

Definition is_digit_byte (x : byte) : bool := is_ascii_digit (code x).

(** The number of bytes a decoding step takes. *)
Definition step_width (st : decode_step) : nat :=
  match st with Char _ w => w | Bad _ w => w end.

(** ** Patterns *)

(** The bytes a pattern can take: the bytes one of its literals or sets
    accepts. *)
Fixpoint consumes (ignorecase : bool) (r : regex) (x : byte) : bool :=
  match r with
  | Lit c => lit_match ignorecase c x
  | In_ negate items => set_match ignorecase negate items x
  | Seq r1 r2 => consumes ignorecase r1 x || consumes ignorecase r2 x
  | Repeat _ _ r1 => consumes ignorecase r1 x
  | Group _ r1 => consumes ignorecase r1 x
  | Boundary => false
  end.

(** A pattern every match of which takes at least one byte. *)
Fixpoint takes_bytes (r : regex) : bool :=
  match r with
  | Lit _ => true
  | In_ _ _ => true
  | Seq r1 r2 => takes_bytes r1 || takes_bytes r2
  | Repeat lo _ r1 => (0 <? lo)%nat && takes_bytes r1
  | Group _ r1 => takes_bytes r1
  | Boundary => false
  end.

(** A pattern without a capturing group. *)
Fixpoint groupless (r : regex) : bool :=
  match r with
  | Lit _ | In_ _ _ | Boundary => true
  | Seq r1 r2 => groupless r1 && groupless r2
  | Repeat _ _ r1 => groupless r1
  | Group _ _ => false
  end.

(** The continuation [k], called only on positions from [i] to the end of
    the buffer. *)
Definition inside {X} (data : bytes) (i : nat)
  (k : nat -> captures -> option X) : nat -> captures -> option X :=
  fun j c => if (i <=? j)%nat && (j <=? length data)%nat then k j c else None.

(** ** What the analyzers make of a match *)

Definition string_item_of (data : bytes) (mt : match_object) : string_item :=
  mk_string_item (m_start mt) (length (group0 data mt)) (text (group0 data mt)).

Definition field_item_of (data : bytes) (mt : match_object) : field_item :=
  mk_field_item (m_start mt) (text (group data 1 mt)).

(** The Structured-Record Extractor: an item when the candidate parses,
    nothing when it does not. *)
Definition json_items_of (json_loads : str -> outcome pyval) (data : bytes)
  (mt : match_object) : list json_item :=
  match json_loads (decoded Utf8 Ignore (group0 data mt)) with
  | Returns parsed => [mk_json_item (m_start mt) parsed]
  | Raises _ => []
  end.

(** The check of the IP Address Extractor on a candidate, as a boolean:
    every part between dots is a number in [0, 255]. *)
Definition octet_ok (p : str) : bool :=
  match int p with
  | Returns n => (0 <=? n)%Z && (n <=? 255)%Z
  | Raises _ => false
  end.

Definition ip_valid (ip : str) : bool := forallb octet_ok (split 46 ip).

(** ** The Credential Hunter *)

Definition cred_item_of (data : bytes) (mt : match_object) : cred_item :=
  mk_cred_item (m_start mt)
               (firstn 200 (decoded Utf8 Replace (captured data mt))).

(** The matches of a category: each pattern run to completion, in the order
    the patterns are declared. *)
Definition category_items (data : bytes) (pattern_list : list regex)
  : list cred_item :=
  flat_map (fun pattern => map (cred_item_of data) (finditer true pattern data))
           pattern_list.

(** Exact-value deduplication that keeps the first item seen with each
    value. *)
Fixpoint first_seen (l : list cred_item) : list cred_item :=
  match l with
  | [] => []
  | x :: l' =>
      x :: filter (fun y => if str_eq_dec (cred_value y) (cred_value x)
                            then false else true)
                  (first_seen l')
  end.

(** [findings.get(category, [])] *)
Definition stored_items (category : string)
  (findings : dict string (list cred_item)) : list cred_item :=
  match dict_get string_dec category findings with
  | Some items => items
  | None => []
  end.

Definition has_items {A B} (e : A * list B) : bool :=
  match snd e with [] => false | _ :: _ => true end.

(** The dictionary the first loop of the Credential Hunter builds: the
    categories that have a match, in the order of [patterns], each with all
    its matches. *)
Definition collected (data : bytes) : dict string (list cred_item) :=
  filter has_items
         (map (fun e => (fst e, category_items data (snd e)))
              CredentialHunter_patterns).

(** The items whose value is not in the set [seen]. *)
Definition unseen (seen : pyset) (y : cred_item) : bool :=
  negb (set_contains (cred_value y) seen).

(** ** The layout statistics *)

(** The chunks the statistics are specified on: the non-overlapping
    four-byte chunks of the whole buffer, at stride 4. *)
Definition aligned_chunks (data : bytes) : list bytes :=
  map (fun k => slice data (4 * k) (4 * k + 4)) (seq 0 (length data / 4)).

(** Counting chunks in the order they are first met. *)
Definition count_chunks (chunks : list bytes) : dict bytes nat :=
  fold_left (fun patterns chunk =>
               defaultdict_update bytes_eq_dec 0 chunk S patterns) chunks [].

(** The ten most frequent aligned chunks of the whole buffer. *)
Definition top_patterns_spec (data : bytes) : list (bytes * nat) :=
  firstn 10 (sorted_reverse snd (count_chunks (aligned_chunks data))).

(** ** Field names *)

(** The bytes of a field name: the first byte, and the others. *)
Definition field_head_byte (x : byte) : bool := set_match false false field_head x.

Definition field_byte (x : byte) : bool := set_match false false field_tail x.



(** ** Records with an invalid byte *)



(* ===================================================================== *)
(** * Definitions used to state further properties                        *)
(* ===================================================================== *)

(** ** Counting and ranking *)

(** The loop [for x in l: d[x] += 1] on a dictionary whose missing entries
    count as 0: what [Counter] and the loop of the Layout Analyzer do. *)
Definition tally {K} (dec : forall x y : K, {x = y} + {x <> y})
  (l : list K) (d : dict K nat) : dict K nat :=
  fold_left (fun d x => defaultdict_update dec 0 x S d) l d.

(** [x] may stand before [y] in a ranking: the key of [y] is not larger. *)
Definition not_below {A} (key : A -> nat) (x y : A) : Prop := key y <= key x.

(** The chunks the loop of the Layout Analyzer visits: those that begin at
    0, 4, 8, ... and end before the last byte of the buffer. *)
Definition visited_chunks (data : bytes) : list bytes :=
  map (fun k => slice data (4 * k) (4 * k + 4)) (seq 0 ((length data - 1) / 4)).

(** A byte the Layout Analyzer counts as printable. *)
Definition printable_byte (x : byte) : bool := between 32 126 (code x).

(** ** Matches in scanning order *)

(** [m1] is reported before [m2]: it begins before it and ends where, or
    before, [m2] begins. *)
Definition before (m1 m2 : match_object) : Prop :=
  m_start m1 < m_start m2 /\ m_end m1 <= m_start m2.

(** The number of bytes at the head of [l] that satisfy [p]. *)
Fixpoint run_length (p : byte -> bool) (l : bytes) : nat :=
  match l with
  | [] => 0
  | x :: l' => if p x then S (run_length p l') else 0
  end.

(** The buffer holds at position [i] a maximal run of [n] bytes that
    satisfy [p]: the byte before it, if there is one, and the byte after
    it, if there is one, do not. *)
Definition maximal_run (p : byte -> bool) (data : bytes) (i n : nat) : Prop :=
  i + n <= length data
  /\ Forall (fun x => p x = true) (slice data i (i + n))
  /\ (i = 0 \/ exists y, nth_error data (i - 1) = Some y /\ p y = false)
  /\ match nth_error data (i + n) with
     | Some y => p y = false
     | None => True
     end.

(** ** Candidates *)

(** The buffer holds at position [i] the bytes [w] of a candidate record:
    an opening brace, 10 to 500 bytes none of which is null, a closing
    brace. *)
Definition record_candidate (data : bytes) (i : nat) (w : bytes) : Prop :=
  slice data i (i + length w) = w
  /\ 12 <= length w <= 502
  /\ exists body, w = "{"%byte :: body ++ ["}"%byte] /\ ~ In x00 body.

(** The bytes of an e-mail address: of the part before the at sign, of the
    domain, and of its last label. *)
Definition email_local_byte (x : byte) : bool :=
  is_lower (code x) || is_upper (code x) || between 48 57 (code x)
  || existsb (N.eqb (code x)) [46; 95; 37; 43; 45]%N.

Definition email_domain_byte (x : byte) : bool :=
  is_lower (code x) || is_upper (code x) || between 48 57 (code x)
  || existsb (N.eqb (code x)) [46; 45]%N.

Definition letter_byte (x : byte) : bool :=
  is_lower (code x) || is_upper (code x).

(** The bytes [w] read as an address: a part before the at sign, a domain,
    a dot and a last label of at least two letters. *)
Definition email_shape (w : bytes) : Prop :=
  exists local domain label,
    w = local ++ "@"%byte :: domain ++ "."%byte :: label
    /\ local <> [] /\ Forall (fun x => email_local_byte x = true) local
    /\ domain <> [] /\ Forall (fun x => email_domain_byte x = true) domain
    /\ 2 <= length label /\ Forall (fun x => letter_byte x = true) label.

(** A part of a dotted quad: one to three ASCII digits that spell a number
    from 0 to 255. *)
Definition octet_text (p : str) : Prop :=
  1 <= length p <= 3
  /\ forallb is_ascii_digit p = true
  /\ exists n, int p = Returns n /\ (0 <= n <= 255)%Z.

(** Four such parts with dots (code point 46) between them. *)
Definition dotted_quad (t : str) : Prop :=
  exists p1 p2 p3 p4,
    t = p1 ++ 46%N :: p2 ++ 46%N :: p3 ++ 46%N :: p4
    /\ Forall octet_text [p1; p2; p3; p4].

(** No word byte (a letter, a digit or an underscore) stands just before
    position [i], and none stands at position [j]. *)
Definition word_bounded (data : bytes) (i j : nat) : Prop :=
  (i = 0 \/ exists y, nth_error data (i - 1) = Some y /\ is_word (code y) = false)
  /\ match nth_error data j with
     | Some y => is_word (code y) = false
     | None => True
     end.

(** ** Captured groups *)

(** A pattern that ends with group 1, with no group before it or inside
    it: every match closes group 1 last, at the end of the match. *)
Fixpoint final_group (r : regex) : bool :=
  match r with
  | Group 1 r1 => groupless r1
  | Seq r1 r2 => groupless r1 && final_group r2
  | _ => false
  end.

(** The pattern inside that group. *)
Fixpoint final_body (r : regex) : regex :=
  match r with
  | Group _ r1 => r1
  | Seq _ r2 => final_body r2
  | _ => r
  end.

(** A code point that is no ASCII white space and not null. *)
Definition token_char (c : N) : bool := negb (is_space c) && negb (c =? 0)%N.

(** The categories for which the buffer has a match, in the order of the
    dictionary [patterns]. *)
Definition matched_categories (data : bytes) : list string :=
  map fst (filter (fun e => match category_items data (snd e) with
                            | [] => false
                            | _ :: _ => true
                            end)
                  CredentialHunter_patterns).

(** ** Short buffers *)

(** The least number of bytes a match of a pattern takes. *)
Fixpoint min_width (r : regex) : nat :=
  match r with
  | Lit _ | In_ _ _ => 1
  | Seq r1 r2 => min_width r1 + min_width r2
  | Repeat lo _ r1 => lo * min_width r1
  | Group _ r1 => min_width r1
  | Boundary => 0
  end.

(** ** Running the analyzers again *)

(** The keys of a dictionary after the assignments [d[n] = ...] for the
    names [ns], in this order: a name that is no key yet goes last. *)
Definition keys_after {K} (dec : forall x y : K, {x = y} + {x <> y})
  (ns : list K) (ks : list K) : list K :=
  fold_left (fun ks n => if in_dec dec n ks then ks else ks ++ [n]) ns ks.

(* ===================================================================== *)
(** * Python objects in the rendering layer                               *)
(* ===================================================================== *)

(** The formatting methods receive the result of an analyzer as a plain
    Python object and take it apart with [get], subscripts, slices, loops,
    [len] and format specifications.  These operations are modelled on the
    dynamic values [pyval], with the error each raises on an object of
    another type (classes and messages as CPython 3.11 words them). *)

Module PyObj.

(** The line feed. *)
Definition nl : str := [10%N].

(** A str literal with characters outside ASCII, written as a Rocq string:
    its bytes are the UTF-8 encoding of the text. *)
Definition u (lit : string) : str :=
  match decode Utf8 Strict (b lit) with
  | Returns t => t
  | Raises _ => []
  end.

(** [str(z)] for an integer: its decimal digits, with a minus sign. *)
Definition str_of_Z (z : Z) : str := s (NilZero.string_of_int (Z.to_int z)).

Definition str_of_nat (n : nat) : str := str_of_Z (Z.of_nat n).

(** [type(v).__name__] *)
Definition type_name (v : pyval) : string :=
  match v with
  | VNone => "NoneType"
  | VInt _ => "int"
  | VFloat _ => "float"
  | VStr _ => "str"
  | VList _ => "list"
  | VTuple _ => "tuple"
  | VDict _ => "dict"
  end.

Definition TypeError (msg : string) : exn := mk_exn "TypeError" (s msg).

Definition AttributeError (v : pyval) (attribute : string) : exn :=
  mk_exn "AttributeError"
         (s ("'" ++ type_name v ++ "' object has no attribute '" ++ attribute ++ "'")%string).

(** [KeyError(key)]: [str(e)] is the key between quotes. *)
Definition KeyError (key : string) : exn :=
  mk_exn "KeyError" (s ("'" ++ key ++ "'")%string).

Definition not_subscriptable (v : pyval) : exn :=
  TypeError ("'" ++ type_name v ++ "' object is not subscriptable")%string.

(** [bool(v)], the truth value that [not v] and [if v] test. *)
Definition truthy (v : pyval) : bool :=
  match v with
  | VNone => false
  | VInt z => negb (z =? 0)%Z
  | VFloat f => negb (PrimFloat.eqb f PrimFloat.zero)
  | VStr t => match t with [] => false | _ :: _ => true end
  | VList l | VTuple l => match l with [] => false | _ :: _ => true end
  | VDict d => match d with [] => false | _ :: _ => true end
  end.

(** [v.get(key, default)]; [v.get(key)] is [v.get(key, None)]. *)
Definition get (v : pyval) (key : string) (default : pyval) : outcome pyval :=
  match v with
  | VDict d =>
      Returns (match dict_get string_dec key d with
               | Some x => x
               | None => default
               end)
  | _ => Raises (AttributeError v "get")
  end.

(** [v[key]] for a key that is a str. *)
Definition getitem (v : pyval) (key : string) : outcome pyval :=
  match v with
  | VDict d =>
      match dict_get string_dec key d with
      | Some x => Returns x
      | None => Raises (KeyError key)
      end
  | VStr _ => Raises (TypeError "string indices must be integers, not 'str'")
  | VList _ =>
      Raises (TypeError "list indices must be integers or slices, not str")
  | VTuple _ =>
      Raises (TypeError "tuple indices must be integers or slices, not str")
  | _ => Raises (not_subscriptable v)
  end.

(** [v[:n]] *)
Definition slice_to (v : pyval) (n : nat) : outcome pyval :=
  match v with
  | VList l => Returns (VList (firstn n l))
  | VTuple l => Returns (VTuple (firstn n l))
  | VStr t => Returns (VStr (firstn n t))
  | VDict _ => Raises (TypeError "unhashable type: 'slice'")
  | _ => Raises (not_subscriptable v)
  end.

(** The key of a dictionary as a str. *)
Definition key_str (k : string) : str := u k.

(** [for x in v]: the objects the loop visits, in order. *)
Definition iterate (v : pyval) : outcome (list pyval) :=
  match v with
  | VList l | VTuple l => Returns l
  | VStr t => Returns (map (fun c => VStr [c]) t)
  | VDict d => Returns (map (fun e => VStr (key_str (fst e))) d)
  | _ => Raises (TypeError ("'" ++ type_name v ++ "' object is not iterable")%string)
  end.

(** [v.items()] *)
Definition items (v : pyval) : outcome (list (string * pyval)) :=
  match v with
  | VDict d => Returns d
  | _ => Raises (AttributeError v "items")
  end.

(** [len(v)] *)
Definition len (v : pyval) : outcome nat :=
  match v with
  | VList l | VTuple l => Returns (length l)
  | VStr t => Returns (length t)
  | VDict d => Returns (length d)
  | _ => Raises (TypeError ("object of type '" ++ type_name v ++ "' has no len()")%string)
  end.

(** [needle in t] on str: [needle] occurs in [t]. *)
Fixpoint starts_with (needle t : str) : bool :=
  match needle, t with
  | [], _ => true
  | _ :: _, [] => false
  | a :: needle', c :: t' => (a =? c)%N && starts_with needle' t'
  end.

Fixpoint occurs_in (needle t : str) : bool :=
  starts_with needle t
  || match t with
     | [] => false
     | _ :: t' => occurs_in needle t'
     end.

(** [key in v] for a key that is a str: a key of a dictionary, an element
    of a list or of a tuple, a part of a str. *)
Definition contains (key : string) (v : pyval) : outcome bool :=
  match v with
  | VDict d =>
      Returns (match dict_get string_dec key d with
               | Some _ => true
               | None => false
               end)
  | VList l | VTuple l =>
      Returns (existsb (fun x => match x with
                                 | VStr t => if str_eq_dec t (key_str key)
                                             then true else false
                                 | _ => false
                                 end) l)
  | VStr t => Returns (occurs_in (key_str key) t)
  | _ => Raises (TypeError ("argument of type '" ++ type_name v
                             ++ "' is not iterable")%string)
  end.

(** [a, c = v], as in [for a, c in ...]: [v] must yield two objects. *)
Definition unpack_pair (v : pyval) : outcome (pyval * pyval) :=
  match v with
  | VNone | VInt _ | VFloat _ =>
      Raises (TypeError ("cannot unpack non-iterable " ++ type_name v
                         ++ " object")%string)
  | _ =>
      vs <- iterate v ;;
      match vs with
      | [a; c] => Returns (a, c)
      | [] =>
          Raises (ValueError "not enough values to unpack (expected 2, got 0)")
      | [_] =>
          Raises (ValueError "not enough values to unpack (expected 2, got 1)")
      | _ => Raises (ValueError "too many values to unpack (expected 2)")
      end
  end.

(** [t.upper()] on ASCII letters, which is what the keys of the results
    are made of; other characters have their own rules in Unicode. *)
Definition str_upper (t : str) : str :=
  map (fun c => if ((97 <=? c) && (c <=? 122))%N then (c - 32)%N else c) t.

(** [text * n] *)
Fixpoint repeat_str (t : str) (n : nat) : str :=
  match n with
  | O => []
  | S n' => t ++ repeat_str t n'
  end.

(** ** Format specifications *)

(** [{z:Nd}] and [{z:0Nd}]: the decimal digits in a field of [width]
    characters: after blanks, or with zeros between the sign and the
    digits. *)
Definition pad_int (width : nat) (zero : bool) (z : Z) : str :=
  let digits := str_of_Z (Z.abs z) in
  let sign := if (z <? 0)%Z then [45%N] else [] in
  let fill := width - length sign - length digits in
  if zero then sign ++ repeat 48%N fill ++ digits
  else repeat 32%N fill ++ sign ++ digits.

Definition unsupported_format (v : pyval) : exn :=
  TypeError ("unsupported format string passed to " ++ type_name v
             ++ ".__format__")%string.

Definition format_d (width : nat) (zero : bool) (v : pyval) : outcome str :=
  match v with
  | VInt z => Returns (pad_int width zero z)
  | VFloat _ =>
      Raises (ValueError "Unknown format code 'd' for object of type 'float'")
  | VStr _ =>
      Raises (ValueError "Unknown format code 'd' for object of type 'str'")
  | _ => Raises (unsupported_format v)
  end.

(** The quotient of [num] by [den], rounded to the nearest integer, a tie
    to the even one. *)
Definition round_half_even (num den : Z) : Z :=
  let q := (num / den)%Z in
  let r2 := (2 * (num mod den))%Z in
  if (r2 <? den)%Z then q
  else if (den <? r2)%Z then (q + 1)%Z
  else if Z.even q then q else (q + 1)%Z.

(** The integer nearest to [m * 2^e * 10^prec]. *)
Definition scaled (prec : nat) (m : positive) (e : Z) : Z :=
  let p10 := (10 ^ Z.of_nat prec)%Z in
  if (0 <=? e)%Z then (Z.pos m * 2 ^ e * p10)%Z
  else round_half_even (Z.pos m * p10) (2 ^ (- e)).

(** The digits of [n] with a point before the last [prec] of them. *)
Definition fixed_point (prec : nat) (negative : bool) (n : Z) : str :=
  let digits := str_of_Z n in
  let padded := repeat 48%N (S prec - length digits) ++ digits in
  let cut := length padded - prec in
  (if negative then [45%N] else [])
  ++ firstn cut padded
  ++ (if Nat.eqb prec 0 then [] else 46%N :: skipn cut padded).

(** [{x:.Nf}] for a float: its exact value rounded to [prec] decimals. *)
Definition format_spec_float (prec : nat) (x : spec_float) : str :=
  match x with
  | S754_zero negative => fixed_point prec negative 0
  | S754_infinity negative => if negative then s "-inf" else s "inf"
  | S754_nan => s "nan"
  | S754_finite negative m e => fixed_point prec negative (scaled prec m e)
  end.

(** An integer is converted to the nearest float first. *)
Definition format_f (prec : nat) (v : pyval) : outcome str :=
  match v with
  | VFloat f => Returns (format_spec_float prec (Prim2SF f))
  | VInt z =>
      match binary_normalize 53 1024 z 0 false with
      | S754_infinity _ =>
          Raises (mk_exn "OverflowError" (s "int too large to convert to float"))
      | x => Returns (format_spec_float prec x)
      end
  | VStr _ =>
      Raises (ValueError "Unknown format code 'f' for object of type 'str'")
  | _ => Raises (unsupported_format v)
  end.

(** ** html.escape *)

(** [t.replace(old, new)] for an [old] of one character. *)
Definition replace_char (old : N) (new : str) (t : str) : str :=
  flat_map (fun c => if (c =? old)%N then new else [c]) t.

(** [html.escape(t)], with its default [quote=True]: the ampersand first,
    then the angle brackets, the double quote (code point 34) and the
    single quote. *)
Definition escape (t : str) : str :=
  let t := replace_char 38 (s "&amp;") t in
  let t := replace_char 60 (s "&lt;") t in
  let t := replace_char 62 (s "&gt;") t in
  let t := replace_char 34 (s "&quot;") t in
  replace_char 39 (s "&#x27;") t.

Definition html_escape (v : pyval) : outcome str :=
  match v with
  | VStr t => Returns (escape t)
  | _ => Raises (AttributeError v "replace")
  end.

End PyObj.

(* ===================================================================== *)
(** * The text report: the methods [format_result]                        *)
(* ===================================================================== *)

Import PyObj.

Section Rendering.
(** [json.dumps(v, indent=2, ensure_ascii=False)] belongs to the Python
    library, as does [str(v)] for a float, a list, a tuple or a
    dictionary. *)
Variable json_dumps : pyval -> outcome str.
Variable str_of_object : pyval -> str.

(** [f"{v}"]: [str(v)]. *)
Definition format_value (v : pyval) : str :=
  match v with
  | VStr t => t
  | VInt z => str_of_Z z
  | VNone => s "None"
  | _ => str_of_object v
  end.

(** BaseAnalyzer.format_result *)
Definition BaseAnalyzer_format_result (result : pyval) : outcome str :=
  nothing <- (if negb (truthy result) then Returns true
              else findings <- get result "findings" VNone ;;
                   Returns (negb (truthy findings))) ;;
  if nothing then Returns (u "未发现相关数据" ++ nl)
  else json_dumps result.

(** StringExtractor.format_result *)
Definition StringExtractor_format_result (result : pyval) : outcome str :=
  findings <- get result "findings" VNone ;;
  if negb (truthy findings) then Returns (u "未发现字符串" ++ nl)
  else
    total <- getitem result "total_strings" ;;
    let output := u "找到 " ++ format_value total
                  ++ u " 个字符串（显示前500个）:" ++ nl ++ nl in
    findings <- getitem result "findings" ;;
    shown <- slice_to findings 100 ;;
    shown <- iterate shown ;;
    for_each shown output
      (fun output item =>
         offset <- getitem item "offset" ;;
         offset <- format_d 6 false offset ;;
         content <- getitem item "content" ;;
         Returns (output ++ u "[偏移: " ++ offset ++ s "] "
                  ++ format_value content ++ nl)).

(** CredentialHunter.format_result *)
Definition CredentialHunter_format_result (result : pyval) : outcome str :=
  if negb (truthy result) then Returns (u "未发现凭证信息" ++ nl)
  else
    entries <- items result ;;
    for_each entries []
      (fun output entry =>
         let '(category, found) := entry in
         if truthy found then
           let output := output ++ nl ++ str_upper (key_str category) ++ s ":" ++ nl in
           let output := output ++ repeat_str (s "-") 60 ++ nl in
           shown <- slice_to found 20 ;;
           shown <- iterate shown ;;
           for_each shown output
             (fun output item =>
                offset <- getitem item "offset" ;;
                offset <- format_d 6 false offset ;;
                value <- getitem item "value" ;;
                Returns (output ++ u "  偏移 " ++ offset ++ s ": "
                         ++ format_value value ++ nl))
         else Returns output).

(** JSONExtractor.format_result *)
Definition JSONExtractor_format_result (result : pyval) : outcome str :=
  findings <- get result "findings" VNone ;;
  if negb (truthy findings) then Returns (u "未发现有效JSON数据" ++ nl)
  else
    findings <- getitem result "findings" ;;
    count <- len findings ;;
    let output := u "找到 " ++ str_of_nat count ++ u " 个JSON对象:" ++ nl ++ nl in
    findings <- getitem result "findings" ;;
    shown <- slice_to findings 50 ;;
    shown <- iterate shown ;;
    for_each shown output
      (fun output item =>
         offset <- getitem item "offset" ;;
         offset <- format_d 6 false offset ;;
         let output := output ++ u "偏移 " ++ offset ++ s ":" ++ nl in
         data <- getitem item "data" ;;
         dumped <- json_dumps data ;;
         Returns (output ++ dumped ++ nl ++ nl)).

(** BSONFieldAnalyzer.format_result *)
Definition BSONFieldAnalyzer_format_result (result : pyval) : outcome str :=
  total <- get result "total_fields" VNone ;;
  if negb (truthy total) then Returns (u "未发现BSON字段" ++ nl)
  else
    total <- getitem result "total_fields" ;;
    unique <- getitem result "unique_fields" ;;
    let output := u "找到 " ++ format_value total ++ u " 个字段名（"
                  ++ format_value unique ++ u " 个唯一）:" ++ nl ++ nl in
    let output := output ++ u "出现频率最高的字段:" ++ nl in
    top <- getitem result "top_fields" ;;
    top <- iterate top ;;
    for_each top output
      (fun output entry =>
         pair <- unpack_pair entry ;;
         let '(name, count) := pair in
         count <- format_d 4 false count ;;
         Returns (output ++ s "  " ++ count ++ s "x  " ++ format_value name ++ nl)).

(** EmailExtractor.format_result and IPAddressExtractor.format_result, which
    differ in their two texts. *)
Definition listing_format_result (nothing found : str) (result : pyval)
  : outcome str :=
  findings <- get result "findings" VNone ;;
  if negb (truthy findings) then Returns (nothing ++ nl)
  else
    findings <- getitem result "findings" ;;
    count <- len findings ;;
    let output := u "找到 " ++ str_of_nat count ++ found ++ nl in
    findings <- getitem result "findings" ;;
    findings <- iterate findings ;;
    for_each findings output
      (fun output item => Returns (output ++ s "  " ++ format_value item ++ nl)).

Definition EmailExtractor_format_result : pyval -> outcome str :=
  listing_format_result (u "未发现邮箱地址") (u " 个邮箱地址:").

Definition IPAddressExtractor_format_result : pyval -> outcome str :=
  listing_format_result (u "未发现IP地址") (u " 个IP地址:").

(** HexDumpAnalyzer.format_result *)
Definition HexDumpAnalyzer_format_result (result : pyval) : outcome str :=
  let output := u "内存布局统计:" ++ nl in
  total <- getitem result "total_size" ;;
  let output := output ++ u "  总大小: " ++ format_value total ++ u " 字节" ++ nl in
  nulls <- getitem result "null_bytes" ;;
  percentage <- getitem result "null_percentage" ;;
  percentage <- format_f 2 percentage ;;
  let output := output ++ u "  空字节: " ++ format_value nulls ++ s " ("
                ++ percentage ++ s "%)" ++ nl in
  printable <- getitem result "printable_bytes" ;;
  percentage <- getitem result "printable_percentage" ;;
  percentage <- format_f 2 percentage ;;
  let output := output ++ u "  可打印字符: " ++ format_value printable ++ s " ("
                ++ percentage ++ s "%)" ++ nl ++ nl in
  let output := output ++ u "最常见的4字节模式:" ++ nl in
  top <- getitem result "top_patterns" ;;
  top <- iterate top ;;
  for_each top output
    (fun output entry =>
       pair <- unpack_pair entry ;;
       let '(pattern, count) := pair in
       Returns (output ++ s "  " ++ format_value pattern ++ s ": "
                ++ format_value count ++ u "次" ++ nl)).

(** An analyzer with its [format_result]: the objects of the list
    [analyzers] of [main]. *)
Record Reporter := mk_reporter {
  analyzer : BaseAnalyzer;
  format_result : pyval -> outcome str
}.

Definition main_reporters (json_loads : str -> outcome pyval)
  (seed : hash_seed) : list Reporter :=
  [ mk_reporter HexDumpAnalyzer HexDumpAnalyzer_format_result;
    mk_reporter CredentialHunter CredentialHunter_format_result;
    mk_reporter BSONFieldAnalyzer BSONFieldAnalyzer_format_result;
    mk_reporter StringExtractor StringExtractor_format_result;
    mk_reporter (JSONExtractor json_loads) JSONExtractor_format_result;
    mk_reporter (EmailExtractor seed) EmailExtractor_format_result;
    mk_reporter (IPAddressExtractor seed) IPAddressExtractor_format_result ].

End Rendering.

(** ** The rows of the text report *)

(** The row of a string item. *)
Definition string_line (it : string_item) : str :=
  u "[偏移: " ++ pad_int 6 false (Z.of_nat (string_offset it)) ++ s "] "
  ++ string_content it ++ nl.

(** The row of a credential, and the block of a category: a blank line,
    the category in upper case, a rule of 60 dashes and the rows of the
    first 20 credentials. *)
Definition cred_line (it : cred_item) : str :=
  u "  偏移 " ++ pad_int 6 false (Z.of_nat (cred_offset it)) ++ s ": "
  ++ cred_value it ++ nl.

Definition cred_block (entry : string * list cred_item) : str :=
  match snd entry with
  | [] => []
  | _ :: _ =>
      nl ++ str_upper (key_str (fst entry)) ++ s ":" ++ nl
      ++ repeat_str (s "-") 60 ++ nl
      ++ flat_map cred_line (firstn 20 (snd entry))
  end.

(** The row of a field name with its count, of a listed text, and of a
    chunk with its count. *)
Definition field_line (entry : str * nat) : str :=
  s "  " ++ pad_int 4 false (Z.of_nat (snd entry)) ++ s "x  " ++ fst entry ++ nl.

Definition listing_line (t : str) : str := s "  " ++ t ++ nl.

Definition pattern_line (entry : bytes * nat) : str :=
  s "  " ++ hex (fst entry) ++ s ": " ++ str_of_nat (snd entry) ++ u "次" ++ nl.

(** What a call returns, or the empty text when it raises. *)
Definition text_of (c : outcome str) : str :=
  match c with
  | Returns t => t
  | Raises _ => []
  end.

(** The block of a parsed record: its offset, then its data as
    [json_dumps] writes them. *)
Definition record_block (json_dumps : pyval -> outcome str) (it : json_item)
  : str :=
  u "偏移 " ++ pad_int 6 false (Z.of_nat (json_offset it)) ++ s ":" ++ nl
  ++ text_of (json_dumps (json_data it)) ++ nl ++ nl.

(** The lines of a text: what stands between its line feeds. *)
Definition lines (t : str) : list str := split 10 t.

(** The rows without their line feed. *)
Definition string_row (it : string_item) : str :=
  u "[偏移: " ++ pad_int 6 false (Z.of_nat (string_offset it)) ++ s "] "
  ++ string_content it.

Definition cred_row (it : cred_item) : str :=
  u "  偏移 " ++ pad_int 6 false (Z.of_nat (cred_offset it)) ++ s ": "
  ++ cred_value it.

(** The lines of the block of a category. *)
Definition cred_block_lines (entry : string * list cred_item) : list str :=
  [] :: (str_upper (key_str (fst entry)) ++ s ":") :: repeat_str (s "-") 60
     :: map cred_row (firstn 20 (snd entry)).

(** The text [format_result] makes of what [analyze] returns on a buffer. *)
Definition report (analyze : bytes -> outcome pyval)
  (format_result : pyval -> outcome str) (data : bytes) : outcome str :=
  result <- analyze data ;; format_result result.

(** A [json.dumps] that writes every value as the same text, for concrete
    runs. *)
Definition json_blank (v : pyval) : outcome str := Returns (s "null").

(** A [str] for the other objects, for concrete runs. *)
Definition str_blank (v : pyval) : str := [].

(** The characters of an integer: digits, after a minus sign; and those of
    a formatted number: also a point, a blank, and the letters of [inf] and
    [nan]. *)
Definition digit_or_minus (c : N) : bool := (c =? 45)%N || is_ascii_digit c.

Definition number_char (c : N) : bool :=
  digit_or_minus c || (c =? 46)%N || (c =? 32)%N
  || existsb (N.eqb c) [97; 102; 105; 110]%N.

(* ===================================================================== *)
(** * The HTML report                                                     *)
(* ===================================================================== *)

(** A str literal of the source that holds double quotes: in the Rocq
    string a backquote stands for each double quote (the source has no
    backquote). *)
Definition h (lit : string) : str :=
  map (fun c => if (c =? 96)%N then 34%N else c) (u lit).

(** The three literal parts of the page in [generate_html]: from the
    document type to the opening of the navigation bar, from the end of the
    navigation bar to the opening of the content, and from the end of the
    content to the end of the document. *)
Definition page_head : str :=
  h "<!DOCTYPE html>
<html lang=`zh-CN`>
<head>
    <meta charset=`UTF-8`>
    <meta name=`viewport` content=`width=device-width, initial-scale=1.0`>
    <title>MongoDB Memory Leak Analysis Report</title>
    <style>
        body {
            font-family: 'Segoe UI', Tahoma, Geneva, Verdana, sans-serif;
            margin: 0;
            padding: 20px;
            background: linear-gradient(135deg, #667eea 0%, #764ba2 100%);
            color: #333;
        }
        .container {
            max-width: 1400px;
            margin: 0 auto;
            background: white;
            border-radius: 10px;
            box-shadow: 0 10px 40px rgba(0,0,0,0.2);
            overflow: hidden;
        }
        .header {
            background: linear-gradient(135deg, #667eea 0%, #764ba2 100%);
            color: white;
            padding: 30px;
            text-align: center;
        }
        .header h1 {
            margin: 0;
            font-size: 2.5em;
            text-shadow: 2px 2px 4px rgba(0,0,0,0.2);
        }
        .header p {
            margin: 10px 0 0 0;
            opacity: 0.9;
        }
        .nav {
            background: #f8f9fa;
            padding: 15px 30px;
            border-bottom: 2px solid #e9ecef;
            overflow-x: auto;
            white-space: nowrap;
        }
        .nav button {
            background: white;
            border: 2px solid #667eea;
            color: #667eea;
            padding: 10px 20px;
            margin-right: 10px;
            border-radius: 5px;
            cursor: pointer;
            font-weight: bold;
            transition: all 0.3s;
        }
        .nav button:hover {
            background: #667eea;
            color: white;
            transform: translateY(-2px);
            box-shadow: 0 4px 8px rgba(102,126,234,0.3);
        }
        .nav button.active {
            background: #667eea;
            color: white;
        }
        .content {
            padding: 30px;
        }
        .section {
            display: none;
        }
        .section.active {
            display: block;
            animation: fadeIn 0.5s;
        }
        @keyframes fadeIn {
            from { opacity: 0; transform: translateY(10px); }
            to { opacity: 1; transform: translateY(0); }
        }
        .card {
            background: #f8f9fa;
            border-left: 4px solid #667eea;
            padding: 20px;
            margin-bottom: 20px;
            border-radius: 5px;
            box-shadow: 0 2px 5px rgba(0,0,0,0.1);
        }
        .card h3 {
            margin-top: 0;
            color: #667eea;
        }
        .stats {
            display: grid;
            grid-template-columns: repeat(auto-fit, minmax(200px, 1fr));
            gap: 20px;
            margin-bottom: 30px;
        }
        .stat-box {
            background: linear-gradient(135deg, #667eea 0%, #764ba2 100%);
            color: white;
            padding: 20px;
            border-radius: 10px;
            text-align: center;
            box-shadow: 0 4px 10px rgba(102,126,234,0.3);
        }
        .stat-box h3 {
            margin: 0;
            font-size: 2em;
        }
        .stat-box p {
            margin: 10px 0 0 0;
            opacity: 0.9;
        }
        .finding {
            background: white;
            border: 1px solid #e9ecef;
            padding: 15px;
            margin-bottom: 10px;
            border-radius: 5px;
            font-family: 'Courier New', monospace;
            font-size: 0.9em;
            overflow-x: auto;
        }
        .finding .offset {
            color: #6c757d;
            font-weight: bold;
        }
        .finding .value {
            color: #28a745;
        }
        .credential {
            background: #fff3cd;
            border-left: 4px solid #ffc107;
            padding: 15px;
            margin-bottom: 10px;
            border-radius: 5px;
        }
        .credential strong {
            color: #856404;
        }
        table {
            width: 100%;
            border-collapse: collapse;
            margin-top: 20px;
        }
        table th {
            background: #667eea;
            color: white;
            padding: 12px;
            text-align: left;
        }
        table td {
            padding: 10px;
            border-bottom: 1px solid #e9ecef;
        }
        table tr:hover {
            background: #f8f9fa;
        }
        .warning {
            background: #f8d7da;
            border-left: 4px solid #dc3545;
            padding: 15px;
            margin: 20px 0;
            border-radius: 5px;
            color: #721c24;
        }
        pre {
            background: #f8f9fa;
            padding: 15px;
            border-radius: 5px;
            overflow-x: auto;
            border: 1px solid #e9ecef;
        }
        .badge {
            display: inline-block;
            padding: 5px 10px;
            background: #667eea;
            color: white;
            border-radius: 3px;
            font-size: 0.85em;
            margin-right: 5px;
        }
    </style>
</head>
<body>
    <div class=`container`>
        <div class=`header`>
            <h1>🔍 MongoDB Memory Leak Analysis Report</h1>
            <p>CVE-2025-14847 Memory Dump Analysis - Generated by mongobleed analyzer</p>
        </div>
        
        <div class=`nav`>
".

Definition page_middle : str :=
  h "        </div>
        
        <div class=`content`>
".

Definition page_tail : str :=
  h "        </div>
    </div>
    
    <script>
        function showSection(sectionName) {
            // 隐藏所有section
            document.querySelectorAll('.section').forEach(s => s.classList.remove('active'));
            document.querySelectorAll('.nav-btn').forEach(b => b.classList.remove('active'));
            
            // 显示选中的section
            document.getElementById(sectionName).classList.add('active');
            event.target.classList.add('active');
        }
    </script>
</body>
</html>
".

Section HtmlReport.
Variable json_dumps : pyval -> outcome str.
Variable str_of_object : pyval -> str.

(** [f'... {html_escape(v)} ...']: the escaped text of [v]. *)
Definition escaped (v : pyval) : outcome str := html_escape v.

(** A row of a table of two columns:
    [<tr><td><code>{html_escape(a)}</code></td><td>{c}</td></tr>]. *)
Definition table_row (html : str) (entry : pyval) : outcome str :=
  pair <- unpack_pair entry ;;
  let '(a, c) := pair in
  a <- escaped a ;;
  Returns (html ++ h "<tr><td><code>" ++ a ++ h "</code></td><td>"
           ++ format_value str_of_object c ++ h "</td></tr>" ++ nl).

(** HTMLReportGenerator._format_result_html *)
Definition _format_result_html (name : string) (result : pyval) : outcome str :=
  let html : str := [] in
  if string_dec name "内存布局分析" then
    let html := html ++ h "<div class=`stats`>" ++ nl in
    total <- getitem result "total_size" ;;
    let html := html ++ h "<div class=`stat-box`><h3>"
                ++ format_value str_of_object total
                ++ h "</h3><p>总字节数</p></div>" ++ nl in
    percentage <- getitem result "null_percentage" ;;
    percentage <- format_f 1 percentage ;;
    let html := html ++ h "<div class=`stat-box`><h3>" ++ percentage
                ++ h "%</h3><p>空字节比例</p></div>" ++ nl in
    percentage <- getitem result "printable_percentage" ;;
    percentage <- format_f 1 percentage ;;
    let html := html ++ h "<div class=`stat-box`><h3>" ++ percentage
                ++ h "%</h3><p>可打印字符</p></div>" ++ nl in
    let html := html ++ h "</div>" ++ nl in
    top <- get result "top_patterns" VNone ;;
    if truthy top then
      let html := html ++ h "<div class=`card`><h3>最常见的4字节模式</h3><table>"
                  ++ nl in
      let html := html ++ h "<tr><th>模式</th><th>出现次数</th></tr>" ++ nl in
      top <- getitem result "top_patterns" ;;
      top <- iterate top ;;
      html <- for_each top html table_row ;;
      Returns (html ++ h "</table></div>" ++ nl)
    else Returns html
  else if string_dec name "凭证搜索" then
    entries <- items result ;;
    for_each entries html
      (fun html entry =>
         let '(category, found) := entry in
         if truthy found then
           count <- len found ;;
           let html := html ++ h "<div class=`card`><h3>"
                       ++ str_upper (key_str category)
                       ++ h " <span class=`badge`>" ++ str_of_nat count
                       ++ h "</span></h3>" ++ nl in
           shown <- slice_to found 50 ;;
           shown <- iterate shown ;;
           html <- for_each shown html
                     (fun html item =>
                        let html := html ++ h "<div class=`credential`>" ++ nl in
                        offset <- getitem item "offset" ;;
                        offset <- format_d 6 true offset ;;
                        let html := html ++ h "<strong>偏移 " ++ offset
                                    ++ h ":</strong> " in
                        value <- getitem item "value" ;;
                        value <- escaped value ;;
                        let html := html ++ h "<code>" ++ value ++ h "</code>"
                                    ++ nl in
                        Returns (html ++ h "</div>" ++ nl)) ;;
           Returns (html ++ h "</div>" ++ nl)
         else Returns html)
  else if string_dec name "BSON字段分析" then
    let html := html ++ h "<div class=`stats`>" ++ nl in
    total <- get result "total_fields" (VInt 0) ;;
    let html := html ++ h "<div class=`stat-box`><h3>"
                ++ format_value str_of_object total
                ++ h "</h3><p>字段总数</p></div>" ++ nl in
    unique <- get result "unique_fields" (VInt 0) ;;
    let html := html ++ h "<div class=`stat-box`><h3>"
                ++ format_value str_of_object unique
                ++ h "</h3><p>唯一字段</p></div>" ++ nl in
    let html := html ++ h "</div>" ++ nl in
    top <- get result "top_fields" VNone ;;
    if truthy top then
      let html := html ++ h "<div class=`card`><h3>最常见的字段名</h3><table>"
                  ++ nl in
      let html := html ++ h "<tr><th>字段名</th><th>出现次数</th></tr>" ++ nl in
      top <- getitem result "top_fields" ;;
      top <- slice_to top 30 ;;
      top <- iterate top ;;
      html <- for_each top html table_row ;;
      Returns (html ++ h "</table></div>" ++ nl)
    else Returns html
  else if string_dec name "字符串提取" then
    total <- get result "total_strings" (VInt 0) ;;
    let html := html ++ h "<div class=`stats`><div class=`stat-box`><h3>"
                ++ format_value str_of_object total
                ++ h "</h3><p>找到的字符串</p></div></div>" ++ nl in
    findings <- get result "findings" VNone ;;
    if truthy findings then
      let html := html ++ h "<div class=`card`><h3>提取的字符串（前100个）</h3>"
                  ++ nl in
      findings <- getitem result "findings" ;;
      shown <- slice_to findings 100 ;;
      shown <- iterate shown ;;
      html <- for_each shown html
                (fun html item =>
                   let html := html ++ h "<div class=`finding`>" ++ nl in
                   offset <- getitem item "offset" ;;
                   offset <- format_d 6 true offset ;;
                   let html := html ++ h "<span class=`offset`>[" ++ offset
                               ++ h "]</span> " in
                   content <- getitem item "content" ;;
                   content <- escaped content ;;
                   let html := html ++ h "<span class=`value`>" ++ content
                               ++ h "</span>" ++ nl in
                   Returns (html ++ h "</div>" ++ nl)) ;;
      Returns (html ++ h "</div>" ++ nl)
    else Returns html
  else if string_dec name "JSON数据提取" then
    findings <- get result "findings" VNone ;;
    if truthy findings then
      findings <- getitem result "findings" ;;
      count <- len findings ;;
      let html := html ++ h "<div class=`stats`><div class=`stat-box`><h3>"
                  ++ str_of_nat count ++ h "</h3><p>JSON对象</p></div></div>"
                  ++ nl in
      let html := html ++ h "<div class=`card`><h3>提取的JSON数据</h3>" ++ nl in
      findings <- getitem result "findings" ;;
      shown <- slice_to findings 20 ;;
      shown <- iterate shown ;;
      html <- for_each shown html
                (fun html item =>
                   let html := html ++ h "<div class=`finding`>" ++ nl in
                   offset <- getitem item "offset" ;;
                   offset <- format_d 6 true offset ;;
                   let html := html ++ h "<strong>偏移 " ++ offset
                               ++ h ":</strong><br>" ++ nl in
                   data <- getitem item "data" ;;
                   dumped <- json_dumps data ;;
                   let html := html ++ h "<pre>" ++ escape dumped ++ h "</pre>"
                               ++ nl in
                   Returns (html ++ h "</div>" ++ nl)) ;;
      Returns (html ++ h "</div>" ++ nl)
    else Returns html
  else if in_dec string_dec name ["邮箱地址提取"; "IP地址提取"] then
    findings <- get result "findings" VNone ;;
    if truthy findings then
      findings <- getitem result "findings" ;;
      count <- len findings ;;
      let html := html ++ h "<div class=`stats`><div class=`stat-box`><h3>"
                  ++ str_of_nat count ++ h "</h3><p>找到的项目</p></div></div>"
                  ++ nl in
      let html := html ++ h "<div class=`card`><h3>提取的数据</h3>" ++ nl in
      findings <- getitem result "findings" ;;
      findings <- iterate findings ;;
      html <- for_each findings html
                (fun html item =>
                   item <- escaped item ;;
                   Returns (html ++ h "<div class=`finding`>" ++ item
                            ++ h "</div>" ++ nl)) ;;
      Returns (html ++ h "</div>" ++ nl)
    else Returns html
  else Returns html.

(** The class of the first result, [active], and of the others, none. *)
Definition active (i : nat) : str :=
  match i with O => s "active" | S _ => [] end.

(** The first loop of [generate_html]: a button for every entry of
    [results]. *)
Definition nav_buttons (results : dict string pyval) (html_content : str) : str :=
  snd (fold_left
         (fun st entry =>
            let '(i, html_content) := st in
            let name := key_str (fst entry) in
            (S i,
             html_content ++ h "            <button class=`nav-btn " ++ active i
             ++ h "` onclick=`showSection('" ++ name ++ h "')`>" ++ name
             ++ h "</button>" ++ nl))
         results (0, html_content)).

(** The second loop: a section for every entry, with the warning of an
    error or what [_format_result_html] makes of the result. *)
Definition sections (results : dict string pyval) (html_content : str)
  : outcome str :=
  st <- for_each results (0, html_content)
          (fun st entry =>
             let '(i, html_content) := st in
             let '(name, result) := entry in
             let html_content :=
               html_content ++ h "            <div class=`section " ++ active i
               ++ h "` id=`" ++ key_str name ++ h "`>" ++ nl in
             let html_content :=
               html_content ++ h "                <h2>" ++ key_str name
               ++ h "</h2>" ++ nl in
             failed <- contains "error" result ;;
             html_content <-
               (if failed : bool then
                  message <- getitem result "error" ;;
                  message <- escaped message ;;
                  Returns (html_content ++ h "                <div class=`warning`>错误: "
                           ++ message ++ h "</div>" ++ nl)
                else
                  html <- _format_result_html name result ;;
                  Returns (html_content ++ html)) ;;
             Returns (S i, html_content ++ h "            </div>" ++ nl)) ;;
  Returns (snd st).

(** The text of the page: [html_content] before it is written. *)
Definition html_page (results : dict string pyval) : outcome str :=
  let html_content := page_head in
  let html_content := nav_buttons results html_content in
  let html_content := html_content ++ page_middle in
  html_content <- sections results html_content ;;
  Returns (html_content ++ page_tail).

End HtmlReport.

(** ** The rows of the HTML report *)

Definition html_pair_row (a c : str) : str :=
  h "<tr><td><code>" ++ escape a ++ h "</code></td><td>" ++ c
  ++ h "</td></tr>" ++ nl.

Definition html_pattern_row (entry : bytes * nat) : str :=
  html_pair_row (hex (fst entry)) (str_of_nat (snd entry)).

Definition html_field_row (entry : str * nat) : str :=
  html_pair_row (fst entry) (str_of_nat (snd entry)).

Definition html_string_row (it : string_item) : str :=
  h "<div class=`finding`>" ++ nl
  ++ h "<span class=`offset`>[" ++ pad_int 6 true (Z.of_nat (string_offset it))
  ++ h "]</span> "
  ++ h "<span class=`value`>" ++ escape (string_content it) ++ h "</span>" ++ nl
  ++ h "</div>" ++ nl.

Definition html_cred_row (it : cred_item) : str :=
  h "<div class=`credential`>" ++ nl
  ++ h "<strong>偏移 " ++ pad_int 6 true (Z.of_nat (cred_offset it))
  ++ h ":</strong> "
  ++ h "<code>" ++ escape (cred_value it) ++ h "</code>" ++ nl
  ++ h "</div>" ++ nl.

(** The card of a category: its name in upper case, the number of its
    credentials, and the rows of the first 50. *)
Definition html_cred_block (entry : string * list cred_item) : str :=
  match snd entry with
  | [] => []
  | _ :: _ =>
      h "<div class=`card`><h3>" ++ str_upper (key_str (fst entry))
      ++ h " <span class=`badge`>" ++ str_of_nat (length (snd entry))
      ++ h "</span></h3>" ++ nl
      ++ flat_map html_cred_row (firstn 50 (snd entry))
      ++ h "</div>" ++ nl
  end.

Definition html_record_block (json_dumps : pyval -> outcome str) (it : json_item)
  : str :=
  h "<div class=`finding`>" ++ nl
  ++ h "<strong>偏移 " ++ pad_int 6 true (Z.of_nat (json_offset it))
  ++ h ":</strong><br>" ++ nl
  ++ h "<pre>" ++ escape (text_of (json_dumps (json_data it))) ++ h "</pre>" ++ nl
  ++ h "</div>" ++ nl.

Definition html_listing_row (t : str) : str :=
  h "<div class=`finding`>" ++ escape t ++ h "</div>" ++ nl.

(** A box of the statistics. *)
Definition html_stat (value label : str) : str :=
  h "<div class=`stat-box`><h3>" ++ value ++ h "</h3><p>" ++ label
  ++ h "</p></div>".

(** The sections. *)
Definition html_layout (total : nat) (nulls printable : str)
  (top : list (bytes * nat)) : str :=
  h "<div class=`stats`>" ++ nl
  ++ html_stat (str_of_nat total) (u "总字节数") ++ nl
  ++ html_stat (nulls ++ s "%") (u "空字节比例") ++ nl
  ++ html_stat (printable ++ s "%") (u "可打印字符") ++ nl
  ++ h "</div>" ++ nl
  ++ match top with
     | [] => []
     | _ :: _ =>
         h "<div class=`card`><h3>最常见的4字节模式</h3><table>" ++ nl
         ++ h "<tr><th>模式</th><th>出现次数</th></tr>" ++ nl
         ++ flat_map html_pattern_row top
         ++ h "</table></div>" ++ nl
     end.

Definition html_fields (total unique : nat) (top : list (str * nat)) : str :=
  h "<div class=`stats`>" ++ nl
  ++ html_stat (str_of_nat total) (u "字段总数") ++ nl
  ++ html_stat (str_of_nat unique) (u "唯一字段") ++ nl
  ++ h "</div>" ++ nl
  ++ match top with
     | [] => []
     | _ :: _ =>
         h "<div class=`card`><h3>最常见的字段名</h3><table>" ++ nl
         ++ h "<tr><th>字段名</th><th>出现次数</th></tr>" ++ nl
         ++ flat_map html_field_row (firstn 30 top)
         ++ h "</table></div>" ++ nl
     end.

Definition html_strings (total : nat) (shown : list string_item) : str :=
  h "<div class=`stats`>" ++ html_stat (str_of_nat total) (u "找到的字符串")
  ++ h "</div>" ++ nl
  ++ match shown with
     | [] => []
     | _ :: _ =>
         h "<div class=`card`><h3>提取的字符串（前100个）</h3>" ++ nl
         ++ flat_map html_string_row (firstn 100 shown)
         ++ h "</div>" ++ nl
     end.

Definition html_records (json_dumps : pyval -> outcome str)
  (findings : list json_item) : str :=
  match findings with
  | [] => []
  | _ :: _ =>
      h "<div class=`stats`>"
      ++ html_stat (str_of_nat (length findings)) (u "JSON对象")
      ++ h "</div>" ++ nl
      ++ h "<div class=`card`><h3>提取的JSON数据</h3>" ++ nl
      ++ flat_map (html_record_block json_dumps) (firstn 20 findings)
      ++ h "</div>" ++ nl
  end.

Definition html_listing (findings : list str) : str :=
  match findings with
  | [] => []
  | _ :: _ =>
      h "<div class=`stats`>"
      ++ html_stat (str_of_nat (length findings)) (u "找到的项目")
      ++ h "</div>" ++ nl
      ++ h "<div class=`card`><h3>提取的数据</h3>" ++ nl
      ++ flat_map html_listing_row findings
      ++ h "</div>" ++ nl
  end.

(** ** The tags of a text *)

(** A tag is what stands between a [<] and the next [>]; [pending] is the
    part of a tag read so far. *)
Fixpoint tags_from (pending : option str) (t : str) : list str :=
  match t with
  | [] => []
  | c :: t' =>
      match pending with
      | None => tags_from (if (c =? 60)%N then Some [] else None) t'
      | Some tag =>
          if (c =? 62)%N then tag :: tags_from None t'
          else tags_from (Some (tag ++ [c])) t'
      end
  end.

Definition tags (t : str) : list str := tags_from None t.

(** Where the reading of [t] ends: in a tag or outside. *)
Fixpoint pending_after (pending : option str) (t : str) : option str :=
  match t with
  | [] => pending
  | c :: t' =>
      match pending with
      | None => pending_after (if (c =? 60)%N then Some [] else None) t'
      | Some tag =>
          if (c =? 62)%N then pending_after None t'
          else pending_after (Some (tag ++ [c])) t'
      end
  end.

(** ** The page *)

(** The names of the analyzers of [main]. *)
Definition analyzer_names : list string :=
  ["内存布局分析"; "凭证搜索"; "BSON字段分析"; "字符串提取"; "JSON数据提取";
   "邮箱地址提取"; "IP地址提取"].

(** The button of the [i]-th result, and the buttons of the results from
    the [i]-th on. *)
Definition nav_button (i : nat) (name : string) : str :=
  h "            <button class=`nav-btn " ++ active i
  ++ h "` onclick=`showSection('" ++ key_str name ++ h "')`>" ++ key_str name
  ++ h "</button>" ++ nl.

Fixpoint nav_text (i : nat) (names : list string) : str :=
  match names with
  | [] => []
  | name :: names' => nav_button i name ++ nav_text (S i) names'
  end.

(** The section of the [i]-th result around its body. *)
Definition section_open (i : nat) (name : string) : str :=
  h "            <div class=`section " ++ active i ++ h "` id=`" ++ key_str name
  ++ h "`>" ++ nl ++ h "                <h2>" ++ key_str name ++ h "</h2>" ++ nl.

Definition section_close : str := h "            </div>" ++ nl.

Fixpoint sections_text (i : nat) (l : list (string * str)) : str :=
  match l with
  | [] => []
  | (name, body) :: l' =>
      section_open i name ++ body ++ section_close ++ sections_text (S i) l'
  end.

(** The tags the literals of [generate_html] and of [_format_result_html]
    are made of, with the buttons and the sections of the seven names. *)
Definition button_tag (state : str) (name : string) : str :=
  h "button class=`nav-btn " ++ state ++ h "` onclick=`showSection('"
  ++ key_str name ++ h "')`".

Definition section_tag (state : str) (name : string) : str :=
  h "div class=`section " ++ state ++ h "` id=`" ++ key_str name ++ h "`".

Definition template_tags : list str :=
  map h ["!DOCTYPE html"; "html lang=`zh-CN`"; "head"; "/head";
         "meta charset=`UTF-8`";
         "meta name=`viewport` content=`width=device-width, initial-scale=1.0`";
         "title"; "/title"; "style"; "/style"; "body"; "/body"; "/html";
         "script"; "/script";
         "div class=`container`"; "div class=`header`"; "div class=`nav`";
         "div class=`content`"; "/div"; "h1"; "/h1"; "p"; "/p";
         "/button"; "h2"; "/h2"; "h3"; "/h3";
         "div class=`warning`"; "div class=`stats`"; "div class=`stat-box`";
         "div class=`card`"; "div class=`credential`"; "div class=`finding`";
         "span class=`badge`"; "span class=`offset`"; "span class=`value`";
         "/span"; "table"; "/table"; "tr"; "/tr"; "th"; "/th"; "td"; "/td";
         "code"; "/code"; "strong"; "/strong"; "br"; "pre"; "/pre"]
  ++ flat_map (fun name =>
                 [button_tag (active 0) name; button_tag (active 1) name;
                  section_tag (active 0) name; section_tag (active 1) name])
              analyzer_names.

(** A text that ends outside a tag and whose tags are all of the
    template. *)
Definition template_markup (t : str) : bool :=
  match pending_after None t with
  | Some _ => false
  | None =>
      forallb (fun tag =>
                 existsb (fun known => if str_eq_dec tag known then true else false)
                         template_tags)
              (tags t)
  end.

(** The body of the section of an analyzer that failed. *)
Definition html_warning (message : str) : str :=
  h "                <div class=`warning`>错误: " ++ escape message
  ++ h "</div>" ++ nl.

(* ===================================================================== *)
(** * The program: [generate_html] on a file, and [main]                  *)
(* ===================================================================== *)

(** ** Files and the standard output *)

(** The part of the system the program works on: the regular files, by
    path, with their bytes, and the texts printed so far, one for each call
    of [print].  A path names a file that can be read when it exists and
    that can be created or overwritten; a line feed is written as it is (as
    on a system whose line separator is the line feed); the standard output
    takes every text. *)
Record world := mk_world {
  files : dict string bytes;
  stdout : list str
}.

(** A computation on the world: it returns or raises, and leaves the world
    as it made it up to then. *)
Definition io (A : Type) : Type := world -> outcome A * world.

Definition io_ret {A} (x : A) : io A := fun w => (Returns x, w).

Definition io_bind {A B} (c : io A) (k : A -> io B) : io B :=
  fun w =>
    match c w with
    | (Returns x, w') => k x w'
    | (Raises e, w') => (Raises e, w')
    end.

Notation "x <~ c ;; k" := (io_bind c (fun x => k))
  (at level 61, c at next level, right associativity) : py_scope.

Notation "c ;;; k" := (io_bind c (fun _ => k))
  (at level 61, right associativity) : py_scope.

(** A computation without effect. *)
Definition lift {A} (c : outcome A) : io A := fun w => (c, w).

(** [try: c  except cls: handler] *)
Definition io_except {A} (c : io A) (cls : string) (handler : io A) : io A :=
  fun w =>
    match c w with
    | (Raises e, w') =>
        if string_dec (exn_class e) cls then handler w' else (Raises e, w')
    | r => r
    end.

Fixpoint io_for_each {A} (l : list A) (body : A -> io unit) : io unit :=
  match l with
  | [] => io_ret tt
  | x :: l' => body x ;;; io_for_each l' body
  end.

(** [print(t)] *)
Definition print (t : str) : io unit :=
  fun w => (Returns tt, mk_world (files w) (stdout w ++ [t])).

Definition FileNotFoundError (path : string) : exn :=
  mk_exn "FileNotFoundError"
         (s "[Errno 2] No such file or directory: '" ++ key_str path ++ s "'").

(** [with open(path, 'rb') as f: data = f.read()] *)
Definition read_file (path : string) : io bytes :=
  fun w =>
    match dict_get string_dec path (files w) with
    | Some data => (Returns data, w)
    | None => (Raises (FileNotFoundError path), w)
    end.

(** ** Writing a text in UTF-8 *)

Definition byte_of (n : N) : byte :=
  match Byte.of_N n with
  | Some x => x
  | None => x00
  end.

(** The bytes of a code point; a surrogate has none. *)
Definition encode_char (c : N) : option bytes :=
  if (c <? 128)%N then Some [byte_of c]
  else if (c <? 2048)%N then
    Some [byte_of (192 + c / 64); byte_of (128 + c mod 64)]
  else if ((55296 <=? c) && (c <=? 57343))%N then None
  else if (c <? 65536)%N then
    Some [byte_of (224 + c / 4096); byte_of (128 + (c / 64) mod 64);
          byte_of (128 + c mod 64)]
  else if (c <? 1114112)%N then
    Some [byte_of (240 + c / 262144); byte_of (128 + (c / 4096) mod 64);
          byte_of (128 + (c / 64) mod 64); byte_of (128 + c mod 64)]
  else None.

Definition UnicodeEncodeError (reason : string) : exn :=
  mk_exn "UnicodeEncodeError" (s reason).

(** [t.encode('utf-8')] *)
Fixpoint encode_utf8 (t : str) : outcome bytes :=
  match t with
  | [] => Returns []
  | c :: t' =>
      match encode_char c with
      | None => Raises (UnicodeEncodeError "surrogates not allowed")
      | Some bs => rest <- encode_utf8 t' ;; Returns (bs ++ rest)
      end
  end.

(** [open(path, 'w', encoding='utf-8')]: the file is created, or
    emptied. *)
Definition open_w (path : string) : io unit :=
  fun w => (Returns tt, mk_world (dict_set string_dec path [] (files w)) (stdout w)).

(** [f.write(t)] on the file opened at [path]: the bytes of [t] come after
    what the file holds. *)
Definition write (path : string) (t : str) : io unit :=
  fun w =>
    match encode_utf8 t with
    | Raises e => (Raises e, w)
    | Returns bs =>
        let held := match dict_get string_dec path (files w) with
                    | Some held => held
                    | None => []
                    end in
        (Returns tt,
         mk_world (dict_set string_dec path (held ++ bs) (files w)) (stdout w))
    end.

(** ** The arguments *)

(** [--format], with its [choices]. *)
Inductive report_format := txt | html | both.

(** What [parse_args] returns; a path is a text, written as a string in
    UTF-8. *)
Record arguments := mk_arguments {
  args_input : string;
  args_output_txt : string;
  args_output_html : string;
  args_format : report_format
}.

(** [args.format in ['txt', 'both']] and [args.format in ['html', 'both']] *)
Definition wants_txt (f : report_format) : bool :=
  match f with txt | both => true | html => false end.

Definition wants_html (f : report_format) : bool :=
  match f with html | both => true | txt => false end.

(** ** The program *)

(** What [analyze_all] prints. *)
Definition printed_line (p : printed) : str :=
  match p with
  | Running name => u "[*] 运行: " ++ key_str name ++ s "..."
  | Failed name message => u "[!] " ++ key_str name ++ u " 失败: " ++ message
  end.

Section Program.
Variable json_loads : str -> outcome pyval.
Variable json_dumps : pyval -> outcome str.
Variable str_of_object : pyval -> str.
Variable seed : hash_seed.

(** HTMLReportGenerator.analyze_all, with its prints on the standard
    output. *)
Definition io_analyze_all (self : HTMLReportGenerator) (data : bytes)
  : io HTMLReportGenerator :=
  fun w =>
    let '(self, out) := analyze_all self data in
    (Returns self, mk_world (files w) (stdout w ++ map printed_line out)).

(** HTMLReportGenerator.generate_html *)
Definition generate_html (self : HTMLReportGenerator) (output_file : string)
  : io unit :=
  html_content <~ lift (html_page json_dumps str_of_object (results self)) ;;
  open_w output_file ;;;
  write output_file html_content ;;;
  print (u "[+] HTML报告已生成: " ++ key_str output_file).

(** ["=" * 80] *)
Definition rule : str := repeat_str (s "=") 80.

(** main, after [parse_args] *)
Definition main (args : arguments) : io unit :=
  print (s "[*] MongoDB Memory Leak Analyzer") ;;;
  print (u "[*] 读取文件: " ++ key_str (args_input args)) ;;;
  found <~ io_except
             (data <~ read_file (args_input args) ;; io_ret (Some data))
             "FileNotFoundError"
             (print (u "[!] 错误: 文件不存在 " ++ key_str (args_input args)) ;;;
              print (u "[!] 请先运行 mongobleed.py 生成 leaked.bin 文件") ;;;
              io_ret None) ;;
  match found with
  | None => io_ret tt
  | Some data =>
      print (u "[*] 文件大小: " ++ str_of_nat (length data) ++ u " 字节") ;;;
      let generator := new_generator in
      let analyzers := main_reporters json_dumps str_of_object json_loads seed in
      let generator := fold_left add_analyzer (map analyzer analyzers) generator in
      generator <~ io_analyze_all generator data ;;
      (if wants_txt (args_format args) then
         print (nl ++ u "[*] 生成文本报告: " ++ key_str (args_output_txt args)) ;;;
         let f := args_output_txt args in
         open_w f ;;;
         write f (rule ++ nl) ;;;
         write f (s "MongoDB Memory Leak Analysis Report" ++ nl) ;;;
         write f (rule ++ nl ++ nl) ;;;
         io_for_each analyzers
           (fun r =>
              write f (nl ++ rule ++ nl) ;;;
              write f (key_str (get_name (analyzer r)) ++ nl) ;;;
              write f (rule ++ nl) ;;;
              let result :=
                match dict_get string_dec (get_name (analyzer r))
                               (results generator) with
                | Some result => result
                | None => VDict []
                end in
              text <~ lift (format_result r result) ;;
              write f text ;;;
              write f nl)
       else io_ret tt) ;;;
      (if wants_html (args_format args) then
         print (u "[*] 生成HTML报告: " ++ key_str (args_output_html args)) ;;;
         generate_html generator (args_output_html args)
       else io_ret tt) ;;;
      print (nl ++ u "[+] 分析完成!") ;;;
      print (u "[+] 查看报告: "
             ++ key_str (if wants_html (args_format args)
                         then args_output_html args
                         else args_output_txt args))
  end.

End Program.

(** ** What the program writes *)

(** A code point that UTF-8 encodes: no surrogate, and not above
    U+10FFFF. *)
Definition scalar (c : N) : bool :=
  ((c <? 55296) || ((57343 <? c) && (c <? 1114112)))%N.

(** [p] holds from [lo] on for [n] numbers. *)
Definition all_from (lo : nat) (n : nat) (p : N -> bool) : bool :=
  forallb p (map N.of_nat (seq lo n)).

(** The head of the text report, and the part of an analyzer: its name
    between two rules, then the text of its results. *)
Definition text_report_head : str :=
  rule ++ nl ++ s "MongoDB Memory Leak Analysis Report" ++ nl ++ rule ++ nl ++ nl.

Definition text_report_part (name : string) (body : str) : str :=
  nl ++ rule ++ nl ++ key_str name ++ nl ++ rule ++ nl ++ body ++ nl.

(** The bytes of a text that has them. *)
Definition utf8_bytes (t : str) : bytes :=
  match encode_utf8 t with
  | Returns bs => bs
  | Raises _ => []
  end.

(** A computation that leaves the file at [p] as it is. *)
Definition keeps {A} (p : string) (c : io A) : Prop :=
  forall w,
    dict_get string_dec p (files (snd (c w))) = dict_get string_dec p (files w).

(** A computation that puts the bytes of [t] at the end of the file at
    [path] and does nothing else. *)
Definition appends (path : string) (t : str) (c : io unit) : Prop :=
  forall w held,
    dict_get string_dec path (files w) = Some held ->
    c w = (Returns tt,
           mk_world (dict_set string_dec path (held ++ utf8_bytes t) (files w))
                    (stdout w)).

(** [generator.results.get(name, {})] *)
Definition result_of (generator : HTMLReportGenerator) (name : string) : pyval :=
  match dict_get string_dec name (results generator) with
  | Some result => result
  | None => VDict []
  end.

(** A computation that raises [e] after it has put the bytes of [t] at the
    end of the file at [path], and does nothing else. *)
Definition stops (path : string) (t : str) (e : exn) (c : io unit) : Prop :=
  forall w held,
    dict_get string_dec path (files w) = Some held ->
    c w = (Raises e,
           mk_world (dict_set string_dec path (held ++ utf8_bytes t) (files w))
                    (stdout w)).

(** ** What the analyzers find in a buffer, and the reports on it *)

Definition found_strings (data : bytes) : list string_item :=
  map (string_item_of data) (finditer false StringExtractor_pattern data).

Definition found_fields (data : bytes) : list field_item :=
  map (field_item_of data) (finditer false BSONFieldAnalyzer_pattern data).

Definition found_records (json_loads : str -> outcome pyval) (data : bytes)
  : list json_item :=
  flat_map (json_items_of json_loads data)
           (finditer false JSONExtractor_pattern data).

Definition found_credentials (data : bytes) : dict string (list cred_item) :=
  map (fun e => (fst e, first_seen (snd e))) (collected data).

Definition found_emails (seed : hash_seed) (data : bytes) : list str :=
  sorted_str
    (list_of_set seed
       (fold_left (fun emails mt => set_add (text (group0 data mt)) emails)
                  (finditer false EmailExtractor_pattern data) [])).

Definition found_ips (seed : hash_seed) (data : bytes) : list str :=
  sorted_str
    (list_of_set seed
       (fold_left (fun ips mt => if ip_valid (text (group0 data mt))
                                 then set_add (text (group0 data mt)) ips
                                 else ips)
                  (finditer false IPAddressExtractor_pattern data) [])).

Definition null_count (data : bytes) : nat :=
  count_occ Byte.byte_eq_dec data x00.

Definition printable_count (data : bytes) : nat :=
  length (filter (fun x => between 32 126 (code x)) data).

Definition field_counts (data : bytes) : dict str nat :=
  Counter (map field_name (found_fields data)).

(** A percentage with [prec] decimals. *)
Definition percent_text (prec part total : nat) : str :=
  text_of (v <- percentage part total ;; format_f prec v).

(** The texts of the seven methods [format_result]. *)
Definition text_layout (data : bytes) : str :=
  u "内存布局统计:" ++ nl
  ++ u "  总大小: " ++ str_of_nat (length data) ++ u " 字节" ++ nl
  ++ u "  空字节: " ++ str_of_nat (null_count data) ++ s " ("
  ++ percent_text 2 (null_count data) (length data) ++ s "%)" ++ nl
  ++ u "  可打印字符: " ++ str_of_nat (printable_count data) ++ s " ("
  ++ percent_text 2 (printable_count data) (length data) ++ s "%)" ++ nl ++ nl
  ++ u "最常见的4字节模式:" ++ nl
  ++ flat_map pattern_line (HexDumpAnalyzer_top_patterns data).

Definition text_credentials (data : bytes) : str :=
  match found_credentials data with
  | [] => u "未发现凭证信息" ++ nl
  | _ :: _ => flat_map cred_block (found_credentials data)
  end.

Definition text_fields (data : bytes) : str :=
  match found_fields data with
  | [] => u "未发现BSON字段" ++ nl
  | _ :: _ =>
      u "找到 " ++ str_of_nat (length (found_fields data)) ++ u " 个字段名（"
      ++ str_of_nat (length (field_counts data)) ++ u " 个唯一）:" ++ nl ++ nl
      ++ u "出现频率最高的字段:" ++ nl
      ++ flat_map field_line (most_common 50 (field_counts data))
  end.

Definition text_strings (data : bytes) : str :=
  match found_strings data with
  | [] => u "未发现字符串" ++ nl
  | _ :: _ =>
      u "找到 " ++ str_of_nat (length (found_strings data))
      ++ u " 个字符串（显示前500个）:" ++ nl ++ nl
      ++ flat_map string_line (firstn 100 (found_strings data))
  end.

Definition text_records (json_loads : str -> outcome pyval)
  (json_dumps : pyval -> outcome str) (data : bytes) : str :=
  match found_records json_loads data with
  | [] => u "未发现有效JSON数据" ++ nl
  | _ :: _ =>
      u "找到 " ++ str_of_nat (length (found_records json_loads data))
      ++ u " 个JSON对象:" ++ nl ++ nl
      ++ flat_map (record_block json_dumps)
                  (firstn 50 (found_records json_loads data))
  end.

Definition text_listing (nothing found : str) (findings : list str) : str :=
  match findings with
  | [] => nothing ++ nl
  | _ :: _ =>
      u "找到 " ++ str_of_nat (length findings) ++ found ++ nl
      ++ flat_map listing_line findings
  end.

Definition main_texts (json_loads : str -> outcome pyval)
  (json_dumps : pyval -> outcome str) (seed : hash_seed) (data : bytes)
  : list str :=
  [ text_layout data;
    text_credentials data;
    text_fields data;
    text_strings data;
    text_records json_loads json_dumps data;
    text_listing (u "未发现邮箱地址") (u " 个邮箱地址:") (found_emails seed data);
    text_listing (u "未发现IP地址") (u " 个IP地址:") (found_ips seed data) ].

(** The bodies of the seven sections of the page. *)
Definition main_bodies (json_loads : str -> outcome pyval)
  (json_dumps : pyval -> outcome str) (seed : hash_seed) (data : bytes)
  : list str :=
  [ html_layout (length data)
                (percent_text 1 (null_count data) (length data))
                (percent_text 1 (printable_count data) (length data))
                (HexDumpAnalyzer_top_patterns data);
    flat_map html_cred_block (found_credentials data);
    html_fields (length (found_fields data)) (length (field_counts data))
                (most_common 50 (field_counts data));
    html_strings (length (found_strings data)) (firstn 500 (found_strings data));
    html_records json_dumps (found_records json_loads data);
    html_listing (found_emails seed data);
    html_listing (found_ips seed data) ].

(** The page [generate_html] writes for the results of [main] on a
    buffer. *)
Definition main_page (json_loads : str -> outcome pyval)
  (json_dumps : pyval -> outcome str) (seed : hash_seed) (data : bytes) : str :=
  page_head ++ nav_text 0 analyzer_names ++ page_middle
  ++ sections_text 0 (combine analyzer_names
                              (main_bodies json_loads json_dumps seed data))
  ++ page_tail.




(** The text report up to the results of the records: the head, the parts
    of the four analyzers before, and the name of the fifth between its
    rules. *)
Definition main_text_before_records (data : bytes) : str :=
  text_report_head
  ++ flat_map (fun part => text_report_part (fst part) (snd part))
              (combine (firstn 4 analyzer_names)
                       [text_layout data; text_credentials data;
                        text_fields data; text_strings data])
  ++ nl ++ rule ++ nl ++ key_str "JSON数据提取" ++ nl ++ rule ++ nl.

(* ===================================================================== *)
(** * Properties                                                          *)
(* ===================================================================== *)

(* ===================================================================== *)
(** * Facts about dictionaries                                            *)
(* ===================================================================== *)

Section DictFacts.
Context {K V : Type}.
Variable dec : forall x y : K, {x = y} + {x <> y}.

Lemma dict_get_set_same (k : K) (v : V) (d : dict K V) :
  dict_get dec k (dict_set dec k v d) = Some v.
Proof.
  induction d as [|[k' v'] d IH]; simpl.
  - destruct (dec k k); congruence.
  - destruct (dec k k') as [->|Hne]; simpl.
    + destruct (dec k' k'); congruence.
    + destruct (dec k k'); [contradiction|exact IH].
Qed.

Lemma dict_get_set_other (k k' : K) (v : V) (d : dict K V) :
  k <> k' -> dict_get dec k (dict_set dec k' v d) = dict_get dec k d.
Proof.
  intros Hne. induction d as [|[k0 v0] d IH]; simpl.
  - destruct (dec k k'); congruence.
  - destruct (dec k' k0) as [->|Hne0]; simpl.
    + destruct (dec k k0); congruence.
    + destruct (dec k k0); [reflexivity|exact IH].
Qed.

Lemma dict_get_in_keys (k : K) (d : dict K V) :
  In k (dict_keys d) <-> dict_get dec k d <> None.
Proof.
  induction d as [|[k' v'] d IH]; simpl.
  - split; [tauto|congruence].
  - destruct (dec k k') as [->|Hne].
    + split; [congruence|auto].
    + rewrite <- IH. split; [intros [H|H]; congruence || auto|auto].
Qed.

Lemma dict_keys_set_new (k : K) (v : V) (d : dict K V) :
  ~ In k (dict_keys d) -> dict_keys (dict_set dec k v d) = dict_keys d ++ [k].
Proof.
  induction d as [|[k' v'] d IH]; simpl; [reflexivity|].
  intros Hnin. destruct (dec k k') as [->|Hne]; simpl; [tauto|].
  f_equal. apply IH. tauto.
Qed.
End DictFacts.

(* ===================================================================== *)
(** * The aggregator                                                      *)
(* ===================================================================== *)

Lemma register_all_from (l : list BaseAnalyzer) (g : HTMLReportGenerator) :
  fold_left add_analyzer l g = mk_generator (analyzers g ++ l) (results g).
Proof.
  revert g. induction l as [|a l IH]; intros g; simpl.
  - rewrite app_nil_r. destruct g; reflexivity.
  - rewrite IH. simpl. rewrite <- app_assoc. reflexivity.
Qed.

Lemma register_all_analyzers (l : list BaseAnalyzer) :
  register_all l = mk_generator l [].
Proof. unfold register_all. rewrite register_all_from. reflexivity. Qed.

Lemma analyze_one_results data res out a :
  fst (analyze_one data (res, out) a)
  = dict_set string_dec (get_name a) (entry_of a data) res.
Proof.
  unfold analyze_one, entry_of. destruct (analyze a data); reflexivity.
Qed.

(** The dictionary after the loop: one assignment per analyzer, in order. *)
Lemma fold_analyze_one_results data l res out :
  fst (fold_left (analyze_one data) l (res, out))
  = fold_left (fun r a => dict_set string_dec (get_name a) (entry_of a data) r)
              l res.
Proof.
  revert res out. induction l as [|a l IH]; intros res out; cbn [fold_left].
  - reflexivity.
  - destruct (analyze_one data (res, out) a) as [res' out'] eqn:E.
    rewrite IH. f_equal.
    change res' with (fst (res', out')). rewrite <- E.
    apply analyze_one_results.
Qed.

Lemma fold_assign_other data l res name :
  ~ In name (map get_name l) ->
  dict_get string_dec name
    (fold_left (fun r a => dict_set string_dec (get_name a) (entry_of a data) r)
               l res)
  = dict_get string_dec name res.
Proof.
  revert res. induction l as [|a l IH]; intros res Hnin; simpl.
  - reflexivity.
  - rewrite IH by (simpl in Hnin; tauto).
    apply dict_get_set_other. simpl in Hnin. intros ->. tauto.
Qed.

Lemma fold_assign_keys data l res :
  NoDup (map get_name l) ->
  (forall a, In a l -> ~ In (get_name a) (dict_keys res)) ->
  dict_keys
    (fold_left (fun r a => dict_set string_dec (get_name a) (entry_of a data) r)
               l res)
  = dict_keys res ++ map get_name l.
Proof.
  revert res. induction l as [|a l IH]; intros res Hnd Hfresh; simpl.
  - rewrite app_nil_r. reflexivity.
  - inversion Hnd as [|? ? Hnin Hnd']; subst.
    rewrite IH; [|exact Hnd'|].
    + rewrite dict_keys_set_new by (apply Hfresh; left; reflexivity).
      rewrite <- app_assoc. reflexivity.
    + intros a' Hin. rewrite dict_keys_set_new by (apply Hfresh; left; reflexivity).
      intros Hk. apply in_app_or in Hk. destruct Hk as [Hk|[Hk|[]]].
      * apply (Hfresh a'); [right; exact Hin|exact Hk].
      * apply Hnin. rewrite Hk. apply in_map. exact Hin.
Qed.




Lemma run_pipeline_unfold l data :
  run_pipeline l data
  = (mk_generator l (fst (fold_left (analyze_one data) l ([], []))),
     snd (fold_left (analyze_one data) l ([], []))).
Proof.
  unfold run_pipeline, analyze_all. rewrite register_all_analyzers.
  cbn [analyzers results].
  match goal with
  | |- (let '(res, out) := ?X in _) = _ =>
      change (fold_left (analyze_one data) l ([], [])) with X;
      destruct X; reflexivity
  end.
Qed.

(** C8.  For every buffer and every registration sequence of analyzers with
    distinct names, the results of the aggregator hold exactly one entry per
    registered analyzer, and their keys are in the registration order. *)
Theorem results_follow_registration_order
  (data : bytes) (l : list BaseAnalyzer) :
  NoDup (map get_name l) ->
  dict_keys (results (fst (run_pipeline l data))) = map get_name l
  /\ length (results (fst (run_pipeline l data))) = length l
  /\ forall a, In a l ->
       count_occ string_dec (dict_keys (results (fst (run_pipeline l data))))
                 (get_name a) = 1.
Proof.
  intros Hnd. rewrite run_pipeline_unfold. simpl.
  rewrite fold_analyze_one_results.
  assert (Hk : dict_keys
            (fold_left (fun r a => dict_set string_dec (get_name a) (entry_of a data) r)
               l []) = map get_name l).
  { rewrite fold_assign_keys; [reflexivity|exact Hnd|]. intros a _ []. }
  split; [exact Hk|]. split.
  - rewrite <- (length_map fst). fold (@dict_keys string pyval).
    change (map fst) with (@dict_keys string pyval). rewrite Hk. apply length_map.
  - intros a Hin. rewrite Hk. apply NoDup_count_occ'; [exact Hnd|].
    apply in_map. exact Hin.
Qed.


(** The analyzers of [main] have distinct names. *)
Lemma main_analyzers_distinct json_loads seed :
  NoDup (map get_name (main_analyzers json_loads seed)).
Proof.
  cbn [main_analyzers map get_name HexDumpAnalyzer CredentialHunter
       BSONFieldAnalyzer StringExtractor JSONExtractor EmailExtractor
       IPAddressExtractor].
  repeat constructor; cbn [In]; intuition discriminate.
Defined.



(** C8 at the analyzers of [main], on the buffer abcd. *)
Lemma results_follow_registration_order_witness :
  dict_keys (results (fst (run_pipeline (main_analyzers json_rejects []) (b "abcd"))))
  = map get_name (main_analyzers json_rejects [])
  /\ length (results (fst (run_pipeline (main_analyzers json_rejects []) (b "abcd"))))
     = length (main_analyzers json_rejects [])
  /\ forall a, In a (main_analyzers json_rejects []) ->
       count_occ string_dec
         (dict_keys (results (fst (run_pipeline (main_analyzers json_rejects [])
                                                (b "abcd")))))
         (get_name a) = 1.
Proof.
  apply (results_follow_registration_order (b "abcd")
           (main_analyzers json_rejects [])).
  apply main_analyzers_distinct.
Defined.

(* ===================================================================== *)
(** * Loops and decoding                                                  *)
(* ===================================================================== *)

(** A loop whose body never raises is a fold. *)
Lemma for_each_fold {A S} (l : list A) (st : S) (body : S -> A -> outcome S)
  (f : S -> A -> S) :
  (forall st x, In x l -> body st x = Returns (f st x)) ->
  for_each l st body = Returns (fold_left f l st).
Proof.
  revert st. induction l as [|x l IH]; intros st Hbody; simpl.
  - reflexivity.
  - rewrite Hbody by (left; reflexivity). simpl.
    apply IH. intros st' y Hy. apply Hbody. right. exact Hy.
Qed.

(** A decode that ignores or replaces errors never raises. *)
Lemma decode_loop_lossy enc errors fuel l :
  errors <> Strict -> exists t, decode_loop enc errors fuel l = Returns t.
Proof.
  intros Hl. revert l. induction fuel as [|fuel IH]; intros l; simpl.
  - eexists; reflexivity.
  - destruct (codec_step enc l) as [[cp w|reason w]|].
    + destruct (IH (skipn w l)) as [t ->]. eexists; reflexivity.
    + destruct errors; [congruence|apply IH|].
      destruct (IH (skipn w l)) as [t ->]. eexists; reflexivity.
    + eexists; reflexivity.
Qed.

Lemma decode_lossy enc errors data :
  errors <> Strict -> decode enc errors data = Returns (decoded enc errors data).
Proof.
  intros Hl. unfold decoded.
  destruct (decode_loop_lossy enc errors (length data) (map Byte.to_N data) Hl)
    as [t Ht].
  unfold decode. rewrite Ht. reflexivity.
Qed.

(* ===================================================================== *)
(** * The Credential Hunter                                               *)
(* ===================================================================== *)

Section MoreDictFacts.
Context {K V : Type}.
Variable dec : forall x y : K, {x = y} + {x <> y}.

Lemma dict_set_set (k : K) (v1 v2 : V) (d : dict K V) :
  dict_set dec k v2 (dict_set dec k v1 d) = dict_set dec k v2 d.
Proof.
  induction d as [|[k' v'] d IH]; simpl.
  - destruct (dec k k); congruence.
  - destruct (dec k k') as [->|Hne]; simpl.
    + destruct (dec k' k'); congruence.
    + destruct (dec k k'); [contradiction|]. rewrite IH. reflexivity.
Qed.

Lemma dict_set_fresh (k : K) (v : V) (d : dict K V) :
  ~ In k (dict_keys d) -> dict_set dec k v d = d ++ [(k, v)].
Proof.
  induction d as [|[k' v'] d IH]; simpl; [reflexivity|].
  intros Hnin. destruct (dec k k') as [->|Hne]; [tauto|].
  rewrite IH by tauto. reflexivity.
Qed.

Lemma dict_get_fresh (k : K) (d : dict K V) :
  ~ In k (dict_keys d) -> dict_get dec k d = None.
Proof.
  intros Hnin. destruct (dict_get dec k d) eqn:E; [|reflexivity].
  exfalso. apply Hnin. apply (dict_get_in_keys dec). congruence.
Qed.

Lemma dict_get_In (k : K) (v : V) (d : dict K V) :
  NoDup (dict_keys d) -> In (k, v) d -> dict_get dec k d = Some v.
Proof.
  induction d as [|[k' v'] d IH]; simpl; [tauto|].
  intros Hnd [Heq|Hin].
  - inversion Heq; subst. destruct (dec k k); congruence.
  - inversion Hnd as [|? ? Hnin Hnd']; subst.
    destruct (dec k k') as [->|Hne].
    + exfalso. apply Hnin. change k' with (fst (k', v)). apply in_map. exact Hin.
    + apply IH; assumption.
Qed.

(** On distinct keys, updating the entry of a key changes that entry only. *)
Lemma defaultdict_update_map (default : V) (k : K) (f : V -> V) (d : dict K V) :
  NoDup (dict_keys d) -> In k (dict_keys d) ->
  defaultdict_update dec default k f d
  = map (fun e => (fst e, if dec (fst e) k then f (snd e) else snd e)) d.
Proof.
  intros Hnd Hin. unfold defaultdict_update.
  induction d as [|[k' v'] d IH]; simpl in *; [tauto|].
  inversion Hnd as [|? ? Hnin Hnd']; subst.
  destruct (dec k k') as [->|Hne].
  - destruct (dec k' k'); [|congruence]. simpl.
    destruct (dec k' k'); [|congruence]. f_equal.
    rewrite <- (map_id d) at 1. apply map_ext_in. intros [k0 v0] H0. simpl.
    destruct (dec k0 k') as [->|]; [|reflexivity].
    exfalso. apply Hnin. change k' with (fst (k', v0)). apply in_map. exact H0.
  - destruct Hin as [Heq|Hin]; [congruence|].
    specialize (IH Hnd' Hin).
    destruct (dict_get dec k d) as [v|] eqn:E; simpl;
      (destruct (dec k k'); [congruence|]);
      (destruct (dec k' k); [congruence|]); f_equal; exact IH.
Qed.
End MoreDictFacts.

Lemma fold_left_flat_map {A B C} (f : A -> B -> A) (g : C -> list B)
  (l : list C) (a : A) :
  fold_left f (flat_map g l) a = fold_left (fun a x => fold_left f (g x) a) l a.
Proof.
  revert a. induction l as [|x l IH]; intros a; simpl; [reflexivity|].
  rewrite fold_left_app. apply IH.
Qed.

Lemma fold_left_over_map {A B C} (f : A -> B -> A) (g : C -> B)
  (l : list C) (a : A) :
  fold_left f (map g l) a = fold_left (fun a x => f a (g x)) l a.
Proof.
  revert a. induction l as [|x l IH]; intros a; simpl; [reflexivity|apply IH].
Qed.

(** Appending the matches of a category one at a time: the entry of the
    category is created by the first match and grows by the others. *)
Lemma append_items category (items : list cred_item) fs :
  fold_left (fun fs it =>
               defaultdict_update string_dec [] category (fun l => l ++ [it]) fs)
            items fs
  = match items with
    | [] => fs
    | _ :: _ =>
        dict_set string_dec category (stored_items category fs ++ items) fs
    end.
Proof.
  revert fs. induction items as [|it rest IH]; intros fs; [reflexivity|].
  cbn [fold_left]. rewrite IH.
  assert (Hupd : defaultdict_update string_dec [] category
                   (fun l => l ++ [it]) fs
                 = dict_set string_dec category
                     (stored_items category fs ++ [it]) fs).
  { unfold defaultdict_update, stored_items.
    destruct (dict_get string_dec category fs); reflexivity. }
  rewrite Hupd. destruct rest as [|it' rest]; [reflexivity|].
  unfold stored_items at 1. rewrite dict_get_set_same, dict_set_set.
  rewrite <- app_assoc. reflexivity.
Qed.

Lemma collect_category data category pattern_list fs :
  for_each pattern_list fs
    (fun findings pattern =>
       for_each (finditer true pattern data) findings
         (fun findings mt =>
            v <- decode Utf8 Replace (captured data mt) ;;
            Returns (defaultdict_update string_dec [] category
                       (fun l => l ++ [mk_cred_item (m_start mt) (firstn 200 v)])
                       findings)))
  = Returns
      (fold_left (fun fs it =>
                    defaultdict_update string_dec [] category
                      (fun l => l ++ [it]) fs)
                 (category_items data pattern_list) fs).
Proof.
  unfold category_items. rewrite fold_left_flat_map.
  apply for_each_fold. intros st pattern _.
  rewrite fold_left_over_map. apply for_each_fold. intros st' mt _.
  rewrite decode_lossy by discriminate. reflexivity.
Qed.

Lemma collect_fold data :
  CredentialHunter_collect data
  = Returns
      (fold_left
         (fun fs e =>
            fold_left (fun fs it =>
                         defaultdict_update string_dec [] (fst e)
                           (fun l => l ++ [it]) fs)
                      (category_items data (snd e)) fs)
         CredentialHunter_patterns []).
Proof.
  unfold CredentialHunter_collect. apply for_each_fold.
  intros st [category pattern_list] _. apply collect_category.
Qed.

Lemma collect_categories data (cats : list (string * list regex)) acc :
  NoDup (map fst cats) ->
  (forall c, In c (map fst cats) -> ~ In c (dict_keys acc)) ->
  fold_left
    (fun fs e =>
       fold_left (fun fs it =>
                    defaultdict_update string_dec [] (fst e)
                      (fun l => l ++ [it]) fs)
                 (category_items data (snd e)) fs)
    cats acc
  = acc ++ filter has_items
             (map (fun e => (fst e, category_items data (snd e))) cats).
Proof.
  revert acc. induction cats as [|[c ps] cats IH]; intros acc Hnd Hfresh.
  - simpl. rewrite app_nil_r. reflexivity.
  - cbn [fold_left map filter fst snd]. inversion Hnd as [|? ? Hnin Hnd']; subst.
    rewrite append_items. unfold has_items at 2. cbn [snd].
    assert (Hc : ~ In c (dict_keys acc)) by (apply Hfresh; left; reflexivity).
    destruct (category_items data ps) as [|it items] eqn:E.
    + apply IH; [exact Hnd'|]. intros c' Hc'. apply Hfresh. right. exact Hc'.
    + unfold stored_items. rewrite (dict_get_fresh string_dec) by exact Hc.
      rewrite (dict_set_fresh string_dec) by exact Hc. cbn [app].
      rewrite IH; [rewrite <- app_assoc; reflexivity|exact Hnd'|].
      intros c' Hc' Hin. unfold dict_keys in Hin. rewrite map_app in Hin.
      apply in_app_or in Hin. destruct Hin as [Hin|[Hin|[]]].
      * apply (Hfresh c'); [right; exact Hc'|exact Hin].
      * simpl in Hin. subst c'. exact (Hnin Hc').
Qed.

Lemma categories_distinct : NoDup (map fst CredentialHunter_patterns).
Proof. repeat constructor; cbn [In map fst CredentialHunter_patterns]; intuition discriminate. Qed.

(** The first loop builds [collected]. *)
Lemma collect_collected data :
  CredentialHunter_collect data = Returns (collected data).
Proof.
  rewrite collect_fold. f_equal.
  rewrite collect_categories; [reflexivity|exact categories_distinct|].
  intros c _ [].
Qed.

Lemma keys_of_filter {K V} (p : K * V -> bool) (d : dict K V) :
  NoDup (dict_keys d) -> NoDup (dict_keys (filter p d)).
Proof.
  induction d as [|[k v] d IH]; simpl; intros Hnd; [constructor|].
  inversion Hnd as [|? ? Hnin Hnd']; subst.
  destruct (p (k, v)); simpl; [constructor|]; auto.
  intros Hin. apply Hnin. unfold dict_keys in *.
  apply in_map_iff in Hin. destruct Hin as [[k' v'] [Hk Hin]]. simpl in Hk. subst k'.
  apply filter_In in Hin. change k with (fst (k, v')). apply in_map. tauto.
Qed.

Lemma collected_keys_distinct data : NoDup (dict_keys (collected data)).
Proof.
  unfold collected. apply keys_of_filter. unfold dict_keys.
  rewrite map_map. cbn [fst]. exact categories_distinct.
Qed.

(** ** The second loop: deduplication *)

Lemma set_add_In x y (st : pyset) : In y (set_add x st) <-> y = x \/ In y st.
Proof.
  unfold set_add. destruct (in_dec str_eq_dec x st) as [Hin|Hnin].
  - split; [auto|]. intros [->|H]; assumption.
  - rewrite in_app_iff. simpl. intuition congruence.
Qed.

Lemma filter_filter_comm {A} (p q : A -> bool) (l : list A) :
  filter p (filter q l) = filter q (filter p l).
Proof.
  induction l as [|x l IH]; simpl; [reflexivity|].
  destruct (p x) eqn:Hp, (q x) eqn:Hq; simpl; rewrite ?Hp, ?Hq, IH; reflexivity.
Qed.

Lemma filter_same_value (p : str -> bool) (x : cred_item) (l : list cred_item) :
  p (cred_value x) = false ->
  filter (fun y => p (cred_value y))
         (filter (fun y => if str_eq_dec (cred_value y) (cred_value x)
                           then false else true) l)
  = filter (fun y => p (cred_value y)) l.
Proof.
  intros Hp. induction l as [|y l IH]; simpl; [reflexivity|].
  destruct (str_eq_dec (cred_value y) (cred_value x)) as [Heq|Hne]; simpl.
  - rewrite Heq, Hp. exact IH.
  - rewrite IH. reflexivity.
Qed.

(** [first_seen] commutes with a filter that looks at the values only. *)
Lemma first_seen_filter (p : str -> bool) (l : list cred_item) :
  first_seen (filter (fun y => p (cred_value y)) l)
  = filter (fun y => p (cred_value y)) (first_seen l).
Proof.
  induction l as [|x l IH]; simpl; [reflexivity|].
  destruct (p (cred_value x)) eqn:Hp; simpl.
  - rewrite IH. f_equal. apply filter_filter_comm.
  - rewrite IH. symmetry. apply filter_same_value. exact Hp.
Qed.

Lemma unseen_add (x : cred_item) (seen : pyset) (l : list cred_item) :
  filter (unseen (set_add (cred_value x) seen)) l
  = filter (unseen seen)
      (filter (fun y => if str_eq_dec (cred_value y) (cred_value x)
                        then false else true) l).
Proof.
  induction l as [|y l IH]; simpl; [reflexivity|].
  assert (Hiff : unseen (set_add (cred_value x) seen) y
                 = (if str_eq_dec (cred_value y) (cred_value x)
                    then false else unseen seen y)).
  { unfold unseen, set_contains.
    destruct (in_dec str_eq_dec (cred_value y) (set_add (cred_value x) seen))
      as [Hin|Hnin];
      destruct (str_eq_dec (cred_value y) (cred_value x)) as [Heq|Hne];
      cbn [negb]; try reflexivity.
    - apply set_add_In in Hin. destruct Hin as [Hin|Hin]; [contradiction|].
      destruct (in_dec str_eq_dec (cred_value y) seen); [reflexivity|contradiction].
    - exfalso. apply Hnin. apply set_add_In. left. exact Heq.
    - destruct (in_dec str_eq_dec (cred_value y) seen) as [Hin|]; [|reflexivity].
      exfalso. apply Hnin. apply set_add_In. right. exact Hin. }
  rewrite Hiff.
  destruct (str_eq_dec (cred_value y) (cred_value x)); simpl.
  - exact IH.
  - rewrite IH. reflexivity.
Qed.

Lemma unique_loop (l : list cred_item) (seen : pyset) (unique : list cred_item) :
  snd (fold_left unique_step l (seen, unique))
  = unique ++ first_seen (filter (unseen seen) l).
Proof.
  revert seen unique. induction l as [|x l IH]; intros seen unique.
  - simpl. rewrite app_nil_r. reflexivity.
  - cbn [fold_left filter].
    change (unique_step (seen, unique) x)
      with (if set_contains (cred_value x) seen then (seen, unique)
            else (set_add (cred_value x) seen, unique ++ [x])).
    change (unseen seen x) with (negb (set_contains (cred_value x) seen)).
    destruct (set_contains (cred_value x) seen) eqn:Hc; cbn [negb].
    + apply IH.
    + rewrite IH. rewrite <- app_assoc. cbn [app first_seen]. do 2 f_equal.
      rewrite <- (first_seen_filter
                    (fun v => if str_eq_dec v (cred_value x) then false else true)).
      rewrite filter_filter_comm.
      f_equal. apply unseen_add.
Qed.

(** The loop with [seen] and [unique] keeps the first item of each value. *)
Lemma unique_items_first_seen (l : list cred_item) :
  unique_items l = first_seen l.
Proof.
  unfold unique_items. rewrite unique_loop. cbn [app]. f_equal.
  induction l as [|x l IH]; simpl; [reflexivity|]. f_equal. exact IH.
Qed.

Lemma first_seen_values (l : list cred_item) v :
  In v (map cred_value (first_seen l)) <-> In v (map cred_value l).
Proof.
  induction l as [|x l IH]; simpl; [tauto|].
  rewrite <- IH. rewrite !in_map_iff. split.
  - intros [Hx|[y [Hy Hin]]]; [left; exact Hx|].
    apply filter_In in Hin. right. exists y. tauto.
  - intros [Hx|[y [Hy Hin]]]; [left; exact Hx|].
    destruct (str_eq_dec (cred_value y) (cred_value x)) as [Heq|Hne].
    + left. congruence.
    + right. exists y. split; [exact Hy|]. apply filter_In. split; [exact Hin|].
      destruct (str_eq_dec (cred_value y) (cred_value x)); congruence.
Qed.

(** Filtering keeps the images of the items distinct. *)
Lemma distinct_images_filter {Item Image : Type} (keep : Item -> bool)
  (image : Item -> Image) (items : list Item) :
  NoDup (map image items) -> NoDup (map image (filter keep items)).
Proof.
  induction items as [|x items IH]; simpl; intros Hnd; [constructor|].
  inversion Hnd as [|? ? Hnin Hnd']; subst.
  destruct (keep x); simpl; [constructor|]; auto.
  intros Hin. apply Hnin. apply in_map_iff in Hin.
  destruct Hin as [y [Hy Hin]]. apply filter_In in Hin.
  rewrite <- Hy. apply in_map. tauto.
Qed.

Lemma first_seen_NoDup (l : list cred_item) :
  NoDup (map cred_value (first_seen l)).
Proof.
  induction l as [|x l IH]; simpl; constructor.
  - intros Hin. apply in_map_iff in Hin. destruct Hin as [y [Hy Hin]].
    apply filter_In in Hin. destruct Hin as [_ Hne].
    destruct (str_eq_dec (cred_value y) (cred_value x)); congruence.
  - apply distinct_images_filter. exact IH.
Qed.

Lemma first_seen_incl (l : list cred_item) x : In x (first_seen l) -> In x l.
Proof.
  revert x. induction l as [|y l IH]; simpl; intros x; [tauto|].
  intros [->|Hin]; [left; reflexivity|].
  apply filter_In in Hin. right. apply IH. tauto.
Qed.

(** On distinct keys the second loop rewrites every entry in place. *)
Lemma dedup_fold (ks : list string) (fs : dict string (list cred_item)) :
  NoDup (dict_keys fs) -> NoDup ks -> incl ks (dict_keys fs) ->
  fold_left (fun fs category =>
               defaultdict_update string_dec [] category unique_items fs) ks fs
  = map (fun e => (fst e, if in_dec string_dec (fst e) ks
                          then unique_items (snd e) else snd e)) fs.
Proof.
  revert fs. induction ks as [|k ks IH]; intros fs Hnd Hks Hincl.
  - simpl. rewrite <- (map_id fs) at 1. apply map_ext. intros [k v]. reflexivity.
  - cbn [fold_left]. inversion Hks as [|? ? Hnin Hks']; subst.
    rewrite (defaultdict_update_map string_dec) by
      (try exact Hnd; apply Hincl; left; reflexivity).
    rewrite IH.
    + rewrite map_map. apply map_ext. intros [k' v']. cbn [fst snd]. f_equal.
      destruct (string_dec k' k) as [->|Hne].
      * destruct (in_dec string_dec k ks); [contradiction|].
        destruct (in_dec string_dec k (k :: ks)) as [|Hn]; [reflexivity|].
        exfalso. apply Hn. left. reflexivity.
      * destruct (in_dec string_dec k' ks) as [Hin|Hn];
          destruct (in_dec string_dec k' (k :: ks)) as [Hin'|Hn'];
          try reflexivity; exfalso.
        -- apply Hn'. right. exact Hin.
        -- destruct Hin'; [congruence|contradiction].
    + unfold dict_keys. rewrite map_map. cbn [fst]. exact Hnd.
    + exact Hks'.
    + unfold dict_keys. rewrite map_map. cbn [fst].
      intros x Hx. apply Hincl. right. exact Hx.
Qed.

Lemma dedup_map (fs : dict string (list cred_item)) :
  NoDup (dict_keys fs) ->
  CredentialHunter_dedup fs = map (fun e => (fst e, unique_items (snd e))) fs.
Proof.
  intros Hnd. unfold CredentialHunter_dedup.
  rewrite dedup_fold; [|exact Hnd|exact Hnd|apply incl_refl].
  apply map_ext_in. intros [k v] Hin. cbn [fst snd].
  destruct (in_dec string_dec k (dict_keys fs)) as [|Hn]; [reflexivity|].
  exfalso. apply Hn. change k with (fst (k, v)). apply in_map. exact Hin.
Qed.

(** What the Credential Hunter stores: for every category that has a match,
    in the order of [patterns], the first item seen of each value. *)
Lemma findings_first_seen data :
  CredentialHunter_findings data
  = Returns (map (fun e => (fst e, first_seen (snd e))) (collected data)).
Proof.
  unfold CredentialHunter_findings. rewrite collect_collected. cbn [bind].
  rewrite dedup_map by apply collected_keys_distinct.
  f_equal. apply map_ext. intros [k v]. cbn [fst snd].
  rewrite unique_items_first_seen. reflexivity.
Qed.

Lemma collected_In data category pattern_list :
  In (category, pattern_list) CredentialHunter_patterns ->
  category_items data pattern_list <> [] ->
  In (category, category_items data pattern_list) (collected data).
Proof.
  intros Hin Hne. unfold collected. apply filter_In. split.
  - apply in_map_iff. exists (category, pattern_list). split; [reflexivity|exact Hin].
  - unfold has_items. cbn [snd].
    destruct (category_items data pattern_list); congruence.
Qed.

Lemma collected_absent data category pattern_list :
  In (category, pattern_list) CredentialHunter_patterns ->
  category_items data pattern_list = [] ->
  ~ In category (dict_keys (collected data)).
Proof.
  intros Hin He Hk. unfold dict_keys in Hk. apply in_map_iff in Hk.
  destruct Hk as [[c items] [Hc Hk]]. cbn [fst] in Hc. subst c.
  unfold collected in Hk. apply filter_In in Hk. destruct Hk as [Hk Hhas].
  apply in_map_iff in Hk. destruct Hk as [[c ps] [Heq Hk]].
  cbn [fst snd] in Heq. inversion Heq; subst.
  assert (ps = pattern_list).
  { pose proof categories_distinct as Hnd.
    assert (Hget : forall l, NoDup (map fst l) ->
              In (category, ps) l -> In (category, pattern_list) l ->
              ps = pattern_list).
    { clear. induction l as [|[c q] l IH]; simpl; intros Hnd H1 H2; [tauto|].
      inversion Hnd as [|? ? Hnin Hnd']; subst.
      destruct H1 as [H1|H1], H2 as [H2|H2].
      - congruence.
      - inversion H1; subst. exfalso. apply Hnin.
        change category with (fst (category, pattern_list)). apply in_map. exact H2.
      - inversion H2; subst. exfalso. apply Hnin.
        change category with (fst (category, ps)). apply in_map. exact H1.
      - apply IH; assumption. }
    apply (Hget CredentialHunter_patterns); assumption. }
  subst ps. unfold has_items in Hhas. cbn [snd] in Hhas. rewrite He in Hhas.
  discriminate.
Qed.

Lemma stored_first_seen data category pattern_list :
  In (category, pattern_list) CredentialHunter_patterns ->
  stored_items category
    (map (fun e => (fst e, first_seen (snd e))) (collected data))
  = first_seen (category_items data pattern_list).
Proof.
  intros Hin. unfold stored_items.
  assert (Hkeys : dict_keys (map (fun e : string * list cred_item =>
                                    (fst e, first_seen (snd e))) (collected data))
                  = dict_keys (collected data)).
  { unfold dict_keys. rewrite map_map. reflexivity. }
  destruct (category_items data pattern_list) as [|it items] eqn:E.
  - rewrite (dict_get_fresh string_dec); [reflexivity|].
    rewrite Hkeys. apply (collected_absent data category pattern_list Hin E).
  - rewrite (dict_get_In string_dec category (first_seen (it :: items))).
    + reflexivity.
    + rewrite Hkeys. apply collected_keys_distinct.
    + apply in_map_iff. exists (category, it :: items). split; [reflexivity|].
      rewrite <- E. apply collected_In; [exact Hin|]. rewrite E. discriminate.
Qed.

Lemma category_items_short data pattern_list it :
  In it (category_items data pattern_list) -> length (cred_value it) <= 200.
Proof.
  unfold category_items. rewrite in_flat_map. intros [pattern [_ Hin]].
  apply in_map_iff in Hin. destruct Hin as [mt [<- _]].
  cbn [cred_item_of cred_value]. rewrite length_firstn. lia.
Qed.

(** C6.  For every buffer and every credential category, the stored result
    holds each distinct captured value exactly once, in first-seen order,
    each value cut to at most 200 characters; and on the buffer
    password: secret123 password: secret123 the result is exactly one
    passwords entry, of value secret123. *)
Theorem credentials_deduplicated :
  (forall data : bytes,
     exists findings,
       CredentialHunter_findings data = Returns findings
       /\ forall category pattern_list,
            In (category, pattern_list) CredentialHunter_patterns ->
            stored_items category findings
            = first_seen (category_items data pattern_list)
            /\ NoDup (map cred_value (stored_items category findings))
            /\ (forall v, In v (map cred_value (category_items data pattern_list))
                          <-> In v (map cred_value (stored_items category findings)))
            /\ Forall (fun it => length (cred_value it) <= 200)
                      (stored_items category findings))
  /\ CredentialHunter_findings (b "password: secret123 password: secret123")
     = Returns [("passwords", [mk_cred_item 0 (s "secret123")])].
Proof.
  split.
  - intros data. eexists. split; [apply findings_first_seen|].
    intros category pattern_list Hin.
    rewrite (stored_first_seen data category pattern_list Hin).
    split; [reflexivity|]. split; [apply first_seen_NoDup|]. split.
    + intros v. symmetry. apply first_seen_values.
    + apply Forall_forall. intros it Hit.
      apply (category_items_short data pattern_list).
      apply first_seen_incl. exact Hit.
  - vm_compute. reflexivity.
Qed.

(** C10.  For every buffer, every category key of the mapping the
    Credential Hunter returns has a non-empty list, and a category without a
    match is not a key of it. *)
Theorem credential_categories_nonempty (data : bytes) :
  exists d,
    CredentialHunter_analyze data = Returns (VDict d)
    /\ Forall (fun entry => exists item items, snd entry = VList (item :: items)) d
    /\ forall category pattern_list,
         In (category, pattern_list) CredentialHunter_patterns ->
         category_items data pattern_list = [] ->
         dict_get string_dec category d = None.
Proof.
  unfold CredentialHunter_analyze. rewrite findings_first_seen. cbn [bind].
  eexists. split; [reflexivity|]. split.
  - apply Forall_forall. intros [k v] Hin. cbn [snd].
    apply in_map_iff in Hin. destruct Hin as [[k' l'] [Heq Hin]].
    cbn [fst snd] in Heq. inversion Heq; subst. clear Heq.
    apply in_map_iff in Hin. destruct Hin as [[k0 l0] [Heq Hin]].
    cbn [fst snd] in Heq. inversion Heq; subst. clear Heq.
    unfold collected in Hin. apply filter_In in Hin. destruct Hin as [_ Hhas].
    unfold has_items in Hhas. cbn [snd] in Hhas.
    destruct l0 as [|x l0]; [discriminate|]. simpl. eauto.
  - intros category pattern_list Hin He.
    apply (dict_get_fresh string_dec). unfold dict_keys.
    rewrite !map_map. cbn [fst].
    apply (collected_absent data category pattern_list Hin He).
Qed.

(* ===================================================================== *)
(** * The layout statistics                                               *)
(* ===================================================================== *)

Lemma range_by_four (n : nat) :
  range 0 (Z.of_nat n - 4) 4
  = map (fun k => (4 * Z.of_nat k)%Z) (seq 0 ((n - 1) / 4)).
Proof.
  unfold range. f_equal.
  f_equal. replace (Z.of_nat n - 4 - 0 + 4 - 1)%Z with (Z.of_nat n - 1)%Z by lia.
  destruct n as [|n].
  - reflexivity.
  - replace (Z.of_nat (S n) - 1)%Z with (Z.of_nat n) by lia.
    replace (S n - 1) with n by lia.
    change 4%Z with (Z.of_nat 4). rewrite <- Nat2Z.inj_div. apply Nat2Z.id.
Qed.

(** The chunks the loop of the Layout Analyzer counts: those that begin at
    0, 4, 8, ... before position [len(data) - 4]. *)
Lemma patterns_counted (data : bytes) :
  HexDumpAnalyzer_patterns data
  = count_chunks (map (fun k => slice data (4 * k) (4 * k + 4))
                      (seq 0 ((length data - 1) / 4))).
Proof.
  unfold HexDumpAnalyzer_patterns, count_chunks.
  rewrite range_by_four, !fold_left_over_map.
  generalize (@nil (bytes * nat)).
  induction (seq 0 ((length data - 1) / 4)) as [|k ks IH]; intros patterns;
    cbn [fold_left]; [reflexivity|].
  replace (Z.to_nat (4 * Z.of_nat k)) with (4 * k) by lia.
  replace (Z.to_nat (4 * Z.of_nat k + 4)) with (4 * k + 4) by lia.
  apply IH.
Qed.

(** When the length is not a multiple of 4 these are all the aligned
    chunks. *)
Lemma patterns_counted_unaligned (data : bytes) :
  length data mod 4 <> 0 ->
  HexDumpAnalyzer_top_patterns data = top_patterns_spec data.
Proof.
  intros Hmod. unfold HexDumpAnalyzer_top_patterns, top_patterns_spec.
  rewrite patterns_counted. unfold aligned_chunks.
  replace ((length data - 1) / 4) with (length data / 4); [reflexivity|].
  pose proof (Nat.div_mod_eq (length data) 4) as H.
  pose proof (Nat.mod_upper_bound (length data) 4 ltac:(lia)) as Hb.
  apply (Nat.div_unique _ 4 _ (length data mod 4 - 1)); lia.
Qed.

(** C4.  On the eight bytes AAAABBBB, whose length is a multiple of 4, the
    Layout Analyzer counts the chunk AAAA only: the last aligned chunk,
    BBBB, is left out, while the ten most frequent aligned chunks of the
    whole buffer are AAAA and BBBB, once each. *)
Theorem last_aligned_chunk_skipped :
  HexDumpAnalyzer_top_patterns (b "AAAABBBB") = [(b "AAAA", 1)]
  /\ map pattern_py (HexDumpAnalyzer_top_patterns (b "AAAABBBB"))
     = [VTuple [VStr (s "41414141"); VInt 1]]
  /\ aligned_chunks (b "AAAABBBB") = [b "AAAA"; b "BBBB"]
  /\ top_patterns_spec (b "AAAABBBB") = [(b "AAAA", 1); (b "BBBB", 1)].
Proof. repeat split; vm_compute; reflexivity. Qed.

(* ===================================================================== *)
(** * The matcher finds matches of the pattern                            *)
(* ===================================================================== *)

Section MatcherSound.
Variable ignorecase : bool.
Variable data : bytes.


Lemma repeat_loop_sound {X}
  (body : nat -> captures -> (nat -> captures -> option X) -> option X)
  (R : nat -> captures -> nat -> captures -> Prop) :
  (forall i c k x, body i c k = Some x ->
                   exists j c', R i c j c' /\ k j c' = Some x) ->
  forall lo k more done i caps x,
    repeat_loop body lo k more done i caps = Some x ->
    exists n j c',
      n <= more /\ lo <= done + n /\ times R n i caps j c' /\ k j c' = Some x.
Proof.
  intros Hbody lo k more.
  assert (Hstop : forall done i caps x,
            (if (lo <=? done)%nat then k i caps else None) = Some x ->
            exists n j c',
              n <= more /\ lo <= done + n /\ times R n i caps j c'
              /\ k j c' = Some x).
  { intros done i caps x H. destruct (lo <=? done)%nat eqn:E; [|discriminate].
    apply Nat.leb_le in E. exists 0, i, caps. simpl. repeat split; auto; lia. }
  induction more as [|more IH]; intros done i caps x H; cbn [repeat_loop] in H.
  - apply Hstop in H. exact H.
  - destruct (body i caps _) as [y|] eqn:E.
    + inversion H; subst y. clear H.
      apply Hbody in E. destruct E as (j & c' & HR & Hk).
      destruct (Nat.eqb j i) eqn:Eji; [discriminate|].
      apply Nat.eqb_neq in Eji.
      assert (Hstop' : forall done i caps x,
                (if (lo <=? done)%nat then k i caps else None) = Some x ->
                exists n j c',
                  n <= more /\ lo <= done + n /\ times R n i caps j c'
                  /\ k j c' = Some x).
      { intros done0 i0 caps0 x0 H0. destruct (lo <=? done0)%nat eqn:E0; [|discriminate].
        apply Nat.leb_le in E0. exists 0, i0, caps0. simpl.
        repeat split; auto; lia. }
      destruct (IH Hstop' _ _ _ _ Hk) as (n & j' & c'' & Hn & Hlo & Ht & Hk').
      exists (S n), j', c''. repeat split; [lia|lia| |exact Hk'].
      simpl. exists j, c'. auto.
    + destruct (Hstop _ _ _ _ H) as (n & j & c' & Hn & Hlo & Ht & Hk).
      exists n, j, c'. auto.
Qed.

(** Whatever the matcher returns comes from a match of the pattern. *)
Lemma run_sound (r : regex) :
  forall {X} i c (k : nat -> captures -> option X) x,
    run ignorecase data r i c k = Some x ->
    exists j c', spans ignorecase data r i c j c' /\ k j c' = Some x.
Proof.
  induction r as [ch|negate items|r1 IH1 r2 IH2|lo hi r1 IH1|g r1 IH1|];
    intros X i c k x H; cbn [run] in H.
  - destruct (nth_error data i) as [y|] eqn:E; [|discriminate].
    destruct (lit_match ignorecase ch y) eqn:Em; [|discriminate].
    exists (S i), c. split; [|exact H]. simpl. exists y. auto.
  - destruct (nth_error data i) as [y|] eqn:E; [|discriminate].
    destruct (set_match ignorecase negate items y) eqn:Em; [|discriminate].
    exists (S i), c. split; [|exact H]. simpl. exists y. auto.
  - apply IH1 in H. destruct H as (m & cm & H1 & H).
    apply IH2 in H. destruct H as (j & c' & H2 & H).
    exists j, c'. split; [|exact H]. simpl. exists m, cm. auto.
  - apply (repeat_loop_sound _ (spans ignorecase data r1)) in H; [|intros; apply IH1; assumption].
    destruct H as (n & j & c' & Hn & Hlo & Ht & Hk).
    exists j, c'. split; [|exact Hk]. simpl. exists n. split; [|exact Ht].
    split; [lia|]. destruct hi; simpl in Hn; [exact Hn|exact I].
  - apply IH1 in H. destruct H as (j & cm & H1 & H).
    exists j, ((g, (i, j)) :: cm). split; [|exact H]. simpl. exists cm. auto.
  - destruct (at_boundary data i) eqn:E; [|discriminate].
    exists i, c. split; [|exact H]. simpl. auto.
Qed.

(** A match does not go backwards, and stays inside the buffer. *)
Lemma spans_range (r : regex) i c j c' :
  spans ignorecase data r i c j c' ->
  i <= j /\ (i <= length data -> j <= length data).
Proof.
  revert i c j c'.
  induction r as [ch|negate items|r1 IH1 r2 IH2|lo hi r1 IH1|g r1 IH1|];
    intros i c j c' H; simpl in H.
  - destruct H as (y & Hy & _ & -> & _).
    assert (i < length data) by (apply nth_error_Some; congruence). lia.
  - destruct H as (y & Hy & _ & -> & _).
    assert (i < length data) by (apply nth_error_Some; congruence). lia.
  - destruct H as (m & cm & H1 & H2). apply IH1 in H1. apply IH2 in H2. lia.
  - destruct H as (n & _ & Ht). revert i c Ht.
    induction n as [|n IHn]; intros i c Ht; simpl in Ht.
    + destruct Ht as [-> _]. lia.
    + destruct Ht as (m & cm & H1 & _ & Ht). apply IH1 in H1.
      apply IHn in Ht. lia.
  - destruct H as (cm & H1 & _). apply IH1 in H1. exact H1.
  - destruct H as (_ & -> & _). lia.
Qed.

Lemma match_at_sound (r : regex) (i : nat) (mt : match_object) :
  match_at ignorecase data r i = Some mt ->
  m_start mt = i /\ spans ignorecase data r i [] (m_end mt) (m_groups mt).
Proof.
  unfold match_at. intros H. apply run_sound in H.
  destruct H as (j & c' & Hs & Hk). inversion Hk; subst. simpl. auto.
Qed.

Lemma search_sound (r : regex) (tries pos : nat) (mt : match_object) :
  search ignorecase data r tries pos = Some mt ->
  pos <= m_start mt < pos + tries
  /\ match_at ignorecase data r (m_start mt) = Some mt.
Proof.
  revert pos. induction tries as [|tries IH]; intros pos H; simpl in H;
    [discriminate|].
  destruct (match_at ignorecase data r pos) as [mt'|] eqn:E.
  - inversion H; subst mt'. destruct (match_at_sound _ _ _ E) as [Hs _].
    rewrite Hs. split; [lia|exact E].
  - apply IH in H. destruct H as [Hr Hm]. split; [lia|exact Hm].
Qed.

Lemma scan_sound (r : regex) (fuel pos : nat) (mt : match_object) :
  In mt (scan ignorecase data r fuel pos) ->
  pos <= m_start mt /\ match_at ignorecase data r (m_start mt) = Some mt.
Proof.
  revert pos. induction fuel as [|fuel IH]; intros pos H; cbn [scan] in H;
    [destruct H|].
  destruct (search ignorecase data r (S (length data) - pos) pos) as [mt'|] eqn:E;
    [|simpl in H; contradiction].
  pose proof (search_sound _ _ _ _ E) as [Hr Hm].
  simpl in H. destruct H as [->|H]; [split; [lia|exact Hm]|].
  apply IH in H. destruct H as [Hle Hm']. split; [|exact Hm'].
  pose proof (match_at_sound _ _ _ Hm) as [_ Hsp].
  destruct (Nat.eqb (m_end mt') (m_start mt')) eqn:Ee.
  - apply Nat.eqb_eq in Ee. lia.
  - apply spans_range in Hsp. lia.
Qed.
End MatcherSound.

(** Every match [finditer] yields is a match of the pattern, from its
    [start()] to its [end()], with its groups. *)
Lemma finditer_sound ignorecase r data mt :
  In mt (finditer ignorecase r data) ->
  spans ignorecase data r (m_start mt) [] (m_end mt) (m_groups mt).
Proof.
  unfold finditer. intros H. apply scan_sound in H. destruct H as [_ H].
  apply match_at_sound in H. tauto.
Qed.

(** ** Slices of the buffer *)

Lemma firstn_plus {A} (n m : nat) (l : list A) :
  firstn (n + m) l = firstn n l ++ firstn m (skipn n l).
Proof.
  revert l. induction n as [|n IH]; intros l; [reflexivity|].
  destruct l as [|x l]; simpl.
  - rewrite firstn_nil. reflexivity.
  - rewrite IH. reflexivity.
Qed.

Lemma slice_split {A} (l : list A) (i j k : nat) :
  i <= j <= k -> slice l i k = slice l i j ++ slice l j k.
Proof.
  intros H. unfold slice.
  replace (k - i) with ((j - i) + (k - j)) by lia.
  rewrite firstn_plus. f_equal. rewrite skipn_skipn.
  replace (j - i + i) with j by lia. reflexivity.
Qed.

Lemma slice_empty {A} (l : list A) (i : nat) : slice l i i = [].
Proof. unfold slice. rewrite Nat.sub_diag. reflexivity. Qed.

Lemma slice_one {A} (l : list A) (i : nat) (y : A) :
  nth_error l i = Some y -> slice l i (S i) = [y].
Proof.
  unfold slice. replace (S i - i) with 1 by lia.
  revert i. induction l as [|x l IH]; intros [|i] H; simpl in *;
    try discriminate.
  - inversion H. reflexivity.
  - apply IH. exact H.
Qed.

Lemma slice_length {A} (l : list A) (i j : nat) :
  i <= j <= length l -> length (slice l i j) = j - i.
Proof.
  intros H. unfold slice. rewrite length_firstn, length_skipn. lia.
Qed.

Section SpanFacts.
Variable ignorecase : bool.
Variable data : bytes.

(** Every byte of a match is one a literal or a set of the pattern takes. *)
Lemma spans_consumes (r : regex) i c j c' :
  spans ignorecase data r i c j c' ->
  Forall (fun x => consumes ignorecase r x = true) (slice data i j).
Proof.
  revert i c j c'.
  induction r as [ch|negate items|r1 IH1 r2 IH2|lo hi r1 IH1|g r1 IH1|];
    intros i c j c' H; simpl in H.
  - destruct H as (y & Hy & Hm & -> & _). rewrite (slice_one _ _ _ Hy).
    constructor; [exact Hm|constructor].
  - destruct H as (y & Hy & Hm & -> & _). rewrite (slice_one _ _ _ Hy).
    constructor; [exact Hm|constructor].
  - destruct H as (m & cm & H1 & H2).
    pose proof (spans_range _ _ _ _ _ _ _ H1) as [Hl1 _].
    pose proof (spans_range _ _ _ _ _ _ _ H2) as [Hl2 _].
    rewrite (slice_split data i m j) by lia. apply Forall_app. split.
    + eapply Forall_impl; [|exact (IH1 _ _ _ _ H1)].
      intros x Hx. simpl. rewrite Hx. reflexivity.
    + eapply Forall_impl; [|exact (IH2 _ _ _ _ H2)].
      intros x Hx. simpl. rewrite Hx. apply orb_true_r.
  - destruct H as (n & _ & Ht). revert i c Ht.
    induction n as [|n IHn]; intros i c Ht; simpl in Ht.
    + destruct Ht as [-> _]. rewrite slice_empty. constructor.
    + destruct Ht as (m & cm & H1 & _ & Ht).
      pose proof (spans_range _ _ _ _ _ _ _ H1) as [Hl1 _].
      assert (Hl2 : m <= j).
      { clear - Ht IH1. revert m cm Ht. induction n as [|n IHn]; intros m cm Ht;
          simpl in Ht.
        - destruct Ht as [-> _]. lia.
        - destruct Ht as (m' & cm' & H1 & _ & Ht).
          apply spans_range in H1. apply IHn in Ht. lia. }
      rewrite (slice_split data i m j) by lia. apply Forall_app. split.
      * exact (IH1 _ _ _ _ H1).
      * exact (IHn _ _ Ht).
  - destruct H as (cm & H1 & _). exact (IH1 _ _ _ _ H1).
  - destruct H as (_ & -> & _). rewrite slice_empty. constructor.
Qed.

(** A pattern that takes bytes has no empty match. *)
Lemma spans_takes_bytes (r : regex) i c j c' :
  takes_bytes r = true -> spans ignorecase data r i c j c' -> i < j.
Proof.
  revert i c j c'.
  induction r as [ch|negate items|r1 IH1 r2 IH2|lo hi r1 IH1|g r1 IH1|];
    intros i c j c' Ht H; simpl in H, Ht.
  - destruct H as (y & _ & _ & -> & _). lia.
  - destruct H as (y & _ & _ & -> & _). lia.
  - destruct H as (m & cm & H1 & H2).
    pose proof (spans_range _ _ _ _ _ _ _ H1) as [Hl1 _].
    pose proof (spans_range _ _ _ _ _ _ _ H2) as [Hl2 _].
    apply orb_true_iff in Ht. destruct Ht as [Ht|Ht].
    + specialize (IH1 _ _ _ _ Ht H1). lia.
    + specialize (IH2 _ _ _ _ Ht H2). lia.
  - apply andb_true_iff in Ht. destruct Ht as [Hlo Ht].
    apply Nat.ltb_lt in Hlo. destruct H as (n & [Hn _] & Htimes).
    destruct n as [|n]; [lia|]. simpl in Htimes.
    destruct Htimes as (m & cm & H1 & _ & Hrest).
    specialize (IH1 _ _ _ _ Ht H1).
    assert (m <= j).
    { clear - Hrest. revert m cm Hrest. induction n as [|n IHn]; intros m cm Ht;
        simpl in Ht.
      - destruct Ht as [-> _]. lia.
      - destruct Ht as (m' & cm' & H1 & _ & Ht).
        apply spans_range in H1. apply IHn in Ht. lia. }
    lia.
  - destruct H as (cm & H1 & _). exact (IH1 _ _ _ _ Ht H1).
  - discriminate.
Qed.
End SpanFacts.

Lemma scan_start_range ignorecase data r fuel pos mt :
  In mt (scan ignorecase data r fuel pos) -> m_start mt <= length data.
Proof.
  revert pos. induction fuel as [|fuel IH]; intros pos H; cbn [scan] in H;
    [destruct H|].
  destruct (search ignorecase data r (S (length data) - pos) pos) as [mt'|] eqn:E;
    [|destruct H].
  destruct H as [->|H]; [|exact (IH _ H)].
  apply search_sound in E. lia.
Qed.

(** A match [finditer] yields of a pattern that takes bytes begins inside
    the buffer and ends after it begins. *)
Lemma finditer_inside ignorecase r data mt :
  takes_bytes r = true ->
  In mt (finditer ignorecase r data) ->
  m_start mt < m_end mt <= length data.
Proof.
  intros Ht Hin. unfold finditer in Hin.
  pose proof (scan_start_range _ _ _ _ _ _ Hin) as Hle.
  apply finditer_sound in Hin.
  pose proof (spans_takes_bytes _ _ _ _ _ _ _ Ht Hin) as Hlt.
  apply spans_range in Hin. lia.
Qed.

(* ===================================================================== *)
(** * Decoding matched bytes                                              *)
(* ===================================================================== *)

(** ASCII bytes decode to themselves, in either codec and under every error
    policy, the strict one too. *)
Lemma decode_ascii_exact enc errors (w : bytes) :
  Forall (fun x => is_ascii x = true) w ->
  decode enc errors w = Returns (text w).
Proof.
  unfold decode, text. induction w as [|x w IH]; intros Hall; [reflexivity|].
  inversion Hall as [|? ? Hx Hw]; subst. cbn [length map decode_loop].
  unfold is_ascii in Hx.
  assert (Hstep : codec_step enc (Byte.to_N x :: map Byte.to_N w)
                  = Some (Char (Byte.to_N x) 1)).
  { unfold code in Hx. destruct enc; simpl; rewrite Hx; reflexivity. }
  rewrite Hstep. cbn [skipn]. rewrite (IH Hw). reflexivity.
Qed.

Lemma for_each_append {A B} (l : list A) (acc : list B)
  (body : list B -> A -> outcome (list B)) (h : A -> B) :
  (forall st x, In x l -> body st x = Returns (st ++ [h x])) ->
  for_each l acc body = Returns (acc ++ map h l).
Proof.
  intros Hbody. rewrite (for_each_fold l acc body (fun st x => st ++ [h x]) Hbody).
  f_equal. clear Hbody. revert acc.
  induction l as [|x l IH]; intros acc; simpl.
  - rewrite app_nil_r. reflexivity.
  - rewrite IH, <- app_assoc. reflexivity.
Qed.

Lemma spans_groupless ignorecase data (r : regex) i c j c' :
  groupless r = true -> spans ignorecase data r i c j c' -> c' = c.
Proof.
  revert i c j c'.
  induction r as [ch|negate items|r1 IH1 r2 IH2|lo hi r1 IH1|g r1 IH1|];
    intros i c j c' Hg H; simpl in H, Hg.
  - destruct H as (y & _ & _ & _ & ->). reflexivity.
  - destruct H as (y & _ & _ & _ & ->). reflexivity.
  - apply andb_true_iff in Hg. destruct Hg as [Hg1 Hg2].
    destruct H as (m & cm & H1 & H2).
    apply (IH1 _ _ _ _ Hg1) in H1. apply (IH2 _ _ _ _ Hg2) in H2. congruence.
  - destruct H as (n & _ & Ht). revert i c Ht.
    induction n as [|n IHn]; intros i c Ht; simpl in Ht.
    + destruct Ht as [_ ->]. reflexivity.
    + destruct Ht as (m & cm & H1 & _ & Ht).
      apply (IH1 _ _ _ _ Hg) in H1. apply IHn in Ht. congruence.
  - discriminate.
  - destruct H as (_ & _ & ->). reflexivity.
Qed.

(** ** StringExtractor *)

Lemma string_pattern_ascii (x : byte) :
  consumes false StringExtractor_pattern x = true -> is_ascii x = true.
Proof. destruct x; vm_compute; congruence. Qed.

Lemma string_match_ascii data mt :
  In mt (finditer false StringExtractor_pattern data) ->
  Forall (fun x => is_ascii x = true) (group0 data mt).
Proof.
  intros Hin. apply finditer_sound in Hin. apply spans_consumes in Hin.
  unfold group0. eapply Forall_impl; [|exact Hin].
  intros x. apply string_pattern_ascii.
Qed.

(** The list [strings]: one item per match, in the order of the matches,
    with the matched bytes as its content. *)
Lemma string_items data :
  StringExtractor_strings data
  = Returns (map (string_item_of data) (finditer false StringExtractor_pattern data)).
Proof.
  unfold StringExtractor_strings.
  rewrite (for_each_append _ _ _ (string_item_of data)); [reflexivity|].
  intros st mt Hin.
  rewrite (decode_ascii_exact Ascii Ignore) by (apply string_match_ascii; exact Hin).
  cbn [bind]. unfold string_item_of, text. rewrite length_map. reflexivity.
Qed.

(** ** BSONFieldAnalyzer *)

Lemma field_pattern_ascii (x : byte) :
  consumes false BSONFieldAnalyzer_pattern x = true -> is_ascii x = true.
Proof. destruct x; vm_compute; congruence. Qed.

(** A match of the field pattern: the group is the match without its last
    byte, which is the null byte. *)
Lemma field_match_shape data mt :
  In mt (finditer false BSONFieldAnalyzer_pattern data) ->
  exists m,
    m_end mt = S m /\ m_start mt < m
    /\ m_groups mt = [(1, (m_start mt, m))]
    /\ nth_error data m = Some x00.
Proof.
  intros Hin. apply finditer_sound in Hin.
  unfold BSONFieldAnalyzer_pattern in Hin. cbn [spans] in Hin.
  destruct Hin as (m & cm & (cm' & Hbody & ->) & (y & Hy & Hlit & -> & ->)).
  exists m. split; [reflexivity|].
  assert (Hg : groupless (Seq (set field_head) (from_to 1 50 (set field_tail)))
               = true) by reflexivity.
  pose proof (spans_groupless _ _ _ _ _ _ _ Hg Hbody) as ->.
  assert (Ht : takes_bytes (Seq (set field_head) (from_to 1 50 (set field_tail)))
               = true) by reflexivity.
  pose proof (spans_takes_bytes _ _ _ _ _ _ _ Ht Hbody) as Hlt.
  split; [exact Hlt|]. split; [reflexivity|].
  rewrite Hy. f_equal. clear - Hlit. destruct y; vm_compute in Hlit; congruence.
Qed.

Lemma field_match_ascii data mt :
  In mt (finditer false BSONFieldAnalyzer_pattern data) ->
  Forall (fun x => is_ascii x = true) (group data 1 mt).
Proof.
  intros Hin. destruct (field_match_shape data mt Hin) as (m & He & Hlt & Hg & _).
  apply finditer_sound in Hin. apply spans_consumes in Hin.
  unfold group. rewrite Hg. cbn [group_span Nat.eqb].
  rewrite He in Hin. rewrite (slice_split data (m_start mt) m (S m)) in Hin by lia.
  apply Forall_app in Hin. destruct Hin as [Hin _].
  eapply Forall_impl; [|exact Hin]. intros x. apply field_pattern_ascii.
Qed.

(** The list [field_names]: one item per match, with the bytes of the group
    as its name. *)
Lemma field_items data :
  BSONFieldAnalyzer_field_names data
  = Returns (map (field_item_of data)
                 (finditer false BSONFieldAnalyzer_pattern data)).
Proof.
  unfold BSONFieldAnalyzer_field_names.
  rewrite (for_each_append _ _ _ (field_item_of data)); [reflexivity|].
  intros st mt Hin.
  rewrite (decode_ascii_exact Utf8 Ignore) by (apply field_match_ascii; exact Hin).
  reflexivity.
Qed.

(** ** EmailExtractor *)

Lemma email_pattern_ascii (x : byte) :
  consumes false EmailExtractor_pattern x = true -> is_ascii x = true.
Proof. destruct x; vm_compute; congruence. Qed.

Lemma email_match_ascii data mt :
  In mt (finditer false EmailExtractor_pattern data) ->
  Forall (fun x => is_ascii x = true) (group0 data mt).
Proof.
  intros Hin. apply finditer_sound in Hin. apply spans_consumes in Hin.
  unfold group0. eapply Forall_impl; [|exact Hin].
  intros x. apply email_pattern_ascii.
Qed.

(** The set [emails]: the matched texts, each added once. *)
Lemma email_set data :
  EmailExtractor_emails data
  = Returns (fold_left (fun emails mt => set_add (text (group0 data mt)) emails)
                       (finditer false EmailExtractor_pattern data) []).
Proof.
  unfold EmailExtractor_emails. apply for_each_fold. intros st mt Hin.
  rewrite (decode_ascii_exact Utf8 Ignore) by (apply email_match_ascii; exact Hin).
  reflexivity.
Qed.

(** ** JSONExtractor *)

(** The list [findings]: the candidates that parse, in the order of the
    matches; a candidate that does not parse leaves the others in place. *)
Lemma json_items json_loads data :
  JSONExtractor_findings json_loads data
  = Returns (flat_map (json_items_of json_loads data)
                      (finditer false JSONExtractor_pattern data)).
Proof.
  unfold JSONExtractor_findings.
  rewrite (for_each_fold _ _ _
             (fun st mt => st ++ json_items_of json_loads data mt)).
  - f_equal.
    assert (Hacc : forall l acc,
              fold_left (fun st mt => st ++ json_items_of json_loads data mt) l acc
              = acc ++ flat_map (json_items_of json_loads data) l).
    { induction l as [|mt l IH]; intros acc; simpl.
      - rewrite app_nil_r. reflexivity.
      - rewrite IH, app_assoc. reflexivity. }
    apply Hacc.
  - intros st mt _. unfold JSONExtractor_step, json_items_of.
    rewrite decode_lossy by discriminate. cbn [bind].
    destruct (json_loads (decoded Utf8 Ignore (group0 data mt))); simpl.
    + reflexivity.
    + rewrite app_nil_r. reflexivity.
Qed.

(** ** IPAddressExtractor *)

Lemma all_returns {A} (p : A -> outcome bool) (q : A -> bool) (l : list A) :
  (forall x, In x l -> p x = Returns (q x)) ->
  all_ p l = Returns (forallb q l).
Proof.
  induction l as [|x l IH]; intros H; simpl; [reflexivity|].
  rewrite (H x) by (left; reflexivity). cbn [bind].
  destruct (q x); [|reflexivity]. apply IH. intros y Hy. apply H. right. exact Hy.
Qed.

(** On a non-empty run of digits [int] returns. *)
Lemma octet_of_digits (p : str) :
  p <> [] -> forallb is_ascii_digit p = true -> octet p = Returns (octet_ok p).
Proof.
  intros Hne Hd. unfold octet, octet_ok, int.
  destruct p as [|c p]; [congruence|]. rewrite Hd. reflexivity.
Qed.

Lemma split_no_separator (sep : N) (p : str) :
  ~ In sep p -> split sep p = [p].
Proof.
  induction p as [|c p IH]; intros Hn; simpl; [reflexivity|].
  destruct (N.eqb_spec c sep) as [->|Hne]; [exfalso; apply Hn; left; reflexivity|].
  rewrite IH by (intros H; apply Hn; right; exact H). reflexivity.
Qed.

Lemma split_at_separator (sep : N) (p rest : str) :
  ~ In sep p -> split sep (p ++ sep :: rest) = p :: split sep rest.
Proof.
  induction p as [|c p IH]; intros Hn; simpl.
  - rewrite N.eqb_refl. reflexivity.
  - destruct (N.eqb_spec c sep) as [->|Hne]; [exfalso; apply Hn; left; reflexivity|].
    rewrite IH by (intros H; apply Hn; right; exact H). reflexivity.
Qed.

Lemma digits_no_dot (d : bytes) :
  Forall (fun x => is_digit_byte x = true) d -> ~ In 46%N (text d).
Proof.
  intros Hd Hin. unfold text in Hin. apply in_map_iff in Hin.
  destruct Hin as (x & Hx & Hin). rewrite Forall_forall in Hd.
  specialize (Hd x Hin). unfold is_digit_byte, is_ascii_digit in Hd.
  rewrite Hx in Hd. discriminate.
Qed.

Lemma digits_text (d : bytes) :
  Forall (fun x => is_digit_byte x = true) d ->
  forallb is_ascii_digit (text d) = true.
Proof.
  intros Hd. unfold text. rewrite forallb_forall. intros c Hc.
  apply in_map_iff in Hc. destruct Hc as (x & <- & Hin).
  rewrite Forall_forall in Hd. exact (Hd x Hin).
Qed.

Lemma digit_set_digit (x : byte) :
  consumes false (from_to 1 3 digit) x = true -> is_digit_byte x = true.
Proof. destruct x; vm_compute; congruence. Qed.

(** One to three digits. *)
Lemma digits_word data i c j c' :
  i <= length data ->
  spans false data (from_to 1 3 digit) i c j c' ->
  i < j <= length data /\ c' = c
  /\ slice data i j <> []
  /\ Forall (fun x => is_digit_byte x = true) (slice data i j).
Proof.
  intros Hi H.
  pose proof (spans_range _ _ _ _ _ _ _ H) as [Hle Hlen]. specialize (Hlen Hi).
  pose proof (spans_takes_bytes false data (from_to 1 3 digit) _ _ _ _
                eq_refl H) as Hlt.
  pose proof (spans_groupless false data (from_to 1 3 digit) _ _ _ _
                eq_refl H) as Hc.
  apply spans_consumes in H. repeat split; try assumption.
  - intros He. pose proof (slice_length data i j ltac:(lia)) as Hl.
    rewrite He in Hl. simpl in Hl. lia.
  - eapply Forall_impl; [|exact H]. intros x. apply digit_set_digit.
Qed.

(** One to three digits and a dot. *)
Lemma digits_dot data i c j c' :
  i <= length data ->
  spans false data (Seq (from_to 1 3 digit) (Lit ".")) i c j c' ->
  exists d,
    slice data i j = d ++ ["."%byte] /\ d <> []
    /\ Forall (fun x => is_digit_byte x = true) d
    /\ i < j <= length data /\ c' = c.
Proof.
  intros Hi H. cbn [spans] in H.
  destruct H as (m & cm & Hd & (y & Hy & Hlit & -> & ->)).
  apply (digits_word data i c m cm Hi) in Hd.
  destruct Hd as (Hr & -> & Hne & Hall).
  assert (Hm : m < length data) by (apply nth_error_Some; congruence).
  exists (slice data i m). repeat split; try assumption; try lia.
  rewrite (slice_split data i m (S m)) by lia. f_equal.
  rewrite (slice_one _ _ _ Hy). f_equal.
  clear - Hlit. destruct y; vm_compute in Hlit; congruence.
Qed.

(** A match of the IP pattern: four runs of digits with dots between. *)
Lemma ip_match_shape data mt :
  In mt (finditer false IPAddressExtractor_pattern data) ->
  exists d1 d2 d3 d4,
    group0 data mt = (d1 ++ ["."%byte]) ++ (d2 ++ ["."%byte])
                     ++ (d3 ++ ["."%byte]) ++ d4
    /\ Forall (fun d => d <> [] /\ Forall (fun x => is_digit_byte x = true) d)
              [d1; d2; d3; d4].
Proof.
  intros Hin. pose proof (scan_start_range _ _ _ _ _ _ Hin) as Hi.
  apply finditer_sound in Hin.
  unfold IPAddressExtractor_pattern in Hin. cbn [spans] in Hin.
  destruct Hin as (m0 & c0 & (_ & -> & ->) & Hin).
  destruct Hin as (m3 & c3 & (n & [Hn3 Hn3'] & Ht) & Hin).
  destruct Hin as (m4 & c4 & Hd4 & (_ & He & _)).
  assert (n = 3) by lia. subst n. cbn [times] in Ht.
  destruct Ht as (m1 & c1 & H1 & _ & m2 & c2 & H2 & _ & m3' & c3' & H3 & _ & -> & ->).
  apply digits_dot in H1; [|exact Hi].
  destruct H1 as (d1 & Hs1 & Hne1 & Hall1 & Hr1 & ->).
  apply digits_dot in H2; [|lia].
  destruct H2 as (d2 & Hs2 & Hne2 & Hall2 & Hr2 & ->).
  apply digits_dot in H3; [|lia].
  destruct H3 as (d3 & Hs3 & Hne3 & Hall3 & Hr3 & ->).
  apply digits_word in Hd4; [|lia].
  destruct Hd4 as (Hr4 & _ & Hne4 & Hall4).
  exists d1, d2, d3, (slice data m3' (m_end mt)). rewrite He. split.
  - unfold group0. rewrite He.
    rewrite (slice_split data (m_start mt) m1 m4) by lia.
    rewrite (slice_split data m1 m2 m4) by lia.
    rewrite (slice_split data m2 m3' m4) by lia.
    rewrite Hs1, Hs2, Hs3. reflexivity.
  - repeat constructor; assumption.
Qed.

Lemma text_app (w1 w2 : bytes) : text (w1 ++ w2) = text w1 ++ text w2.
Proof. apply map_app. Qed.

Lemma digits_ascii (d : bytes) :
  Forall (fun x => is_digit_byte x = true) d ->
  Forall (fun x => is_ascii x = true) d.
Proof.
  apply Forall_impl. intros x. unfold is_digit_byte, is_ascii_digit, is_ascii.
  intros H. apply andb_true_iff in H. destruct H as [_ H].
  apply N.leb_le in H. apply N.ltb_lt. lia.
Qed.

(** The body of the loop never raises: the candidate is ASCII, so the strict
    decode returns, and its parts are numbers, so [int] returns. *)
Lemma ip_step data ips mt :
  In mt (finditer false IPAddressExtractor_pattern data) ->
  IPAddressExtractor_step data ips mt
  = Returns (if ip_valid (text (group0 data mt))
             then set_add (text (group0 data mt)) ips else ips).
Proof.
  intros Hin. destruct (ip_match_shape data mt Hin) as (d1 & d2 & d3 & d4 & Hw & Hall).
  inversion Hall as [|? ? [Hne1 Hd1] Hall1]; subst.
  inversion Hall1 as [|? ? [Hne2 Hd2] Hall2]; subst.
  inversion Hall2 as [|? ? [Hne3 Hd3] Hall3]; subst.
  inversion Hall3 as [|? ? [Hne4 Hd4] _]; subst.
  unfold IPAddressExtractor_step.
  assert (Hascii : Forall (fun x => is_ascii x = true) (group0 data mt)).
  { rewrite Hw. repeat (apply Forall_app; split);
      try (apply digits_ascii; assumption); repeat constructor. }
  rewrite (decode_ascii_exact Utf8 Strict _ Hascii). cbn [bind].
  assert (Hparts : split 46 (text (group0 data mt))
                   = [text d1; text d2; text d3; text d4]).
  { rewrite Hw. rewrite !text_app. cbn [text map code]. rewrite <- !app_assoc.
    cbn [app]. change (Byte.to_N "."%byte) with 46%N.
    rewrite !split_at_separator by (apply digits_no_dot; assumption).
    rewrite split_no_separator by (apply digits_no_dot; assumption).
    reflexivity. }
  unfold ip_valid. rewrite Hparts.
  rewrite (all_returns octet octet_ok); [reflexivity|].
  intros p Hp. apply octet_of_digits.
  - cbn [In] in Hp. unfold text in Hp.
    destruct Hp as [<-|[<-|[<-|[<-|[]]]]]; intros He;
      apply map_eq_nil in He; contradiction.
  - cbn [In] in Hp.
    destruct Hp as [<-|[<-|[<-|[<-|[]]]]]; apply digits_text; assumption.
Qed.

(** The set [ips]: the candidates that pass the check, each added once. *)
Lemma ip_set data :
  IPAddressExtractor_ips data
  = Returns (fold_left
               (fun ips mt => if ip_valid (text (group0 data mt))
                              then set_add (text (group0 data mt)) ips else ips)
               (finditer false IPAddressExtractor_pattern data) []).
Proof.
  unfold IPAddressExtractor_ips. apply for_each_fold.
  intros st mt Hin. apply ip_step. exact Hin.
Qed.

(* ===================================================================== *)
(** * No analyzer raises                                                  *)
(* ===================================================================== *)

(** The guard on [total_size] keeps the division from raising. *)
Lemma percentage_returns (part total_size : nat) :
  exists v, percentage part total_size = Returns v.
Proof.
  unfold percentage, truediv. destruct (0 <? total_size)%nat eqn:E.
  - apply Nat.ltb_lt in E. destruct (Nat.eqb_spec total_size 0) as [->|_]; [lia|].
    eexists. reflexivity.
  - eexists. reflexivity.
Qed.

Lemma HexDumpAnalyzer_returns data :
  exists result, HexDumpAnalyzer_analyze data = Returns result.
Proof.
  unfold HexDumpAnalyzer_analyze.
  destruct (percentage_returns (count_occ Byte.byte_eq_dec data x00) (length data))
    as [v1 ->].
  destruct (percentage_returns
              (length (filter (fun x => between 32 126 (code x)) data))
              (length data)) as [v2 ->].
  eexists. reflexivity.
Qed.

Lemma set_fold_keeps {A} (p : A -> bool) (f : A -> str) (l : list A)
  (acc : pyset) (x : str) :
  In x acc ->
  In x (fold_left (fun st a => if p a then set_add (f a) st else st) l acc).
Proof.
  revert acc. induction l as [|a l IH]; intros acc H; simpl; [exact H|].
  apply IH. destruct (p a); [|exact H]. apply set_add_In. right. exact H.
Qed.

Lemma set_fold_adds {A} (p : A -> bool) (f : A -> str) (l : list A)
  (acc : pyset) (a : A) :
  In a l -> p a = true ->
  In (f a) (fold_left (fun st a => if p a then set_add (f a) st else st) l acc).
Proof.
  revert acc. induction l as [|a0 l IH]; intros acc Hin Hp; simpl; [destruct Hin|].
  destruct Hin as [->|Hin].
  - apply set_fold_keeps. rewrite Hp. apply set_add_In. left. reflexivity.
  - apply IH; assumption.
Qed.

(** C2.  For every buffer, each of the seven analyzers of [main] returns a
    result; in the Structured-Record Extractor every candidate that parses
    is reported, whatever becomes of the other candidates, and in the IP
    Address Extractor every candidate that passes the check is reported. *)
Theorem analyzers_never_raise
  (json_loads : str -> outcome pyval) (seed : hash_seed) (data : bytes) :
  (forall a, In a (main_analyzers json_loads seed) ->
             exists result, analyze a data = Returns result)
  /\ (exists findings,
        JSONExtractor_findings json_loads data = Returns findings
        /\ findings = flat_map (json_items_of json_loads data)
                               (finditer false JSONExtractor_pattern data)
        /\ forall mt parsed,
             In mt (finditer false JSONExtractor_pattern data) ->
             bind (decode Utf8 Ignore (group0 data mt)) json_loads
             = Returns parsed ->
             In (mk_json_item (m_start mt) parsed) findings)
  /\ (exists ips,
        IPAddressExtractor_ips data = Returns ips
        /\ forall mt,
             In mt (finditer false IPAddressExtractor_pattern data) ->
             ip_valid (text (group0 data mt)) = true ->
             In (text (group0 data mt)) ips).
Proof.
  split; [|split].
  - intros a Hin. cbn [main_analyzers In] in Hin.
    destruct Hin as [<-|[<-|[<-|[<-|[<-|[<-|[<-|[]]]]]]]]; cbn [analyze].
    + apply HexDumpAnalyzer_returns.
    + unfold CredentialHunter, CredentialHunter_analyze. cbn [analyze].
      rewrite findings_first_seen. eexists. reflexivity.
    + unfold BSONFieldAnalyzer, BSONFieldAnalyzer_analyze. cbn [analyze].
      rewrite field_items. eexists. reflexivity.
    + unfold StringExtractor, StringExtractor_analyze. cbn [analyze].
      rewrite string_items. eexists. reflexivity.
    + unfold JSONExtractor, JSONExtractor_analyze. cbn [analyze].
      rewrite json_items. eexists. reflexivity.
    + unfold EmailExtractor, EmailExtractor_analyze. cbn [analyze].
      rewrite email_set. eexists. reflexivity.
    + unfold IPAddressExtractor, IPAddressExtractor_analyze. cbn [analyze].
      rewrite ip_set. eexists. reflexivity.
  - eexists. split; [apply json_items|]. split; [reflexivity|].
    intros mt parsed Hin Hp. apply in_flat_map. exists mt. split; [exact Hin|].
    unfold json_items_of. rewrite decode_lossy in Hp by discriminate.
    cbn [bind] in Hp. rewrite Hp. left. reflexivity.
  - eexists. split; [apply ip_set|]. intros mt Hin Hv.
    apply (set_fold_adds (fun mt => ip_valid (text (group0 data mt)))
             (fun mt => text (group0 data mt))); assumption.
Qed.

(* ===================================================================== *)
(** * The offsets of the findings                                         *)
(* ===================================================================== *)



Lemma In_firstn {A} (n : nat) (l : list A) (x : A) :
  In x (firstn n l) -> In x l.
Proof.
  revert l. induction n as [|n IH]; intros [|y l] H; simpl in H; try tauto.
  destruct H as [->|H]; [left; reflexivity|right; apply IH; exact H].
Qed.

Lemma collected_entry data category items :
  In (category, items) (collected data) ->
  exists pattern_list,
    In (category, pattern_list) CredentialHunter_patterns
    /\ items = category_items data pattern_list.
Proof.
  unfold collected. intros H. apply filter_In in H. destruct H as [H _].
  apply in_map_iff in H. destruct H as ([c ps] & Heq & Hin).
  cbn [fst snd] in Heq. inversion Heq; subst. exists ps. auto.
Qed.



(* ===================================================================== *)
(** * The decode policies                                                 *)
(* ===================================================================== *)



Lemma stored_items_are_matches data category items it :
  In (category, items)
     (map (fun e => (fst e, first_seen (snd e))) (collected data)) ->
  In it items ->
  exists pattern_list pattern mt,
    In (category, pattern_list) CredentialHunter_patterns
    /\ In pattern pattern_list
    /\ In mt (finditer true pattern data)
    /\ it = cred_item_of data mt.
Proof.
  intros Hin Hit. apply in_map_iff in Hin. destruct Hin as ([c items0] & Heq & Hin).
  cbn [fst snd] in Heq. inversion Heq; subst. clear Heq.
  destruct (collected_entry data category items0 Hin) as (ps & Hps & ->).
  apply first_seen_incl in Hit. unfold category_items in Hit.
  apply in_flat_map in Hit. destruct Hit as (pattern & Hp & Hit).
  apply in_map_iff in Hit. destruct Hit as (mt & <- & Hmt).
  exists ps, pattern, mt. auto.
Qed.



(* ===================================================================== *)
(** * Determinism                                                         *)
(* ===================================================================== *)

(** ** The order of str *)

Lemma str_ltb_asym (x y : str) : str_ltb x y = true -> str_ltb y x = false.
Proof.
  revert y. induction x as [|a x IH]; intros [|c y] H; simpl in *;
    try reflexivity; try discriminate.
  destruct (N.ltb_spec a c) as [Hac|Hac].
  - destruct (N.ltb_spec c a); [lia|reflexivity].
  - destruct (N.ltb_spec c a) as [Hca|Hca]; [discriminate|].
    apply IH. exact H.
Qed.

Lemma str_ltb_trans (x y z : str) :
  str_ltb x y = true -> str_ltb y z = true -> str_ltb x z = true.
Proof.
  revert y z. induction x as [|a x IH]; intros [|c y] [|d z] H1 H2; simpl in *;
    try reflexivity; try discriminate.
  destruct (N.ltb_spec a c) as [Hac|Hac];
    destruct (N.ltb_spec c d) as [Hcd|Hcd];
    destruct (N.ltb_spec a d) as [Had|Had]; try reflexivity; try lia.
  - destruct (N.ltb_spec d c); [discriminate|]. lia.
  - destruct (N.ltb_spec c a); [discriminate|lia].
  - destruct (N.ltb_spec c a); [discriminate|].
    destruct (N.ltb_spec d c); [discriminate|].
    destruct (N.ltb_spec d a); [lia|]. eapply IH; eassumption.
Qed.

Lemma str_ltb_total (x y : str) :
  str_ltb x y = false -> str_ltb y x = false -> x = y.
Proof.
  revert y. induction x as [|a x IH]; intros [|c y] H1 H2; simpl in *;
    try reflexivity; try discriminate.
  destruct (N.ltb_spec a c) as [Hac|Hac]; [discriminate|].
  destruct (N.ltb_spec c a) as [Hca|Hca]; [discriminate|].
  assert (a = c) by lia. subst c. f_equal. apply IH; assumption.
Qed.

(** ** Sorting *)

Section SortingFacts.
Context {A : Type}.
Variable ahead : A -> A -> bool.
Hypothesis ahead_asym : forall x y, ahead x y = true -> ahead y x = false.
Hypothesis ahead_trans :
  forall x y z, ahead x y = true -> ahead y z = true -> ahead x z = true.
Hypothesis ahead_total :
  forall x y, ahead x y = false -> ahead y x = false -> x = y.

Lemma ahead_through (x y z : A) :
  ahead z y = false -> ahead z x = true -> ahead y x = true.
Proof.
  intros Hzy Hzx. destruct (ahead y z) eqn:Hyz.
  - eapply ahead_trans; eassumption.
  - rewrite (ahead_total _ _ Hyz Hzy). exact Hzx.
Qed.

Lemma insert_sorted_comm (x y : A) (l : list A) :
  insert_sorted ahead x (insert_sorted ahead y l)
  = insert_sorted ahead y (insert_sorted ahead x l).
Proof.
  induction l as [|z l IH].
  - simpl. destruct (ahead y x) eqn:Hyx.
    + rewrite (ahead_asym _ _ Hyx). reflexivity.
    + destruct (ahead x y) eqn:Hxy; [reflexivity|].
      rewrite (ahead_total _ _ Hxy Hyx). reflexivity.
  - cbn [insert_sorted].
    destruct (ahead z y) eqn:Hzy; destruct (ahead z x) eqn:Hzx;
      cbn [insert_sorted]; rewrite ?Hzy, ?Hzx.
    + rewrite IH. reflexivity.
    + rewrite (ahead_through y x z Hzx Hzy). reflexivity.
    + rewrite (ahead_through x y z Hzy Hzx). reflexivity.
    + destruct (ahead y x) eqn:Hyx.
      * rewrite (ahead_asym _ _ Hyx). reflexivity.
      * destruct (ahead x y) eqn:Hxy; [reflexivity|].
        rewrite (ahead_total _ _ Hxy Hyx). reflexivity.
Qed.

(** Sorting by a total order does not depend on the order of the input. *)
Lemma sort_stable_permutation (l l' : list A) :
  Permutation l l' -> sort_stable ahead l = sort_stable ahead l'.
Proof.
  induction 1 as [|x l l' _ IH|x y l|l l' l'' _ IH1 _ IH2]; simpl.
  - reflexivity.
  - rewrite IH. reflexivity.
  - apply insert_sorted_comm.
  - congruence.
Qed.
End SortingFacts.

(** [sorted] is stable: the items of one key keep their input order. *)
Lemma sorted_reverse_stable {A} (key : A -> nat) (l : list A) (k : nat) :
  filter (fun e => Nat.eqb (key e) k) (sorted_reverse key l)
  = filter (fun e => Nat.eqb (key e) k) l.
Proof.
  unfold sorted_reverse, sort_stable.
  induction l as [|x l IH]; [reflexivity|]. cbn [fold_right filter].
  rewrite <- IH. clear IH.
  induction (fold_right (insert_sorted (fun y x0 => (key x0 <? key y)%nat)) [] l)
    as [|y s IHs]; [reflexivity|].
  cbn [insert_sorted]. destruct (Nat.ltb_spec (key x) (key y)) as [Hlt|Hge].
  - cbn [filter]. rewrite IHs.
    destruct (Nat.eqb_spec (key y) k) as [Hy|Hy];
      destruct (Nat.eqb_spec (key x) k) as [Hx|Hx]; try reflexivity.
    lia.
  - reflexivity.
Qed.

(** ** The iteration order of a set *)

Lemma insert_at_permutation {A} (n : nat) (x : A) (l : list A) :
  Permutation (insert_at n x l) (x :: l).
Proof.
  revert l. induction n as [|n IH]; intros [|y l]; simpl; try reflexivity.
  rewrite IH. apply perm_swap.
Qed.

Lemma iteration_order_permutation {A} (seed : hash_seed) (l : list A) :
  Permutation (iteration_order seed l) l.
Proof.
  revert seed. induction l as [|x l IH]; intros seed; simpl; [constructor|].
  rewrite insert_at_permutation. constructor. apply IH.
Qed.

Lemma insert_at_middle {A} (x : A) (l1 l2 : list A) :
  insert_at (length l1) x (l1 ++ l2) = l1 ++ x :: l2.
Proof.
  induction l1 as [|y l1 IH]; simpl.
  - destruct l2; reflexivity.
  - rewrite IH. reflexivity.
Qed.

(** The seeds select every order: the model of the iteration order leaves
    no order of the elements out. *)
Lemma iteration_order_any {A} (l l' : list A) :
  Permutation l l' -> exists seed, iteration_order seed l = l'.
Proof.
  revert l'. induction l as [|x l IH]; intros l' Hp.
  - apply Permutation_nil in Hp. subst. exists []. reflexivity.
  - assert (Hin : In x l') by (eapply Permutation_in; [exact Hp|left; reflexivity]).
    apply in_split in Hin. destruct Hin as (l1 & l2 & ->).
    apply Permutation_cons_app_inv in Hp.
    destruct (IH _ Hp) as [seed Hs].
    exists (length l1 :: seed). cbn [iteration_order hd tl]. rewrite Hs.
    apply insert_at_middle.
Qed.

(** Whatever order the set is iterated in, its sorted list is the same. *)
Lemma sorted_set_independent (seed1 seed2 : hash_seed) (st : pyset) :
  sorted_str (list_of_set seed1 st) = sorted_str (list_of_set seed2 st).
Proof.
  unfold sorted_str, list_of_set.
  apply (sort_stable_permutation str_ltb str_ltb_asym str_ltb_trans str_ltb_total).
  rewrite !iteration_order_permutation. reflexivity.
Qed.

(** C9.  For every buffer and every analyzer of [main], two runs of
    [analyze] on the buffer give the same result, whatever the hash seeds of
    the two processes (the order in which the sets are iterated); the
    results of the aggregator are the same too; and the rankings break ties
    by input order. *)
Theorem analyze_is_deterministic
  (json_loads : str -> outcome pyval) (seed1 seed2 : hash_seed) (data : bytes) :
  map (fun a => analyze a data) (main_analyzers json_loads seed1)
  = map (fun a => analyze a data) (main_analyzers json_loads seed2)
  /\ results (fst (run_pipeline (main_analyzers json_loads seed1) data))
     = results (fst (run_pipeline (main_analyzers json_loads seed2) data))
  /\ (forall (counts : list (bytes * nat)) k,
        filter (fun e => Nat.eqb (snd e) k) (sorted_reverse snd counts)
        = filter (fun e => Nat.eqb (snd e) k) counts)
  /\ (forall (counts : list (str * nat)) k,
        filter (fun e => Nat.eqb (snd e) k) (sorted_reverse snd counts)
        = filter (fun e => Nat.eqb (snd e) k) counts).
Proof.
  assert (Hemail : EmailExtractor_analyze seed1 data
                   = EmailExtractor_analyze seed2 data).
  { unfold EmailExtractor_analyze. rewrite email_set. cbn [bind].
    rewrite (sorted_set_independent seed1 seed2). reflexivity. }
  assert (Hip : IPAddressExtractor_analyze seed1 data
                = IPAddressExtractor_analyze seed2 data).
  { unfold IPAddressExtractor_analyze. rewrite ip_set. cbn [bind].
    rewrite (sorted_set_independent seed1 seed2). reflexivity. }
  assert (Hmap : map (fun a => analyze a data) (main_analyzers json_loads seed1)
                 = map (fun a => analyze a data) (main_analyzers json_loads seed2)).
  { cbn [main_analyzers map analyze EmailExtractor IPAddressExtractor].
    rewrite Hemail, Hip. reflexivity. }
  split; [exact Hmap|]. split; [|split; intros; apply sorted_reverse_stable].
  rewrite !run_pipeline_unfold. cbn [fst results].
  rewrite !fold_analyze_one_results.
  rewrite <- !(fold_left_over_map
                 (fun r p => dict_set string_dec (fst p) (snd p) r)
                 (fun a => (get_name a, entry_of a data))).
  f_equal. unfold entry_of.
  cbn [main_analyzers map get_name analyze EmailExtractor IPAddressExtractor].
  rewrite Hemail, Hip. reflexivity.
Qed.

(* ===================================================================== *)
(** * The Schema-Field-Name Analyzer finds the field names                *)
(* ===================================================================== *)

Lemma run_set_unfold {X} ignorecase data negate items i caps
  (k : nat -> captures -> option X) :
  run ignorecase data (In_ negate items) i caps k
  = match nth_error data i with
    | Some x =>
        if set_match ignorecase negate items x then k (S i) caps else None
    | None => None
    end.
Proof. reflexivity. Qed.

(** A greedy repetition of a set over a run of [m] bytes of the set that
    ends where the set fails: it takes the whole run, and goes on with what
    follows when that succeeds. *)
Lemma repeat_set_greedy {X} ignorecase data negate items lo
  (K : nat -> captures -> option X) (m : nat) :
  forall more done p caps x,
    (forall k, k < m ->
               exists y, nth_error data (p + k) = Some y
                         /\ set_match ignorecase negate items y = true) ->
    match nth_error data (p + m) with
    | Some y => set_match ignorecase negate items y = false
    | None => True
    end ->
    m <= more -> lo <= done + m ->
    K (p + m) caps = Some x ->
    repeat_loop (run ignorecase data (In_ negate items)) lo K more done p caps
    = Some x.
Proof.
  induction m as [|m IH]; intros more done p caps x Hrun Hnext Hmore Hlo HK.
  - rewrite Nat.add_0_r in *.
    assert (Hstop : (if (lo <=? done)%nat then K p caps else None) = Some x).
    { destruct (Nat.leb_spec lo done); [exact HK|lia]. }
    destruct more as [|more]; cbn [repeat_loop]; [exact Hstop|].
    rewrite run_set_unfold.
    destruct (nth_error data p) as [y|]; [|exact Hstop].
    rewrite Hnext. exact Hstop.
  - destruct more as [|more]; [lia|]. cbn [repeat_loop].
    rewrite run_set_unfold.
    destruct (Hrun 0 ltac:(lia)) as (y & Hy & Hm). rewrite Nat.add_0_r in Hy.
    rewrite Hy, Hm.
    destruct (Nat.eqb_spec (S p) p) as [Hbad|_]; [lia|].
    rewrite (IH more (S done) (S p) caps x); [reflexivity| | | lia | lia |].
    + intros k Hk. destruct (Hrun (S k) ltac:(lia)) as (z & Hz & Hzm).
      exists z. split; [|exact Hzm]. rewrite <- Hz. f_equal. lia.
    + replace (S p + m) with (p + S m) by lia. exact Hnext.
    + replace (S p + m) with (p + S m) by lia. exact HK.
Qed.






Lemma search_finds ignorecase data r q mq :
  match_at ignorecase data r q = Some mq ->
  forall tries pos,
    pos <= q < pos + tries ->
    exists mt,
      search ignorecase data r tries pos = Some mt
      /\ m_start mt <= q /\ (m_start mt = q -> mt = mq).
Proof.
  intros Hq. induction tries as [|tries IH]; intros pos Hr; [lia|].
  cbn [search]. destruct (match_at ignorecase data r pos) as [mt|] eqn:E.
  - exists mt. split; [reflexivity|].
    destruct (match_at_sound _ _ _ _ _ E) as [Hs _]. split; [lia|].
    intros Heq. rewrite Hs in Heq. subst pos. congruence.
  - assert (pos <> q) by (intros ->; congruence).
    destruct (IH (S pos) ltac:(lia)) as (mt & Hs & Hle & Heq).
    exists mt. auto.
Qed.








(* ===================================================================== *)
(** * The bounds of the loops are never reached                           *)
(* ===================================================================== *)

(** ** Decoding *)

Lemma codec_step_width enc l st :
  codec_step enc l = Some st -> 1 <= step_width st.
Proof.
  destruct enc, l as [|b0 r]; simpl; intros H; try discriminate;
    inversion H; subst; clear H.
  - destruct (b0 <? 128)%N; simpl; lia.
  - repeat match goal with
           | |- context [if ?c then _ else _] => destruct c
           | |- context [match ?l with [] => _ | _ :: _ => _ end] => destruct l
           end; simpl; lia.
Qed.

(** The decoding loop ends at the end of the input: more fuel than the
    length of the input changes nothing. *)
Lemma decode_loop_fuel enc errors :
  forall fuel1 fuel2 l,
    length l <= fuel1 -> length l <= fuel2 ->
    decode_loop enc errors fuel1 l = decode_loop enc errors fuel2 l.
Proof.
  induction fuel1 as [|fuel1 IH]; intros fuel2 l H1 H2.
  - destruct l; [|simpl in H1; lia].
    destruct fuel2; simpl; [reflexivity|]. destruct enc; reflexivity.
  - destruct l as [|x l].
    + destruct fuel2; simpl; destruct enc; reflexivity.
    + destruct fuel2 as [|fuel2]; [simpl in H2; lia|]. cbn [decode_loop].
      destruct (codec_step enc (x :: l)) as [st|] eqn:E; [|reflexivity].
      pose proof (codec_step_width _ _ _ E) as Hw.
      assert (Hlen : forall w, 1 <= w -> length (skipn w (x :: l)) <= length l).
      { intros w Hw'. rewrite length_skipn. cbn [length]. lia. }
      destruct st as [cp w|reason w]; simpl in Hw.
      * specialize (Hlen w Hw). cbn [length] in H1, H2.
        rewrite (IH fuel2 (skipn w (x :: l))); [reflexivity|lia|lia].
      * specialize (Hlen w Hw). cbn [length] in H1, H2.
        destruct errors; [reflexivity| |];
          rewrite (IH fuel2 (skipn w (x :: l))); try reflexivity; lia.
Qed.

(** ** Scanning *)

(** The scanner ends at the end of the buffer: more fuel than the bytes
    left changes nothing. *)
Lemma scan_fuel ignorecase data r :
  forall fuel1 fuel2 pos,
    S (length data) - pos <= fuel1 -> S (length data) - pos <= fuel2 ->
    scan ignorecase data r fuel1 pos = scan ignorecase data r fuel2 pos.
Proof.
  assert (Hend : forall fuel pos, S (length data) - pos = 0 ->
                   scan ignorecase data r fuel pos = []).
  { intros [|fuel] pos H; cbn [scan]; [reflexivity|]. rewrite H. reflexivity. }
  induction fuel1 as [|fuel1 IH]; intros fuel2 pos H1 H2.
  - rewrite (Hend fuel2 pos) by lia. reflexivity.
  - destruct fuel2 as [|fuel2]; [rewrite (Hend (S fuel1) pos) by lia; reflexivity|].
    cbn [scan].
    destruct (search ignorecase data r (S (length data) - pos) pos) as [mt|] eqn:E;
      [|reflexivity].
    f_equal. apply search_sound in E. destruct E as [Hrange Hm].
    apply match_at_sound in Hm. destruct Hm as [_ Hsp].
    apply spans_range in Hsp. destruct Hsp as [Hle _].
    destruct (Nat.eqb_spec (m_end mt) (m_start mt)); apply IH; lia.
Qed.

(** ** Repeating *)

Section RepeatBudget.
Variable ignorecase : bool.
Variable data : bytes.

Lemma repeat_loop_ext {X}
  (body : nat -> captures -> (nat -> captures -> option X) -> option X) lo :
  (forall i c k k', (forall j c', k j c' = k' j c') -> body i c k = body i c k') ->
  forall k k', (forall j c', k j c' = k' j c') ->
  forall more done i c,
    repeat_loop body lo k more done i c = repeat_loop body lo k' more done i c.
Proof.
  intros Hbody k k' Hk. induction more as [|more IH]; intros done i c;
    cbn [repeat_loop]; rewrite Hk; [reflexivity|].
  rewrite (Hbody i c _ (fun j c0 => if Nat.eqb j i then None
                                    else repeat_loop body lo k' more (S done) j c0)).
  - reflexivity.
  - intros j c'. destruct (Nat.eqb j i); [reflexivity|apply IH].
Qed.

(** The matcher depends on what the continuation returns only. *)
Lemma run_ext {X} (r : regex) :
  forall i c (k k' : nat -> captures -> option X),
    (forall j c', k j c' = k' j c') ->
    run ignorecase data r i c k = run ignorecase data r i c k'.
Proof.
  induction r as [ch|negate items|r1 IH1 r2 IH2|lo hi r1 IH1|g r1 IH1|];
    intros i c k k' Hk; cbn [run].
  - rewrite Hk. reflexivity.
  - rewrite Hk. reflexivity.
  - apply IH1. intros j c'. apply IH2. exact Hk.
  - apply repeat_loop_ext; [exact IH1|exact Hk].
  - apply IH1. intros j c'. apply Hk.
  - rewrite Hk. reflexivity.
Qed.

Lemma inside_ext {X} (i : nat) (k k' : nat -> captures -> option X) :
  (forall j c', i <= j <= length data -> k j c' = k' j c') ->
  forall j c', inside data i k j c' = inside data i k' j c'.
Proof.
  intros H j c'. unfold inside.
  destruct (Nat.leb_spec i j); [|reflexivity].
  destruct (Nat.leb_spec j (length data)); [|reflexivity]. cbn [andb].
  apply H. lia.
Qed.

Lemma inside_here {X} (i j : nat) (k : nat -> captures -> option X) c :
  i <= j <= length data -> inside data i k j c = k j c.
Proof.
  intros H. unfold inside.
  destruct (Nat.leb_spec i j); [|lia].
  destruct (Nat.leb_spec j (length data)); [|lia]. reflexivity.
Qed.

Lemma inside_inside {X} (i j : nat) (k : nat -> captures -> option X) :
  i <= j ->
  forall j' c', inside data j (inside data i k) j' c' = inside data j k j' c'.
Proof.
  intros Hij j' c'. unfold inside.
  destruct (Nat.leb_spec j j'); [|reflexivity].
  destruct (Nat.leb_spec j' (length data)); [|reflexivity]. cbn [andb].
  destruct (Nat.leb_spec i j'); [|lia]. reflexivity.
Qed.

Lemma repeat_loop_inside {X} (r1 : regex) lo (k : nat -> captures -> option X)
  (i0 : nat) :
  (forall i c (k : nat -> captures -> option X),
     i <= length data ->
     run ignorecase data r1 i c k
     = run ignorecase data r1 i c (inside data i k)) ->
  forall more done i c,
    i0 <= i <= length data ->
    repeat_loop (run ignorecase data r1) lo k more done i c
    = repeat_loop (run ignorecase data r1) lo (inside data i0 k) more done i c.
Proof.
  intros Hbody. induction more as [|more IH]; intros done i c Hi;
    cbn [repeat_loop]; rewrite (inside_here i0 i k c Hi); [reflexivity|].
  rewrite (Hbody i c _ ltac:(lia)).
  rewrite (Hbody i c (fun j c0 => if Nat.eqb j i then None
                                  else repeat_loop _ lo (inside data i0 k)
                                         more (S done) j c0) ltac:(lia)).
  rewrite (run_ext r1 i c _
             (inside data i
                (fun j c0 => if Nat.eqb j i then None
                             else repeat_loop (run ignorecase data r1) lo
                                    (inside data i0 k) more (S done) j c0))).
  - reflexivity.
  - apply inside_ext. intros j c' Hj.
    destruct (Nat.eqb j i); [reflexivity|]. apply IH. lia.
Qed.

(** The matcher calls its continuation only on positions from where it
    stands to the end of the buffer. *)
Lemma run_inside {X} (r : regex) :
  forall i c (k : nat -> captures -> option X),
    i <= length data ->
    run ignorecase data r i c k = run ignorecase data r i c (inside data i k).
Proof.
  induction r as [ch|negate items|r1 IH1 r2 IH2|lo hi r1 IH1|g r1 IH1|];
    intros i c k Hi; cbn [run].
  - destruct (nth_error data i) as [y|] eqn:E; [|reflexivity].
    assert (i < length data) by (apply nth_error_Some; congruence).
    rewrite inside_here by lia. reflexivity.
  - destruct (nth_error data i) as [y|] eqn:E; [|reflexivity].
    assert (i < length data) by (apply nth_error_Some; congruence).
    rewrite inside_here by lia. reflexivity.
  - rewrite (IH1 i c _ Hi).
    rewrite (IH1 i c (fun j c0 => run ignorecase data r2 j c0 (inside data i k)) Hi).
    apply run_ext. apply inside_ext. intros j c' Hj.
    rewrite (IH2 j c' k) by lia.
    rewrite (IH2 j c' (inside data i k)) by lia.
    apply run_ext. intros j' c''. symmetry. apply inside_inside. lia.
  - apply repeat_loop_inside; [exact IH1|lia].
  - rewrite (IH1 i c _ Hi).
    rewrite (IH1 i c (fun j c0 => inside data i k j ((g, (i, j)) :: c0)) Hi).
    apply run_ext. apply inside_ext. intros j c' Hj.
    rewrite inside_here by lia. reflexivity.
  - rewrite inside_here by lia. reflexivity.
Qed.

Lemma run_nowhere {X} (r : regex) i c :
  run ignorecase data r i c (fun _ _ => @None X) = None.
Proof.
  destruct (run ignorecase data r i c (fun _ _ => None)) as [x|] eqn:E;
    [|reflexivity].
  apply run_sound in E. destruct E as (j & c' & _ & H). discriminate.
Qed.

(** A repetition without upper bound makes at most as many iterations as
    bytes are left: a larger budget of iterations changes nothing. *)
Lemma repeat_budget {X} (r1 : regex) lo (k : nat -> captures -> option X) :
  forall more1 more2 done i c,
    i <= length data ->
    length data - i <= more1 -> length data - i <= more2 ->
    repeat_loop (run ignorecase data r1) lo k more1 done i c
    = repeat_loop (run ignorecase data r1) lo k more2 done i c.
Proof.
  assert (Hlast : forall more done i c,
            i = length data ->
            repeat_loop (run ignorecase data r1) lo k more done i c
            = (if (lo <=? done)%nat then k i c else None)).
  { intros [|more] done i c Hi; cbn [repeat_loop]; [reflexivity|].
    rewrite run_inside by lia.
    rewrite (run_ext r1 i c _ (inside data i (fun _ _ => None))).
    - rewrite <- run_inside by lia. rewrite run_nowhere. reflexivity.
    - apply inside_ext. intros j c' Hj.
      destruct (Nat.eqb_spec j i); [reflexivity|lia]. }
  induction more1 as [|more1 IH]; intros more2 done i c Hi H1 H2.
  - rewrite (Hlast 0), (Hlast more2) by lia. reflexivity.
  - destruct more2 as [|more2].
    + rewrite (Hlast (S more1)), (Hlast 0) by lia. reflexivity.
    + cbn [repeat_loop]. rewrite run_inside by exact Hi.
      rewrite (run_inside r1 i c
                 (fun j c0 => if Nat.eqb j i then None
                              else repeat_loop _ lo k more2 (S done) j c0))
        by exact Hi.
      rewrite (run_ext r1 i c _
                 (inside data i
                    (fun j c0 => if Nat.eqb j i then None
                                 else repeat_loop (run ignorecase data r1) lo k
                                        more2 (S done) j c0))).
      * reflexivity.
      * apply inside_ext. intros j c' Hj.
        destruct (Nat.eqb_spec j i); [reflexivity|]. apply IH; lia.
Qed.
End RepeatBudget.

(** No pattern of the analyzers matches the empty string. *)
Lemma analyzer_patterns_take_bytes :
  forallb takes_bytes
    [StringExtractor_pattern; JSONExtractor_pattern; BSONFieldAnalyzer_pattern;
     EmailExtractor_pattern; IPAddressExtractor_pattern] = true
  /\ forallb (fun e => forallb takes_bytes (snd e)) CredentialHunter_patterns
     = true.
Proof. split; vm_compute; reflexivity. Qed.

(* ===================================================================== *)
(** * Counting and ranking                                                *)
(* ===================================================================== *)

(** ** Counting in a dictionary *)

Section TallyFacts.
Context {K : Type}.
Variable dec : forall x y : K, {x = y} + {x <> y}.

Lemma dict_set_keys_old (k : K) (v : nat) (d : dict K nat) :
  In k (dict_keys d) -> dict_keys (dict_set dec k v d) = dict_keys d.
Proof.
  induction d as [|[k' v'] d IH]; intros Hin; [destruct Hin|].
  cbn [dict_set]. destruct (dec k k') as [->|Hne]; [reflexivity|].
  cbn [dict_keys map fst]. f_equal. apply IH.
  destruct Hin as [Heq|Hin]; [cbn in Heq; congruence|exact Hin].
Qed.

Lemma tally_step_keys (x : K) (d : dict K nat) :
  dict_keys (defaultdict_update dec 0 x S d)
  = if in_dec dec x (dict_keys d) then dict_keys d else dict_keys d ++ [x].
Proof.
  unfold defaultdict_update.
  destruct (in_dec dec x (dict_keys d)) as [Hin|Hout].
  - destruct (dict_get dec x d); apply dict_set_keys_old; exact Hin.
  - rewrite (dict_get_fresh dec x d Hout).
    apply dict_keys_set_new. exact Hout.
Qed.

Lemma tally_keys_NoDup (l : list K) (d : dict K nat) :
  NoDup (dict_keys d) -> NoDup (dict_keys (tally dec l d)).
Proof.
  revert d. induction l as [|x l IH]; intros d Hd; [exact Hd|].
  unfold tally; cbn [fold_left]. apply IH. rewrite tally_step_keys.
  destruct (in_dec dec x (dict_keys d)) as [Hin|Hout]; [exact Hd|].
  apply NoDup_app; [exact Hd|constructor; [intros []|constructor]|].
  intros y Hy [<-|[]]. exact (Hout Hy).
Qed.

Lemma tally_keys_In (l : list K) (d : dict K nat) (x : K) :
  In x (dict_keys (tally dec l d)) <-> In x (dict_keys d) \/ In x l.
Proof.
  revert d. induction l as [|y l IH]; intros d.
  - cbn. tauto.
  - unfold tally; cbn [fold_left]. fold (tally dec l (defaultdict_update dec 0 y S d)).
    rewrite IH, tally_step_keys.
    destruct (in_dec dec y (dict_keys d)) as [Hin|Hout].
    + split; [intros [H|H]; [left; exact H|right; right; exact H]|].
      intros [H|[<-|H]]; [left; exact H|left; exact Hin|right; exact H].
    + rewrite in_app_iff. cbn [In]. tauto.
Qed.

Lemma tally_get (l : list K) (d : dict K nat) (x : K) :
  dict_get dec x (tally dec l d)
  = match count_occ dec l x, dict_get dec x d with
    | O, v => v
    | S c, Some v => Some (v + S c)
    | S c, None => Some (S c)
    end.
Proof.
  revert d. induction l as [|y l IH]; intros d.
  - cbn. destruct (dict_get dec x d); reflexivity.
  - unfold tally; cbn [fold_left]. fold (tally dec l (defaultdict_update dec 0 y S d)).
    rewrite IH. cbn [count_occ]. unfold defaultdict_update.
    destruct (dec y x) as [->|Hne].
    + destruct (dict_get dec x d) as [v|] eqn:Hx;
        rewrite dict_get_set_same;
        destruct (count_occ dec l x); try reflexivity; f_equal; lia.
    + assert (Hxy : x <> y) by congruence.
      destruct (dict_get dec y d);
        rewrite (dict_get_set_other dec x y _ d Hxy); reflexivity.
Qed.

Lemma dict_set_total (k : K) (v : nat) (d : dict K nat) :
  list_sum (map snd (dict_set dec k v d)) + match dict_get dec k d with
                                            | Some w => w
                                            | None => 0
                                            end
  = list_sum (map snd d) + v.
Proof.
  induction d as [|[k' v'] d IH]; [cbn; lia|].
  cbn [dict_set dict_get]. destruct (dec k k') as [->|Hne].
  - cbn. lia.
  - cbn [map snd]. change (list_sum (?a :: ?l)) with (a + list_sum l).
    change (list_sum (v' :: map snd d)) with (v' + list_sum (map snd d)). lia.
Qed.

Lemma tally_total (l : list K) (d : dict K nat) :
  list_sum (map snd (tally dec l d)) = list_sum (map snd d) + length l.
Proof.
  revert d. induction l as [|y l IH]; intros d;
    [unfold tally; cbn [fold_left length]; lia|].
  unfold tally; cbn [fold_left]. fold (tally dec l (defaultdict_update dec 0 y S d)).
  rewrite IH. cbn [length]. unfold defaultdict_update.
  destruct (dict_get dec y d) as [v|] eqn:Hy.
  - pose proof (dict_set_total y (S v) d) as H. rewrite Hy in H. lia.
  - pose proof (dict_set_total y 1 d) as H. rewrite Hy in H. lia.
Qed.

(** Every entry of a tally that starts empty is the number of occurrences
    of its key, which is at least one. *)
Lemma tally_entry (l : list K) (x : K) (c : nat) :
  In (x, c) (tally dec l []) -> c = count_occ dec l x /\ 1 <= c /\ In x l.
Proof.
  intros Hin.
  assert (Hk : In x (dict_keys (tally dec l []))).
  { unfold dict_keys. apply in_map_iff. exists (x, c). split; [reflexivity|exact Hin]. }
  apply tally_keys_In in Hk. destruct Hk as [[]|Hl].
  pose proof (dict_get_In dec x c (tally dec l [])
                (tally_keys_NoDup l [] (NoDup_nil _)) Hin) as Hget.
  rewrite tally_get in Hget. cbn [dict_get] in Hget.
  pose proof (proj1 (count_occ_In dec l x) Hl) as Hpos.
  destruct (count_occ dec l x) as [|n]; [lia|].
  injection Hget as <-. repeat split; [lia|exact Hl].
Qed.
End TallyFacts.

(** ** Ranking by count *)

Lemma insert_sorted_permutation {A} (ahead : A -> A -> bool) (x : A) (l : list A) :
  Permutation (insert_sorted ahead x l) (x :: l).
Proof.
  induction l as [|y l IH]; [reflexivity|].
  cbn [insert_sorted]. destruct (ahead y x); [|reflexivity].
  rewrite IH. apply perm_swap.
Qed.

Lemma sort_stable_is_permutation {A} (ahead : A -> A -> bool) (l : list A) :
  Permutation (sort_stable ahead l) l.
Proof.
  induction l as [|x l IH]; [reflexivity|].
  cbn [sort_stable fold_right]. fold (sort_stable ahead l).
  rewrite insert_sorted_permutation. constructor. exact IH.
Qed.

Lemma insert_sorted_descending {A} (key : A -> nat) (x : A) (l : list A) :
  StronglySorted (not_below key) l ->
  StronglySorted (not_below key)
    (insert_sorted (fun y x0 => (key x0 <? key y)%nat) x l).
Proof.
  induction 1 as [|y l Hs IH Hall]; [repeat constructor|].
  cbn [insert_sorted]. destruct (Nat.ltb_spec (key x) (key y)) as [Hlt|Hge].
  - constructor; [exact IH|].
    apply (Permutation_Forall
             (Permutation_sym (insert_sorted_permutation _ x l))).
    constructor; [unfold not_below; lia|exact Hall].
  - constructor; [constructor; assumption|].
    constructor; [exact Hge|].
    eapply Forall_impl; [|exact Hall].
    unfold not_below. intros z Hz. lia.
Qed.

Lemma sorted_reverse_descending {A} (key : A -> nat) (l : list A) :
  StronglySorted (not_below key) (sorted_reverse key l).
Proof.
  unfold sorted_reverse, sort_stable.
  induction l as [|x l IH]; [constructor|].
  cbn [fold_right]. apply insert_sorted_descending. exact IH.
Qed.

Lemma sorted_reverse_permutation {A} (key : A -> nat) (l : list A) :
  Permutation (sorted_reverse key l) l.
Proof. apply sort_stable_is_permutation. Qed.

Lemma StronglySorted_firstn {A} (R : A -> A -> Prop) (n : nat) (l : list A) :
  StronglySorted R l -> StronglySorted R (firstn n l).
Proof.
  intros Hs. revert n. induction Hs as [|x l Hs IH Hall]; intros [|n];
    cbn [firstn]; try constructor.
  - apply IH.
  - apply Forall_forall. intros y Hy.
    apply (proj1 (Forall_forall _ _) Hall). eapply In_firstn. exact Hy.
Qed.

(** What is cut off by [[:n]] after a descending sort is not above what is
    kept. *)
Lemma firstn_keeps_largest {A} (key : A -> nat) (n : nat) (l : list A) x y :
  StronglySorted (not_below key) l ->
  In x (firstn n l) -> In y (skipn n l) -> key y <= key x.
Proof.
  intros Hs. revert n. induction Hs as [|z l Hs IH Hall]; intros [|n] Hx Hy;
    cbn [firstn skipn] in *; try contradiction.
  destruct Hx as [<-|Hx].
  - apply (proj1 (Forall_forall _ _) Hall).
    rewrite <- (firstn_skipn n l). apply in_or_app. right. exact Hy.
  - exact (IH n Hx Hy).
Qed.

Lemma In_skipn {A} (n : nat) (l : list A) (x : A) :
  In x (skipn n l) -> In x l.
Proof.
  intros H. rewrite <- (firstn_skipn n l). apply in_or_app. right. exact H.
Qed.

Lemma NoDup_firstn {A} (n : nat) (l : list A) : NoDup l -> NoDup (firstn n l).
Proof.
  intros H. revert n. induction H as [|x l Hx H IH]; intros [|n];
    cbn [firstn]; try constructor.
  - intros Hin. apply Hx. eapply In_firstn. exact Hin.
  - apply IH.
Qed.

(** The first [n] of a ranking by descending key. *)
Lemma ranking_cut {A} (key : A -> nat) (n : nat) (l : list A) :
  length (firstn n (sorted_reverse key l)) <= n
  /\ StronglySorted (not_below key) (firstn n (sorted_reverse key l))
  /\ (forall x, In x (firstn n (sorted_reverse key l)) -> In x l)
  /\ (forall x y, In x (firstn n (sorted_reverse key l)) -> In y l ->
                  ~ In y (firstn n (sorted_reverse key l)) -> key y <= key x)
  /\ (length l <= n -> Permutation (firstn n (sorted_reverse key l)) l).
Proof.
  pose proof (sorted_reverse_descending key l) as Hsorted.
  pose proof (sorted_reverse_permutation key l) as Hperm.
  split; [|split; [|split; [|split]]].
  - rewrite length_firstn. lia.
  - apply StronglySorted_firstn. exact Hsorted.
  - intros x Hx. apply In_firstn in Hx. exact (Permutation_in _ Hperm Hx).
  - intros x y Hx Hy Hout.
    apply (Permutation_in _ (Permutation_sym Hperm)) in Hy.
    rewrite <- (firstn_skipn n (sorted_reverse key l)) in Hy.
    apply in_app_or in Hy. destruct Hy as [Hy|Hy]; [contradiction|].
    exact (firstn_keeps_largest key n _ x y Hsorted Hx Hy).
  - intros Hlen. rewrite firstn_all2; [exact Hperm|].
    rewrite (Permutation_length Hperm). exact Hlen.
Qed.

Lemma ranking_keys {A B} (key : A -> nat) (f : A -> B) (n : nat) (l : list A) :
  NoDup (map f l) -> NoDup (map f (firstn n (sorted_reverse key l))).
Proof.
  intros Hl. rewrite <- firstn_map. apply NoDup_firstn.
  eapply Permutation_NoDup; [|exact Hl].
  apply Permutation_map. apply Permutation_sym. apply sorted_reverse_permutation.
Qed.

(* ===================================================================== *)
(** * More on the layout statistics                                       *)
(* ===================================================================== *)

Lemma patterns_tally (data : bytes) :
  HexDumpAnalyzer_patterns data = tally bytes_eq_dec (visited_chunks data) [].
Proof. rewrite patterns_counted. reflexivity. Qed.

Lemma visited_chunk_inside (data : bytes) (p : bytes) :
  In p (visited_chunks data) ->
  exists k, 4 * k + 4 < length data /\ p = slice data (4 * k) (4 * k + 4)
            /\ length p = 4.
Proof.
  unfold visited_chunks. intros Hin. apply in_map_iff in Hin.
  destruct Hin as (k & <- & Hk). apply in_seq in Hk.
  assert (Hlt : 4 * k + 4 < length data).
  { pose proof (Nat.div_mod_eq (length data - 1) 4) as Hd.
    pose proof (Nat.mod_upper_bound (length data - 1) 4 ltac:(lia)). lia. }
  exists k. split; [exact Hlt|]. split; [reflexivity|].
  rewrite slice_length; lia.
Qed.




Lemma hex_length (p : bytes) : length (hex p) = 2 * length p.
Proof.
  unfold hex. induction p as [|x p IH]; [reflexivity|].
  cbn [flat_map length app]. rewrite IH. lia.
Qed.

(** A lower-case hexadecimal digit. *)
Lemma hex_digit_range (n : N) :
  (n < 16)%N ->
  (between 48 57 (hex_digit n) || between 97 102 (hex_digit n)) = true.
Proof.
  intros Hn. unfold hex_digit, between.
  destruct (N.ltb_spec n 10).
  - apply orb_true_iff. left. apply andb_true_iff. split; apply N.leb_le; lia.
  - apply orb_true_iff. right. apply andb_true_iff. split; apply N.leb_le; lia.
Qed.

Lemma hex_digits (p : bytes) :
  Forall (fun c => (between 48 57 c || between 97 102 c) = true) (hex p).
Proof.
  unfold hex. induction p as [|x p IH]; [constructor|].
  cbn [flat_map app].
  assert (Hx : (Byte.to_N x < 256)%N).
  { pose proof (Byte.to_N_bounded x). lia. }
  constructor; [|constructor; [|exact IH]]; apply hex_digit_range.
  - apply N.Div0.div_lt_upper_bound. lia.
  - apply N.mod_lt. lia.
Qed.

(** X2.  The ranking [top_patterns] of the Layout Analyzer: at most ten
    different chunks, by descending count; each count is the number of
    visited chunks with these four bytes, at least one; no chunk left out
    has a larger count than a chunk listed; a chunk is shown as eight
    lower-case hexadecimal digits. *)
Theorem top_patterns_are_the_most_frequent (data : bytes) :
  length (HexDumpAnalyzer_top_patterns data) <= 10
  /\ StronglySorted (not_below snd) (HexDumpAnalyzer_top_patterns data)
  /\ NoDup (map fst (HexDumpAnalyzer_top_patterns data))
  /\ (forall p c, In (p, c) (HexDumpAnalyzer_top_patterns data) ->
        In (p, c) (HexDumpAnalyzer_patterns data)
        /\ c = count_occ bytes_eq_dec (visited_chunks data) p
        /\ 1 <= c
        /\ length (hex p) = 8
        /\ Forall (fun d => (between 48 57 d || between 97 102 d) = true) (hex p))
  /\ (forall p c q c',
        In (p, c) (HexDumpAnalyzer_top_patterns data) ->
        In (q, c') (HexDumpAnalyzer_patterns data) ->
        ~ In (q, c') (HexDumpAnalyzer_top_patterns data) ->
        c' <= c)
  /\ (length (HexDumpAnalyzer_patterns data) <= 10 ->
      Permutation (HexDumpAnalyzer_top_patterns data)
                  (HexDumpAnalyzer_patterns data)).
Proof.
  unfold HexDumpAnalyzer_top_patterns.
  destruct (ranking_cut (@snd bytes nat) 10 (HexDumpAnalyzer_patterns data))
    as (Hlen & Hsorted & Hsub & Hbest & Hall).
  split; [exact Hlen|]. split; [exact Hsorted|]. split.
  { apply ranking_keys. rewrite patterns_tally.
    apply (tally_keys_NoDup bytes_eq_dec). constructor. }
  split; [|split; [|exact Hall]].
  - intros p c Hin. apply Hsub in Hin. split; [exact Hin|].
    rewrite patterns_tally in Hin. apply tally_entry in Hin.
    destruct Hin as (Hc & Hpos & Hv).
    apply visited_chunk_inside in Hv. destruct Hv as (k & _ & _ & Hl).
    split; [exact Hc|]. split; [exact Hpos|]. split.
    + rewrite hex_length, Hl. reflexivity.
    + apply hex_digits.
  - intros p c q c' Hp Hq Hout.
    exact (Hbest (p, c) (q, c') Hp Hq Hout).
Qed.

Lemma null_is_not_printable (data : bytes) :
  count_occ Byte.byte_eq_dec data x00
  + length (filter (fun x => between 32 126 (code x)) data)
  <= length data.
Proof.
  induction data as [|x data IH]; [reflexivity|].
  cbn [count_occ filter length].
  destruct (Byte.byte_eq_dec x x00) as [->|Hne].
  - cbn. lia.
  - destruct (between 32 126 (code x)); cbn [length]; lia.
Qed.

(** X3.  The byte statistics of the Layout Analyzer: the size of the buffer,
    the number of null bytes and the number of bytes from 32 to 126, which
    together are at most the size.  On the empty buffer both percentages
    are the integer 0 and nothing is divided; on any other buffer they are
    floats. *)
Theorem layout_statistics (data : bytes) :
  exists nulls printable null_percentage printable_percentage,
    HexDumpAnalyzer_analyze data
    = Returns (VDict [("total_size", nat_py (length data));
                      ("null_bytes", nat_py nulls);
                      ("null_percentage", null_percentage);
                      ("printable_bytes", nat_py printable);
                      ("printable_percentage", printable_percentage);
                      ("top_patterns",
                        VList (map pattern_py (HexDumpAnalyzer_top_patterns data)))])
    /\ nulls = count_occ Byte.byte_eq_dec data x00
    /\ printable = length (filter printable_byte data)
    /\ nulls + printable <= length data
    /\ (data = [] ->
        null_percentage = VInt 0 /\ printable_percentage = VInt 0)
    /\ (data <> [] ->
        null_percentage
        = VFloat (PrimFloat.mul (PrimFloat.div (float_of_nat nulls)
                                               (float_of_nat (length data)))
                                (float_of_nat 100))
        /\ printable_percentage
           = VFloat (PrimFloat.mul (PrimFloat.div (float_of_nat printable)
                                                  (float_of_nat (length data)))
                                   (float_of_nat 100))).
Proof.
  exists (count_occ Byte.byte_eq_dec data x00),
         (length (filter printable_byte data)).
  unfold HexDumpAnalyzer_analyze, percentage, truediv.
  destruct data as [|x data].
  - do 2 eexists. split; [reflexivity|]. split; [reflexivity|].
    split; [reflexivity|]. split; [cbn; lia|].
    split; [intros _; split; reflexivity|]. intros Hne. congruence.
  - cbn [length Nat.ltb Nat.leb Nat.eqb bind].
    do 2 eexists. split; [reflexivity|]. split; [reflexivity|].
    split; [reflexivity|]. split; [apply null_is_not_printable|].
    split; [discriminate|]. intros _. split; reflexivity.
Qed.

(* ===================================================================== *)
(** * The scanner: order, leftmost matches, completeness                  *)
(* ===================================================================== *)

Section ScanFacts.
Variable ignorecase : bool.
Variable data : bytes.
Variable r : regex.

(** Where the scanner resumes after a match. *)
Lemma scan_unfold (fuel pos : nat) :
  scan ignorecase data r (S fuel) pos
  = match search ignorecase data r (S (length data) - pos) pos with
    | None => []
    | Some mt =>
        mt :: scan ignorecase data r fuel
                (if Nat.eqb (m_end mt) (m_start mt)
                 then S (m_end mt) else m_end mt)
    end.
Proof. reflexivity. Qed.

Lemma resume_after (mt : match_object) :
  match_at ignorecase data r (m_start mt) = Some mt ->
  m_start mt < (if Nat.eqb (m_end mt) (m_start mt) then S (m_end mt) else m_end mt)
  /\ m_end mt <= (if Nat.eqb (m_end mt) (m_start mt) then S (m_end mt) else m_end mt).
Proof.
  intros Hm. apply match_at_sound in Hm. destruct Hm as [_ Hsp].
  apply spans_range in Hsp. destruct Hsp as [Hle _].
  destruct (Nat.eqb_spec (m_end mt) (m_start mt)); lia.
Qed.

(** The matches are reported from left to right and do not overlap. *)
Lemma scan_ordered (fuel pos : nat) :
  StronglySorted before (scan ignorecase data r fuel pos).
Proof.
  revert pos. induction fuel as [|fuel IH]; intros pos; [constructor|].
  rewrite scan_unfold.
  destruct (search ignorecase data r (S (length data) - pos) pos) as [mt|] eqn:E;
    [|constructor].
  constructor; [apply IH|].
  apply search_sound in E. destruct E as [_ Hm].
  pose proof (resume_after mt Hm) as [Hlt Hle].
  apply Forall_forall. intros mt' Hin. apply scan_sound in Hin.
  destruct Hin as [Hge _]. unfold before. lia.
Qed.

(** The search returns the leftmost match. *)
Lemma search_leftmost (tries pos : nat) (mt : match_object) (p : nat) :
  search ignorecase data r tries pos = Some mt ->
  pos <= p < m_start mt ->
  match_at ignorecase data r p = None.
Proof.
  revert pos. induction tries as [|tries IH]; intros pos H Hp; [discriminate|].
  cbn [search] in H.
  destruct (match_at ignorecase data r pos) as [mt'|] eqn:E.
  - inversion H; subst mt'. apply match_at_sound in E. lia.
  - destruct (Nat.eq_dec p pos) as [->|Hne]; [exact E|].
    apply (IH (S pos) H). lia.
Qed.

(** A position the scanner passed without reporting a match that begins
    there: no match begins there, or an earlier match covers it. *)
Lemma scan_skipped (fuel pos : nat) (mt : match_object) (p : nat) :
  In mt (scan ignorecase data r fuel pos) ->
  pos <= p < m_start mt ->
  match_at ignorecase data r p = None
  \/ exists mt',
       In mt' (scan ignorecase data r fuel pos)
       /\ before mt' mt
       /\ m_start mt' <= p
       /\ (p < m_end mt' \/ p = m_start mt').
Proof.
  revert pos. induction fuel as [|fuel IH]; intros pos Hin Hp; [destruct Hin|].
  pose proof (scan_ordered (S fuel) pos) as Hord.
  rewrite scan_unfold in Hin, Hord. rewrite scan_unfold.
  destruct (search ignorecase data r (S (length data) - pos) pos) as [m0|] eqn:E;
    [|destruct Hin].
  destruct Hin as [->|Hin].
  - left. exact (search_leftmost _ _ _ _ E Hp).
  - destruct (Nat.lt_ge_cases p (m_start m0)) as [Hlt|Hge].
    + left. apply (search_leftmost _ _ _ _ E). lia.
    + inversion Hord as [|? ? _ Hall]; subst.
      pose proof (proj1 (Forall_forall _ _) Hall mt Hin) as Hbefore.
      set (next := if Nat.eqb (m_end m0) (m_start m0)
                   then S (m_end m0) else m_end m0) in *.
      destruct (Nat.lt_ge_cases p next) as [Hcov|Hpast].
      * right. exists m0. split; [left; reflexivity|].
        split; [exact Hbefore|]. split; [exact Hge|].
        subst next. destruct (Nat.eqb_spec (m_end m0) (m_start m0)); lia.
      * destruct (IH next Hin ltac:(lia)) as [Hnone|(mt' & Hin' & Hb & Hs & Hc)].
        -- left. exact Hnone.
        -- right. exists mt'. split; [right; exact Hin'|]. auto.
Qed.

(** A match that begins at [q] is reported when no match that begins
    before [q] reaches beyond [q]. *)
Lemma scan_finds (q : nat) (mq : match_object) :
  match_at ignorecase data r q = Some mq ->
  q <= length data ->
  (forall mt, match_at ignorecase data r (m_start mt) = Some mt ->
              m_start mt < q -> m_end mt <= q) ->
  forall fuel pos,
    pos <= q -> q < pos + fuel ->
    In mq (scan ignorecase data r fuel pos).
Proof.
  intros Hq Hlen Hclear. induction fuel as [|fuel IH]; intros pos Hpos Hfuel;
    [lia|].
  rewrite scan_unfold.
  destruct (search_finds ignorecase data r q mq Hq
              (S (length data) - pos) pos ltac:(lia)) as (mt & Hs & Hle & Heq).
  rewrite Hs. destruct (Nat.eq_dec (m_start mt) q) as [Hi|Hi].
  - left. apply Heq. exact Hi.
  - right. apply search_sound in Hs. destruct Hs as [Hrange Hm].
    pose proof (Hclear mt Hm ltac:(lia)) as Hend.
    pose proof (resume_after mt Hm) as [Hlt _].
    apply IH; destruct (Nat.eqb_spec (m_end mt) (m_start mt)); lia.
Qed.
End ScanFacts.

Lemma finditer_ordered ignorecase r data :
  StronglySorted before (finditer ignorecase r data).
Proof. apply scan_ordered. Qed.

Lemma finditer_finds ignorecase r data (q : nat) (mq : match_object) :
  match_at ignorecase data r q = Some mq ->
  q <= length data ->
  (forall mt, match_at ignorecase data r (m_start mt) = Some mt ->
              m_start mt < q -> m_end mt <= q) ->
  In mq (finditer ignorecase r data).
Proof.
  intros Hq Hlen Hclear. unfold finditer.
  apply (scan_finds ignorecase data r q mq Hq Hlen Hclear); lia.
Qed.

Lemma finditer_skipped ignorecase r data (mt : match_object) (p : nat) :
  In mt (finditer ignorecase r data) ->
  p < m_start mt ->
  match_at ignorecase data r p = None
  \/ exists mt',
       In mt' (finditer ignorecase r data)
       /\ before mt' mt
       /\ m_start mt' <= p
       /\ (p < m_end mt' \/ p = m_start mt').
Proof.
  intros Hin Hp. apply (scan_skipped ignorecase data r _ 0 mt p Hin). lia.
Qed.

Lemma finditer_match_at ignorecase r data mt :
  In mt (finditer ignorecase r data) ->
  match_at ignorecase data r (m_start mt) = Some mt.
Proof. intros Hin. apply scan_sound in Hin. tauto. Qed.

(* ===================================================================== *)
(** * Runs of bytes of one set                                            *)
(* ===================================================================== *)

Lemma run_length_bound (p : byte -> bool) (l : bytes) :
  run_length p l <= length l.
Proof.
  induction l as [|x l IH]; [reflexivity|].
  cbn [run_length length]. destruct (p x); lia.
Qed.

Lemma run_length_inside (p : byte -> bool) (l : bytes) (k : nat) :
  k < run_length p l -> exists y, nth_error l k = Some y /\ p y = true.
Proof.
  revert k. induction l as [|x l IH]; intros k Hk; cbn [run_length] in Hk;
    [lia|].
  destruct (p x) eqn:Hx; [|lia].
  destruct k as [|k]; [exists x; auto|].
  cbn [nth_error]. apply IH. lia.
Qed.

Lemma run_length_stops (p : byte -> bool) (l : bytes) :
  match nth_error l (run_length p l) with
  | Some y => p y = false
  | None => True
  end.
Proof.
  induction l as [|x l IH]; [exact I|].
  cbn [run_length]. destruct (p x) eqn:Hx; [exact IH|exact Hx].
Qed.

(** The run is at least as long as any stretch of bytes of the set, and at
    most as long as the distance to a byte that is not in it. *)
Lemma run_length_least (p : byte -> bool) (l : bytes) (n : nat) :
  n <= length l -> Forall (fun x => p x = true) (firstn n l) ->
  n <= run_length p l.
Proof.
  revert n. induction l as [|x l IH]; intros [|n] Hn Hall; cbn [length] in Hn;
    try lia.
  cbn [firstn] in Hall. inversion Hall as [|? ? Hx Hrest]; subst.
  cbn [run_length]. rewrite Hx. specialize (IH n ltac:(lia) Hrest). lia.
Qed.

Lemma run_length_most (p : byte -> bool) (l : bytes) (n : nat) (y : byte) :
  nth_error l n = Some y -> p y = false -> run_length p l <= n.
Proof.
  revert n. induction l as [|x l IH]; intros n Hn Hy; [cbn; lia|].
  cbn [run_length]. destruct n as [|n]; cbn [nth_error] in Hn.
  - inversion Hn; subst. rewrite Hy. lia.
  - destruct (p x); [|lia]. specialize (IH n Hn Hy). lia.
Qed.

Lemma nth_error_skipn_add {A} (l : list A) (i k : nat) :
  nth_error (skipn i l) k = nth_error l (i + k).
Proof. apply nth_error_skipn. Qed.

Lemma slice_firstn_skipn {A} (l : list A) (i n : nat) :
  slice l i (i + n) = firstn n (skipn i l).
Proof. unfold slice. replace (i + n - i) with n by lia. reflexivity. Qed.

Lemma Forall_firstn_nth {A} (P : A -> Prop) (n : nat) (l : list A) :
  (forall k, k < n -> exists y, nth_error l k = Some y /\ P y) ->
  Forall P (firstn n l).
Proof.
  revert l. induction n as [|n IH]; intros l H; [constructor|].
  destruct (H 0 ltac:(lia)) as (y & Hy & Py).
  destruct l as [|x l]; [discriminate|]. cbn in Hy. inversion Hy; subst.
  cbn [firstn]. constructor; [exact Py|]. apply IH.
  intros k Hk. destruct (H (S k) ltac:(lia)) as (z & Hz & Pz).
  exists z. auto.
Qed.

(** The maximal run that begins at [i] has the length [run_length] finds. *)
Lemma maximal_run_length (p : byte -> bool) (data : bytes) (i n : nat) :
  maximal_run p data i n -> run_length p (skipn i data) = n.
Proof.
  intros (Hin & Hall & _ & Hstop).
  apply Nat.le_antisymm.
  - destruct (nth_error data (i + n)) as [y|] eqn:Hy.
    + apply (run_length_most p _ n y); [|exact Hstop].
      rewrite nth_error_skipn_add. exact Hy.
    + apply nth_error_None in Hy.
      pose proof (run_length_bound p (skipn i data)) as Hb.
      rewrite length_skipn in Hb. lia.
  - apply run_length_least.
    + rewrite length_skipn. lia.
    + rewrite <- slice_firstn_skipn. exact Hall.
Qed.

Lemma times_one_byte ignorecase data negate items :
  forall n i c j c',
    times (spans ignorecase data (In_ negate items)) n i c j c' ->
    j = i + n /\ c' = c.
Proof.
  induction n as [|n IH]; intros i c j c' H; cbn [times] in H.
  - destruct H as [-> ->]. split; [lia|reflexivity].
  - destruct H as (m & cm & H1 & _ & Hrest).
    cbn [spans] in H1. destruct H1 as (y & _ & _ & -> & ->).
    apply IH in Hrest. destruct Hrest as [-> ->]. split; [lia|reflexivity].
Qed.

(** A greedy repetition of one set, with nothing after it, matches at [i]
    the whole run of bytes of the set that begins there, when the run is
    long enough and not too long, and nothing otherwise. *)
Lemma match_at_run ignorecase data negate items lo (i : nat) :
  i <= length data ->
  match_at ignorecase data (Repeat lo None (In_ negate items)) i
  = if (lo <=? run_length (set_match ignorecase negate items) (skipn i data))%nat
    then Some (mk_match i
                 (i + run_length (set_match ignorecase negate items) (skipn i data))
                 [])
    else None.
Proof.
  intros Hi. set (p := set_match ignorecase negate items).
  destruct (Nat.leb_spec lo (run_length p (skipn i data))) as [Hlo|Hlo].
  - unfold match_at. cbn [run].
    apply (repeat_set_greedy ignorecase data negate items lo _
             (run_length p (skipn i data))).
    + intros k Hk. destruct (run_length_inside p _ k Hk) as (y & Hy & Py).
      exists y. rewrite <- nth_error_skipn_add. auto.
    + rewrite <- nth_error_skipn_add. apply run_length_stops.
    + unfold iterations. pose proof (run_length_bound p (skipn i data)) as Hb.
      rewrite length_skipn in Hb. lia.
    + lia.
    + reflexivity.
  - destruct (match_at ignorecase data (Repeat lo None (In_ negate items)) i)
      as [mt|] eqn:E; [|reflexivity].
    exfalso. apply match_at_sound in E. destruct E as [Hs Hsp].
    pose proof (spans_range _ _ _ _ _ _ _ Hsp) as [_ Hend].
    pose proof (spans_consumes _ _ _ _ _ _ _ Hsp) as Hall.
    cbn [spans] in Hsp. destruct Hsp as (n & [Hn _] & Ht).
    apply times_one_byte in Ht. destruct Ht as [Hj _].
    rewrite Hj, slice_firstn_skipn in Hall.
    assert (n <= run_length p (skipn i data)).
    { apply run_length_least; [rewrite length_skipn; lia|exact Hall]. }
    lia.
Qed.

(* ===================================================================== *)
(** * The String Extractor reports the maximal printable runs             *)
(* ===================================================================== *)

Lemma run_length_ext (p q : byte -> bool) (l : bytes) :
  (forall x, p x = q x) -> run_length p l = run_length q l.
Proof.
  intros H. induction l as [|x l IH]; [reflexivity|].
  cbn [run_length]. rewrite H, IH. reflexivity.
Qed.

Lemma printable_set (x : byte) :
  set_match false false [Range " " "~"] x = printable_byte x.
Proof. unfold set_match, printable_byte. cbn. apply orb_false_r. Qed.

(** The match of the String Extractor at a position: the whole run of
    printable bytes that begins there, when it has four bytes or more. *)
Lemma string_match_at (data : bytes) (i : nat) :
  i <= length data ->
  match_at false data StringExtractor_pattern i
  = if (4 <=? run_length printable_byte (skipn i data))%nat
    then Some (mk_match i (i + run_length printable_byte (skipn i data)) [])
    else None.
Proof.
  intros Hi. unfold StringExtractor_pattern, at_least, set.
  rewrite (match_at_run false data false [Range " " "~"] 4 i Hi).
  rewrite (run_length_ext _ printable_byte _ printable_set). reflexivity.
Qed.

Lemma string_match_run (data : bytes) (mt : match_object) :
  In mt (finditer false StringExtractor_pattern data) ->
  m_end mt = m_start mt + run_length printable_byte (skipn (m_start mt) data)
  /\ 4 <= run_length printable_byte (skipn (m_start mt) data)
  /\ m_groups mt = []
  /\ m_end mt <= length data.
Proof.
  intros Hin.
  pose proof (finditer_inside false StringExtractor_pattern data mt eq_refl Hin) as [Hlt Hend].
  pose proof (finditer_match_at _ _ _ _ Hin) as Hm.
  rewrite string_match_at in Hm by lia.
  destruct (Nat.leb_spec 4 (run_length printable_byte (skipn (m_start mt) data)))
    as [Hlo|Hlo]; [|discriminate].
  inversion Hm as [Heq]. rewrite <- Heq in *. cbn [m_start m_end m_groups] in *.
  auto.
Qed.

(** No byte of the set stands just before a match of the String Extractor:
    the match would have begun earlier. *)
Lemma string_match_left (data : bytes) (mt : match_object) (y : byte) :
  In mt (finditer false StringExtractor_pattern data) ->
  0 < m_start mt ->
  nth_error data (m_start mt - 1) = Some y ->
  printable_byte y = false.
Proof.
  intros Hin Hpos Hy. destruct (printable_byte y) eqn:Py; [exfalso|reflexivity].
  pose proof (string_match_run data mt Hin) as (Hend & Hlen & _ & Hin').
  set (i := m_start mt) in *.
  (* the run that begins one byte earlier is one byte longer *)
  assert (Hrun : run_length printable_byte (skipn (i - 1) data)
                 = S (run_length printable_byte (skipn i data))).
  { assert (Hsk : skipn (i - 1) data = y :: skipn i data).
    { replace i with (S (i - 1)) at 2 by lia.
      clear - Hy. revert Hy. generalize (i - 1). intros n.
      revert data. induction n as [|n IH]; intros [|x data] Hy;
        cbn in Hy; try discriminate.
      - inversion Hy. reflexivity.
      - cbn [skipn]. apply IH. exact Hy. }
    rewrite Hsk. cbn [run_length]. rewrite Py. reflexivity. }
  assert (Hprev : match_at false data StringExtractor_pattern (i - 1)
                  = Some (mk_match (i - 1) (m_end mt) [])).
  { rewrite string_match_at by lia. rewrite Hrun.
    destruct (Nat.leb_spec 4 (S (run_length printable_byte (skipn i data))));
      [|lia].
    f_equal. f_equal. lia. }
  destruct (finditer_skipped false _ data mt (i - 1) Hin ltac:(lia))
    as [Hnone|(mt' & Hmt' & [Hb1 Hb2] & Hs & Hc)]; [congruence|].
  pose proof (string_match_run data mt' Hmt') as (Hend' & Hlen' & _ & _).
  (* the byte at [m_end mt'] is not printable, but all bytes from there to
     [i] are *)
  pose proof (run_length_stops printable_byte (skipn (m_start mt') data)) as Hst.
  rewrite nth_error_skipn_add, <- Hend' in Hst.
  assert (Hbyte : exists z, nth_error data (m_end mt') = Some z
                            /\ printable_byte z = true).
  { destruct (Nat.eq_dec (m_end mt') i) as [He|He].
    - destruct (run_length_inside printable_byte (skipn i data) 0 ltac:(lia))
        as (z & Hz & Pz).
      rewrite nth_error_skipn_add, Nat.add_0_r in Hz.
      exists z. rewrite He. auto.
    - lia. }
  destruct Hbyte as (z & Hz & Pz). rewrite Hz in Hst. congruence.
Qed.

Lemma string_item_shape (data : bytes) (mt : match_object) :
  In mt (finditer false StringExtractor_pattern data) ->
  string_item_of data mt
  = mk_string_item (m_start mt)
      (run_length printable_byte (skipn (m_start mt) data))
      (text (slice data (m_start mt)
               (m_start mt + run_length printable_byte (skipn (m_start mt) data)))).
Proof.
  intros Hin. pose proof (string_match_run data mt Hin) as (Hend & _ & _ & Hle).
  unfold string_item_of, group0. rewrite Hend.
  rewrite slice_length by lia. f_equal. lia.
Qed.

(** X4.  The String Extractor reports exactly the maximal runs of at least
    four printable bytes (32 to 126): every item is such a run, with its
    position, its length and its bytes as text, and every such run is an
    item.  The items are listed from left to right, with at least one byte
    between two of them; [total_strings] counts them all and [findings]
    holds the first 500. *)
Theorem strings_are_the_maximal_printable_runs (data : bytes) :
  exists strings,
    StringExtractor_strings data = Returns strings
    /\ StringExtractor_analyze data
       = Returns (VDict [("total_strings", nat_py (length strings));
                         ("findings",
                           VList (map string_item_py (firstn 500 strings)))])
    /\ (forall it, In it strings ->
          4 <= string_length it
          /\ maximal_run printable_byte data (string_offset it) (string_length it)
          /\ string_content it
             = text (slice data (string_offset it)
                       (string_offset it + string_length it))
          /\ length (string_content it) = string_length it)
    /\ (forall i n,
          4 <= n -> maximal_run printable_byte data i n ->
          In (mk_string_item i n (text (slice data i (i + n)))) strings)
    /\ StronglySorted
         (fun x y => string_offset x + string_length x < string_offset y)
         strings.
Proof.
  exists (map (string_item_of data) (finditer false StringExtractor_pattern data)).
  pose proof (string_items data) as Hitems.
  split; [exact Hitems|]. split.
  { unfold StringExtractor_analyze. rewrite Hitems. reflexivity. }
  split; [|split].
  - intros it Hin. apply in_map_iff in Hin. destruct Hin as (mt & <- & Hin).
    rewrite (string_item_shape data mt Hin).
    cbn [string_offset string_length string_content].
    pose proof (string_match_run data mt Hin) as (Hend & Hlen & _ & Hle).
    set (i := m_start mt) in *.
    set (n := run_length printable_byte (skipn i data)) in *.
    split; [exact Hlen|]. split; [|split; [reflexivity|]].
    + unfold maximal_run. split; [lia|]. split; [|split].
      * rewrite slice_firstn_skipn. apply Forall_firstn_nth.
        intros k Hk. apply run_length_inside. exact Hk.
      * destruct (Nat.eq_dec i 0) as [H0|H0]; [left; exact H0|right].
        destruct (nth_error data (i - 1)) as [y|] eqn:Hy.
        -- exists y. split; [reflexivity|].
           apply (string_match_left data mt y Hin); [lia|exact Hy].
        -- apply nth_error_None in Hy. lia.
      * rewrite <- nth_error_skipn_add. apply run_length_stops.
    + unfold text. rewrite length_map, slice_length; lia.
  - intros i n Hn Hrun.
    pose proof (maximal_run_length _ _ _ _ Hrun) as Hlen.
    destruct Hrun as (Hin & Hall & Hleft & Hright).
    assert (Hm : match_at false data StringExtractor_pattern i
                 = Some (mk_match i (i + n) [])).
    { rewrite string_match_at by lia. rewrite Hlen.
      destruct (Nat.leb_spec 4 n); [reflexivity|lia]. }
    assert (Hfound : In (mk_match i (i + n) [])
                        (finditer false StringExtractor_pattern data)).
    { apply (finditer_finds false _ data i _ Hm); [lia|].
      intros mt Hmt Hlt.
      destruct Hleft as [->|(y & Hy & Py)]; [lia|].
      assert (Hs : m_start mt <= length data) by lia.
      rewrite string_match_at in Hmt by exact Hs.
      destruct (Nat.leb_spec 4 (run_length printable_byte
                                  (skipn (m_start mt) data))); [|discriminate].
      inversion Hmt as [Heq]. rewrite <- Heq. cbn [m_end m_start].
      assert (run_length printable_byte (skipn (m_start mt) data)
              <= i - 1 - m_start mt).
      { rewrite <- Heq. cbn [m_start].
        apply (run_length_most _ _ _ y); [|exact Py].
        rewrite nth_error_skipn_add. rewrite <- Hy. f_equal.
        rewrite <- Heq in Hlt. cbn [m_start] in Hlt. lia. }
      rewrite <- Heq in Hlt. cbn [m_start] in Hlt. lia. }
    apply in_map_iff. exists (mk_match i (i + n) []). split; [|exact Hfound].
    rewrite (string_item_shape data _ Hfound). cbn [m_start].
    rewrite Hlen. reflexivity.
  - assert (Hgen : forall l,
              StronglySorted before l ->
              Forall (fun mt => In mt (finditer false StringExtractor_pattern data)) l ->
              StronglySorted
                (fun x y => string_offset x + string_length x < string_offset y)
                (map (string_item_of data) l)).
    { clear Hitems. intros l Hord.
      induction Hord as [|mt l Hs IH Hbefore]; intros Hall; [constructor|].
      inversion Hall as [|? ? Hmt Hrest]; subst.
      cbn [map]. constructor; [apply IH; exact Hrest|].
      apply Forall_forall. intros it Hit. apply in_map_iff in Hit.
      destruct Hit as (mt' & <- & Hin').
      pose proof (proj1 (Forall_forall _ _) Hbefore mt' Hin') as [Hb1 Hb2].
      pose proof (proj1 (Forall_forall _ _) Hrest mt' Hin') as Hmt'.
      rewrite (string_item_shape data mt Hmt), (string_item_shape data mt' Hmt').
      cbn [string_offset string_length].
      pose proof (string_match_run data mt Hmt) as (Hend & _ & _ & _).
      pose proof (string_match_run data mt' Hmt') as (_ & Hlen' & _ & _).
      pose proof (run_length_stops printable_byte (skipn (m_start mt) data)) as Hst.
      rewrite nth_error_skipn_add, <- Hend in Hst.
      destruct (Nat.eq_dec (m_end mt) (m_start mt')) as [He|He]; [exfalso|lia].
      destruct (run_length_inside printable_byte (skipn (m_start mt') data) 0
                  ltac:(lia)) as (z & Hz & Pz).
      rewrite nth_error_skipn_add, Nat.add_0_r, <- He in Hz.
      rewrite Hz in Hst. congruence. }
    apply Hgen; [apply finditer_ordered|apply Forall_forall; auto].
Qed.

(* ===================================================================== *)
(** * The Schema-Field-Name Analyzer: names and statistics                *)
(* ===================================================================== *)

Lemma Counter_tally (l : list str) : Counter l = tally str_eq_dec l [].
Proof. reflexivity. Qed.

(** A match of the field pattern, byte by byte: a first byte of the head
    set, 1 to 50 bytes of the tail set, a null byte; the group is the match
    without the null byte. *)
Lemma field_span_exact data s e g :
  spans false data BSONFieldAnalyzer_pattern s [] e g ->
  exists n y,
    1 <= n <= 50
    /\ e = s + n + 2
    /\ g = [(1, (s, s + n + 1))]
    /\ nth_error data s = Some y /\ field_head_byte y = true
    /\ Forall (fun x => field_byte x = true) (slice data (S s) (s + n + 1))
    /\ nth_error data (s + n + 1) = Some x00.
Proof.
  intros H. unfold BSONFieldAnalyzer_pattern, from_to, set in H.
  cbn [spans] in H.
  destruct H as (m & cm & (cm' & (m1 & c1 & (y & Hy & Hhead & -> & ->)
                                  & (n & [Hlo Hhi] & Htimes)) & ->)
                 & (z & Hz & Hlit & -> & ->)).
  pose proof (spans_consumes false data (Repeat 1 (Some 50) (In_ false field_tail))
                (S s) [] m cm') as Hall.
  cbn [spans] in Hall.
  specialize (Hall (ex_intro _ n (conj (conj Hlo Hhi) Htimes))).
  apply times_one_byte in Htimes. destruct Htimes as [-> ->].
  exists n, y. split; [lia|]. split; [lia|].
  replace (s + n + 1) with (S s + n) by lia.
  split; [reflexivity|]. split; [exact Hy|]. split; [exact Hhead|].
  split; [exact Hall|].
  rewrite Hz. f_equal. clear - Hlit. destruct z; vm_compute in Hlit; congruence.
Qed.

Lemma slice_cons {A} (l : list A) (i j : nat) (y : A) :
  nth_error l i = Some y -> i < j -> slice l i j = y :: slice l (S i) j.
Proof.
  intros Hy Hlt. rewrite (slice_split l i (S i) j) by lia.
  rewrite (slice_one l i y Hy). reflexivity.
Qed.

(** What the analyzer makes of a match: the item of a field-name token. *)
Lemma field_item_token data mt :
  In mt (finditer false BSONFieldAnalyzer_pattern data) ->
  exists w h t,
    field_item_of data mt = mk_field_item (m_start mt) (text w)
    /\ m_end mt = m_start mt + length w + 1
    /\ slice data (m_start mt) (m_start mt + length w) = w
    /\ 2 <= length w <= 51
    /\ w = h :: t /\ field_head_byte h = true
    /\ Forall (fun x => field_byte x = true) t
    /\ nth_error data (m_start mt + length w) = Some x00.
Proof.
  intros Hin.
  pose proof (finditer_inside false BSONFieldAnalyzer_pattern data mt eq_refl Hin)
    as [_ Hend].
  apply finditer_sound in Hin. apply field_span_exact in Hin.
  destruct Hin as (n & y & Hn & He & Hg & Hy & Hhead & Htail & Hnull).
  set (s := m_start mt) in *.
  assert (Hlen : length (slice data s (s + n + 1)) = n + 1).
  { rewrite slice_length; lia. }
  exists (slice data s (s + n + 1)), y, (slice data (S s) (s + n + 1)).
  rewrite Hlen. replace (s + (n + 1)) with (s + n + 1) by lia.
  split; [|split; [lia|split; [reflexivity|split; [lia|]]]].
  - unfold field_item_of, group. rewrite Hg. cbn [group_span Nat.eqb].
    reflexivity.
  - split; [apply slice_cons; [exact Hy|lia]|]. auto.
Qed.

(** X5.  Every name the Schema-Field-Name Analyzer reports is a token of the
    buffer at the reported offset: a letter or an underscore, then 1 to 50
    letters, digits, underscores and dots, with a null byte right after
    it.  The names are listed from left to right and their tokens, null
    byte included, do not overlap; [all_fields] holds the first 1000. *)
Theorem field_names_are_tokens (data : bytes) :
  exists field_names top,
    BSONFieldAnalyzer_field_names data = Returns field_names
    /\ BSONFieldAnalyzer_analyze data
       = Returns (VDict [("total_fields", nat_py (length field_names));
                         ("unique_fields",
                           nat_py (length (Counter (map field_name field_names))));
                         ("top_fields", top);
                         ("all_fields",
                           VList (map field_item_py (firstn 1000 field_names)))])
    /\ (forall it, In it field_names ->
          exists w h t,
            field_name it = text w
            /\ slice data (field_offset it) (field_offset it + length w) = w
            /\ 2 <= length w <= 51
            /\ w = h :: t /\ field_head_byte h = true
            /\ Forall (fun x => field_byte x = true) t
            /\ nth_error data (field_offset it + length w) = Some x00)
    /\ StronglySorted
         (fun x y => field_offset x + length (field_name x) < field_offset y)
         field_names.
Proof.
  exists (map (field_item_of data) (finditer false BSONFieldAnalyzer_pattern data)).
  eexists. pose proof (field_items data) as Hitems.
  split; [exact Hitems|]. split.
  { unfold BSONFieldAnalyzer_analyze. rewrite Hitems. reflexivity. }
  split.
  - intros it Hin. apply in_map_iff in Hin. destruct Hin as (mt & <- & Hin).
    destruct (field_item_token data mt Hin)
      as (w & h & t & -> & _ & Hs & Hlen & Hw & Hh & Ht & Hnull).
    exists w, h, t. cbn [field_name field_offset]. auto 10.
  - assert (Hgen : forall l,
              StronglySorted before l ->
              Forall (fun mt => In mt (finditer false BSONFieldAnalyzer_pattern data)) l ->
              StronglySorted
                (fun x y => field_offset x + length (field_name x) < field_offset y)
                (map (field_item_of data) l)).
    { clear Hitems. intros l Hord.
      induction Hord as [|mt l Hs IH Hbefore]; intros Hall; [constructor|].
      inversion Hall as [|? ? Hmt Hrest]; subst.
      cbn [map]. constructor; [apply IH; exact Hrest|].
      apply Forall_forall. intros it Hit. apply in_map_iff in Hit.
      destruct Hit as (mt' & <- & Hin').
      pose proof (proj1 (Forall_forall _ _) Hbefore mt' Hin') as [Hb1 Hb2].
      pose proof (proj1 (Forall_forall _ _) Hrest mt' Hin') as Hmt'.
      destruct (field_item_token data mt Hmt) as (w & _ & _ & -> & He & _).
      destruct (field_item_token data mt' Hmt') as (w' & _ & _ & -> & _).
      cbn [field_offset field_name]. unfold text. rewrite length_map. lia. }
    apply Hgen; [apply finditer_ordered|apply Forall_forall; auto].
Qed.

(** X6.  The statistics of the Schema-Field-Name Analyzer: [total_fields] is
    the number of names found and [unique_fields] the number of different
    names; the counts of the different names add up to the total;
    [top_fields] lists at most 50 different names by descending count, each
    with the number of times it was found, and no name left out was found
    more often than a name listed. *)
Theorem field_statistics (data : bytes) :
  exists field_names counts top,
    BSONFieldAnalyzer_field_names data = Returns field_names
    /\ counts = Counter (map field_name field_names)
    /\ top = most_common 50 counts
    /\ BSONFieldAnalyzer_analyze data
       = Returns (VDict [("total_fields", nat_py (length field_names));
                         ("unique_fields", nat_py (length counts));
                         ("top_fields", VList (map count_py top));
                         ("all_fields",
                           VList (map field_item_py (firstn 1000 field_names)))])
    /\ NoDup (map fst counts)
    /\ (forall name, In name (map fst counts)
                     <-> In name (map field_name field_names))
    /\ list_sum (map snd counts) = length field_names
    /\ length counts <= length field_names
    /\ length top <= 50
    /\ StronglySorted (not_below snd) top
    /\ NoDup (map fst top)
    /\ (forall name c, In (name, c) top ->
          c = count_occ str_eq_dec (map field_name field_names) name /\ 1 <= c)
    /\ (forall name c name' c',
          In (name, c) top -> In (name', c') counts -> ~ In (name', c') top ->
          c' <= c)
    /\ (length counts <= 50 -> Permutation top counts).
Proof.
  pose proof (field_items data) as Hitems.
  set (field_names := map (field_item_of data)
                          (finditer false BSONFieldAnalyzer_pattern data)) in *.
  exists field_names, (Counter (map field_name field_names)),
         (most_common 50 (Counter (map field_name field_names))).
  split; [exact Hitems|]. split; [reflexivity|]. split; [reflexivity|]. split.
  { unfold BSONFieldAnalyzer_analyze. rewrite Hitems. reflexivity. }
  set (names := map field_name field_names).
  rewrite Counter_tally.
  assert (Hkeys : NoDup (map fst (tally str_eq_dec names []))).
  { apply (tally_keys_NoDup str_eq_dec). constructor. }
  assert (Hsum : list_sum (map snd (tally str_eq_dec names [])) = length field_names).
  { rewrite tally_total. cbn [map list_sum]. unfold names.
    rewrite length_map. reflexivity. }
  assert (Hentry : forall name c, In (name, c) (tally str_eq_dec names []) ->
                                  c = count_occ str_eq_dec names name /\ 1 <= c).
  { intros name c Hin. apply tally_entry in Hin. tauto. }
  unfold most_common.
  destruct (ranking_cut (@snd str nat) 50 (tally str_eq_dec names []))
    as (Hlen & Hsorted & Hsub & Hbest & Hall).
  split; [exact Hkeys|]. split.
  { intros name. fold (dict_keys (tally str_eq_dec names [])).
    rewrite (tally_keys_In str_eq_dec). cbn [dict_keys map In]. tauto. }
  split; [exact Hsum|]. split.
  { rewrite <- Hsum. clear - Hentry.
    induction (tally str_eq_dec names []) as [|[name c] l IH]; [reflexivity|].
    cbn [length map snd]. change (list_sum (c :: map snd l)) with (c + list_sum (map snd l)).
    destruct (Hentry name c (or_introl eq_refl)) as [_ Hc].
    assert (length l <= list_sum (map snd l)).
    { apply IH. intros n' c' Hin. apply Hentry. right. exact Hin. }
    lia. }
  split; [exact Hlen|]. split; [exact Hsorted|]. split.
  { apply ranking_keys. exact Hkeys. }
  split.
  { intros name c Hin. apply Hentry. apply Hsub. exact Hin. }
  split; [|exact Hall].
  intros name c name' c' Hin Hin' Hout.
  exact (Hbest (name, c) (name', c') Hin Hin' Hout).
Qed.

(* ===================================================================== *)
(** * The Structured-Record Extractor: candidates in buffer order         *)
(* ===================================================================== *)

(** A repetition of one set: as many bytes of the set as iterations. *)
Lemma spans_repeat_set ignorecase data negate items lo hi i c j c' :
  i <= length data ->
  spans ignorecase data (Repeat lo hi (In_ negate items)) i c j c' ->
  exists n,
    within lo hi n /\ j = i + n /\ c' = c /\ j <= length data
    /\ Forall (fun x => set_match ignorecase negate items x = true)
              (slice data i j).
Proof.
  intros Hi H.
  pose proof (spans_range _ _ _ _ _ _ _ H) as [_ Hj].
  pose proof (spans_consumes _ _ _ _ _ _ _ H) as Hall.
  cbn [spans] in H. destruct H as (n & Hn & Ht).
  apply times_one_byte in Ht. destruct Ht as [-> ->].
  exists n. split; [exact Hn|]. split; [reflexivity|]. split; [reflexivity|].
  split; [exact (Hj Hi)|exact Hall].
Qed.

Lemma slice_snoc {A} (l : list A) (i j : nat) (y : A) :
  i <= j -> nth_error l j = Some y -> slice l i (S j) = slice l i j ++ [y].
Proof.
  intros Hle Hy. rewrite (slice_split l i j (S j)) by lia.
  rewrite (slice_one l j y Hy). reflexivity.
Qed.

Lemma record_match_candidate data mt :
  In mt (finditer false JSONExtractor_pattern data) ->
  record_candidate data (m_start mt) (group0 data mt)
  /\ m_end mt = m_start mt + length (group0 data mt).
Proof.
  intros Hin.
  pose proof (finditer_inside false JSONExtractor_pattern data mt eq_refl Hin)
    as [Hlt Hend].
  apply finditer_sound in Hin.
  unfold JSONExtractor_pattern, from_to, set_not in Hin. cbn [spans] in Hin.
  destruct Hin as (m1 & c1 & (y & Hy & Hopen & -> & ->)
                   & (m2 & c2 & Hbody & (z & Hz & Hclose & He & _))).
  apply spans_repeat_set in Hbody; [|lia].
  destruct Hbody as (n & [Hlo Hhi] & -> & _ & _ & Hall).
  set (s := m_start mt) in *.
  assert (Hy' : y = "{"%byte).
  { clear - Hopen. destruct y; vm_compute in Hopen; congruence. }
  assert (Hz' : z = "}"%byte).
  { clear - Hclose. destruct z; vm_compute in Hclose; congruence. }
  subst y z.
  assert (Hlen : length (group0 data mt) = n + 2).
  { unfold group0. rewrite slice_length; lia. }
  split; [|lia]. unfold record_candidate. rewrite Hlen.
  split; [unfold group0; fold s; f_equal; lia|]. split; [lia|].
  exists (slice data (S s) (S s + n)). split.
  - unfold group0. fold s. rewrite He.
    rewrite (slice_snoc data s (S s + n) _ ltac:(lia) Hz).
    rewrite (slice_cons data s (S s + n) _ Hy ltac:(lia)). reflexivity.
  - intros Hnull.
    pose proof (proj1 (Forall_forall _ _) Hall x00 Hnull) as Hbad.
    vm_compute in Hbad. discriminate.
Qed.

(** X7.  Every finding of the Structured-Record Extractor comes from a
    candidate of the buffer at the reported offset, an opening brace, 10 to
    500 bytes without a null byte and a closing brace, whose text, decoded
    as UTF-8 with invalid bytes dropped, the parser accepted; [data] is
    what the parser returned.  The findings are in buffer order and their
    candidates do not overlap. *)
Theorem records_are_parsed_candidates
  (json_loads : str -> outcome pyval) (data : bytes) :
  exists findings,
    JSONExtractor_findings json_loads data = Returns findings
    /\ JSONExtractor_analyze json_loads data
       = Returns (VDict [("findings", VList (map json_item_py findings))])
    /\ (forall it, In it findings ->
          exists w,
            record_candidate data (json_offset it) w
            /\ json_loads (decoded Utf8 Ignore w) = Returns (json_data it))
    /\ StronglySorted (fun x y => json_offset x + 12 <= json_offset y) findings
    /\ length findings <= length data / 12.
Proof.
  pose proof (json_items json_loads data) as Hitems.
  exists (flat_map (json_items_of json_loads data)
                   (finditer false JSONExtractor_pattern data)).
  split; [exact Hitems|]. split.
  { unfold JSONExtractor_analyze. rewrite Hitems. reflexivity. }
  assert (Hsorted : StronglySorted (fun x y => json_offset x + 12 <= json_offset y)
                      (flat_map (json_items_of json_loads data)
                         (finditer false JSONExtractor_pattern data))
                    /\ forall it,
                         In it (flat_map (json_items_of json_loads data)
                                  (finditer false JSONExtractor_pattern data)) ->
                         json_offset it + 12 <= length data).
  { assert (Hgen : forall l,
              StronglySorted before l ->
              Forall (fun mt => In mt (finditer false JSONExtractor_pattern data)) l ->
              StronglySorted (fun x y => json_offset x + 12 <= json_offset y)
                (flat_map (json_items_of json_loads data) l)).
    { intros l Hord.
      induction Hord as [|mt l Hs IH Hbefore]; intros Hall; [constructor|].
      inversion Hall as [|? ? Hmt Hrest]; subst.
      cbn [flat_map]. unfold json_items_of at 1.
      destruct (json_loads (decoded Utf8 Ignore (group0 data mt))) as [parsed|e];
        [|exact (IH Hrest)].
      cbn [app]. constructor; [exact (IH Hrest)|].
      apply Forall_forall. intros it Hit. apply in_flat_map in Hit.
      destruct Hit as (mt' & Hin' & Hit).
      pose proof (proj1 (Forall_forall _ _) Hbefore mt' Hin') as [Hb1 Hb2].
      destruct (record_match_candidate data mt Hmt) as [(_ & Hlen & _) He].
      unfold json_items_of in Hit.
      destruct (json_loads (decoded Utf8 Ignore (group0 data mt'))); [|destruct Hit].
      destruct Hit as [<-|[]]. cbn [json_offset]. lia. }
    split; [apply Hgen; [apply finditer_ordered|apply Forall_forall; auto]|].
    intros it Hit. apply in_flat_map in Hit. destruct Hit as (mt & Hin & Hit).
    pose proof (finditer_inside false JSONExtractor_pattern data mt eq_refl Hin)
      as [_ Hend].
    destruct (record_match_candidate data mt Hin) as [(_ & Hlen & _) He].
    unfold json_items_of in Hit.
    destruct (json_loads (decoded Utf8 Ignore (group0 data mt))); [|destruct Hit].
    destruct Hit as [<-|[]]. cbn [json_offset]. lia. }
  destruct Hsorted as [Hsorted Hinside].
  split; [|split; [exact Hsorted|]].
  - intros it Hit. apply in_flat_map in Hit. destruct Hit as (mt & Hin & Hit).
    exists (group0 data mt).
    destruct (record_match_candidate data mt Hin) as [Hcand _].
    unfold json_items_of in Hit.
    destruct (json_loads (decoded Utf8 Ignore (group0 data mt))) as [parsed|e] eqn:E;
      [|destruct Hit].
    destruct Hit as [<-|[]]. cbn [json_offset json_data]. auto.
  - (* items that are 12 bytes apart and end inside the buffer *)
    revert Hsorted Hinside.
    generalize (flat_map (json_items_of json_loads data)
                  (finditer false JSONExtractor_pattern data)).
    intros l Hs Hin.
    assert (Hcount : forall k, (forall it, In it l -> k <= json_offset it) ->
                               12 * length l + k <= length data \/ l = []).
    { induction Hs as [|x l Hs IH Hall]; intros k Hk; [right; reflexivity|left].
      cbn [length].
      destruct (IH (fun it H => Hin it (or_intror H)) (json_offset x + 12))
        as [Hle| ->].
      - intros it Hit. exact (proj1 (Forall_forall _ _) Hall it Hit).
      - specialize (Hk x (or_introl eq_refl)). lia.
      - cbn [length]. specialize (Hin x (or_introl eq_refl)).
        specialize (Hk x (or_introl eq_refl)). lia. }
    destruct (Hcount 0 ltac:(intros; lia)) as [Hle| ->]; [|cbn; lia].
    apply Nat.div_le_lower_bound; lia.
Qed.

(* ===================================================================== *)
(** * The e-mail and IP address extractors                                *)
(* ===================================================================== *)

(** ** Sorted lists of str *)

Lemma insert_sorted_ascending (x : str) (l : list str) :
  StronglySorted (fun a c => str_ltb c a = false) l ->
  StronglySorted (fun a c => str_ltb c a = false) (insert_sorted str_ltb x l).
Proof.
  induction 1 as [|y l Hs IH Hall]; [repeat constructor|].
  cbn [insert_sorted]. destruct (str_ltb y x) eqn:Hyx.
  - constructor; [exact IH|].
    apply (Permutation_Forall
             (Permutation_sym (insert_sorted_permutation _ x l))).
    constructor; [apply str_ltb_asym; exact Hyx|exact Hall].
  - constructor; [constructor; assumption|].
    constructor; [exact Hyx|].
    eapply Forall_impl; [|exact Hall]. cbn beta. intros z Hzy.
    destruct (str_ltb z x) eqn:Hzx; [|reflexivity].
    destruct (str_ltb x y) eqn:Hxy.
    + rewrite (str_ltb_trans z x y Hzx Hxy) in Hzy. discriminate.
    + rewrite (str_ltb_total x y Hxy Hyx) in Hzx. congruence.
Qed.

Lemma sorted_str_ascending (l : list str) :
  StronglySorted (fun a c => str_ltb c a = false) (sorted_str l).
Proof.
  unfold sorted_str, sort_stable. induction l as [|x l IH]; [constructor|].
  cbn [fold_right]. apply insert_sorted_ascending. exact IH.
Qed.

Lemma sorted_str_permutation (l : list str) : Permutation (sorted_str l) l.
Proof. apply sort_stable_is_permutation. Qed.

(** Sorting different texts gives a strictly ascending list. *)
Lemma sorted_str_strict (l : list str) :
  NoDup l -> StronglySorted (fun a c => str_ltb a c = true) (sorted_str l).
Proof.
  intros Hl.
  assert (Hnd : NoDup (sorted_str l)).
  { eapply Permutation_NoDup; [|exact Hl].
    apply Permutation_sym. apply sorted_str_permutation. }
  pose proof (sorted_str_ascending l) as Hs.
  induction Hs as [|x s Hs IH Hall]; [constructor|].
  inversion Hnd as [|? ? Hx Hnd']; subst.
  constructor; [exact (IH Hnd')|].
  apply Forall_forall. intros y Hy.
  pose proof (proj1 (Forall_forall _ _) Hall y Hy) as Hyx.
  destruct (str_ltb x y) eqn:Hxy; [reflexivity|].
  exfalso. apply Hx. rewrite (str_ltb_total x y Hxy Hyx). exact Hy.
Qed.

(** ** Sets built in a loop *)

Lemma set_add_NoDup (x : str) (st : pyset) : NoDup st -> NoDup (set_add x st).
Proof.
  intros H. unfold set_add. destruct (in_dec str_eq_dec x st) as [Hin|Hout];
    [exact H|].
  apply NoDup_app; [exact H|constructor; [intros []|constructor]|].
  intros y Hy [<-|[]]. exact (Hout Hy).
Qed.

Lemma set_fold_NoDup {A} (p : A -> bool) (f : A -> str) (l : list A)
  (acc : pyset) :
  NoDup acc ->
  NoDup (fold_left (fun st a => if p a then set_add (f a) st else st) l acc).
Proof.
  revert acc. induction l as [|a l IH]; intros acc H; [exact H|].
  cbn [fold_left]. apply IH. destruct (p a); [apply set_add_NoDup|]; exact H.
Qed.

Lemma set_fold_In {A} (p : A -> bool) (f : A -> str) (l : list A)
  (acc : pyset) (x : str) :
  In x (fold_left (fun st a => if p a then set_add (f a) st else st) l acc)
  <-> In x acc \/ exists a, In a l /\ p a = true /\ f a = x.
Proof.
  split.
  - revert acc. induction l as [|a l IH]; intros acc H; [left; exact H|].
    cbn [fold_left] in H. apply IH in H.
    destruct H as [H|(a' & Ha' & Hp & Hf)].
    + destruct (p a) eqn:Hp; [|left; exact H].
      apply set_add_In in H. destruct H as [->|H]; [|left; exact H].
      right. exists a. cbn [In]. auto.
    + right. exists a'. cbn [In]. auto.
  - intros [H|(a & Ha & Hp & <-)].
    + apply set_fold_keeps. exact H.
    + apply set_fold_adds; assumption.
Qed.

(** The findings list of a set: sorted, strictly ascending, with the
    elements of the set. *)
Lemma sorted_set (seed : hash_seed) (st : pyset) :
  NoDup st ->
  StronglySorted (fun a c => str_ltb a c = true)
                 (sorted_str (list_of_set seed st))
  /\ forall x, In x (sorted_str (list_of_set seed st)) <-> In x st.
Proof.
  intros H.
  assert (Hperm : Permutation (sorted_str (list_of_set seed st)) st).
  { etransitivity; [apply sorted_str_permutation|].
    apply iteration_order_permutation. }
  split.
  - apply sorted_str_strict. eapply Permutation_NoDup; [|exact H].
    apply Permutation_sym. apply iteration_order_permutation.
  - intros x. split; apply Permutation_in;
      [exact Hperm|apply Permutation_sym; exact Hperm].
Qed.

(** ** E-mail addresses *)

Lemma email_local_set (x : byte) :
  set_match false false [Range "a" "z"; Range "A" "Z"; Range "0" "9";
                         One "."; One "_"; One "%"; One "+"; One "-"] x
  = email_local_byte x.
Proof. destruct x; reflexivity. Qed.

Lemma email_domain_set (x : byte) :
  set_match false false [Range "a" "z"; Range "A" "Z"; Range "0" "9";
                         One "."; One "-"] x
  = email_domain_byte x.
Proof. destruct x; reflexivity. Qed.

Lemma letter_set (x : byte) :
  set_match false false [Range "a" "z"; Range "A" "Z"] x = letter_byte x.
Proof. destruct x; reflexivity. Qed.

Lemma lit_exact (c y : byte) : lit_match false c y = true -> y = c.
Proof.
  unfold lit_match, code. intros H. apply N.eqb_eq in H.
  apply (f_equal Byte.of_N) in H. rewrite !Byte.of_to_N in H. congruence.
Qed.

Lemma email_match_shape data mt :
  In mt (finditer false EmailExtractor_pattern data) ->
  email_shape (group0 data mt).
Proof.
  intros Hin.
  pose proof (finditer_inside false EmailExtractor_pattern data mt eq_refl Hin)
    as [Hlt Hend].
  apply finditer_sound in Hin.
  unfold EmailExtractor_pattern, plus, at_least, set in Hin. cbn [spans] in Hin.
  destruct Hin as (m1 & c1 & (n1 & [Hn1 _] & Ht1)
                   & (m2 & c2 & (y & Hy & Hat & -> & ->)
                      & (m3 & c3 & (n2 & [Hn2 _] & Ht2)
                         & (m4 & c4 & (z & Hz & Hdot & -> & ->)
                            & (n3 & [Hn3 _] & Ht3))))).
  set (s := m_start mt) in *.
  pose proof (spans_repeat_set false data false _ 1 None s [] m1 c1 ltac:(lia)
                (ex_intro _ n1 (conj (conj Hn1 I) Ht1)))
    as (k1 & _ & -> & _ & Hm1 & Hall1).
  apply times_one_byte in Ht1. destruct Ht1 as [Hk1 ->].
  assert (k1 = n1) by lia. subst k1.
  assert (Hm1' : s + n1 < length data) by (apply nth_error_Some; congruence).
  pose proof (spans_repeat_set false data false _ 1 None (S (s + n1)) [] m3 c3
                ltac:(lia) (ex_intro _ n2 (conj (conj Hn2 I) Ht2)))
    as (k2 & _ & -> & _ & Hm3 & Hall2).
  apply times_one_byte in Ht2. destruct Ht2 as [Hk2 ->].
  assert (k2 = n2) by lia. subst k2.
  assert (Hm3' : S (s + n1) + n2 < length data) by (apply nth_error_Some; congruence).
  pose proof (spans_repeat_set false data false _ 2 None (S (S (s + n1) + n2)) []
                (m_end mt) (m_groups mt) ltac:(lia)
                (ex_intro _ n3 (conj (conj Hn3 I) Ht3)))
    as (k3 & _ & He & _ & _ & Hall3).
  apply times_one_byte in Ht3. destruct Ht3 as [Hk3 _].
  assert (k3 = n3) by lia. subst k3.
  apply lit_exact in Hat, Hdot. subst y z.
  exists (slice data s (s + n1)),
         (slice data (S (s + n1)) (S (s + n1) + n2)),
         (slice data (S (S (s + n1) + n2)) (m_end mt)).
  split; [|split; [|split; [|split; [|split; [|split]]]]].
  - unfold group0. fold s.
    rewrite (slice_split data s (s + n1) (m_end mt)) by lia. f_equal.
    rewrite (slice_cons data (s + n1) (m_end mt) _ Hy ltac:(lia)). f_equal.
    rewrite (slice_split data (S (s + n1)) (S (s + n1) + n2) (m_end mt)) by lia.
    f_equal.
    rewrite (slice_cons data (S (s + n1) + n2) (m_end mt) _ Hz ltac:(lia)).
    reflexivity.
  - intros Hnil. apply (f_equal (@length byte)) in Hnil.
    rewrite slice_length in Hnil by lia. cbn in Hnil. lia.
  - eapply Forall_impl; [|exact Hall1]. intros x Hx.
    rewrite <- email_local_set. exact Hx.
  - intros Hnil. apply (f_equal (@length byte)) in Hnil.
    rewrite slice_length in Hnil by lia. cbn in Hnil. lia.
  - eapply Forall_impl; [|exact Hall2]. intros x Hx.
    rewrite <- email_domain_set. exact Hx.
  - rewrite slice_length by lia. lia.
  - eapply Forall_impl; [|exact Hall3]. intros x Hx.
    rewrite <- letter_set. exact Hx.
Qed.

(** X8.  The findings of the e-mail extractor are the different texts of
    the matches of its pattern, each once, in strictly ascending order of
    their code points, whatever the order in which the set is iterated.
    Every finding reads: a part before the at sign, a domain, a dot and a
    last label of at least two letters. *)
Theorem emails_are_sorted_and_distinct (seed : hash_seed) (data : bytes) :
  exists findings,
    EmailExtractor_analyze seed data
    = Returns (VDict [("findings", VList (map VStr findings))])
    /\ StronglySorted (fun a c => str_ltb a c = true) findings
    /\ NoDup findings
    /\ (forall t, In t findings
                  <-> exists mt, In mt (finditer false EmailExtractor_pattern data)
                                 /\ t = text (group0 data mt))
    /\ (forall t, In t findings -> exists w, t = text w /\ email_shape w).
Proof.
  pose proof (email_set data) as Hset.
  set (emails := fold_left (fun emails mt => set_add (text (group0 data mt)) emails)
                           (finditer false EmailExtractor_pattern data) []) in *.
  assert (Hnd : NoDup emails).
  { apply (set_fold_NoDup (fun _ => true) (fun mt => text (group0 data mt))).
    constructor. }
  assert (Hin : forall t, In t emails
                          <-> exists mt, In mt (finditer false EmailExtractor_pattern data)
                                         /\ t = text (group0 data mt)).
  { intros t. unfold emails.
    rewrite (set_fold_In (fun _ => true) (fun mt => text (group0 data mt))).
    cbn [In]. split.
    - intros [[]|(mt & Hmt & _ & <-)]. exists mt. auto.
    - intros (mt & Hmt & ->). right. exists mt. auto. }
  destruct (sorted_set seed emails Hnd) as [Hsorted Hsame].
  exists (sorted_str (list_of_set seed emails)). split.
  { unfold EmailExtractor_analyze. rewrite Hset. reflexivity. }
  split; [exact Hsorted|]. split.
  { eapply Permutation_NoDup; [|exact Hnd].
    apply Permutation_sym. etransitivity; [apply sorted_str_permutation|].
    apply iteration_order_permutation. }
  split.
  - intros t. rewrite Hsame. apply Hin.
  - intros t Ht. apply Hsame in Ht. apply Hin in Ht.
    destruct Ht as (mt & Hmt & ->). exists (group0 data mt).
    split; [reflexivity|]. apply email_match_shape. exact Hmt.
Qed.

(** ** IP addresses *)

Lemma digit_set (x : byte) :
  set_match false false [Range "0" "9"] x = is_digit_byte x.
Proof. destruct x; reflexivity. Qed.

(** One to three digits, with their number. *)
Lemma digits_span data i c j c' :
  i <= length data ->
  spans false data (from_to 1 3 digit) i c j c' ->
  1 <= j - i <= 3 /\ i < j <= length data /\ c' = c
  /\ Forall (fun x => is_digit_byte x = true) (slice data i j).
Proof.
  intros Hi H. unfold from_to, digit, set in H.
  apply spans_repeat_set in H; [|exact Hi].
  destruct H as (n & [Hlo Hhi] & -> & -> & Hj & Hall).
  split; [lia|]. split; [lia|]. split; [reflexivity|].
  eapply Forall_impl; [|exact Hall]. intros x Hx.
  rewrite <- digit_set. exact Hx.
Qed.

Lemma digits_then_dot data i c j c' :
  i <= length data ->
  spans false data (Seq (from_to 1 3 digit) (Lit ".")) i c j c' ->
  exists m,
    j = S m /\ 1 <= m - i <= 3 /\ i < m < length data /\ c' = c
    /\ Forall (fun x => is_digit_byte x = true) (slice data i m)
    /\ nth_error data m = Some "."%byte.
Proof.
  intros Hi H. cbn [spans] in H.
  destruct H as (m & cm & Hd & (y & Hy & Hlit & -> & ->)).
  apply digits_span in Hd; [|exact Hi].
  destruct Hd as (Hn & Hr & -> & Hall).
  apply lit_exact in Hlit. subst y.
  assert (m < length data) by (apply nth_error_Some; congruence).
  exists m. repeat split; try assumption; lia.
Qed.

Lemma word_digit (x : byte) : is_digit_byte x = true -> is_word (code x) = true.
Proof. destruct x; vm_compute; congruence. Qed.

Lemma boundary_before_word data i y :
  at_boundary data i = true ->
  nth_error data i = Some y -> is_word (code y) = true ->
  i = 0 \/ exists z, nth_error data (i - 1) = Some z /\ is_word (code z) = false.
Proof.
  intros Hb Hy Hw. destruct i as [|i]; [left; reflexivity|right].
  unfold at_boundary, word_at in Hb. rewrite Hy, Hw in Hb.
  replace (S i - 1) with i by lia.
  assert (Hi : i < length data).
  { assert (S i < length data) by (apply nth_error_Some; congruence). lia. }
  destruct (nth_error data i) as [z|] eqn:Hz.
  - exists z. split; [reflexivity|].
    destruct (is_word (code z)); [discriminate|reflexivity].
  - apply nth_error_None in Hz. lia.
Qed.

Lemma boundary_after_word data j y :
  at_boundary data (S j) = true ->
  nth_error data j = Some y -> is_word (code y) = true ->
  match nth_error data (S j) with
  | Some z => is_word (code z) = false
  | None => True
  end.
Proof.
  intros Hb Hy Hw. unfold at_boundary, word_at in Hb. rewrite Hy, Hw in Hb.
  destruct (nth_error data (S j)) as [z|]; [|exact I].
  destruct (is_word (code z)); [discriminate|reflexivity].
Qed.

Lemma Forall_slice_nth {A} (P : A -> Prop) (l : list A) (i j k : nat) (y : A) :
  Forall P (slice l i j) -> i <= k < j -> nth_error l k = Some y -> P y.
Proof.
  intros Hall Hk Hy.
  assert (Hlen : k < length l) by (apply nth_error_Some; congruence).
  apply (proj1 (Forall_forall _ _) Hall).
  unfold slice. apply (nth_error_In _ (k - i)).
  rewrite nth_error_firstn. destruct (Nat.ltb_spec (k - i) (j - i)); [|lia].
  rewrite nth_error_skipn. replace (i + (k - i)) with k by lia. exact Hy.
Qed.

(** A match of the IP pattern: four runs of one to three digits with dots
    between them, between word boundaries. *)
Lemma ip_match_quad data mt :
  In mt (finditer false IPAddressExtractor_pattern data) ->
  exists d1 d2 d3 d4,
    group0 data mt = d1 ++ "."%byte :: d2 ++ "."%byte :: d3 ++ "."%byte :: d4
    /\ Forall (fun d => 1 <= length d <= 3
                        /\ Forall (fun x => is_digit_byte x = true) d)
              [d1; d2; d3; d4]
    /\ word_bounded data (m_start mt) (m_end mt).
Proof.
  intros Hin. pose proof (scan_start_range _ _ _ _ _ _ Hin) as Hi.
  apply finditer_sound in Hin.
  unfold IPAddressExtractor_pattern in Hin. cbn [spans] in Hin.
  destruct Hin as (m0 & c0 & (Hb0 & -> & ->) & Hin).
  destruct Hin as (m3 & c3 & (n & [Hn3 Hn3'] & Ht) & Hin).
  destruct Hin as (m4 & c4 & Hd4 & (Hb4 & He & _)).
  assert (n = 3) by lia. subst n. cbn [times] in Ht.
  destruct Ht as (m1 & c1 & H1 & _ & m2 & c2 & H2 & _ & m3' & c3' & H3 & _ & -> & ->).
  set (s := m_start mt) in *.
  apply digits_then_dot in H1; [|exact Hi].
  destruct H1 as (e1 & -> & Hn1 & Hr1 & -> & Hall1 & Hdot1).
  apply digits_then_dot in H2; [|lia].
  destruct H2 as (e2 & -> & Hn2 & Hr2 & -> & Hall2 & Hdot2).
  apply digits_then_dot in H3; [|lia].
  destruct H3 as (e3 & -> & Hn3d & Hr3 & -> & Hall3 & Hdot3).
  apply digits_span in Hd4; [|lia].
  destruct Hd4 as (Hn4 & Hr4 & _ & Hall4).
  subst m4.
  exists (slice data s e1), (slice data (S e1) e2), (slice data (S e2) e3),
         (slice data (S e3) (m_end mt)).
  split; [|split].
  - unfold group0. fold s.
    rewrite (slice_split data s e1 (m_end mt)) by lia. f_equal.
    rewrite (slice_cons data e1 (m_end mt) _ Hdot1 ltac:(lia)). f_equal.
    rewrite (slice_split data (S e1) e2 (m_end mt)) by lia. f_equal.
    rewrite (slice_cons data e2 (m_end mt) _ Hdot2 ltac:(lia)). f_equal.
    rewrite (slice_split data (S e2) e3 (m_end mt)) by lia. f_equal.
    rewrite (slice_cons data e3 (m_end mt) _ Hdot3 ltac:(lia)). reflexivity.
  - assert (Hd : forall i j,
              i <= j <= length data -> 1 <= j - i <= 3 ->
              Forall (fun x => is_digit_byte x = true) (slice data i j) ->
              1 <= length (slice data i j) <= 3
              /\ Forall (fun x => is_digit_byte x = true) (slice data i j)).
    { intros i j Hij Hn Hall. rewrite slice_length by lia. auto. }
    repeat (apply Forall_cons; [apply Hd; [lia|assumption|assumption]|]).
    apply Forall_nil.
  - unfold word_bounded. split.
    + destruct (nth_error data s) as [y|] eqn:Hy.
      * apply (boundary_before_word data s y Hb0 Hy). apply word_digit.
        apply (Forall_slice_nth _ data s e1 s y Hall1 ltac:(lia) Hy).
      * apply nth_error_None in Hy. lia.
    + destruct (m_end mt) as [|j] eqn:Hj; [lia|].
      destruct (nth_error data j) as [y|] eqn:Hy.
      * apply (boundary_after_word data j y Hb4 Hy). apply word_digit.
        apply (Forall_slice_nth _ data (S e3) (S j) j y Hall4 ltac:(lia) Hy).
      * apply nth_error_None in Hy. lia.
Qed.

Lemma octet_ok_text (p : str) :
  1 <= length p -> forallb is_ascii_digit p = true -> octet_ok p = true ->
  exists n, int p = Returns n /\ (0 <= n <= 255)%Z.
Proof.
  intros Hlen Hd Hok. unfold octet_ok in Hok.
  destruct (int p) as [n|e]; [|discriminate].
  exists n. split; [reflexivity|].
  apply andb_true_iff in Hok. destruct Hok as [H0 H255].
  apply Z.leb_le in H0, H255. lia.
Qed.

Lemma valid_quad (d1 d2 d3 d4 : bytes) :
  Forall (fun d => 1 <= length d <= 3
                   /\ Forall (fun x => is_digit_byte x = true) d)
         [d1; d2; d3; d4] ->
  ip_valid (text (d1 ++ "."%byte :: d2 ++ "."%byte :: d3 ++ "."%byte :: d4)) = true ->
  dotted_quad (text (d1 ++ "."%byte :: d2 ++ "."%byte :: d3 ++ "."%byte :: d4)).
Proof.
  intros Hall Hvalid.
  inversion Hall as [|? ? [Hl1 Hd1] Hall1]; subst.
  inversion Hall1 as [|? ? [Hl2 Hd2] Hall2]; subst.
  inversion Hall2 as [|? ? [Hl3 Hd3] Hall3]; subst.
  inversion Hall3 as [|? ? [Hl4 Hd4] _]; subst.
  assert (Htext : text (d1 ++ "."%byte :: d2 ++ "."%byte :: d3 ++ "."%byte :: d4)
                  = text d1 ++ 46%N :: text d2 ++ 46%N :: text d3 ++ 46%N :: text d4).
  { unfold text. rewrite !map_app. cbn [map]. rewrite !map_app. cbn [map].
    rewrite !map_app. cbn [map]. reflexivity. }
  rewrite Htext in *.
  unfold ip_valid in Hvalid.
  rewrite !split_at_separator in Hvalid by (apply digits_no_dot; assumption).
  rewrite split_no_separator in Hvalid by (apply digits_no_dot; assumption).
  cbn [forallb] in Hvalid. rewrite !andb_true_iff in Hvalid.
  destruct Hvalid as (Hv1 & Hv2 & Hv3 & Hv4 & _).
  exists (text d1), (text d2), (text d3), (text d4).
  split; [reflexivity|].
  assert (Hpart : forall d, 1 <= length d <= 3 ->
                            Forall (fun x => is_digit_byte x = true) d ->
                            octet_ok (text d) = true -> octet_text (text d)).
  { intros d Hl Hd Hv. unfold octet_text.
    assert (length (text d) = length d) by (unfold text; apply length_map).
    split; [lia|]. split; [apply digits_text; exact Hd|].
    apply octet_ok_text; [lia|apply digits_text; exact Hd|exact Hv]. }
  repeat (apply Forall_cons; [apply Hpart; assumption|]). apply Forall_nil.
Qed.

(** X9.  The findings of the IP address extractor are the different texts
    of the matches of its pattern whose four parts are all at most 255, each
    once, in strictly ascending order of their code points.  Every finding
    is a dotted quad: four numbers from 0 to 255 of one to three digits.
    A match stands between word boundaries: no letter, digit or underscore
    comes just before or just after it. *)
Theorem ips_are_sorted_dotted_quads (seed : hash_seed) (data : bytes) :
  exists findings,
    IPAddressExtractor_analyze seed data
    = Returns (VDict [("findings", VList (map VStr findings))])
    /\ StronglySorted (fun a c => str_ltb a c = true) findings
    /\ NoDup findings
    /\ (forall t, In t findings
                  <-> exists mt,
                        In mt (finditer false IPAddressExtractor_pattern data)
                        /\ t = text (group0 data mt)
                        /\ ip_valid t = true)
    /\ (forall t, In t findings -> dotted_quad t)
    /\ (forall mt, In mt (finditer false IPAddressExtractor_pattern data) ->
                   word_bounded data (m_start mt) (m_end mt)).
Proof.
  pose proof (ip_set data) as Hset.
  set (ips := fold_left
                (fun ips mt => if ip_valid (text (group0 data mt))
                               then set_add (text (group0 data mt)) ips else ips)
                (finditer false IPAddressExtractor_pattern data) []) in *.
  assert (Hnd : NoDup ips).
  { apply (set_fold_NoDup (fun mt => ip_valid (text (group0 data mt)))
             (fun mt => text (group0 data mt))).
    constructor. }
  assert (Hin : forall t, In t ips
                          <-> exists mt,
                                In mt (finditer false IPAddressExtractor_pattern data)
                                /\ t = text (group0 data mt)
                                /\ ip_valid t = true).
  { intros t. unfold ips.
    rewrite (set_fold_In (fun mt => ip_valid (text (group0 data mt)))
               (fun mt => text (group0 data mt))).
    cbn [In]. split.
    - intros [[]|(mt & Hmt & Hv & <-)]. exists mt. auto.
    - intros (mt & Hmt & -> & Hv). right. exists mt. auto. }
  destruct (sorted_set seed ips Hnd) as [Hsorted Hsame].
  exists (sorted_str (list_of_set seed ips)). split.
  { unfold IPAddressExtractor_analyze. rewrite Hset. reflexivity. }
  split; [exact Hsorted|]. split.
  { eapply Permutation_NoDup; [|exact Hnd].
    apply Permutation_sym. etransitivity; [apply sorted_str_permutation|].
    apply iteration_order_permutation. }
  split; [|split].
  - intros t. rewrite Hsame. apply Hin.
  - intros t Ht. apply Hsame in Ht. apply Hin in Ht.
    destruct Ht as (mt & Hmt & -> & Hv).
    destruct (ip_match_quad data mt Hmt) as (d1 & d2 & d3 & d4 & Hw & Hall & _).
    rewrite Hw in *. apply valid_quad; assumption.
  - intros mt Hmt.
    destruct (ip_match_quad data mt Hmt) as (_ & _ & _ & _ & _ & _ & Hb).
    exact Hb.
Qed.

(* ===================================================================== *)
(** * The Credential Hunter: categories and values                        *)
(* ===================================================================== *)

(** ** Low code points of a decoded text *)

Lemma lor_small (a c : N) :
  (N.lor a c < 128)%N -> (a < 128)%N /\ (c < 128)%N.
Proof.
  intros H.
  assert (Hs : N.shiftr (N.lor a c) 7 = 0%N).
  { rewrite N.shiftr_div_pow2. apply N.div_small. exact H. }
  rewrite N.shiftr_lor in Hs. apply N.lor_eq_0_iff in Hs.
  rewrite !N.shiftr_div_pow2 in Hs. destruct Hs as [Ha Hc].
  change (2 ^ 7)%N with 128%N in *.
  split.
  - pose proof (N.div_mod a 128 ltac:(lia)) as Hd. rewrite Ha in Hd.
    pose proof (N.mod_lt a 128 ltac:(lia)). lia.
  - pose proof (N.div_mod c 128 ltac:(lia)) as Hd. rewrite Hc in Hd.
    pose proof (N.mod_lt c 128 ltac:(lia)). lia.
Qed.

Lemma land_low (x : N) (n : N) (lo hi : N) :
  (lo <= x < hi)%N -> (lo mod 2 ^ n = 0)%N -> (hi <= lo + 2 ^ n)%N ->
  N.land x (N.ones n) = (x - lo)%N.
Proof.
  intros Hx Hlo Hhi. rewrite N.land_ones.
  pose proof (N.div_mod lo (2 ^ n) ltac:(apply N.pow_nonzero; lia)) as Hd.
  rewrite Hlo, N.add_0_r in Hd.
  symmetry. apply (N.mod_unique x (2 ^ n) (lo / 2 ^ n)); lia.
Qed.

(** A character below 128 that the UTF-8 decoder produces is the byte it
    read. *)
Lemma utf8_step_low (l : list N) (cp : N) (w : nat) :
  utf8_step l = Some (Char cp w) -> (cp < 128)%N -> exists r, l = cp :: r.
Proof.
  destruct l as [|b0 r]; [discriminate|]. cbn [utf8_step]. intros H Hcp.
  injection H as H.
  destruct (N.ltb_spec b0 128); [inversion H; subst; eauto|].
  destruct (N.ltb_spec b0 194); [discriminate|].
  destruct (N.ltb_spec b0 224).
  { destruct r as [|b1 r1]; [discriminate|].
    destruct (is_continuation b1); [|discriminate].
    inversion H; subst. exfalso.
    apply lor_small in Hcp. destruct Hcp as [Hcp _].
    rewrite N.shiftl_mul_pow2 in Hcp. change (2 ^ 6)%N with 64%N in Hcp.
    change 31%N with (N.ones 5) in Hcp.
    rewrite (land_low b0 5 192 224) in Hcp by (try reflexivity; cbn; lia).
    lia. }
  destruct (N.ltb_spec b0 240).
  { destruct r as [|b1 r1]; [discriminate|].
    destruct (second_of_three b0 b1) eqn:Hsec; cbn [negb] in H; [|discriminate].
    destruct r1 as [|b2 r2]; [discriminate|].
    destruct (is_continuation b2); [|discriminate].
    inversion H; subst. exfalso.
    apply lor_small in Hcp. destruct Hcp as [Hc0 Hcp].
    apply lor_small in Hcp. destruct Hcp as [Hc1 _].
    rewrite N.shiftl_mul_pow2 in Hc0, Hc1.
    change (2 ^ 12)%N with 4096%N in Hc0. change (2 ^ 6)%N with 64%N in Hc1.
    change 15%N with (N.ones 4) in Hc0.
    rewrite (land_low b0 4 224 240) in Hc0 by (try reflexivity; cbn; lia).
    unfold second_of_three, is_continuation in Hsec.
    rewrite !andb_true_iff, !negb_true_iff, !andb_false_iff in Hsec.
    destruct Hsec as [[Hcont Hover] _].
    destruct Hcont as [Hlo Hhi']. apply N.leb_le in Hlo, Hhi'.
    unfold low6 in Hc1. change 63%N with (N.ones 6) in Hc1.
    assert (b0 = 224%N) by lia. subst b0.
    destruct Hover as [Hover|Hover]; [rewrite N.eqb_refl in Hover; discriminate|].
    apply N.ltb_ge in Hover.
    rewrite (land_low b1 6 128 192) in Hc1 by (try reflexivity; cbn; lia).
    lia. }
  destruct (N.ltb_spec b0 245); [|discriminate].
  destruct r as [|b1 r1]; [discriminate|].
  destruct (second_of_four b0 b1) eqn:Hsec; cbn [negb] in H; [|discriminate].
  destruct r1 as [|b2 r2]; [discriminate|].
  destruct (is_continuation b2); cbn [negb] in H; [|discriminate].
  destruct r2 as [|b3 r3]; [discriminate|].
  destruct (is_continuation b3); [|discriminate].
  inversion H; subst. exfalso.
  apply lor_small in Hcp. destruct Hcp as [Hc0 Hcp].
  apply lor_small in Hcp. destruct Hcp as [Hc1 _].
  rewrite N.shiftl_mul_pow2 in Hc0, Hc1.
  change (2 ^ 18)%N with 262144%N in Hc0. change (2 ^ 12)%N with 4096%N in Hc1.
  change 7%N with (N.ones 3) in Hc0.
  rewrite (land_low b0 3 240 248) in Hc0 by (try reflexivity; cbn; lia).
  unfold second_of_four, is_continuation in Hsec.
  rewrite !andb_true_iff, !negb_true_iff, !andb_false_iff in Hsec.
  destruct Hsec as [[Hcont Hover] _].
  destruct Hcont as [Hlo Hhi']. apply N.leb_le in Hlo, Hhi'.
  unfold low6 in Hc1. change 63%N with (N.ones 6) in Hc1.
  assert (b0 = 240%N) by lia. subst b0.
  destruct Hover as [Hover|Hover]; [rewrite N.eqb_refl in Hover; discriminate|].
  apply N.ltb_ge in Hover.
  rewrite (land_low b1 6 128 192) in Hc1 by (try reflexivity; cbn; lia).
  lia.
Qed.

Lemma codec_step_low enc (l : list N) (cp : N) (w : nat) :
  codec_step enc l = Some (Char cp w) -> (cp < 128)%N -> exists r, l = cp :: r.
Proof.
  destruct enc; [|apply utf8_step_low].
  cbn [codec_step]. destruct l as [|b0 r]; [discriminate|].
  cbn [ascii_step]. destruct (b0 <? 128)%N; intros H; inversion H; eauto.
Qed.

(** Every code point below 128 of a decoded text is one of the bytes. *)
Lemma decode_loop_low enc errors (c : N) :
  (c < 128)%N ->
  forall fuel l t,
    decode_loop enc errors fuel l = Returns t -> In c t -> In c l.
Proof.
  intros Hc. induction fuel as [|fuel IH]; intros l t H Hin;
    cbn [decode_loop] in H; [inversion H; subst; destruct Hin|].
  destruct (codec_step enc l) as [[cp w|reason w]|] eqn:E;
    [| |inversion H; subst; destruct Hin].
  - destruct (decode_loop enc errors fuel (skipn w l)) as [t'|] eqn:E';
      cbn [bind] in H; [|discriminate].
    inversion H; subst. destruct Hin as [->|Hin].
    + destruct (codec_step_low enc l c w E Hc) as [r ->]. left. reflexivity.
    + eapply In_skipn. exact (IH _ _ E' Hin).
  - destruct errors; [discriminate| |].
    + eapply In_skipn. exact (IH _ _ H Hin).
    + destruct (decode_loop enc Replace fuel (skipn w l)) as [t'|] eqn:E';
        cbn [bind] in H; [|discriminate].
      inversion H; subst. destruct Hin as [Heq|Hin].
      * unfold replacement_character in Heq. lia.
      * eapply In_skipn. exact (IH _ _ E' Hin).
Qed.

Lemma decoded_low enc errors (w : bytes) (c : N) :
  (c < 128)%N -> In c (decoded enc errors w) -> In c (text w).
Proof.
  intros Hc Hin. unfold decoded, decode in Hin.
  destruct (decode_loop enc errors (length w) (map Byte.to_N w)) as [t|] eqn:E;
    [|destruct Hin].
  exact (decode_loop_low enc errors c Hc _ _ _ E Hin).
Qed.

(** With the replacing policy a text is empty only when the bytes are. *)
Lemma decoded_replace_nonempty enc (w : bytes) :
  w <> [] -> decoded enc Replace w <> [].
Proof.
  intros Hw. unfold decoded, decode. destruct w as [|x w]; [congruence|].
  cbn [length map decode_loop].
  assert (Hstep : exists st, codec_step enc (Byte.to_N x :: map Byte.to_N w) = Some st).
  { destruct enc; cbn; eauto. }
  destruct Hstep as [st ->].
  destruct (decode_loop_lossy enc Replace (length w)
              (skipn (step_width st) (Byte.to_N x :: map Byte.to_N w))
              ltac:(discriminate)) as [t Ht].
  destruct st as [cp k|reason k]; cbn [step_width] in Ht; rewrite Ht;
    cbn [bind]; discriminate.
Qed.

(** ** The captured bytes *)

Lemma final_group_span ignorecase data (r : regex) :
  final_group r = true ->
  forall i c j c',
    spans ignorecase data r i c j c' ->
    exists i',
      i <= i' /\ c' = (1, (i', j)) :: c
      /\ spans ignorecase data (final_body r) i' c j c.
Proof.
  induction r as [ch|negate items|r1 IH1 r2 IH2|lo hi r1 IH1|g r1 IH1|];
    intros Hf i c j c' H; cbn [final_group] in Hf; try discriminate.
  - apply andb_true_iff in Hf. destruct Hf as [Hg Hf].
    cbn [spans] in H. destruct H as (m & cm & H1 & H2).
    pose proof (spans_groupless _ _ _ _ _ _ _ Hg H1) as ->.
    pose proof (spans_range _ _ _ _ _ _ _ H1) as [Hle _].
    destruct (IH2 Hf _ _ _ _ H2) as (i' & Hi' & -> & Hb).
    exists i'. split; [lia|]. split; [reflexivity|exact Hb].
  - destruct g as [|[|g]]; try discriminate.
    cbn [spans] in H. destruct H as (cm & H1 & ->).
    pose proof (spans_groupless _ _ _ _ _ _ _ Hf H1) as ->.
    exists i. split; [lia|]. split; [reflexivity|exact H1].
Qed.

(** What [match.group(1 if match.lastindex else 0)] takes from a match of
    a pattern that ends with group 1: the bytes of the group, which reach
    to the end of the match. *)
Lemma captured_group data (pattern : regex) (mt : match_object) :
  final_group pattern = true ->
  takes_bytes (final_body pattern) = true ->
  In mt (finditer true pattern data) ->
  exists i,
    m_start mt <= i < m_end mt
    /\ m_end mt <= length data
    /\ captured data mt = slice data i (m_end mt)
    /\ Forall (fun x => consumes true (final_body pattern) x = true)
              (captured data mt).
Proof.
  intros Hf Htakes Hin.
  pose proof (scan_start_range _ _ _ _ _ _ Hin) as Hstart.
  apply finditer_sound in Hin.
  pose proof (spans_range _ _ _ _ _ _ _ Hin) as [_ Hend]. specialize (Hend Hstart).
  destruct (final_group_span true data pattern Hf _ _ _ _ Hin)
    as (i & Hi & Hc & Hb).
  pose proof (spans_takes_bytes _ _ _ _ _ _ _ Htakes Hb) as Hlt.
  exists i. split; [lia|]. split; [exact Hend|].
  unfold captured, lastindex, group. rewrite Hc. cbn [group_span Nat.eqb].
  split; [reflexivity|]. exact (spans_consumes _ _ _ _ _ _ _ Hb).
Qed.

(** From a match of a pattern without a group it takes the whole match. *)
Lemma captured_whole data (pattern : regex) (mt : match_object) :
  groupless pattern = true ->
  takes_bytes pattern = true ->
  In mt (finditer true pattern data) ->
  m_start mt < m_end mt <= length data
  /\ captured data mt = slice data (m_start mt) (m_end mt)
  /\ Forall (fun x => consumes true pattern x = true) (captured data mt).
Proof.
  intros Hg Htakes Hin.
  pose proof (finditer_inside true pattern data mt Htakes Hin) as Hr.
  apply finditer_sound in Hin.
  pose proof (spans_groupless _ _ _ _ _ _ _ Hg Hin) as Hc.
  split; [exact Hr|].
  unfold captured, lastindex, group0. rewrite Hc. split; [reflexivity|].
  exact (spans_consumes _ _ _ _ _ _ _ Hin).
Qed.

(** ** The values *)

(** The bytes a value is decoded from: those of group 1 when the pattern
    ends with it, those of the whole match when it has no group. *)
Lemma credential_pattern_shapes category pattern_list pattern :
  In (category, pattern_list) CredentialHunter_patterns ->
  In pattern pattern_list ->
  (final_group pattern = true
   /\ takes_bytes (final_body pattern) = true
   /\ forall x, consumes true (final_body pattern) x = true ->
                token_char (code x) = true)
  \/ (groupless pattern = true
      /\ takes_bytes pattern = true
      /\ forall x, consumes true pattern x = true -> token_char (code x) = true).
Proof.
  intros Hc Hp. unfold CredentialHunter_patterns in Hc.
  repeat (destruct Hc as [Hc|Hc];
          [inversion Hc; subst; clear Hc;
           repeat (destruct Hp as [<-|Hp];
                   [first [left; split; [reflexivity|]; split; [reflexivity|];
                           intros x; destruct x; vm_compute; congruence
                          |right; split; [reflexivity|]; split; [reflexivity|];
                           intros x; destruct x; vm_compute; congruence]|]);
           destruct Hp|]).
  destruct Hc.
Qed.

Lemma token_char_high (c : N) : (128 <= c)%N -> token_char c = true.
Proof.
  intros Hc. unfold token_char, is_space, between.
  destruct (N.eqb_spec c 32); [lia|]. destruct (N.eqb_spec c 0); [lia|].
  destruct (N.leb_spec 9 c); destruct (N.leb_spec c 13); cbn; try reflexivity; lia.
Qed.

Lemma decoded_tokens (w : bytes) (p : byte -> bool) :
  Forall (fun x => p x = true) w ->
  (forall x, p x = true -> token_char (code x) = true) ->
  Forall (fun c => token_char c = true) (firstn 200 (decoded Utf8 Replace w)).
Proof.
  intros Hall Hp. apply Forall_forall. intros c Hin. apply In_firstn in Hin.
  destruct (N.lt_ge_cases c 128) as [Hlow|Hhigh]; [|apply token_char_high; exact Hhigh].
  apply (decoded_low Utf8 Replace w c Hlow) in Hin.
  unfold text in Hin. apply in_map_iff in Hin. destruct Hin as (x & <- & Hx).
  apply Hp. exact (proj1 (Forall_forall _ _) Hall x Hx).
Qed.

Lemma firstn_nonempty {A} (n : nat) (l : list A) :
  0 < n -> l <> [] -> firstn n l <> [].
Proof. destruct n, l; cbn; intros; try lia; congruence. Qed.

Lemma slice_nonempty {A} (l : list A) (i j : nat) :
  i < j <= length l -> slice l i j <> [].
Proof.
  intros H He. apply (f_equal (@length A)) in He.
  rewrite slice_length in He by lia. cbn in He. lia.
Qed.

Lemma matched_categories_keys (data : bytes) :
  dict_keys (collected data) = matched_categories data.
Proof.
  unfold collected, matched_categories, dict_keys, has_items.
  induction CredentialHunter_patterns as [|e l IH]; [reflexivity|].
  cbn [map filter fst snd].
  destruct (category_items data (snd e)); cbn [map fst]; rewrite IH; reflexivity.
Qed.

(** A stored item: where it comes from and what its value is made of. *)
Lemma stored_item_shape (data : bytes) category items it :
  In (category, items)
     (map (fun e => (fst e, first_seen (snd e))) (collected data)) ->
  In it items ->
  cred_value it <> []
  /\ Forall (fun c => token_char c = true) (cred_value it)
  /\ exists pattern_list pattern mt i,
       In (category, pattern_list) CredentialHunter_patterns
       /\ In pattern pattern_list
       /\ In mt (finditer true pattern data)
       /\ cred_offset it = m_start mt
       /\ m_start mt <= i < m_end mt /\ m_end mt <= length data
       /\ cred_value it
          = firstn 200 (decoded Utf8 Replace (slice data i (m_end mt))).
Proof.
  intros Hin Hit.
  destruct (stored_items_are_matches data category items it Hin Hit)
    as (pattern_list & pattern & mt & Hc & Hp & Hmt & ->).
  unfold cred_item_of. cbn [cred_value cred_offset].
  destruct (credential_pattern_shapes category pattern_list pattern Hc Hp)
    as [(Hf & Ht & Hbytes)|(Hg & Ht & Hbytes)].
  - destruct (captured_group data pattern mt Hf Ht Hmt)
      as (i & Hi & Hend & Hcap & Hall).
    split; [|split].
    + apply firstn_nonempty; [lia|]. apply decoded_replace_nonempty.
      rewrite Hcap. apply slice_nonempty. lia.
    + exact (decoded_tokens _ _ Hall Hbytes).
    + exists pattern_list, pattern, mt, i. rewrite Hcap.
      repeat split; try assumption; lia.
  - destruct (captured_whole data pattern mt Hg Ht Hmt) as (Hr & Hcap & Hall).
    split; [|split].
    + apply firstn_nonempty; [lia|]. apply decoded_replace_nonempty.
      rewrite Hcap. apply slice_nonempty. lia.
    + exact (decoded_tokens _ _ Hall Hbytes).
    + exists pattern_list, pattern, mt, (m_start mt). rewrite Hcap.
      repeat split; try assumption; lia.
Qed.

(** X10.  The keys of the result of the Credential Hunter are the categories
    that have a match, in the order of the dictionary [patterns].  Every
    value is the text, cut to 200 characters, of the bytes at the end of a
    match: those of group 1, or the whole match for a pattern without a
    group.  A value is never empty and holds no ASCII white space and no
    null character. *)
Theorem credential_values_are_tokens (data : bytes) :
  exists findings,
    CredentialHunter_findings data = Returns findings
    /\ dict_keys findings = matched_categories data
    /\ forall category items it,
         In (category, items) findings -> In it items ->
         cred_value it <> []
         /\ Forall (fun c => token_char c = true) (cred_value it)
         /\ exists pattern_list pattern mt i,
              In (category, pattern_list) CredentialHunter_patterns
              /\ In pattern pattern_list
              /\ In mt (finditer true pattern data)
              /\ cred_offset it = m_start mt
              /\ m_start mt <= i < m_end mt /\ m_end mt <= length data
              /\ cred_value it
                 = firstn 200 (decoded Utf8 Replace (slice data i (m_end mt))).
Proof.
  eexists. split; [apply findings_first_seen|]. split.
  { unfold dict_keys. rewrite map_map. cbn [fst].
    exact (matched_categories_keys data). }
  intros category items it Hin Hit.
  exact (stored_item_shape data category items it Hin Hit).
Qed.

(* ===================================================================== *)
(** * Buffers too short for a match                                       *)
(* ===================================================================== *)

Lemma spans_min_width ignorecase data (r : regex) :
  forall i c j c', spans ignorecase data r i c j c' -> i + min_width r <= j.
Proof.
  induction r as [ch|negate items|r1 IH1 r2 IH2|lo hi r1 IH1|g r1 IH1|];
    intros i c j c' H; cbn [spans min_width] in *.
  - destruct H as (y & _ & _ & -> & _). lia.
  - destruct H as (y & _ & _ & -> & _). lia.
  - destruct H as (m & cm & H1 & H2). apply IH1 in H1. apply IH2 in H2. lia.
  - destruct H as (n & [Hlo _] & Ht).
    assert (Hn : i + n * min_width r1 <= j).
    { clear Hlo. revert i c Ht. induction n as [|n IHn]; intros i c Ht;
        cbn [times] in Ht.
      - destruct Ht as [-> _]. lia.
      - destruct Ht as (m & cm & H1 & _ & Ht). apply IH1 in H1.
        apply IHn in Ht. lia. }
    assert (lo * min_width r1 <= n * min_width r1)
      by (apply Nat.mul_le_mono_r; exact Hlo).
    lia.
  - destruct H as (cm & H1 & _). exact (IH1 _ _ _ _ H1).
  - destruct H as (_ & -> & _). lia.
Qed.

(** A buffer shorter than the shortest match has no match. *)
Lemma finditer_short ignorecase (r : regex) (data : bytes) :
  length data < min_width r -> finditer ignorecase r data = [].
Proof.
  intros Hshort. destruct (finditer ignorecase r data) as [|mt l] eqn:E;
    [reflexivity|exfalso].
  assert (Hin : In mt (finditer ignorecase r data)) by (rewrite E; left; reflexivity).
  pose proof (scan_start_range _ _ _ _ _ _ Hin) as Hstart.
  apply finditer_sound in Hin.
  pose proof (spans_range _ _ _ _ _ _ _ Hin) as [_ Hend].
  apply spans_min_width in Hin. specialize (Hend Hstart). lia.
Qed.

Lemma credential_patterns_width category pattern_list pattern :
  In (category, pattern_list) CredentialHunter_patterns ->
  In pattern pattern_list ->
  8 <= min_width pattern.
Proof.
  intros Hc Hp.
  assert (H : forallb (fun e => forallb (fun p => (8 <=? min_width p)%nat) (snd e))
                      CredentialHunter_patterns = true) by reflexivity.
  rewrite forallb_forall in H. specialize (H _ Hc). cbn [snd] in H.
  rewrite forallb_forall in H. apply Nat.leb_le. exact (H _ Hp).
Qed.

Lemma flat_map_nil {A B} (f : A -> list B) (l : list A) :
  (forall x, In x l -> f x = []) -> flat_map f l = [].
Proof.
  induction l as [|x l IH]; intros H; [reflexivity|].
  cbn [flat_map]. rewrite (H x (or_introl eq_refl)). apply IH.
  intros y Hy. apply H. right. exact Hy.
Qed.

Lemma collected_short (data : bytes) : length data < 8 -> collected data = [].
Proof.
  intros Hlen. unfold collected.
  assert (Hall : forall e, In e CredentialHunter_patterns ->
                           category_items data (snd e) = []).
  { intros [category pattern_list] He. cbn [snd]. unfold category_items.
    apply flat_map_nil. intros p Hp.
    pose proof (credential_patterns_width category pattern_list p He Hp).
    rewrite (finditer_short true p data ltac:(lia)). reflexivity. }
  induction CredentialHunter_patterns as [|e l IH]; [reflexivity|].
  cbn [map filter]. unfold has_items at 1. cbn [snd].
  rewrite (Hall e (or_introl eq_refl)). apply IH.
  intros e' He'. apply Hall. right. exact He'.
Qed.

(** X11.  A buffer too short to hold a match gives empty findings, and no
    error: fewer than 4 bytes for the String Extractor, 8 for the Credential
    Hunter (whose result is then the empty dictionary), 12 for the
    Structured-Record Extractor, 3 for the Schema-Field-Name Analyzer, 6 for
    the e-mail extractor and 7 for the IP address extractor.  The empty
    buffer is the first case of each. *)
Theorem short_buffers_give_empty_findings
  (json_loads : str -> outcome pyval) (seed : hash_seed) (data : bytes) :
  (length data < 4 ->
   StringExtractor_analyze data
   = Returns (VDict [("total_strings", VInt 0); ("findings", VList [])]))
  /\ (length data < 8 -> CredentialHunter_analyze data = Returns (VDict []))
  /\ (length data < 12 ->
      JSONExtractor_analyze json_loads data
      = Returns (VDict [("findings", VList [])]))
  /\ (length data < 3 ->
      BSONFieldAnalyzer_analyze data
      = Returns (VDict [("total_fields", VInt 0); ("unique_fields", VInt 0);
                        ("top_fields", VList []); ("all_fields", VList [])]))
  /\ (length data < 6 ->
      EmailExtractor_analyze seed data = Returns (VDict [("findings", VList [])]))
  /\ (length data < 7 ->
      IPAddressExtractor_analyze seed data
      = Returns (VDict [("findings", VList [])])).
Proof.
  split; [|split; [|split; [|split; [|split]]]]; intros Hlen.
  - unfold StringExtractor_analyze. rewrite string_items.
    rewrite (finditer_short false StringExtractor_pattern data Hlen). reflexivity.
  - unfold CredentialHunter_analyze. rewrite findings_first_seen.
    rewrite (collected_short data); [reflexivity|lia].
  - unfold JSONExtractor_analyze. rewrite json_items.
    rewrite (finditer_short false JSONExtractor_pattern data Hlen). reflexivity.
  - unfold BSONFieldAnalyzer_analyze. rewrite field_items.
    rewrite (finditer_short false BSONFieldAnalyzer_pattern data Hlen). reflexivity.
  - unfold EmailExtractor_analyze. rewrite email_set.
    rewrite (finditer_short false EmailExtractor_pattern data Hlen). reflexivity.
  - unfold IPAddressExtractor_analyze. rewrite ip_set.
    rewrite (finditer_short false IPAddressExtractor_pattern data Hlen). reflexivity.
Qed.

(* ===================================================================== *)
(** * Running the analyzers again                                         *)
(* ===================================================================== *)

Section AssignFacts.
Context {K V : Type}.
Variable dec : forall x y : K, {x = y} + {x <> y}.

Lemma dict_set_keys (k : K) (v : V) (d : dict K V) :
  dict_keys (dict_set dec k v d)
  = if in_dec dec k (dict_keys d) then dict_keys d else dict_keys d ++ [k].
Proof.
  destruct (in_dec dec k (dict_keys d)) as [Hin|Hout];
    [|apply dict_keys_set_new; exact Hout].
  induction d as [|[k' v'] d IH]; [destruct Hin|].
  cbn [dict_set]. destruct (dec k k') as [->|Hne]; [reflexivity|].
  cbn [dict_keys map fst]. f_equal. apply IH.
  destruct Hin as [Heq|Hin]; [cbn in Heq; congruence|exact Hin].
Qed.

(** Two dictionaries with the same keys in the same order and the same
    value under every key are equal. *)
Lemma dict_ext (d d' : dict K V) :
  NoDup (dict_keys d) ->
  dict_keys d = dict_keys d' ->
  (forall k, dict_get dec k d = dict_get dec k d') ->
  d = d'.
Proof.
  revert d'. induction d as [|[k v] d IH]; intros [|[k' v'] d'] Hnd Hk Hg;
    try discriminate; [reflexivity|].
  cbn [dict_keys map fst] in Hk. injection Hk as <- Hk.
  inversion Hnd as [|? ? Hout Hnd']; subst.
  pose proof (Hg k) as Hv. cbn [dict_get] in Hv.
  destruct (dec k k) as [_|Hbad]; [|contradiction]. injection Hv as <-.
  f_equal. apply IH; [exact Hnd'|exact Hk|].
  intros k0. specialize (Hg k0). cbn [dict_get] in Hg.
  destruct (dec k0 k) as [->|Hne]; [|exact Hg].
  rewrite (dict_get_fresh dec k d Hout).
  fold (dict_keys d) in Hk. rewrite Hk in Hout.
  rewrite (dict_get_fresh dec k d' Hout). reflexivity.
Qed.

Lemma keys_after_incl (ns ks : list K) (n : K) :
  In n ks \/ In n ns -> In n (keys_after dec ns ks).
Proof.
  revert ks. induction ns as [|m ns IH]; intros ks [H|H];
    try (exact H); try (destruct H; fail).
  - cbn [keys_after fold_left]. apply IH. left.
    destruct (in_dec dec m ks); [exact H|apply in_or_app; left; exact H].
  - cbn [keys_after fold_left]. apply IH. destruct H as [->|H]; [left|right; exact H].
    destruct (in_dec dec n ks) as [Hin|_]; [exact Hin|].
    apply in_or_app. right. left. reflexivity.
Qed.

Lemma keys_after_known (ns ks : list K) :
  (forall n, In n ns -> In n ks) -> keys_after dec ns ks = ks.
Proof.
  induction ns as [|m ns IH]; intros H; [reflexivity|].
  cbn [keys_after fold_left].
  destruct (in_dec dec m ks) as [_|Hout];
    [|exfalso; apply Hout; apply H; left; reflexivity].
  apply IH. intros n Hn. apply H. right. exact Hn.
Qed.

Lemma keys_after_NoDup (ns ks : list K) :
  NoDup ks -> NoDup (keys_after dec ns ks).
Proof.
  revert ks. induction ns as [|m ns IH]; intros ks H; [exact H|].
  cbn [keys_after fold_left]. apply IH.
  destruct (in_dec dec m ks) as [_|Hout]; [exact H|].
  apply NoDup_app; [exact H|constructor; [intros []|constructor]|].
  intros y Hy [<-|[]]. exact (Hout Hy).
Qed.
End AssignFacts.

(** The assignments of [analyze_all], whatever the values. *)
Lemma fold_assign_all_keys (f : BaseAnalyzer -> pyval) (l : list BaseAnalyzer)
  (res : dict string pyval) :
  dict_keys (fold_left (fun r a => dict_set string_dec (get_name a) (f a) r) l res)
  = keys_after string_dec (map get_name l) (dict_keys res).
Proof.
  revert res. induction l as [|a l IH]; intros res; [reflexivity|].
  cbn [fold_left map keys_after]. rewrite IH, dict_set_keys. reflexivity.
Qed.

Lemma fold_assign_get (f : BaseAnalyzer -> pyval) (l : list BaseAnalyzer)
  (res res' : dict string pyval) (k : string) :
  (~ In k (map get_name l) ->
   dict_get string_dec k res = dict_get string_dec k res') ->
  dict_get string_dec k
    (fold_left (fun r a => dict_set string_dec (get_name a) (f a) r) l res)
  = dict_get string_dec k
      (fold_left (fun r a => dict_set string_dec (get_name a) (f a) r) l res').
Proof.
  revert res res'. induction l as [|a l IH]; intros res res' H.
  - apply H. intros [].
  - cbn [fold_left]. apply IH. intros Hout.
    destruct (string_dec k (get_name a)) as [->|Hne].
    + rewrite !dict_get_set_same. reflexivity.
    + rewrite !dict_get_set_other by exact Hne. apply H.
      cbn [map In]. intros [Heq|Hin]; [congruence|exact (Hout Hin)].
Qed.

Lemma fold_analyze_one_printed data l res res' out :
  snd (fold_left (analyze_one data) l (res, out))
  = snd (fold_left (analyze_one data) l (res', out)).
Proof.
  revert res res' out. induction l as [|a l IH]; intros res res' out;
    [reflexivity|].
  cbn [fold_left]. unfold analyze_one at 2 4.
  destruct (analyze a data); apply IH.
Qed.

(** X12.  Running [analyze_all] a second time, on another buffer, leaves in
    [results] exactly what a single run on that buffer gives: every entry
    is replaced, in the same order, and nothing of the first run remains;
    the list of analyzers is unchanged and the same lines are printed. *)
Theorem second_run_replaces_every_entry
  (l : list BaseAnalyzer) (data1 data2 : bytes) :
  results (fst (analyze_all (fst (run_pipeline l data1)) data2))
  = results (fst (run_pipeline l data2))
  /\ analyzers (fst (analyze_all (fst (run_pipeline l data1)) data2)) = l
  /\ snd (analyze_all (fst (run_pipeline l data1)) data2)
     = snd (run_pipeline l data2).
Proof.
  rewrite !run_pipeline_unfold. cbn [fst snd]. unfold analyze_all.
  cbn [analyzers results].
  destruct (fold_left (analyze_one data2) l
              (fst (fold_left (analyze_one data1) l ([], [])), []))
    as [res out] eqn:E.
  cbn [fst snd results analyzers].
  assert (Hres : res = fst (fold_left (analyze_one data2) l
                              (fst (fold_left (analyze_one data1) l ([], [])), [])))
    by (rewrite E; reflexivity).
  assert (Hout : out = snd (fold_left (analyze_one data2) l
                              (fst (fold_left (analyze_one data1) l ([], [])), [])))
    by (rewrite E; reflexivity).
  clear E. split; [|split; [reflexivity|]].
  - rewrite Hres, !fold_analyze_one_results.
    set (first := fold_left (fun r a => dict_set string_dec (get_name a)
                                          (entry_of a data1) r) l []).
    assert (Hk1 : dict_keys first = keys_after string_dec (map get_name l) []).
    { unfold first. rewrite fold_assign_all_keys. reflexivity. }
    apply (dict_ext string_dec).
    + rewrite fold_assign_all_keys. apply keys_after_NoDup.
      rewrite Hk1. apply keys_after_NoDup. constructor.
    + rewrite !fold_assign_all_keys, Hk1. cbn [dict_keys map].
      apply keys_after_known. intros n Hn. apply keys_after_incl. right. exact Hn.
    + intros k. apply fold_assign_get. intros Hout'.
      unfold first. rewrite fold_assign_other by exact Hout'. reflexivity.
  - rewrite Hout. apply fold_analyze_one_printed.
Qed.

(* ===================================================================== *)
(** * The text report                                                     *)
(* ===================================================================== *)

(** ** Loops that build a text *)

Lemma for_each_lines {A} (l : list A) (output : str)
  (body : str -> A -> outcome str) (line : A -> str) :
  (forall out x, In x l -> body out x = Returns (out ++ line x)) ->
  for_each l output body = Returns (output ++ flat_map line l).
Proof.
  revert output. induction l as [|x l IH]; intros output H.
  - cbn. rewrite app_nil_r. reflexivity.
  - cbn [for_each flat_map]. rewrite (H output x (or_introl eq_refl)).
    cbn [bind]. rewrite IH by (intros out y Hy; apply H; right; exact Hy).
    rewrite app_assoc. reflexivity.
Qed.

Lemma for_each_returns {A S} (l : list A) (st : S)
  (body : S -> A -> outcome S) :
  (forall st x, In x l -> exists st', body st x = Returns st') ->
  exists st', for_each l st body = Returns st'.
Proof.
  revert st. induction l as [|x l IH]; intros st H; [eexists; reflexivity|].
  cbn [for_each]. destruct (H st x (or_introl eq_refl)) as [st' ->].
  cbn [bind]. apply IH. intros st0 y Hy. apply H. right. exact Hy.
Qed.

Lemma for_each_map {A B S} (f : A -> B) (l : list A) (st : S)
  (body : S -> B -> outcome S) :
  for_each (map f l) st body = for_each l st (fun st x => body st (f x)).
Proof.
  revert st. induction l as [|x l IH]; intros st; [reflexivity|].
  cbn [map for_each]. destruct (body st (f x)); [apply IH|reflexivity].
Qed.

(** ** The rows of the reports *)

Section TextReport.
Variable json_dumps : pyval -> outcome str.
Variable str_of_object : pyval -> str.

Lemma string_rows (n : pyval) (strings : list string_item) :
  StringExtractor_format_result str_of_object
    (VDict [("total_strings", n); ("findings", VList (map string_item_py strings))])
  = Returns
      (match strings with
       | [] => u "未发现字符串" ++ nl
       | _ :: _ =>
           u "找到 " ++ format_value str_of_object n
           ++ u " 个字符串（显示前500个）:" ++ nl ++ nl
           ++ flat_map string_line (firstn 100 strings)
       end).
Proof.
  unfold StringExtractor_format_result.
  destruct strings as [|it strings]; [reflexivity|].
  set (l := it :: strings).
  change (get _ "findings" VNone) with (Returns (VList (map string_item_py l))).
  cbn [bind]. unfold l at 1. cbn [map truthy negb].
  change (getitem _ "total_strings") with (Returns n).
  change (getitem _ "findings") with (Returns (VList (map string_item_py l))).
  cbn [bind slice_to iterate]. rewrite firstn_map, for_each_map.
  rewrite (for_each_lines _ _ _ string_line).
  - rewrite <- ?app_assoc. reflexivity.
  - intros out x _. unfold string_item_py, nat_py, string_line. cbn.
    rewrite <- ?app_assoc. reflexivity.
Qed.

Lemma cred_rows_of (category : string) (its : list cred_item) (output : str) :
  (let '(category, found) := (category, VList (map cred_item_py its)) in
   if truthy found then
     let output := output ++ nl ++ str_upper (key_str category) ++ s ":" ++ nl in
     let output := output ++ repeat_str (s "-") 60 ++ nl in
     shown <- slice_to found 20 ;;
     shown <- iterate shown ;;
     for_each shown output
       (fun output item =>
          offset <- getitem item "offset" ;;
          offset <- format_d 6 false offset ;;
          value <- getitem item "value" ;;
          Returns (output ++ u "  偏移 " ++ offset ++ s ": "
                   ++ format_value str_of_object value ++ nl))
   else Returns output)
  = Returns (output ++ cred_block (category, its)).
Proof.
  unfold cred_block. cbn [fst snd].
  destruct its as [|it its]; [cbn; rewrite app_nil_r; reflexivity|].
  set (l := it :: its). unfold l at 1. cbn [map truthy].
  cbn [slice_to bind iterate]. rewrite firstn_map, for_each_map.
  rewrite (for_each_lines _ _ _ cred_line).
  - rewrite <- ?app_assoc. reflexivity.
  - intros out x _. unfold cred_item_py, nat_py, cred_line. cbn.
    rewrite <- ?app_assoc. reflexivity.
Qed.

Lemma credential_rows (findings : dict string (list cred_item)) :
  CredentialHunter_format_result str_of_object
    (VDict (map (fun entry => (fst entry, VList (map cred_item_py (snd entry))))
                findings))
  = Returns (match findings with
             | [] => u "未发现凭证信息" ++ nl
             | _ :: _ => flat_map cred_block findings
             end).
Proof.
  unfold CredentialHunter_format_result.
  destruct findings as [|e findings]; [reflexivity|].
  set (l := e :: findings). unfold l at 1. cbn [map truthy negb items bind].
  fold (map (fun entry => (fst entry, VList (map cred_item_py (snd entry)))) l).
  change (?x :: map ?f findings) with (map f l).
  rewrite for_each_map.
  rewrite (for_each_lines _ _ _ cred_block); [reflexivity|].
  intros out [category its] _. cbn [fst snd]. apply cred_rows_of.
Qed.

Lemma record_rows (findings : list json_item) :
  Forall (fun it => exists t, json_dumps (json_data it) = Returns t) findings ->
  JSONExtractor_format_result json_dumps
    (VDict [("findings", VList (map json_item_py findings))])
  = Returns
      (match findings with
       | [] => u "未发现有效JSON数据" ++ nl
       | _ :: _ =>
           u "找到 " ++ str_of_nat (length findings) ++ u " 个JSON对象:" ++ nl ++ nl
           ++ flat_map (record_block json_dumps) (firstn 50 findings)
       end).
Proof.
  intros Hall. unfold JSONExtractor_format_result.
  destruct findings as [|it findings]; [reflexivity|].
  set (l := it :: findings) in *.
  change (get _ "findings" VNone) with (Returns (VList (map json_item_py l))).
  cbn [bind]. unfold l at 1. cbn [map truthy negb].
  change (getitem _ "findings") with (Returns (VList (map json_item_py l))).
  cbn [bind len slice_to iterate]. rewrite length_map, firstn_map, for_each_map.
  rewrite (for_each_lines _ _ _ (record_block json_dumps)).
  - rewrite <- ?app_assoc. reflexivity.
  - intros out x Hx. apply In_firstn in Hx.
    destruct (proj1 (Forall_forall _ _) Hall x Hx) as [t Ht].
    unfold json_item_py, record_block.
    change (getitem _ "offset") with (Returns (nat_py (json_offset x))).
    change (getitem _ "data") with (Returns (json_data x)).
    unfold nat_py. cbn [bind format_d]. rewrite Ht. cbn [bind text_of].
    rewrite <- ?app_assoc. reflexivity.
Qed.

Lemma field_rows (total unique : nat) (top : list (str * nat)) (all : pyval) :
  BSONFieldAnalyzer_format_result str_of_object
    (VDict [("total_fields", nat_py total); ("unique_fields", nat_py unique);
            ("top_fields", VList (map count_py top)); ("all_fields", all)])
  = Returns
      (match total with
       | O => u "未发现BSON字段" ++ nl
       | S _ =>
           u "找到 " ++ str_of_nat total ++ u " 个字段名（" ++ str_of_nat unique
           ++ u " 个唯一）:" ++ nl ++ nl ++ u "出现频率最高的字段:" ++ nl
           ++ flat_map field_line top
       end).
Proof.
  unfold BSONFieldAnalyzer_format_result.
  change (get _ "total_fields" VNone) with (Returns (nat_py total)).
  cbn [bind]. destruct total as [|total]; [reflexivity|].
  assert (Ht : truthy (nat_py (S total)) = true).
  { unfold nat_py, truthy. destruct (Z.eqb_spec (Z.of_nat (S total)) 0); [lia|reflexivity]. }
  rewrite Ht. cbn [negb].
  change (getitem _ "total_fields") with (Returns (nat_py (S total))).
  change (getitem _ "unique_fields") with (Returns (nat_py unique)).
  change (getitem _ "top_fields") with (Returns (VList (map count_py top))).
  cbn [bind iterate]. rewrite for_each_map.
  rewrite (for_each_lines _ _ _ field_line).
  - unfold nat_py, format_value, str_of_nat. rewrite <- ?app_assoc. reflexivity.
  - intros out x _. unfold count_py, nat_py, field_line. cbn.
    rewrite <- ?app_assoc. reflexivity.
Qed.

Lemma listing_rows (nothing found : str) (findings : list str) :
  listing_format_result str_of_object nothing found
    (VDict [("findings", VList (map VStr findings))])
  = Returns
      (match findings with
       | [] => nothing ++ nl
       | _ :: _ =>
           u "找到 " ++ str_of_nat (length findings) ++ found ++ nl
           ++ flat_map listing_line findings
       end).
Proof.
  unfold listing_format_result.
  destruct findings as [|t findings]; [reflexivity|].
  set (l := t :: findings).
  change (get _ "findings" VNone) with (Returns (VList (map VStr l))).
  cbn [bind]. unfold l at 1. cbn [map truthy negb].
  change (getitem _ "findings") with (Returns (VList (map VStr l))).
  cbn [bind len iterate]. rewrite length_map, for_each_map.
  rewrite (for_each_lines _ _ _ listing_line).
  - rewrite <- ?app_assoc. reflexivity.
  - intros out x _. unfold listing_line. cbn. rewrite <- ?app_assoc. reflexivity.
Qed.

Lemma layout_rows (total nulls printable : nat) (np pp : pyval)
  (top : list (bytes * nat)) (tn tp : str) :
  format_f 2 np = Returns tn -> format_f 2 pp = Returns tp ->
  HexDumpAnalyzer_format_result str_of_object
    (VDict [("total_size", nat_py total); ("null_bytes", nat_py nulls);
            ("null_percentage", np); ("printable_bytes", nat_py printable);
            ("printable_percentage", pp);
            ("top_patterns", VList (map pattern_py top))])
  = Returns
      (u "内存布局统计:" ++ nl
       ++ u "  总大小: " ++ str_of_nat total ++ u " 字节" ++ nl
       ++ u "  空字节: " ++ str_of_nat nulls ++ s " (" ++ tn ++ s "%)" ++ nl
       ++ u "  可打印字符: " ++ str_of_nat printable ++ s " (" ++ tp ++ s "%)"
       ++ nl ++ nl
       ++ u "最常见的4字节模式:" ++ nl
       ++ flat_map pattern_line top).
Proof.
  intros Hn Hp. unfold HexDumpAnalyzer_format_result.
  change (getitem _ "total_size") with (Returns (nat_py total)).
  change (getitem _ "null_bytes") with (Returns (nat_py nulls)).
  change (getitem _ "null_percentage") with (Returns np).
  change (getitem _ "printable_bytes") with (Returns (nat_py printable)).
  change (getitem _ "printable_percentage") with (Returns pp).
  change (getitem _ "top_patterns") with (Returns (VList (map pattern_py top))).
  cbn [bind]. rewrite Hn, Hp. cbn [bind iterate]. rewrite for_each_map.
  rewrite (for_each_lines _ _ _ pattern_line).
  - unfold nat_py, format_value, str_of_nat. rewrite <- ?app_assoc. reflexivity.
  - intros out x _. unfold pattern_py, nat_py, pattern_line, str_of_nat. cbn.
    rewrite <- ?app_assoc. reflexivity.
Qed.
End TextReport.

(** ** No formatting method raises on the result of its analyzer *)

Lemma format_f_percentage (part total : nat) (v : pyval) :
  percentage part total = Returns v -> exists t, format_f 2 v = Returns t.
Proof.
  unfold percentage, truediv. destruct (Nat.ltb_spec 0 total) as [Hpos|Hzero].
  - destruct (Nat.eqb_spec total 0); [lia|]. cbn [bind]. intros H.
    inversion H; subst. eexists. reflexivity.
  - intros H. inversion H; subst. eexists. reflexivity.
Qed.

Lemma json_items_dumped (json_loads : str -> outcome pyval)
  (json_dumps : pyval -> outcome str) (data : bytes) (l : list match_object) :
  (forall t v, json_loads t = Returns v -> exists out, json_dumps v = Returns out) ->
  Forall (fun it => exists t, json_dumps (json_data it) = Returns t)
         (flat_map (json_items_of json_loads data) l).
Proof.
  intros Hd. apply Forall_forall. intros it Hit. apply in_flat_map in Hit.
  destruct Hit as (mt & _ & Hit). unfold json_items_of in Hit.
  destruct (json_loads (decoded Utf8 Ignore (group0 data mt))) as [v|] eqn:E;
    [|destruct Hit].
  destruct Hit as [<-|[]]. cbn [json_data]. exact (Hd _ _ E).
Qed.

(** X13.  The text report never fails: on every buffer, each of the seven
    methods [format_result] returns a text for the result its analyzer
    returned (no key is missing and every value has the type its format
    needs), provided [json.dumps] writes whatever [json.loads] has
    returned. *)
Theorem text_report_never_raises
  (json_loads : str -> outcome pyval) (json_dumps : pyval -> outcome str)
  (str_of_object : pyval -> str) (seed : hash_seed) (data : bytes) :
  (forall t v, json_loads t = Returns v -> exists out, json_dumps v = Returns out) ->
  Forall (fun r => exists result text,
                     analyze (analyzer r) data = Returns result
                     /\ format_result r result = Returns text)
         (main_reporters json_dumps str_of_object json_loads seed).
Proof.
  intros Hd. unfold main_reporters.
  repeat (apply Forall_cons; [|]); [| | | | | | |apply Forall_nil];
    cbn [analyzer format_result analyze HexDumpAnalyzer CredentialHunter
           BSONFieldAnalyzer StringExtractor JSONExtractor EmailExtractor
           IPAddressExtractor].
  - unfold HexDumpAnalyzer_analyze.
    destruct (percentage (count_occ Byte.byte_eq_dec data x00) (length data))
      as [np|] eqn:En;
      [|destruct (percentage_returns (count_occ Byte.byte_eq_dec data x00)
                    (length data)) as [v Hv]; congruence].
    destruct (percentage (length (filter (fun x => between 32 126 (code x)) data))
                         (length data)) as [pp|] eqn:Ep;
      [|destruct (percentage_returns
                    (length (filter (fun x => between 32 126 (code x)) data))
                    (length data)) as [v Hv]; congruence].
    cbn [bind]. destruct (format_f_percentage _ _ _ En) as [tn Hn].
    destruct (format_f_percentage _ _ _ Ep) as [tp Hp].
    eexists. eexists. split; [reflexivity|].
    apply (layout_rows str_of_object _ _ _ _ _ _ tn tp Hn Hp).
  - unfold CredentialHunter_analyze. rewrite findings_first_seen. cbn [bind].
    eexists. eexists. split; [reflexivity|]. apply credential_rows.
  - unfold BSONFieldAnalyzer_analyze. rewrite field_items. cbn [bind].
    eexists. eexists. split; [reflexivity|]. apply field_rows.
  - unfold StringExtractor_analyze. rewrite string_items. cbn [bind].
    eexists. eexists. split; [reflexivity|]. apply string_rows.
  - unfold JSONExtractor_analyze. rewrite json_items. cbn [bind].
    eexists. eexists. split; [reflexivity|]. apply record_rows.
    apply json_items_dumped. exact Hd.
  - unfold EmailExtractor_analyze. rewrite email_set. cbn [bind].
    eexists. eexists. split; [reflexivity|].
    unfold EmailExtractor_format_result. apply listing_rows.
  - unfold IPAddressExtractor_analyze. rewrite ip_set. cbn [bind].
    eexists. eexists. split; [reflexivity|].
    unfold IPAddressExtractor_format_result. apply listing_rows.
Qed.

(** The seven reports on a buffer that holds a string, a credential, a
    record, a field name, an address of each kind. *)
Lemma text_report_never_raises_witness :
  Forall (fun r => exists result text,
                     analyze (analyzer r) (b "user=admin a@b.cd 10.0.0.1")
                     = Returns result
                     /\ format_result r result = Returns text)
         (main_reporters json_blank str_blank json_rejects []).
Proof.
  apply (text_report_never_raises json_rejects json_blank str_blank []
           (b "user=admin a@b.cd 10.0.0.1")).
  intros t v H. discriminate H.
Defined.

(** X14.  What the methods [format_result] make of the record of an error,
    and of the empty dictionary that [main] passes for a missing entry:
    the Layout Analyzer raises KeyError on both; the Credential Hunter
    raises TypeError on the record of an error whose message is not empty
    (it takes the message for a list of credentials), returns the empty
    text when the message is empty, and the nothing-found line on the empty
    dictionary; the other methods return their nothing-found line. *)
Theorem error_records_in_the_text_report
  (json_dumps : pyval -> outcome str) (str_of_object : pyval -> str) (e : exn) :
  HexDumpAnalyzer_format_result str_of_object (error_record e)
  = Raises (KeyError "total_size")
  /\ HexDumpAnalyzer_format_result str_of_object (VDict [])
     = Raises (KeyError "total_size")
  /\ (exn_str e <> [] ->
      CredentialHunter_format_result str_of_object (error_record e)
      = Raises (TypeError "string indices must be integers, not 'str'"))
  /\ (exn_str e = [] ->
      CredentialHunter_format_result str_of_object (error_record e) = Returns [])
  /\ CredentialHunter_format_result str_of_object (VDict [])
     = Returns (u "未发现凭证信息" ++ nl)
  /\ Forall (fun result =>
               StringExtractor_format_result str_of_object result
               = Returns (u "未发现字符串" ++ nl)
               /\ JSONExtractor_format_result json_dumps result
                  = Returns (u "未发现有效JSON数据" ++ nl)
               /\ BSONFieldAnalyzer_format_result str_of_object result
                  = Returns (u "未发现BSON字段" ++ nl)
               /\ EmailExtractor_format_result str_of_object result
                  = Returns (u "未发现邮箱地址" ++ nl)
               /\ IPAddressExtractor_format_result str_of_object result
                  = Returns (u "未发现IP地址" ++ nl)
               /\ BaseAnalyzer_format_result json_dumps result
                  = Returns (u "未发现相关数据" ++ nl))
            [error_record e; VDict []].
Proof.
  split; [reflexivity|]. split; [reflexivity|]. split; [|split; [|split]].
  - intros Hne. unfold error_record, CredentialHunter_format_result.
    cbn [truthy negb items bind for_each].
    destruct (exn_str e) as [|c msg]; [congruence|]. reflexivity.
  - intros He. unfold error_record. rewrite He. reflexivity.
  - reflexivity.
  - repeat constructor.
Qed.

(** ** One finding, one line *)

Lemma lines_line (a rest : str) :
  ~ In 10%N a -> lines (a ++ nl ++ rest) = a :: lines rest.
Proof. intros H. unfold lines, nl. cbn [app]. apply split_at_separator. exact H. Qed.

Lemma lines_rows {A} (row : A -> str) (l : list A) (rest : str) :
  (forall x, In x l -> ~ In 10%N (row x)) ->
  lines (flat_map (fun x => row x ++ nl) l ++ rest) = map row l ++ lines rest.
Proof.
  induction l as [|x l IH]; intros H; [reflexivity|].
  cbn [flat_map map app]. rewrite <- !app_assoc.
  rewrite lines_line by (apply H; left; reflexivity).
  f_equal. apply IH. intros y Hy. apply H. right. exact Hy.
Qed.

Lemma uint_digits (d : Decimal.uint) :
  forallb digit_or_minus (s (NilEmpty.string_of_uint d)) = true.
Proof. induction d; cbn; try reflexivity; exact IHd. Qed.

Lemma str_of_Z_digits (z : Z) : forallb digit_or_minus (str_of_Z z) = true.
Proof.
  assert (Hu : forall d, forallb digit_or_minus (s (NilZero.string_of_uint d)) = true).
  { intros d. unfold NilZero.string_of_uint.
    destruct d; first [reflexivity|apply uint_digits]. }
  unfold str_of_Z, NilZero.string_of_int.
  destruct (Z.to_int z) as [d|d]; [apply Hu|].
  change (forallb digit_or_minus (45%N :: s (NilZero.string_of_uint d)) = true).
  cbn [forallb]. rewrite Hu. reflexivity.
Qed.

Lemma no_line_feed (p : N -> bool) (t : str) :
  forallb p t = true -> p 10%N = false -> ~ In 10%N t.
Proof.
  intros Hall Hp Hin. rewrite forallb_forall in Hall.
  rewrite (Hall _ Hin) in Hp. discriminate.
Qed.

Lemma str_of_Z_line (z : Z) : ~ In 10%N (str_of_Z z).
Proof. exact (no_line_feed _ _ (str_of_Z_digits z) eq_refl). Qed.

Lemma pad_int_line (width : nat) (zero : bool) (z : Z) :
  ~ In 10%N (pad_int width zero z).
Proof.
  unfold pad_int. intros Hin.
  assert (Hrep : forall c n, In 10%N (repeat c n) -> c = 10%N).
  { intros c n H. apply repeat_spec in H. congruence. }
  assert (Hsign : ~ In 10%N (if (z <? 0)%Z then [45%N] else [])).
  { destruct (z <? 0)%Z; cbn; intuition discriminate. }
  destruct zero; rewrite !in_app_iff in Hin;
    destruct Hin as [Hin|[Hin|Hin]];
    try (apply Hrep in Hin; discriminate);
    try (exact (str_of_Z_line _ Hin));
    exact (Hsign Hin).
Qed.

Lemma printable_line (w : bytes) :
  Forall (fun x => printable_byte x = true) w -> ~ In 10%N (text w).
Proof.
  intros Hall Hin. unfold text in Hin. apply in_map_iff in Hin.
  destruct Hin as (x & Hx & Hin).
  pose proof (proj1 (Forall_forall _ _) Hall x Hin) as Hp.
  unfold printable_byte in Hp. rewrite Hx in Hp. discriminate.
Qed.

Lemma string_row_line (data : bytes) (mt : match_object) :
  In mt (finditer false StringExtractor_pattern data) ->
  ~ In 10%N (string_row (string_item_of data mt)).
Proof.
  intros Hin. unfold string_row, string_item_of.
  cbn [string_offset string_content]. rewrite !in_app_iff.
  intros [H|[H|[H|H]]].
  - vm_compute in H. intuition discriminate.
  - exact (pad_int_line _ _ _ H).
  - vm_compute in H. intuition discriminate.
  - revert H. apply printable_line.
    apply finditer_sound in Hin. apply spans_consumes in Hin.
    unfold group0. eapply Forall_impl; [|exact Hin].
    intros x Hx. rewrite <- printable_set. exact Hx.
Qed.

Lemma string_line_row (it : string_item) : string_line it = string_row it ++ nl.
Proof. unfold string_line, string_row. rewrite <- !app_assoc. reflexivity. Qed.

Lemma firstn_min {A} (n m : nat) (l : list A) :
  n <= m -> firstn n (firstn m l) = firstn n l.
Proof. intros H. rewrite firstn_firstn. f_equal. lia. Qed.

(** X15.  The text the String Extractor writes for a buffer: one line with
    the total number of strings found, an empty line, and one line for each
    of the first 100 strings, in buffer order, with its offset in a field
    of six characters and its content; no content breaks a line.  With no
    string, the text is the nothing-found line. *)
Theorem string_report_lines (str_of_object : pyval -> str) (data : bytes) :
  exists strings text,
    StringExtractor_strings data = Returns strings
    /\ report StringExtractor_analyze
              (StringExtractor_format_result str_of_object) data
       = Returns text
    /\ (strings = [] -> text = u "未发现字符串" ++ nl)
    /\ (strings <> [] ->
        lines text
        = (u "找到 " ++ str_of_nat (length strings) ++ u " 个字符串（显示前500个）:")
            :: [] :: map string_row (firstn 100 strings) ++ [[]])
    /\ Forall (fun it => ~ In 10%N (string_row it)) strings.
Proof.
  pose proof (string_items data) as Hitems.
  set (strings := map (string_item_of data)
                      (finditer false StringExtractor_pattern data)) in *.
  assert (Hrows : Forall (fun it => ~ In 10%N (string_row it)) strings).
  { apply Forall_forall. intros it Hit. apply in_map_iff in Hit.
    destruct Hit as (mt & <- & Hmt). apply string_row_line. exact Hmt. }
  clearbody strings.
  exists strings,
    (match strings with
     | [] => u "未发现字符串" ++ nl
     | _ :: _ =>
         u "找到 " ++ str_of_nat (length strings)
         ++ u " 个字符串（显示前500个）:" ++ nl ++ nl
         ++ flat_map string_line (firstn 100 strings)
     end).
  split; [exact Hitems|]. split.
  { unfold report, StringExtractor_analyze. rewrite Hitems. cbn [bind].
    rewrite string_rows. f_equal. destruct strings as [|it rest]; [reflexivity|].
    rewrite firstn_min by lia. reflexivity. }
  split; [|split; [|exact Hrows]].
  - intros ->. reflexivity.
  - intros Hne. destruct strings as [|it rest] eqn:E; [congruence|].
    rewrite <- E in *. unfold str_of_nat.
    assert (Hhead : ~ In 10%N (u "找到 " ++ str_of_Z (Z.of_nat (length strings))
                                ++ u " 个字符串（显示前500个）:")).
    { rewrite !in_app_iff. intros [H|[H|H]].
      - vm_compute in H. intuition discriminate.
      - exact (str_of_Z_line _ H).
      - vm_compute in H. intuition discriminate. }
    rewrite !app_assoc. rewrite <- (app_assoc _ nl nl).
    rewrite <- (app_assoc _ (nl ++ nl)). rewrite <- (app_assoc nl nl).
    rewrite lines_line by exact Hhead.
    f_equal. change (nl ++ flat_map string_line (firstn 100 strings))
               with ([] ++ nl ++ flat_map string_line (firstn 100 strings)).
    rewrite lines_line by (intros []). f_equal.
    rewrite <- (app_nil_r (flat_map string_line _)).
    rewrite (flat_map_ext _ _ string_line_row).
    rewrite (lines_rows string_row); [reflexivity|].
    intros x Hx. apply In_firstn in Hx.
    exact (proj1 (Forall_forall _ _) Hrows x Hx).
Qed.

Lemma cred_line_row (it : cred_item) : cred_line it = cred_row it ++ nl.
Proof. unfold cred_line, cred_row. rewrite <- !app_assoc. reflexivity. Qed.

Lemma token_line (t : str) :
  Forall (fun c => token_char c = true) t -> ~ In 10%N t.
Proof.
  intros Hall Hin. pose proof (proj1 (Forall_forall _ _) Hall _ Hin) as H.
  discriminate H.
Qed.

Lemma category_line (category : string) (pattern_list : list regex) :
  In (category, pattern_list) CredentialHunter_patterns ->
  ~ In 10%N (str_upper (key_str category) ++ s ":").
Proof.
  intros Hc. unfold CredentialHunter_patterns in Hc.
  repeat (destruct Hc as [Hc|Hc];
          [inversion Hc; subst; vm_compute; intuition discriminate|]).
  destruct Hc.
Qed.

Lemma rule_line : ~ In 10%N (repeat_str (s "-") 60).
Proof. vm_compute. intuition discriminate. Qed.

(** The lines of the block of a category that has credentials. *)
Lemma cred_block_text (entry : string * list cred_item) (rest : str) :
  snd entry <> [] ->
  ~ In 10%N (str_upper (key_str (fst entry)) ++ s ":") ->
  Forall (fun it => ~ In 10%N (cred_row it)) (snd entry) ->
  lines (cred_block entry ++ rest) = cred_block_lines entry ++ lines rest.
Proof.
  intros Hne Hcat Hrows. unfold cred_block, cred_block_lines.
  destruct (snd entry) as [|it its] eqn:E; [congruence|]. rewrite <- E in *.
  rewrite <- !app_assoc.
  change (nl ++ ?x) with ([] ++ nl ++ x).
  rewrite lines_line by (intros []). cbn [app]. f_equal.
  rewrite (app_assoc (str_upper _)).
  rewrite lines_line by exact Hcat. f_equal.
  rewrite lines_line by exact rule_line. f_equal.
  rewrite (flat_map_ext _ _ cred_line_row).
  apply lines_rows. intros x Hx. apply In_firstn in Hx.
  exact (proj1 (Forall_forall _ _) Hrows x Hx).
Qed.

(** X16.  The text the Credential Hunter writes for a buffer: for each
    category that has a match, in the order of the dictionary [patterns], an
    empty line, the name of the category in upper case with a colon, a rule
    of 60 dashes, and one line for each of its first 20 credentials, with
    the offset in a field of six characters and the value; no value breaks
    a line.  With no match at all, the text is the nothing-found line. *)
Theorem credential_report_lines (str_of_object : pyval -> str) (data : bytes) :
  exists findings text,
    CredentialHunter_findings data = Returns findings
    /\ report CredentialHunter_analyze
              (CredentialHunter_format_result str_of_object) data
       = Returns text
    /\ (findings = [] -> text = u "未发现凭证信息" ++ nl)
    /\ (findings <> [] ->
        lines text = flat_map cred_block_lines findings ++ [[]])
    /\ Forall (fun entry =>
                 snd entry <> []
                 /\ Forall (fun it => ~ In 10%N (cred_row it)) (snd entry))
              findings.
Proof.
  pose proof (findings_first_seen data) as Hf.
  remember (map (fun e => (fst e, first_seen (snd e))) (collected data))
    as findings eqn:Hfind.
  assert (Hentries : Forall (fun entry =>
                     snd entry <> []
                     /\ ~ In 10%N (str_upper (key_str (fst entry)) ++ s ":")
                     /\ Forall (fun it => ~ In 10%N (cred_row it)) (snd entry))
                    findings).
  { apply Forall_forall. intros [category items] Hin. cbn [fst snd].
    assert (Hin' := Hin). rewrite Hfind in Hin'.
    apply in_map_iff in Hin'. destruct Hin' as ([c items0] & Heq & Hin0).
    cbn [fst snd] in Heq. inversion Heq; subst c items. clear Heq.
    destruct (collected_entry data category items0 Hin0) as (ps & Hps & ->).
    split; [|split].
    - unfold collected in Hin0. apply filter_In in Hin0.
      destruct Hin0 as [_ Hhas]. unfold has_items in Hhas. cbn [snd] in Hhas.
      destruct (category_items data ps); [discriminate|discriminate].
    - exact (category_line category ps Hps).
    - apply Forall_forall. intros it Hit.
      rewrite Hfind in Hin.
      destruct (stored_item_shape data category _ it Hin Hit) as (_ & Htok & _).
      unfold cred_row. rewrite !in_app_iff. intros [H|[H|[H|H]]].
      + vm_compute in H. intuition discriminate.
      + exact (pad_int_line _ _ _ H).
      + vm_compute in H. intuition discriminate.
      + exact (token_line _ Htok H). }
  clear Hfind.
  exists findings,
    (match findings with
     | [] => u "未发现凭证信息" ++ nl
     | _ :: _ => flat_map cred_block findings
     end).
  split; [exact Hf|]. split.
  { unfold report, CredentialHunter_analyze. rewrite Hf. cbn [bind].
    apply credential_rows. }
  split; [intros ->; reflexivity|]. split.
  - intros Hne. destruct findings as [|e0 rest] eqn:E; [congruence|].
    rewrite <- E in *. clear E Hne Hf.
    induction Hentries as [|e l (Hn & Hc & Hr) _ IH]; [reflexivity|].
    cbn [flat_map]. rewrite (cred_block_text e _ Hn Hc Hr), IH.
    rewrite <- app_assoc. reflexivity.
  - eapply Forall_impl; [|exact Hentries]. cbn beta. tauto.
Qed.

Lemma ascii_line (w : bytes) (p : byte -> bool) :
  Forall (fun x => p x = true) w -> p "010"%byte = false -> ~ In 10%N (text w).
Proof.
  intros Hall Hp Hin. unfold text in Hin. apply in_map_iff in Hin.
  destruct Hin as (x & Hx & Hin).
  pose proof (proj1 (Forall_forall _ _) Hall x Hin) as Hpx.
  assert (x = "010"%byte).
  { apply (f_equal Byte.of_N) in Hx. unfold code in Hx.
    rewrite Byte.of_to_N in Hx. cbn in Hx. congruence. }
  congruence.
Qed.

Lemma listing_lines (str_of_object : pyval -> str) (nothing found : str)
  (findings : list str) :
  ~ In 10%N found ->
  Forall (fun t => ~ In 10%N t) findings ->
  findings <> [] ->
  lines (text_of (listing_format_result str_of_object nothing found
                    (VDict [("findings", VList (map VStr findings))])))
  = (u "找到 " ++ str_of_nat (length findings) ++ found)
      :: map (fun t => s "  " ++ t) findings ++ [[]].
Proof.
  intros Hfound Hall Hne. rewrite listing_rows. cbn [text_of].
  destruct findings as [|t rest] eqn:E; [congruence|]. rewrite <- E in *.
  rewrite !app_assoc. rewrite <- (app_assoc _ nl).
  rewrite lines_line.
  - f_equal. rewrite <- (app_nil_r (flat_map listing_line findings)).
    unfold listing_line.
    rewrite (flat_map_ext _ (fun t => (s "  " ++ t) ++ nl))
      by (intros; rewrite <- app_assoc; reflexivity).
    rewrite (lines_rows (fun t => s "  " ++ t)); [reflexivity|].
    intros x Hx. rewrite in_app_iff. intros [H|H].
    + vm_compute in H. intuition discriminate.
    + exact (proj1 (Forall_forall _ _) Hall x Hx H).
  - unfold str_of_nat. rewrite !in_app_iff. intros [[H|H]|H].
    + vm_compute in H. intuition discriminate.
    + exact (str_of_Z_line _ H).
    + exact (Hfound H).
Qed.

Lemma set_texts_line (data : bytes) (pattern : regex) (keep : match_object -> bool)
  (seed : hash_seed) :
  consumes false pattern "010"%byte = false ->
  Forall (fun t => ~ In 10%N t)
         (sorted_str
            (list_of_set seed
               (fold_left (fun st mt => if keep mt
                                        then set_add (text (group0 data mt)) st
                                        else st)
                          (finditer false pattern data) []))).
Proof.
  intros Hp. apply Forall_forall. intros t Ht.
  apply (Permutation_in _ (sorted_str_permutation _)) in Ht.
  apply (Permutation_in _ (iteration_order_permutation _ _)) in Ht.
  apply (set_fold_In keep (fun mt => text (group0 data mt))) in Ht.
  destruct Ht as [[]|(mt & Hmt & _ & <-)].
  apply (ascii_line _ (consumes false pattern)); [|exact Hp].
  apply finditer_sound in Hmt. exact (spans_consumes _ _ _ _ _ _ _ Hmt).
Qed.

(** X17.  The texts the e-mail and IP address extractors write for a buffer:
    one line with the number of findings, then one line for every finding,
    none left out, in ascending order; no finding breaks a line.  With no
    finding, the text is the nothing-found line. *)
Theorem address_report_lines
  (str_of_object : pyval -> str) (seed : hash_seed) (data : bytes) :
  (exists findings text,
     EmailExtractor_analyze seed data
     = Returns (VDict [("findings", VList (map VStr findings))])
     /\ report (EmailExtractor_analyze seed)
               (EmailExtractor_format_result str_of_object) data
        = Returns text
     /\ (findings = [] -> text = u "未发现邮箱地址" ++ nl)
     /\ (findings <> [] ->
         lines text
         = (u "找到 " ++ str_of_nat (length findings) ++ u " 个邮箱地址:")
             :: map (fun t => s "  " ++ t) findings ++ [[]]))
  /\ (exists findings text,
        IPAddressExtractor_analyze seed data
        = Returns (VDict [("findings", VList (map VStr findings))])
        /\ report (IPAddressExtractor_analyze seed)
                  (IPAddressExtractor_format_result str_of_object) data
           = Returns text
        /\ (findings = [] -> text = u "未发现IP地址" ++ nl)
        /\ (findings <> [] ->
            lines text
            = (u "找到 " ++ str_of_nat (length findings) ++ u " 个IP地址:")
                :: map (fun t => s "  " ++ t) findings ++ [[]])).
Proof.
  split.
  - pose proof (email_set data) as Hset.
    pose proof (set_texts_line data EmailExtractor_pattern (fun _ => true) seed
                  eq_refl) as Hall.
    cbn beta iota in Hall.
    remember (sorted_str (list_of_set seed _)) as findings eqn:Hf in Hall.
    exists findings. eexists. split.
    { unfold EmailExtractor_analyze. rewrite Hset. cbn [bind]. rewrite Hf.
      reflexivity. }
    assert (Hreport : report (EmailExtractor_analyze seed)
                        (EmailExtractor_format_result str_of_object) data
                      = listing_format_result str_of_object (u "未发现邮箱地址")
                          (u " 个邮箱地址:")
                          (VDict [("findings", VList (map VStr findings))])).
    { unfold report, EmailExtractor_analyze. rewrite Hset. cbn [bind].
      rewrite Hf. reflexivity. }
    split; [rewrite Hreport; apply listing_rows|]. split.
    + intros ->. reflexivity.
    + intros Hne.
      pose proof (listing_lines str_of_object (u "未发现邮箱地址")
                    (u " 个邮箱地址:") findings) as Hl.
      rewrite listing_rows in Hl. cbn [text_of] in Hl. apply Hl; try assumption.
      vm_compute. intuition discriminate.
  - pose proof (ip_set data) as Hset.
    pose proof (set_texts_line data IPAddressExtractor_pattern
                  (fun mt => ip_valid (text (group0 data mt))) seed eq_refl)
      as Hall.
    remember (sorted_str (list_of_set seed _)) as findings eqn:Hf in Hall.
    exists findings. eexists. split.
    { unfold IPAddressExtractor_analyze. rewrite Hset. cbn [bind]. rewrite Hf.
      reflexivity. }
    assert (Hreport : report (IPAddressExtractor_analyze seed)
                        (IPAddressExtractor_format_result str_of_object) data
                      = listing_format_result str_of_object (u "未发现IP地址")
                          (u " 个IP地址:")
                          (VDict [("findings", VList (map VStr findings))])).
    { unfold report, IPAddressExtractor_analyze. rewrite Hset. cbn [bind].
      rewrite Hf. reflexivity. }
    split; [rewrite Hreport; apply listing_rows|]. split.
    + intros ->. reflexivity.
    + intros Hne.
      pose proof (listing_lines str_of_object (u "未发现IP地址")
                    (u " 个IP地址:") findings) as Hl.
      rewrite listing_rows in Hl. cbn [text_of] in Hl. apply Hl; try assumption.
      vm_compute. intuition discriminate.
Qed.

(* ===================================================================== *)
(** * The HTML report                                                     *)
(* ===================================================================== *)

(** ** The sections for the results of the analyzers *)

Section HtmlRows.
Variable json_dumps : pyval -> outcome str.
Variable str_of_object : pyval -> str.

Lemma table_rows {A} (to_py : A -> pyval) (first : A -> str) (second : A -> nat)
  (row : A -> str) (l : list A) (html : str) :
  (forall x, to_py x = VTuple [VStr (first x); nat_py (second x)]) ->
  (forall x, row x = html_pair_row (first x) (str_of_nat (second x))) ->
  for_each (map to_py l) html (table_row str_of_object)
  = Returns (html ++ flat_map row l).
Proof.
  intros Hpy Hrow. rewrite for_each_map. apply for_each_lines.
  intros out x _. rewrite Hpy, Hrow. unfold table_row, html_pair_row, nat_py.
  cbn [unpack_pair iterate bind escaped html_escape format_value].
  rewrite <- ?app_assoc. reflexivity.
Qed.

Lemma html_layout_rows (total nulls printable : nat) (np pp : pyval)
  (top : list (bytes * nat)) (tn tp : str) :
  format_f 1 np = Returns tn -> format_f 1 pp = Returns tp ->
  _format_result_html json_dumps str_of_object "内存布局分析"
    (VDict [("total_size", nat_py total); ("null_bytes", nat_py nulls);
            ("null_percentage", np); ("printable_bytes", nat_py printable);
            ("printable_percentage", pp);
            ("top_patterns", VList (map pattern_py top))])
  = Returns (html_layout total tn tp top).
Proof.
  intros Hn Hp. unfold _format_result_html.
  destruct (string_dec "内存布局分析" "内存布局分析") as [_|Hne]; [|congruence].
  change (getitem _ "total_size") with (Returns (nat_py total)).
  change (getitem _ "null_percentage") with (Returns np).
  change (getitem _ "printable_percentage") with (Returns pp).
  change (get _ "top_patterns" VNone) with (Returns (VList (map pattern_py top))).
  change (getitem _ "top_patterns") with (Returns (VList (map pattern_py top))).
  cbn [bind]. rewrite Hn, Hp. cbn [bind]. unfold html_layout, html_stat.
  destruct top as [|e top].
  - cbn [map truthy]. unfold nat_py, format_value, str_of_nat.
    rewrite <- ?app_assoc. cbn [app]. rewrite ?app_nil_r. reflexivity.
  - set (l := e :: top). unfold l at 1. cbn [map truthy]. cbn [bind iterate].
    rewrite (table_rows pattern_py (fun x => hex (fst x)) snd html_pattern_row);
      [|reflexivity|reflexivity].
    cbn [bind]. unfold nat_py, format_value, str_of_nat.
    rewrite <- ?app_assoc. reflexivity.
Qed.

Ltac other_name := 
  match goal with
  | |- context [string_dec ?a ?c] =>
      destruct (string_dec a c) as [Hsame|_]; [discriminate Hsame|]
  end.

Lemma html_cred_rows_of (category : string) (its : list cred_item) (html : str) :
  (let '(category, found) := (category, VList (map cred_item_py its)) in
   if truthy found then
     count <- len found ;;
     let html := html ++ h "<div class=`card`><h3>"
                 ++ str_upper (key_str category)
                 ++ h " <span class=`badge`>" ++ str_of_nat count
                 ++ h "</span></h3>" ++ nl in
     shown <- slice_to found 50 ;;
     shown <- iterate shown ;;
     html <- for_each shown html
               (fun html item =>
                  let html := html ++ h "<div class=`credential`>" ++ nl in
                  offset <- getitem item "offset" ;;
                  offset <- format_d 6 true offset ;;
                  let html := html ++ h "<strong>偏移 " ++ offset
                              ++ h ":</strong> " in
                  value <- getitem item "value" ;;
                  value <- escaped value ;;
                  let html := html ++ h "<code>" ++ value ++ h "</code>"
                              ++ nl in
                  Returns (html ++ h "</div>" ++ nl)) ;;
     Returns (html ++ h "</div>" ++ nl)
   else Returns html)
  = Returns (html ++ html_cred_block (category, its)).
Proof.
  unfold html_cred_block. cbn [fst snd].
  destruct its as [|it its]; [cbn; rewrite app_nil_r; reflexivity|].
  set (l := it :: its). unfold l at 1. cbn [map truthy].
  cbn [len slice_to bind iterate]. rewrite length_map, firstn_map, for_each_map.
  rewrite (for_each_lines _ _ _ html_cred_row).
  - cbn [bind]. rewrite <- ?app_assoc. reflexivity.
  - intros out x _. unfold cred_item_py, html_cred_row.
    change (getitem _ "offset") with (Returns (nat_py (cred_offset x))).
    change (getitem _ "value") with (Returns (VStr (cred_value x))).
    unfold nat_py. cbn [bind format_d escaped html_escape].
    rewrite <- ?app_assoc. reflexivity.
Qed.

Lemma html_credential_rows (findings : dict string (list cred_item)) :
  _format_result_html json_dumps str_of_object "凭证搜索"
    (VDict (map (fun entry => (fst entry, VList (map cred_item_py (snd entry))))
                findings))
  = Returns (flat_map html_cred_block findings).
Proof.
  unfold _format_result_html. other_name.
  destruct (string_dec "凭证搜索" "凭证搜索") as [_|Hne]; [|congruence].
  cbn [items bind]. rewrite for_each_map.
  rewrite (for_each_lines _ _ _ html_cred_block); [reflexivity|].
  intros out [category its] _. cbn [fst snd]. apply html_cred_rows_of.
Qed.

Lemma html_field_rows (total unique : nat) (top : list (str * nat)) (all : pyval) :
  _format_result_html json_dumps str_of_object "BSON字段分析"
    (VDict [("total_fields", nat_py total); ("unique_fields", nat_py unique);
            ("top_fields", VList (map count_py top)); ("all_fields", all)])
  = Returns (html_fields total unique top).
Proof.
  unfold _format_result_html. do 2 other_name.
  destruct (string_dec "BSON字段分析" "BSON字段分析") as [_|Hne]; [|congruence].
  change (get _ "total_fields" (VInt 0)) with (Returns (nat_py total)).
  change (get _ "unique_fields" (VInt 0)) with (Returns (nat_py unique)).
  change (get _ "top_fields" VNone) with (Returns (VList (map count_py top))).
  change (getitem _ "top_fields") with (Returns (VList (map count_py top))).
  cbn [bind]. unfold html_fields, html_stat.
  destruct top as [|e top].
  - cbn [map truthy]. unfold nat_py, format_value, str_of_nat.
    rewrite <- ?app_assoc. cbn [app]. rewrite ?app_nil_r. reflexivity.
  - set (l := e :: top). unfold l at 1. cbn [map truthy]. cbn [bind slice_to iterate].
    rewrite firstn_map.
    rewrite (table_rows count_py fst snd html_field_row);
      [|reflexivity|reflexivity].
    cbn [bind]. unfold nat_py, format_value, str_of_nat.
    rewrite <- ?app_assoc. reflexivity.
Qed.

Lemma html_string_rows (total : nat) (strings : list string_item) :
  _format_result_html json_dumps str_of_object "字符串提取"
    (VDict [("total_strings", nat_py total);
            ("findings", VList (map string_item_py strings))])
  = Returns (html_strings total strings).
Proof.
  unfold _format_result_html. do 3 other_name.
  destruct (string_dec "字符串提取" "字符串提取") as [_|Hne]; [|congruence].
  change (get _ "total_strings" (VInt 0)) with (Returns (nat_py total)).
  change (get _ "findings" VNone) with (Returns (VList (map string_item_py strings))).
  change (getitem _ "findings") with (Returns (VList (map string_item_py strings))).
  cbn [bind]. unfold html_strings, html_stat.
  destruct strings as [|it strings].
  - cbn [map truthy]. unfold nat_py, format_value, str_of_nat.
    rewrite <- ?app_assoc. cbn [app]. rewrite ?app_nil_r. reflexivity.
  - set (l := it :: strings). unfold l at 1. cbn [map truthy].
    cbn [bind slice_to iterate]. rewrite firstn_map, for_each_map.
    rewrite (for_each_lines _ _ _ html_string_row).
    + cbn [bind]. unfold nat_py, format_value, str_of_nat.
      rewrite <- ?app_assoc. reflexivity.
    + intros out x _. unfold string_item_py, html_string_row.
      change (getitem _ "offset") with (Returns (nat_py (string_offset x))).
      change (getitem _ "content") with (Returns (VStr (string_content x))).
      unfold nat_py. cbn [bind format_d escaped html_escape].
      rewrite <- ?app_assoc. reflexivity.
Qed.

Lemma html_record_rows (findings : list json_item) :
  Forall (fun it => exists t, json_dumps (json_data it) = Returns t) findings ->
  _format_result_html json_dumps str_of_object "JSON数据提取"
    (VDict [("findings", VList (map json_item_py findings))])
  = Returns (html_records json_dumps findings).
Proof.
  intros Hall. unfold _format_result_html. do 4 other_name.
  destruct (string_dec "JSON数据提取" "JSON数据提取") as [_|Hne]; [|congruence].
  change (get _ "findings" VNone) with (Returns (VList (map json_item_py findings))).
  change (getitem _ "findings") with (Returns (VList (map json_item_py findings))).
  cbn [bind]. unfold html_records, html_stat.
  destruct findings as [|it findings]; [reflexivity|].
  set (l := it :: findings) in *. unfold l at 1. cbn [map truthy].
  cbn [bind len slice_to iterate]. rewrite length_map, firstn_map, for_each_map.
  rewrite (for_each_lines _ _ _ (html_record_block json_dumps)).
  - cbn [bind]. rewrite <- ?app_assoc. reflexivity.
  - intros out x Hx. apply In_firstn in Hx.
    destruct (proj1 (Forall_forall _ _) Hall x Hx) as [t Ht].
    unfold json_item_py, html_record_block.
    change (getitem _ "offset") with (Returns (nat_py (json_offset x))).
    change (getitem _ "data") with (Returns (json_data x)).
    unfold nat_py. cbn [bind format_d]. rewrite Ht. cbn [bind text_of].
    rewrite <- ?app_assoc. reflexivity.
Qed.

Lemma html_listing_rows (name : string) (findings : list str) :
  In name ["邮箱地址提取"; "IP地址提取"] ->
  _format_result_html json_dumps str_of_object name
    (VDict [("findings", VList (map VStr findings))])
  = Returns (html_listing findings).
Proof.
  intros Hname.
  assert (H : _format_result_html json_dumps str_of_object name
                (VDict [("findings", VList (map VStr findings))])
              = (findings0 <- get (VDict [("findings", VList (map VStr findings))])
                                  "findings" VNone ;;
                 if truthy findings0 then
                   findings0 <- getitem (VDict [("findings", VList (map VStr findings))]) "findings" ;;
                   count <- len findings0 ;;
                   let html := [] ++ h "<div class=`stats`><div class=`stat-box`><h3>"
                               ++ str_of_nat count ++ h "</h3><p>找到的项目</p></div></div>"
                               ++ nl in
                   let html := html ++ h "<div class=`card`><h3>提取的数据</h3>" ++ nl in
                   findings0 <- getitem (VDict [("findings", VList (map VStr findings))]) "findings" ;;
                   findings0 <- iterate findings0 ;;
                   html <- for_each findings0 html
                             (fun html item =>
                                item <- escaped item ;;
                                Returns (html ++ h "<div class=`finding`>" ++ item
                                         ++ h "</div>" ++ nl)) ;;
                   Returns (html ++ h "</div>" ++ nl)
                 else Returns [])).
  { unfold _format_result_html.
    destruct Hname as [<-|[<-|[]]]; repeat other_name;
      match goal with
      | |- context [in_dec ?d ?a ?l] =>
          destruct (in_dec d a l) as [_|Hout]; [reflexivity|]
      end; exfalso; apply Hout; cbn; tauto. }
  rewrite H. clear H.
  change (get _ "findings" VNone) with (Returns (VList (map VStr findings))).
  change (getitem _ "findings") with (Returns (VList (map VStr findings))).
  cbn [bind]. unfold html_listing, html_stat.
  destruct findings as [|t findings]; [reflexivity|].
  set (l := t :: findings). unfold l at 1. cbn [map truthy].
  cbn [bind len iterate]. rewrite length_map, for_each_map.
  rewrite (for_each_lines _ _ _ html_listing_row).
  - cbn [bind]. rewrite <- ?app_assoc. reflexivity.
  - intros out x _. unfold html_listing_row. cbn [bind escaped html_escape].
    rewrite <- ?app_assoc. reflexivity.
Qed.
End HtmlRows.

(** ** The text of the page *)

Lemma nav_buttons_from (res : dict string pyval) (i : nat) (html : str) :
  snd (fold_left
         (fun st entry =>
            let '(i, html_content) := st in
            let name := key_str (fst entry) in
            (S i,
             html_content ++ h "            <button class=`nav-btn " ++ active i
             ++ h "` onclick=`showSection('" ++ name ++ h "')`>" ++ name
             ++ h "</button>" ++ nl))
         res (i, html))
  = html ++ nav_text i (dict_keys res).
Proof.
  revert i html. induction res as [|[name v] res IH]; intros i html.
  - cbn. rewrite app_nil_r. reflexivity.
  - cbn [fold_left dict_keys map fst nav_text]. fold (dict_keys res).
    rewrite IH. unfold nav_button. rewrite <- ?app_assoc. reflexivity.
Qed.

Lemma nav_buttons_text (res : dict string pyval) (html : str) :
  nav_buttons res html = html ++ nav_text 0 (dict_keys res).
Proof. apply nav_buttons_from. Qed.

(** The sections of results that hold no error. *)
Lemma sections_from (json_dumps : pyval -> outcome str)
  (str_of_object : pyval -> str) (res : dict string pyval) (bodies : list str)
  (i : nat) (html : str) :
  Forall2 (fun entry body =>
             contains "error" (snd entry) = Returns false
             /\ _format_result_html json_dumps str_of_object (fst entry) (snd entry)
                = Returns body)
          res bodies ->
  for_each res (i, html)
    (fun st entry =>
       let '(i, html_content) := st in
       let '(name, result) := entry in
       let html_content :=
         html_content ++ h "            <div class=`section " ++ active i
         ++ h "` id=`" ++ key_str name ++ h "`>" ++ nl in
       let html_content :=
         html_content ++ h "                <h2>" ++ key_str name
         ++ h "</h2>" ++ nl in
       failed <- contains "error" result ;;
       html_content <-
         (if failed : bool then
            message <- getitem result "error" ;;
            message <- escaped message ;;
            Returns (html_content ++ h "                <div class=`warning`>错误: "
                     ++ message ++ h "</div>" ++ nl)
          else
            html <- _format_result_html json_dumps str_of_object name result ;;
            Returns (html_content ++ html)) ;;
       Returns (S i, html_content ++ h "            </div>" ++ nl))
  = Returns (i + length res,
             html ++ sections_text i (combine (dict_keys res) bodies)).
Proof.
  intros H. revert i html.
  induction H as [|[name result] body res bodies [Hc Hb] _ IH]; intros i html.
  - cbn. rewrite app_nil_r, Nat.add_0_r. reflexivity.
  - cbn [for_each fst snd] in *. rewrite Hc. cbn [bind]. rewrite Hb. cbn [bind].
    rewrite IH. cbn [dict_keys map fst combine sections_text length].
    fold (dict_keys res). rewrite Nat.add_succ_r.
    unfold section_open, section_close. rewrite <- ?app_assoc. reflexivity.
Qed.

Lemma html_page_text (json_dumps : pyval -> outcome str)
  (str_of_object : pyval -> str) (res : dict string pyval) (bodies : list str) :
  Forall2 (fun entry body =>
             contains "error" (snd entry) = Returns false
             /\ _format_result_html json_dumps str_of_object (fst entry) (snd entry)
                = Returns body)
          res bodies ->
  html_page json_dumps str_of_object res
  = Returns (page_head ++ nav_text 0 (dict_keys res) ++ page_middle
             ++ sections_text 0 (combine (dict_keys res) bodies) ++ page_tail).
Proof.
  intros H. unfold html_page, sections.
  rewrite (sections_from _ _ _ _ _ _ H). cbn [bind snd].
  rewrite nav_buttons_text. rewrite <- ?app_assoc. reflexivity.
Qed.

(** ** Tags *)

Lemma tags_from_app (pending : option str) (a c : str) :
  tags_from pending (a ++ c)
  = tags_from pending a ++ tags_from (pending_after pending a) c.
Proof.
  revert pending. induction a as [|x a IH]; intros pending; [reflexivity|].
  cbn [app tags_from pending_after]. destruct pending as [tag|].
  - destruct (x =? 62)%N; [cbn [app]; f_equal|]; apply IH.
  - apply IH.
Qed.

Lemma pending_after_app (pending : option str) (a c : str) :
  pending_after pending (a ++ c) = pending_after (pending_after pending a) c.
Proof.
  revert pending. induction a as [|x a IH]; intros pending; [reflexivity|].
  cbn [app pending_after]. destruct pending as [tag|].
  - destruct (x =? 62)%N; apply IH.
  - apply IH.
Qed.

Lemma template_markup_app (a c : str) :
  template_markup a = true -> template_markup c = true ->
  template_markup (a ++ c) = true.
Proof.
  unfold template_markup, tags. rewrite pending_after_app, tags_from_app.
  destruct (pending_after None a); [discriminate|].
  destruct (pending_after None c); [discriminate|].
  intros Ha Hc. rewrite forallb_app, Ha, Hc. reflexivity.
Qed.

Lemma template_markup_flat_map {A} (f : A -> str) (l : list A) :
  (forall x, In x l -> template_markup (f x) = true) ->
  template_markup (flat_map f l) = true.
Proof.
  induction l as [|x l IH]; intros H; [reflexivity|].
  cbn [flat_map]. apply template_markup_app; [apply H; left; reflexivity|].
  apply IH. intros y Hy. apply H. right. exact Hy.
Qed.

(** A text without [<] holds no tag. *)
Lemma template_markup_plain (t : str) :
  ~ In 60%N t -> template_markup t = true.
Proof.
  intros H. unfold template_markup, tags.
  assert (Hp : pending_after None t = None /\ tags_from None t = []).
  { induction t as [|c t IH]; [split; reflexivity|].
    cbn [pending_after tags_from].
    destruct (N.eqb_spec c 60) as [->|_]; [exfalso; apply H; left; reflexivity|].
    apply IH. intros Hin. apply H. right. exact Hin. }
  destruct Hp as [-> ->]. reflexivity.
Qed.

Lemma template_markup_tags (t : str) :
  template_markup t = true -> Forall (fun tag => In tag template_tags) (tags t).
Proof.
  unfold template_markup. destruct (pending_after None t); [discriminate|].
  intros H. apply Forall_forall. intros tag Hin.
  rewrite forallb_forall in H. specialize (H tag Hin).
  apply existsb_exists in H. destruct H as (known & Hk & Heq).
  destruct (str_eq_dec tag known) as [->|]; [exact Hk|discriminate].
Qed.

(** ** What is written between the tags *)

Lemma replace_char_keeps (old c : N) (new t : str) :
  ~ In c new -> ~ In c t -> ~ In c (replace_char old new t).
Proof.
  intros Hnew Ht Hin. unfold replace_char in Hin. apply in_flat_map in Hin.
  destruct Hin as (x & Hx & Hin). destruct (x =? old)%N; [exact (Hnew Hin)|].
  destruct Hin as [<-|[]]. exact (Ht Hx).
Qed.

Lemma replace_char_removes (old : N) (new t : str) :
  ~ In old new -> ~ In old (replace_char old new t).
Proof.
  intros Hnew Hin. unfold replace_char in Hin. apply in_flat_map in Hin.
  destruct Hin as (x & Hx & Hin). destruct (N.eqb_spec x old) as [->|Hne];
    [exact (Hnew Hin)|].
  destruct Hin as [<-|[]]. congruence.
Qed.

(** [html.escape] leaves no angle bracket and no quote. *)
Lemma escape_safe (t : str) (c : N) :
  In c [60; 62; 34; 39]%N -> ~ In c (escape t).
Proof.
  assert (Hlit : forall lit : str, forallb (fun x => negb (x =? c)%N) lit = true ->
                                   ~ In c lit).
  { intros lit H Hin. rewrite forallb_forall in H. specialize (H c Hin).
    rewrite N.eqb_refl in H. discriminate. }
  unfold escape.
  intros [<-|[<-|[<-|[<-|[]]]]].
  - do 3 (apply replace_char_keeps; [apply Hlit; reflexivity|]).
    apply replace_char_removes. apply Hlit. reflexivity.
  - do 2 (apply replace_char_keeps; [apply Hlit; reflexivity|]).
    apply replace_char_removes. apply Hlit. reflexivity.
  - apply replace_char_keeps; [apply Hlit; reflexivity|].
    apply replace_char_removes. apply Hlit. reflexivity.
  - apply replace_char_removes. apply Hlit. reflexivity.
Qed.

Lemma escape_markup (t : str) : template_markup (escape t) = true.
Proof. apply template_markup_plain. apply escape_safe. left. reflexivity. Qed.

Lemma digits_plain (t : str) (c : N) :
  forallb digit_or_minus t = true -> digit_or_minus c = false -> ~ In c t.
Proof.
  intros Hall Hc Hin. rewrite forallb_forall in Hall.
  rewrite (Hall _ Hin) in Hc. discriminate.
Qed.

Lemma pad_int_digits (width : nat) (zero : bool) (z : Z) :
  forallb (fun c => digit_or_minus c || (c =? 32)%N) (pad_int width zero z) = true.
Proof.
  assert (Hd : forallb (fun c => digit_or_minus c || (c =? 32)%N)
                       (str_of_Z (Z.abs z)) = true).
  { pose proof (str_of_Z_digits (Z.abs z)) as H. rewrite forallb_forall in *.
    intros c Hc. rewrite (H c Hc). reflexivity. }
  assert (Hr : forall c n, (digit_or_minus c || (c =? 32)%N) = true ->
                           forallb (fun c => digit_or_minus c || (c =? 32)%N)
                                   (repeat c n) = true).
  { intros c n Hc. induction n; [reflexivity|]. cbn [repeat forallb].
    rewrite Hc, IHn. reflexivity. }
  unfold pad_int. destruct zero; rewrite !forallb_app, Hd, Hr by reflexivity;
    destruct (z <? 0)%Z; reflexivity.
Qed.

Lemma str_of_nat_markup (n : nat) : template_markup (str_of_nat n) = true.
Proof.
  apply template_markup_plain.
  exact (digits_plain _ 60%N (str_of_Z_digits _) eq_refl).
Qed.

Lemma pad_int_markup (width : nat) (zero : bool) (z : Z) :
  template_markup (pad_int width zero z) = true.
Proof.
  apply template_markup_plain. intros Hin.
  pose proof (pad_int_digits width zero z) as H. rewrite forallb_forall in H.
  specialize (H _ Hin). discriminate.
Qed.

(** ** Formatted numbers *)

Lemma number_chars_of_digits (t : str) :
  forallb digit_or_minus t = true -> forallb number_char t = true.
Proof.
  intros H. rewrite forallb_forall in *. intros c Hc. unfold number_char.
  rewrite (H c Hc). reflexivity.
Qed.

Lemma number_chars_firstn (n : nat) (t : str) :
  forallb number_char t = true -> forallb number_char (firstn n t) = true.
Proof.
  intros H. rewrite forallb_forall in *. intros c Hc. apply H.
  eapply In_firstn. exact Hc.
Qed.

Lemma number_chars_skipn (n : nat) (t : str) :
  forallb number_char t = true -> forallb number_char (skipn n t) = true.
Proof.
  intros H. rewrite forallb_forall in *. intros c Hc. apply H.
  eapply In_skipn. exact Hc.
Qed.

Lemma number_chars_repeat (c : N) (n : nat) :
  number_char c = true -> forallb number_char (repeat c n) = true.
Proof. intros H. induction n; [reflexivity|]. cbn [repeat forallb]. rewrite H. exact IHn. Qed.

Lemma fixed_point_chars (prec : nat) (negative : bool) (n : Z) :
  forallb number_char (fixed_point prec negative n) = true.
Proof.
  unfold fixed_point.
  assert (Hp : forallb number_char
                 (repeat 48%N (S prec - length (str_of_Z n)) ++ str_of_Z n) = true).
  { rewrite forallb_app, number_chars_repeat by reflexivity.
    apply number_chars_of_digits, str_of_Z_digits. }
  rewrite !forallb_app. rewrite (number_chars_firstn _ _ Hp).
  destruct negative, (Nat.eqb prec 0); cbn [forallb andb];
    try rewrite (number_chars_skipn _ _ Hp); reflexivity.
Qed.

Lemma format_spec_float_chars (prec : nat) (x : spec_float) :
  forallb number_char (format_spec_float prec x) = true.
Proof.
  destruct x as [negative|negative| |negative m e]; cbn [format_spec_float];
    try apply fixed_point_chars; try reflexivity.
  destruct negative; reflexivity.
Qed.

Lemma format_f_chars (prec : nat) (v : pyval) (t : str) :
  format_f prec v = Returns t -> forallb number_char t = true.
Proof.
  destruct v; cbn [format_f]; try discriminate.
  - destruct (binary_normalize 53 1024 z 0 false) as [sg|sg| |sg m e];
      try discriminate; intros H; injection H as <-.
    + exact (format_spec_float_chars prec (S754_zero sg)).
    + exact (format_spec_float_chars prec S754_nan).
    + exact (format_spec_float_chars prec (S754_finite sg m e)).
  - intros H. inversion H; subst. apply format_spec_float_chars.
Qed.

Lemma format_f_of_percentage (prec part total : nat) (v : pyval) :
  percentage part total = Returns v -> exists t, format_f prec v = Returns t.
Proof.
  unfold percentage, truediv. destruct (Nat.ltb_spec 0 total) as [Hpos|Hzero].
  - destruct (Nat.eqb_spec total 0); [lia|]. cbn [bind]. intros H.
    inversion H; subst. eexists. reflexivity.
  - intros H. inversion H; subst. eexists. reflexivity.
Qed.

(** ** The markup of the sections *)

Lemma number_markup (t : str) :
  forallb number_char t = true -> template_markup t = true.
Proof.
  intros H. apply template_markup_plain. intros Hin.
  rewrite forallb_forall in H. specialize (H _ Hin). discriminate.
Qed.

Ltac markup :=
  repeat match goal with
    | |- template_markup (_ ++ _) = true => apply template_markup_app
    | |- template_markup (escape _) = true => apply escape_markup
    | |- template_markup (str_of_nat _) = true => apply str_of_nat_markup
    | |- template_markup (pad_int _ _ _) = true => apply pad_int_markup
    | |- template_markup (flat_map _ _) = true =>
        apply template_markup_flat_map; intros
    | |- template_markup (h _) = true => vm_compute; reflexivity
    | |- template_markup (u _) = true => vm_compute; reflexivity
    | |- template_markup (s _) = true => vm_compute; reflexivity
    | |- template_markup nl = true => reflexivity
    | |- template_markup [] = true => reflexivity
    | |- template_markup _ = true => assumption
    end.

Lemma html_pair_row_markup (a c : str) :
  template_markup c = true -> template_markup (html_pair_row a c) = true.
Proof. intros H. unfold html_pair_row. markup. Qed.

Lemma html_layout_markup (total : nat) (tn tp : str) (top : list (bytes * nat)) :
  forallb number_char tn = true -> forallb number_char tp = true ->
  template_markup (html_layout total tn tp top) = true.
Proof.
  intros Hn Hp. apply number_markup in Hn, Hp.
  unfold html_layout, html_stat. destruct top; markup;
    unfold html_pattern_row; apply html_pair_row_markup; markup.
Qed.

Lemma html_fields_markup (total unique : nat) (top : list (str * nat)) :
  template_markup (html_fields total unique top) = true.
Proof.
  unfold html_fields, html_stat. destruct top; markup;
    unfold html_field_row; apply html_pair_row_markup; markup.
Qed.

Lemma html_strings_markup (total : nat) (strings : list string_item) :
  template_markup (html_strings total strings) = true.
Proof.
  unfold html_strings, html_stat. destruct strings; markup;
    unfold html_string_row; markup.
Qed.

Lemma html_records_markup (json_dumps : pyval -> outcome str)
  (findings : list json_item) :
  template_markup (html_records json_dumps findings) = true.
Proof.
  unfold html_records, html_stat. destruct findings; markup;
    unfold html_record_block; markup.
Qed.

Lemma html_listing_markup (findings : list str) :
  template_markup (html_listing findings) = true.
Proof.
  unfold html_listing, html_stat. destruct findings; markup;
    unfold html_listing_row; markup.
Qed.

Lemma html_cred_block_markup (entry : string * list cred_item) :
  In (fst entry) (map fst CredentialHunter_patterns) ->
  template_markup (html_cred_block entry) = true.
Proof.
  intros Hc.
  assert (Hname : template_markup (str_upper (key_str (fst entry))) = true).
  { revert Hc. generalize (fst entry). intros c Hc.
    assert (Hall : forallb (fun c => template_markup (str_upper (key_str c)))
                           (map fst CredentialHunter_patterns) = true)
      by (vm_compute; reflexivity).
    rewrite forallb_forall in Hall. exact (Hall c Hc). }
  unfold html_cred_block. destruct (snd entry); markup;
    unfold html_cred_row; markup.
Qed.

(** ** The page of [main] *)

Lemma main_results (json_loads : str -> outcome pyval) (seed : hash_seed)
  (data : bytes) :
  results (fst (run_pipeline (main_analyzers json_loads seed) data))
  = map (fun a => (get_name a, entry_of a data)) (main_analyzers json_loads seed).
Proof.
  rewrite run_pipeline_unfold. cbn [fst results].
  rewrite fold_analyze_one_results. reflexivity.
Qed.

Lemma no_error_key {V} (f : V -> pyval) (d : dict string V) :
  ~ In "error" (dict_keys d) ->
  contains "error" (VDict (map (fun e => (fst e, f (snd e))) d)) = Returns false.
Proof.
  intros H. cbn [contains].
  rewrite dict_get_fresh; [reflexivity|].
  unfold dict_keys in *. rewrite map_map. exact H.
Qed.

Lemma matched_categories_known (data : bytes) (c : string) :
  In c (matched_categories data) -> In c (map fst CredentialHunter_patterns).
Proof.
  unfold matched_categories. intros H. apply in_map_iff in H.
  destruct H as (e & <- & He). apply filter_In in He. apply in_map. apply He.
Qed.

Lemma found_credentials_keys (data : bytes) :
  dict_keys (found_credentials data) = matched_categories data.
Proof.
  rewrite <- matched_categories_keys. unfold found_credentials, dict_keys.
  rewrite map_map. reflexivity.
Qed.

Lemma found_category_known (data : bytes) (entry : string * list cred_item) :
  In entry (found_credentials data) ->
  In (fst entry) (map fst CredentialHunter_patterns).
Proof.
  intros H. apply matched_categories_known with (data := data).
  rewrite <- found_credentials_keys. unfold dict_keys. apply in_map. exact H.
Qed.

(** The percentages of the Layout Analyzer are formatted with any number
    of decimals. *)
Lemma percent_text_formats (prec part total : nat) :
  exists v, percentage part total = Returns v
            /\ format_f prec v = Returns (percent_text prec part total).
Proof.
  destruct (percentage_returns part total) as [v Hv].
  destruct (format_f_of_percentage prec _ _ _ Hv) as [t Ht].
  exists v. split; [exact Hv|]. unfold percent_text. rewrite Hv. cbn [bind].
  rewrite Ht. reflexivity.
Qed.

Lemma percent_text_chars (prec part total : nat) :
  forallb number_char (percent_text prec part total) = true.
Proof.
  destruct (percent_text_formats prec part total) as (v & _ & Hf).
  exact (format_f_chars _ _ _ Hf).
Qed.

(** What the seven analyzers of [main] return. *)
Lemma layout_value (data : bytes) :
  exists np pp,
    percentage (null_count data) (length data) = Returns np
    /\ percentage (printable_count data) (length data) = Returns pp
    /\ HexDumpAnalyzer_analyze data
       = Returns
           (VDict [("total_size", nat_py (length data));
                   ("null_bytes", nat_py (null_count data));
                   ("null_percentage", np);
                   ("printable_bytes", nat_py (printable_count data));
                   ("printable_percentage", pp);
                   ("top_patterns",
                    VList (map pattern_py (HexDumpAnalyzer_top_patterns data)))]).
Proof.
  destruct (percentage_returns (null_count data) (length data)) as [np Hn].
  destruct (percentage_returns (printable_count data) (length data)) as [pp Hp].
  exists np, pp. split; [exact Hn|]. split; [exact Hp|].
  unfold HexDumpAnalyzer_analyze. fold (null_count data) (printable_count data).
  rewrite Hn, Hp. reflexivity.
Qed.

Lemma credentials_value (data : bytes) :
  CredentialHunter_analyze data
  = Returns (VDict (map (fun entry =>
                           (fst entry, VList (map cred_item_py (snd entry))))
                        (found_credentials data))).
Proof. unfold CredentialHunter_analyze. rewrite findings_first_seen. reflexivity. Qed.

Lemma fields_value (data : bytes) :
  BSONFieldAnalyzer_analyze data
  = Returns
      (VDict [("total_fields", nat_py (length (found_fields data)));
              ("unique_fields", nat_py (length (field_counts data)));
              ("top_fields",
               VList (map count_py (most_common 50 (field_counts data))));
              ("all_fields",
               VList (map field_item_py (firstn 1000 (found_fields data))))]).
Proof. unfold BSONFieldAnalyzer_analyze. rewrite field_items. reflexivity. Qed.

Lemma strings_value (data : bytes) :
  StringExtractor_analyze data
  = Returns
      (VDict [("total_strings", nat_py (length (found_strings data)));
              ("findings",
               VList (map string_item_py (firstn 500 (found_strings data))))]).
Proof. unfold StringExtractor_analyze. rewrite string_items. reflexivity. Qed.

Lemma records_value (json_loads : str -> outcome pyval) (data : bytes) :
  JSONExtractor_analyze json_loads data
  = Returns (VDict [("findings",
                     VList (map json_item_py (found_records json_loads data)))]).
Proof. unfold JSONExtractor_analyze. rewrite json_items. reflexivity. Qed.

Lemma emails_value (seed : hash_seed) (data : bytes) :
  EmailExtractor_analyze seed data
  = Returns (VDict [("findings", VList (map VStr (found_emails seed data)))]).
Proof. unfold EmailExtractor_analyze. rewrite email_set. reflexivity. Qed.

Lemma ips_value (seed : hash_seed) (data : bytes) :
  IPAddressExtractor_analyze seed data
  = Returns (VDict [("findings", VList (map VStr (found_ips seed data)))]).
Proof. unfold IPAddressExtractor_analyze. rewrite ip_set. reflexivity. Qed.

Ltac main_values :=
  cbn [analyzer analyze get_name HexDumpAnalyzer CredentialHunter
         BSONFieldAnalyzer StringExtractor JSONExtractor EmailExtractor
         IPAddressExtractor];
  rewrite ?credentials_value, ?fields_value, ?strings_value, ?records_value,
    ?emails_value, ?ips_value.

(** The bodies of the seven sections. *)
Lemma main_sections (json_loads : str -> outcome pyval)
  (json_dumps : pyval -> outcome str) (str_of_object : pyval -> str)
  (seed : hash_seed) (data : bytes) :
  Forall (fun it => exists t, json_dumps (json_data it) = Returns t)
         (found_records json_loads data) ->
  Forall2 (fun entry body =>
             contains "error" (snd entry) = Returns false
             /\ _format_result_html json_dumps str_of_object
                  (fst entry) (snd entry) = Returns body)
          (results (fst (run_pipeline (main_analyzers json_loads seed) data)))
          (main_bodies json_loads json_dumps seed data).
Proof.
  intros Hd. rewrite main_results. unfold entry_of, main_analyzers. cbn [map].
  destruct (layout_value data) as (np & pp & Hn & Hp & Hl).
  main_values. rewrite Hl.
  destruct (percent_text_formats 1 (null_count data) (length data))
    as (np' & Hn' & Hfn).
  destruct (percent_text_formats 1 (printable_count data) (length data))
    as (pp' & Hp' & Hfp).
  assert (np' = np) by congruence. assert (pp' = pp) by congruence. subst.
  unfold main_bodies.
  repeat (apply Forall2_cons; [split|]); [| | | | | | | | | | | | | |apply Forall2_nil];
    cbn [fst snd]; try reflexivity.
  - apply html_layout_rows; assumption.
  - apply (no_error_key (fun its => VList (map cred_item_py its))).
    rewrite found_credentials_keys. intros H.
    apply matched_categories_known in H. vm_compute in H. intuition discriminate.
  - apply html_credential_rows.
  - apply html_field_rows.
  - apply html_string_rows.
  - apply html_record_rows. exact Hd.
  - apply html_listing_rows. left. reflexivity.
  - apply html_listing_rows. right. left. reflexivity.
Qed.

Lemma main_bodies_markup (json_loads : str -> outcome pyval)
  (json_dumps : pyval -> outcome str) (seed : hash_seed) (data : bytes) :
  Forall (fun body => template_markup body = true)
         (main_bodies json_loads json_dumps seed data).
Proof.
  unfold main_bodies.
  repeat (apply Forall_cons; [|]); [| | | | | | |apply Forall_nil].
  - apply html_layout_markup; apply percent_text_chars.
  - apply template_markup_flat_map. intros entry Hin.
    apply html_cred_block_markup. exact (found_category_known data entry Hin).
  - apply html_fields_markup.
  - apply html_strings_markup.
  - apply html_records_markup.
  - apply html_listing_markup.
  - apply html_listing_markup.
Qed.

Lemma main_result_names (json_loads : str -> outcome pyval) (seed : hash_seed)
  (data : bytes) :
  dict_keys (results (fst (run_pipeline (main_analyzers json_loads seed) data)))
  = analyzer_names.
Proof. rewrite main_results. reflexivity. Qed.

(** The page of [main]. *)
Lemma main_page_text (json_loads : str -> outcome pyval)
  (json_dumps : pyval -> outcome str) (str_of_object : pyval -> str)
  (seed : hash_seed) (data : bytes) :
  Forall (fun it => exists t, json_dumps (json_data it) = Returns t)
         (found_records json_loads data) ->
  html_page json_dumps str_of_object
    (results (fst (run_pipeline (main_analyzers json_loads seed) data)))
  = Returns (main_page json_loads json_dumps seed data).
Proof.
  intros Hd.
  rewrite (html_page_text _ _ _ _
             (main_sections json_loads json_dumps str_of_object seed data Hd)).
  rewrite main_result_names. reflexivity.
Qed.

Lemma section_open_later (i : nat) (name : string) :
  section_open (S i) name = section_open 1 name.
Proof. reflexivity. Qed.

Lemma nav_button_later (i : nat) (name : string) :
  nav_button (S i) name = nav_button 1 name.
Proof. reflexivity. Qed.

Lemma sections_text_markup (names : list string) (bodies : list str) (i : nat) :
  Forall (fun name => template_markup (section_open 0 name) = true
                      /\ template_markup (section_open 1 name) = true) names ->
  Forall (fun body => template_markup body = true) bodies ->
  template_markup (sections_text i (combine names bodies)) = true.
Proof.
  intros Hn. revert bodies i.
  induction Hn as [|name names [H0 H1] _ IH]; intros bodies i Hb; [reflexivity|].
  destruct Hb as [|body bodies Hbody Hb]; [reflexivity|].
  cbn [combine sections_text].
  assert (Ho : template_markup (section_open i name) = true).
  { destruct i as [|i]; [exact H0|rewrite section_open_later; exact H1]. }
  apply template_markup_app; [exact Ho|].
  apply template_markup_app; [exact Hbody|].
  apply template_markup_app; [vm_compute; reflexivity|].
  apply IH. exact Hb.
Qed.

Lemma nav_text_markup (names : list string) (i : nat) :
  Forall (fun name => template_markup (nav_button 0 name) = true
                      /\ template_markup (nav_button 1 name) = true) names ->
  template_markup (nav_text i names) = true.
Proof.
  intros Hn. revert i. induction Hn as [|name names [H0 H1] _ IH]; intros i;
    [reflexivity|].
  cbn [nav_text]. apply template_markup_app; [|apply IH].
  destruct i as [|i]; [exact H0|rewrite nav_button_later; exact H1].
Qed.

(** X18.  The HTML page of [main] is produced for every buffer, and its
    markup is that of the template: the page ends outside a tag, and every
    tag in it (what stands between a [<] and the next [>]) is one of the
    tags written in the literals of [generate_html] and
    [_format_result_html], or the button or the section of one of the
    seven analyzers.  Nothing found in the buffer becomes a tag.  This
    holds provided [json.dumps] writes whatever [json.loads] has
    returned. *)
Theorem html_page_has_the_markup_of_the_template
  (json_loads : str -> outcome pyval) (json_dumps : pyval -> outcome str)
  (str_of_object : pyval -> str) (seed : hash_seed) (data : bytes) :
  (forall t v, json_loads t = Returns v -> exists out, json_dumps v = Returns out) ->
  exists page,
    html_page json_dumps str_of_object
      (results (fst (run_pipeline (main_analyzers json_loads seed) data)))
    = Returns page
    /\ pending_after None page = None
    /\ Forall (fun tag => In tag template_tags) (tags page).
Proof.
  intros Hd.
  rewrite (main_page_text json_loads json_dumps str_of_object seed data
             (json_items_dumped json_loads json_dumps data _ Hd)).
  eexists. split; [reflexivity|].
  assert (H : template_markup (main_page json_loads json_dumps seed data) = true).
  { unfold main_page.
    apply template_markup_app; [vm_compute; reflexivity|].
    apply template_markup_app.
    { apply nav_text_markup. unfold analyzer_names.
      repeat (apply Forall_cons; [split; vm_compute; reflexivity|]).
      apply Forall_nil. }
    apply template_markup_app; [vm_compute; reflexivity|].
    apply template_markup_app; [|vm_compute; reflexivity].
    apply sections_text_markup; [|apply main_bodies_markup]. unfold analyzer_names.
    repeat (apply Forall_cons; [split; vm_compute; reflexivity|]).
    apply Forall_nil. }
  split; [|apply template_markup_tags; exact H].
  unfold template_markup in H.
  destruct (pending_after None _); [discriminate|reflexivity].
Qed.

(** The page for a buffer that holds a tag, a credential and two
    addresses. *)
Lemma html_page_has_the_markup_of_the_template_witness :
  exists page,
    html_page json_blank str_blank
      (results (fst (run_pipeline (main_analyzers json_rejects [])
                                  (b "<script>user=admin a@b.cd 10.0.0.1"))))
    = Returns page
    /\ pending_after None page = None
    /\ Forall (fun tag => In tag template_tags) (tags page).
Proof.
  apply (html_page_has_the_markup_of_the_template json_rejects json_blank
           str_blank [] (b "<script>user=admin a@b.cd 10.0.0.1")).
  intros t v H. discriminate H.
Defined.

(** ** The sections of analyzers that failed *)

Lemma failed_sections_from (json_dumps : pyval -> outcome str)
  (str_of_object : pyval -> str) (failures : list (string * exn))
  (i : nat) (html : str) :
  for_each (map (fun failure => (fst failure, error_record (snd failure)))
                failures)
    (i, html)
    (fun st entry =>
       let '(i, html_content) := st in
       let '(name, result) := entry in
       let html_content :=
         html_content ++ h "            <div class=`section " ++ active i
         ++ h "` id=`" ++ key_str name ++ h "`>" ++ nl in
       let html_content :=
         html_content ++ h "                <h2>" ++ key_str name
         ++ h "</h2>" ++ nl in
       failed <- contains "error" result ;;
       html_content <-
         (if failed : bool then
            message <- getitem result "error" ;;
            message <- escaped message ;;
            Returns (html_content ++ h "                <div class=`warning`>错误: "
                     ++ message ++ h "</div>" ++ nl)
          else
            html <- _format_result_html json_dumps str_of_object name result ;;
            Returns (html_content ++ html)) ;;
       Returns (S i, html_content ++ h "            </div>" ++ nl))
  = Returns (i + length failures,
             html ++ sections_text i
                       (map (fun failure =>
                               (fst failure, html_warning (exn_str (snd failure))))
                            failures)).
Proof.
  revert i html. induction failures as [|[name e] failures IH]; intros i html.
  - cbn. rewrite app_nil_r, Nat.add_0_r. reflexivity.
  - cbn [map for_each fst snd length sections_text].
    change (contains "error" (error_record e)) with (Returns true).
    change (getitem (error_record e) "error") with (Returns (VStr (exn_str e))).
    cbn [bind escaped html_escape]. rewrite IH, Nat.add_succ_r.
    unfold section_open, section_close, html_warning.
    rewrite <- ?app_assoc. reflexivity.
Qed.

(** X19.  [generate_html] shows the failure of an analyzer instead of its
    results: when every entry of [results] is the record of an error, the
    page is produced, and the section of each analyzer holds, under its
    name, one warning with the escaped message of its error, whatever the
    name of the analyzer, the seven of [main] included. *)
Theorem failed_analyzers_in_the_html_report
  (json_dumps : pyval -> outcome str) (str_of_object : pyval -> str)
  (failures : list (string * exn)) :
  html_page json_dumps str_of_object
    (map (fun failure => (fst failure, error_record (snd failure))) failures)
  = Returns
      (page_head ++ nav_text 0 (map fst failures) ++ page_middle
       ++ sections_text 0
            (map (fun failure =>
                    (fst failure, html_warning (exn_str (snd failure))))
                 failures)
       ++ page_tail)
  /\ Forall (fun failure =>
               forall c, In c [60; 62; 34; 39]%N ->
                         ~ In c (escape (exn_str (snd failure))))
            failures.
Proof.
  split.
  - unfold html_page, sections. rewrite failed_sections_from. cbn [bind snd].
    rewrite nav_buttons_text. unfold dict_keys. rewrite map_map. cbn [fst].
    rewrite <- ?app_assoc. reflexivity.
  - apply Forall_forall. intros failure _ c Hc. apply escape_safe. exact Hc.
Qed.

(* ===================================================================== *)
(** * The program                                                         *)
(* ===================================================================== *)

(** ** Decoded texts can be encoded *)

Lemma all_from_spec (lo n : nat) (p : N -> bool) (x : N) :
  all_from lo n p = true ->
  (N.of_nat lo <= x < N.of_nat (lo + n))%N -> p x = true.
Proof.
  unfold all_from. intros H Hx. rewrite forallb_forall in H. apply H.
  apply in_map_iff. exists (N.to_nat x). split; [apply N2Nat.id|].
  apply in_seq. lia.
Qed.

Lemma continuation_range (x : N) :
  is_continuation x = true -> (N.of_nat 128 <= x < N.of_nat (128 + 64))%N.
Proof.
  unfold is_continuation. intros H. apply andb_true_iff in H.
  destruct H as [H1 H2]. apply N.leb_le in H1, H2. lia.
Qed.

Lemma two_bytes_scalar (b0 b1 : N) :
  (194 <= b0 < 224)%N -> is_continuation b1 = true ->
  scalar (N.lor (N.shiftl (N.land b0 31) 6) (low6 b1)) = true.
Proof.
  intros H0 H1.
  assert (Hall : all_from 194 30 (fun b0 =>
                   all_from 128 64 (fun b1 =>
                     scalar (N.lor (N.shiftl (N.land b0 31) 6) (low6 b1))))
                 = true) by (vm_compute; reflexivity).
  apply (all_from_spec _ _ _ b0) in Hall; [|lia].
  apply (all_from_spec _ _ _ b1) in Hall; [exact Hall|].
  apply continuation_range. exact H1.
Qed.

Lemma three_bytes_scalar (b0 b1 b2 : N) :
  (224 <= b0 < 240)%N -> second_of_three b0 b1 = true ->
  is_continuation b2 = true ->
  scalar (N.lor (N.shiftl (N.land b0 15) 12)
                (N.lor (N.shiftl (low6 b1) 6) (low6 b2))) = true.
Proof.
  intros H0 H1 H2.
  assert (Hall : all_from 224 16 (fun b0 =>
                   all_from 128 64 (fun b1 =>
                     all_from 128 64 (fun b2 =>
                       implb (second_of_three b0 b1)
                         (scalar (N.lor (N.shiftl (N.land b0 15) 12)
                                    (N.lor (N.shiftl (low6 b1) 6) (low6 b2)))))))
                 = true) by (vm_compute; reflexivity).
  apply (all_from_spec _ _ _ b0) in Hall; [|lia].
  apply (all_from_spec _ _ _ b1) in Hall.
  - apply (all_from_spec _ _ _ b2) in Hall; [|apply continuation_range; exact H2].
    rewrite H1 in Hall. exact Hall.
  - apply continuation_range. unfold second_of_three in H1.
    apply andb_true_iff in H1. destruct H1 as [H1 _].
    apply andb_true_iff in H1. apply H1.
Qed.

Lemma lor_le_add (a c : N) : (N.lor a c <= a + c)%N.
Proof.
  apply N2Z.inj_le. rewrite N2Z.inj_lor, N2Z.inj_add.
  pose proof (Z.add_lor_land (Z.of_N a) (Z.of_N c)) as H.
  assert (0 <= Z.land (Z.of_N a) (Z.of_N c))%Z
    by (apply Z.land_nonneg; left; apply N2Z.is_nonneg).
  lia.
Qed.

Lemma le_lor_l (a c : N) : (a <= N.lor a c)%N.
Proof.
  apply N.ldiff_le. apply N.bits_inj_0. intros n.
  rewrite N.ldiff_spec, N.lor_spec.
  destruct (N.testbit a n), (N.testbit c n); reflexivity.
Qed.

Lemma le_lor_r (a c : N) : (c <= N.lor a c)%N.
Proof. rewrite N.lor_comm. apply le_lor_l. Qed.

Lemma low6_bound (x : N) : (low6 x <= 63)%N.
Proof. unfold low6. apply N.land_le_r. Qed.

Lemma four_bytes_scalar (b0 b1 b2 b3 : N) :
  (240 <= b0 < 245)%N -> second_of_four b0 b1 = true ->
  is_continuation b2 = true -> is_continuation b3 = true ->
  scalar (N.lor (N.shiftl (N.land b0 7) 18)
                (N.lor (N.shiftl (low6 b1) 12)
                       (N.lor (N.shiftl (low6 b2) 6) (low6 b3)))) = true.
Proof.
  intros H0 H1 _ _.
  assert (Hall : all_from 240 5 (fun b0 =>
                   all_from 128 64 (fun b1 =>
                     implb (second_of_four b0 b1)
                       ((65536 <=? N.max (N.shiftl (N.land b0 7) 18)
                                         (N.shiftl (low6 b1) 12))
                        && (N.shiftl (N.land b0 7) 18 + N.shiftl (low6 b1) 12
                            + 4095 <? 1114112))%N))
                 = true) by (vm_compute; reflexivity).
  apply (all_from_spec _ _ _ b0) in Hall; [|lia].
  apply (all_from_spec _ _ _ b1) in Hall.
  2:{ apply continuation_range. unfold second_of_four in H1.
      apply andb_true_iff in H1. destruct H1 as [H1 _].
      apply andb_true_iff in H1. apply H1. }
  cbv beta in Hall. rewrite H1 in Hall. cbn [implb] in Hall.
  apply andb_true_iff in Hall. destruct Hall as [Hlow Hhigh]. apply N.leb_le in Hlow. apply N.ltb_lt in Hhigh.
  set (A := N.shiftl (N.land b0 7) 18) in *.
  set (B := N.shiftl (low6 b1) 12) in *.
  set (C := N.shiftl (low6 b2) 6). set (D := low6 b3).
  assert (HC : (C <= 4032)%N).
  { unfold C. rewrite N.shiftl_mul_pow2. change (2 ^ 6)%N with 64%N.
    pose proof (low6_bound b2). lia. }
  assert (HD : (D <= 63)%N) by apply low6_bound.
  pose proof (lor_le_add A (N.lor B (N.lor C D))) as U1.
  pose proof (lor_le_add B (N.lor C D)) as U2.
  pose proof (lor_le_add C D) as U3.
  pose proof (le_lor_l A (N.lor B (N.lor C D))) as L1.
  pose proof (le_lor_r A (N.lor B (N.lor C D))) as L2.
  pose proof (le_lor_l B (N.lor C D)) as L3.
  set (cp := N.lor A (N.lor B (N.lor C D))) in *.
  unfold scalar.
  destruct (N.ltb_spec cp 55296) as [|_]; [reflexivity|]. cbn [orb].
  apply andb_true_iff. split; [apply N.ltb_lt|apply N.ltb_lt]; lia.
Qed.

Lemma utf8_step_scalar (l : list N) (cp : N) (w : nat) :
  utf8_step l = Some (Char cp w) -> scalar cp = true.
Proof.
  destruct l as [|b0 r]; [discriminate|]. cbn [utf8_step].
  destruct (N.ltb_spec b0 128) as [H128|H128].
  { intros H. injection H as <- _. unfold scalar.
    destruct (N.ltb_spec b0 55296); [reflexivity|lia]. }
  destruct (N.ltb_spec b0 194) as [H194|H194]; [discriminate|].
  destruct (N.ltb_spec b0 224) as [H224|H224].
  { destruct r as [|b1 r]; [discriminate|].
    destruct (is_continuation b1) eqn:E1; [|discriminate].
    intros H. injection H as <- _. apply two_bytes_scalar; [lia|exact E1]. }
  destruct (N.ltb_spec b0 240) as [H240|H240].
  { destruct r as [|b1 r]; [discriminate|].
    destruct (second_of_three b0 b1) eqn:E1; [|discriminate]. cbn [negb].
    destruct r as [|b2 r]; [discriminate|].
    destruct (is_continuation b2) eqn:E2; [|discriminate].
    intros H. injection H as <- _. apply three_bytes_scalar; [lia|exact E1|exact E2]. }
  destruct (N.ltb_spec b0 245) as [H245|H245]; [|discriminate].
  destruct r as [|b1 r]; [discriminate|].
  destruct (second_of_four b0 b1) eqn:E1; [|discriminate]. cbn [negb].
  destruct r as [|b2 r]; [discriminate|].
  destruct (is_continuation b2) eqn:E2; [|discriminate]. cbn [negb].
  destruct r as [|b3 r]; [discriminate|].
  destruct (is_continuation b3) eqn:E3; [|discriminate].
  intros H. injection H as <- _.
  apply four_bytes_scalar; [lia|exact E1|exact E2|exact E3].
Qed.

Lemma codec_step_scalar (enc : encoding) (l : list N) (cp : N) (w : nat) :
  codec_step enc l = Some (Char cp w) -> scalar cp = true.
Proof.
  destruct enc; [|apply utf8_step_scalar].
  cbn [codec_step]. destruct l as [|b0 r]; [discriminate|]. cbn [ascii_step].
  destruct (N.ltb_spec b0 128) as [H|H]; [|discriminate].
  intros E. injection E as <- _. unfold scalar.
  destruct (N.ltb_spec b0 55296); [reflexivity|lia].
Qed.

Lemma decode_loop_scalar (enc : encoding) (errors : error_policy) (fuel : nat)
  (l : list N) (t : str) :
  decode_loop enc errors fuel l = Returns t -> forallb scalar t = true.
Proof.
  revert l t. induction fuel as [|fuel IH]; intros l t H; cbn [decode_loop] in H;
    [inversion H; reflexivity|].
  destruct (codec_step enc l) as [[cp w|reason w]|] eqn:E;
    [| |inversion H; reflexivity].
  - destruct (decode_loop enc errors fuel (skipn w l)) as [t'|] eqn:E';
      [|discriminate].
    cbn [bind] in H. inversion H; subst. cbn [forallb].
    rewrite (codec_step_scalar _ _ _ _ E), (IH _ _ E'). reflexivity.
  - destruct errors; [discriminate|exact (IH _ _ H)|].
    destruct (decode_loop enc Replace fuel (skipn w l)) as [t'|] eqn:E';
      [|discriminate].
    cbn [bind] in H. inversion H; subst. cbn [forallb].
    rewrite (IH _ _ E'). reflexivity.
Qed.

Lemma decoded_scalar (enc : encoding) (errors : error_policy) (w : bytes) :
  forallb scalar (decoded enc errors w) = true.
Proof.
  unfold decoded, decode.
  destruct (decode_loop enc errors (length w) (map Byte.to_N w)) as [t|] eqn:E;
    [|reflexivity].
  exact (decode_loop_scalar _ _ _ _ _ E).
Qed.

Lemma text_scalar (w : bytes) : forallb scalar (text w) = true.
Proof.
  apply forallb_forall. intros c Hc. unfold text in Hc. apply in_map_iff in Hc.
  destruct Hc as (x & <- & _). unfold code, scalar.
  pose proof (Byte.to_N_bounded x) as Hb.
  destruct (N.ltb_spec (Byte.to_N x) 55296); [reflexivity|lia].
Qed.

(** ** Encoding *)

Lemma encode_char_scalar (c : N) :
  scalar c = true -> exists bs, encode_char c = Some bs.
Proof.
  unfold scalar, encode_char. intros H.
  destruct (c <? 128)%N; [eexists; reflexivity|].
  destruct (c <? 2048)%N; [eexists; reflexivity|].
  destruct (N.ltb_spec c 55296) as [Hlow|Hhigh].
  - destruct (N.leb_spec 55296 c); [lia|]. cbn [andb].
    destruct (c <? 65536)%N; [eexists; reflexivity|].
    destruct (N.ltb_spec c 1114112); [eexists; reflexivity|lia].
  - cbn [orb] in H. apply andb_true_iff in H. destruct H as [H1 H2].
    apply N.ltb_lt in H1, H2.
    destruct (N.leb_spec 55296 c); [|lia].
    destruct (N.leb_spec c 57343); [lia|]. cbn [andb].
    destruct (c <? 65536)%N; [eexists; reflexivity|].
    destruct (N.ltb_spec c 1114112); [eexists; reflexivity|lia].
Qed.

Lemma encode_utf8_scalar (t : str) :
  forallb scalar t = true -> exists bs, encode_utf8 t = Returns bs.
Proof.
  induction t as [|c t IH]; intros H; [eexists; reflexivity|].
  cbn [forallb] in H. apply andb_true_iff in H. destruct H as [Hc Ht].
  destruct (encode_char_scalar c Hc) as [bs Hbs].
  destruct (IH Ht) as [rest Hrest].
  cbn [encode_utf8]. rewrite Hbs, Hrest. eexists. reflexivity.
Qed.

Lemma encode_utf8_app (a c : str) (x y : bytes) :
  encode_utf8 a = Returns x -> encode_utf8 c = Returns y ->
  encode_utf8 (a ++ c) = Returns (x ++ y).
Proof.
  revert x. induction a as [|k a IH]; intros x Ha Hc.
  - inversion Ha; subst. exact Hc.
  - cbn [app encode_utf8] in *.
    destruct (encode_char k) as [bs|]; [|discriminate].
    destruct (encode_utf8 a) as [rest|]; [|discriminate].
    cbn [bind] in Ha. inversion Ha; subst.
    rewrite (IH rest eq_refl Hc). cbn [bind]. rewrite app_assoc. reflexivity.
Qed.

(** ** The reports can be encoded *)

Lemma scalar_app (a c : str) :
  forallb scalar a = true -> forallb scalar c = true ->
  forallb scalar (a ++ c) = true.
Proof. intros Ha Hc. rewrite forallb_app, Ha, Hc. reflexivity. Qed.

Lemma scalar_flat_map {A} (f : A -> str) (l : list A) :
  (forall x, In x l -> forallb scalar (f x) = true) ->
  forallb scalar (flat_map f l) = true.
Proof.
  induction l as [|x l IH]; intros H; [reflexivity|].
  cbn [flat_map]. apply scalar_app; [apply H; left; reflexivity|].
  apply IH. intros y Hy. apply H. right. exact Hy.
Qed.

Lemma scalar_firstn (n : nat) (t : str) :
  forallb scalar t = true -> forallb scalar (firstn n t) = true.
Proof.
  intros H. rewrite forallb_forall in *. intros c Hc. apply H.
  eapply In_firstn. exact Hc.
Qed.

Lemma scalar_below (p : N -> bool) (t : str) :
  (forall c, p c = true -> (c < 128)%N) ->
  forallb p t = true -> forallb scalar t = true.
Proof.
  intros Hp H. rewrite forallb_forall in *. intros c Hc.
  specialize (Hp c (H c Hc)). unfold scalar.
  destruct (N.ltb_spec c 55296); [reflexivity|lia].
Qed.

Lemma number_char_ascii (c : N) : number_char c = true -> (c < 128)%N.
Proof.
  unfold number_char, digit_or_minus, is_ascii_digit. cbn [existsb].
  intros H. repeat (apply orb_true_iff in H; destruct H as [H|H]);
    try (apply N.eqb_eq in H; subst; reflexivity); try discriminate.
  apply andb_true_iff in H. destruct H as [_ H]. apply N.leb_le in H. lia.
Qed.

Lemma scalar_number (t : str) :
  forallb number_char t = true -> forallb scalar t = true.
Proof. apply scalar_below. exact number_char_ascii. Qed.

Lemma scalar_str_of_nat (n : nat) : forallb scalar (str_of_nat n) = true.
Proof.
  apply scalar_number, number_chars_of_digits, str_of_Z_digits.
Qed.

Lemma scalar_pad_int (width : nat) (zero : bool) (z : Z) :
  forallb scalar (pad_int width zero z) = true.
Proof.
  apply scalar_number. pose proof (pad_int_digits width zero z) as H.
  rewrite forallb_forall in *. intros c Hc. specialize (H c Hc).
  unfold number_char. apply orb_true_iff in H. destruct H as [->| ->];
    [reflexivity|]. rewrite !orb_true_r. reflexivity.
Qed.

Lemma scalar_hex (p : bytes) : forallb scalar (hex p) = true.
Proof.
  apply forallb_forall. intros c Hc.
  pose proof (proj1 (Forall_forall _ _) (hex_digits p) c Hc) as H.
  unfold between in H. unfold scalar.
  destruct (N.ltb_spec c 55296); [reflexivity|].
  apply orb_true_iff in H. destruct H as [H|H]; apply andb_true_iff in H;
    destruct H as [_ H]; apply N.leb_le in H; lia.
Qed.

Lemma scalar_replace_char (old : N) (new t : str) :
  forallb scalar new = true -> forallb scalar t = true ->
  forallb scalar (replace_char old new t) = true.
Proof.
  intros Hn Ht. unfold replace_char. apply scalar_flat_map. intros c Hc.
  destruct (c =? old)%N; [exact Hn|]. cbn [forallb].
  rewrite forallb_forall in Ht. rewrite (Ht c Hc). reflexivity.
Qed.

Lemma scalar_escape (t : str) :
  forallb scalar t = true -> forallb scalar (escape t) = true.
Proof.
  intros H. unfold escape.
  repeat (apply scalar_replace_char; [reflexivity|]). exact H.
Qed.

Ltac scalars :=
  repeat match goal with
    | |- forallb scalar _ = true => assumption
    | |- forallb scalar (_ ++ _) = true => apply scalar_app
    | |- forallb scalar (escape _) = true => apply scalar_escape
    | |- forallb scalar (str_of_nat _) = true => apply scalar_str_of_nat
    | |- forallb scalar (pad_int _ _ _) = true => apply scalar_pad_int
    | |- forallb scalar (hex _) = true => apply scalar_hex
    | |- forallb scalar (text _) = true => apply text_scalar
    | |- forallb scalar (decoded _ _ _) = true => apply decoded_scalar
    | |- forallb scalar (firstn _ _) = true => apply scalar_firstn
    | |- forallb scalar (percent_text _ _ _) = true =>
        apply scalar_number, percent_text_chars
    | |- forallb scalar (flat_map _ _) = true => apply scalar_flat_map; intros
    | |- forallb scalar (h _) = true => vm_compute; reflexivity
    | |- forallb scalar (u _) = true => vm_compute; reflexivity
    | |- forallb scalar (s _) = true => vm_compute; reflexivity
    | |- forallb scalar (repeat_str _ _) = true => vm_compute; reflexivity
    | |- forallb scalar rule = true => vm_compute; reflexivity
    | |- forallb scalar nl = true => reflexivity
    | |- forallb scalar [] = true => reflexivity
    end.

(** What the findings are made of. *)
Lemma found_string_scalar (data : bytes) (it : string_item) :
  In it (found_strings data) -> forallb scalar (string_content it) = true.
Proof.
  intros H. apply in_map_iff in H. destruct H as (mt & <- & _).
  apply text_scalar.
Qed.

Lemma found_credential_scalar (data : bytes) (entry : string * list cred_item)
  (it : cred_item) :
  In entry (found_credentials data) -> In it (snd entry) ->
  forallb scalar (cred_value it) = true.
Proof.
  destruct entry as [category items]. intros Hin Hit.
  destruct (stored_items_are_matches data category items it Hin Hit)
    as (pl & pattern & mt & _ & _ & _ & ->).
  cbn [cred_item_of cred_value]. scalars.
Qed.

Lemma category_scalar (data : bytes) (entry : string * list cred_item) :
  In entry (found_credentials data) ->
  forallb scalar (str_upper (key_str (fst entry))) = true.
Proof.
  intros H. apply found_category_known in H. revert H.
  generalize (fst entry). intros c Hc.
  assert (Hall : forallb (fun c => forallb scalar (str_upper (key_str c)))
                         (map fst CredentialHunter_patterns) = true)
    by (vm_compute; reflexivity).
  rewrite forallb_forall in Hall. exact (Hall c Hc).
Qed.

Lemma found_field_scalar (data : bytes) (entry : str * nat) :
  In entry (most_common 50 (field_counts data)) ->
  forallb scalar (fst entry) = true.
Proof.
  intros H. unfold most_common in H. apply In_firstn in H.
  apply (Permutation_in _ (sorted_reverse_permutation _ _)) in H.
  unfold field_counts in H. rewrite Counter_tally in H.
  destruct entry as [name count]. apply tally_entry in H.
  destruct H as (_ & _ & H). apply in_map_iff in H.
  destruct H as (it & <- & Hit). apply in_map_iff in Hit.
  destruct Hit as (mt & <- & _). cbn [fst field_item_of field_name].
  apply text_scalar.
Qed.

Lemma found_email_scalar (seed : hash_seed) (data : bytes) (t : str) :
  In t (found_emails seed data) -> forallb scalar t = true.
Proof.
  intros Ht. unfold found_emails in Ht.
  apply (Permutation_in _ (sorted_str_permutation _)) in Ht.
  apply (Permutation_in _ (iteration_order_permutation _ _)) in Ht.
  apply (set_fold_In (fun _ => true) (fun mt => text (group0 data mt))) in Ht.
  destruct Ht as [[]|(mt & _ & _ & <-)]. apply text_scalar.
Qed.

Lemma found_ip_scalar (seed : hash_seed) (data : bytes) (t : str) :
  In t (found_ips seed data) -> forallb scalar t = true.
Proof.
  intros Ht. unfold found_ips in Ht.
  apply (Permutation_in _ (sorted_str_permutation _)) in Ht.
  apply (Permutation_in _ (iteration_order_permutation _ _)) in Ht.
  apply (set_fold_In (fun mt => ip_valid (text (group0 data mt)))
                     (fun mt => text (group0 data mt))) in Ht.
  destruct Ht as [[]|(mt & _ & _ & <-)]. apply text_scalar.
Qed.

Lemma record_text_scalar (json_dumps : pyval -> outcome str) (it : json_item) :
  (exists out, json_dumps (json_data it) = Returns out
               /\ forallb scalar out = true) ->
  forallb scalar (text_of (json_dumps (json_data it))) = true.
Proof. intros (out & -> & H). exact H. Qed.


(** The texts of the text report. *)
Lemma main_texts_scalar (json_loads : str -> outcome pyval)
  (json_dumps : pyval -> outcome str) (seed : hash_seed) (data : bytes) :
  Forall (fun it => exists out, json_dumps (json_data it) = Returns out
                                /\ forallb scalar out = true)
         (found_records json_loads data) ->
  Forall (fun text => forallb scalar text = true)
         (main_texts json_loads json_dumps seed data).
Proof.
  intros Hj. unfold main_texts.
  repeat (apply Forall_cons; [|]); [| | | | | | |apply Forall_nil].
  - unfold text_layout. scalars. unfold pattern_line. scalars.
  - unfold text_credentials.
    destruct (found_credentials data) as [|e0 es] eqn:E; [vm_compute; reflexivity|].
    rewrite <- E. apply scalar_flat_map. intros entry Hin. unfold cred_block.
    pose proof (category_scalar data entry Hin) as Hc.
    pose proof (found_credential_scalar data entry) as Hv.
    destruct (snd entry) as [|it its] eqn:E'; [reflexivity|].
    rewrite <- E' in *. scalars. unfold cred_line. scalars.
    apply Hv; [exact Hin|]. eapply In_firstn. eassumption.
  - unfold text_fields.
    destruct (found_fields data) as [|f0 fs] eqn:E; [vm_compute; reflexivity|].
    rewrite <- E. scalars. unfold field_line. scalars.
    apply found_field_scalar with (data := data). assumption.
  - unfold text_strings.
    destruct (found_strings data) as [|s0 ss] eqn:E; [vm_compute; reflexivity|].
    rewrite <- E. scalars. unfold string_line. scalars.
    apply found_string_scalar with (data := data). eapply In_firstn. eassumption.
  - unfold text_records.
    destruct (found_records json_loads data) as [|r0 rs] eqn:E;
      [vm_compute; reflexivity|].
    rewrite <- E in *. scalars. unfold record_block. scalars.
    apply record_text_scalar.
    apply (proj1 (Forall_forall _ _) Hj). eapply In_firstn. eassumption.
  - unfold text_listing.
    pose proof (found_email_scalar seed data) as He.
    destruct (found_emails seed data) as [|t ts] eqn:E; [vm_compute; reflexivity|].
    rewrite <- E in *. scalars. unfold listing_line. scalars. apply He. assumption.
  - unfold text_listing.
    pose proof (found_ip_scalar seed data) as He.
    destruct (found_ips seed data) as [|t ts] eqn:E; [vm_compute; reflexivity|].
    rewrite <- E in *. scalars. unfold listing_line. scalars. apply He. assumption.
Qed.

(** ** The texts of the text report *)

Lemma main_reports (json_loads : str -> outcome pyval)
  (json_dumps : pyval -> outcome str) (str_of_object : pyval -> str)
  (seed : hash_seed) (data : bytes) :
  Forall (fun it => exists t, json_dumps (json_data it) = Returns t)
         (found_records json_loads data) ->
  Forall2 (fun r text =>
             format_result r (entry_of (analyzer r) data) = Returns text)
          (main_reporters json_dumps str_of_object json_loads seed)
          (main_texts json_loads json_dumps seed data).
Proof.
  intros Hd.
  destruct (layout_value data) as (np & pp & Hn & Hp & Hl).
  destruct (percent_text_formats 2 (null_count data) (length data))
    as (np' & Hn' & Hfn).
  destruct (percent_text_formats 2 (printable_count data) (length data))
    as (pp' & Hp' & Hfp).
  assert (np' = np) by congruence. assert (pp' = pp) by congruence. subst.
  unfold main_reporters, main_texts, entry_of.
  repeat (apply Forall2_cons; [|]); [| | | | | | |apply Forall2_nil];
    cbn [format_result]; main_values.
  - rewrite Hl. apply layout_rows; assumption.
  - apply credential_rows.
  - rewrite field_rows. unfold text_fields.
    destruct (found_fields data); reflexivity.
  - rewrite string_rows. rewrite firstn_min by lia.
    unfold text_strings. destruct (found_strings data); reflexivity.
  - rewrite record_rows by exact Hd. reflexivity.
  - unfold EmailExtractor_format_result. apply listing_rows.
  - unfold IPAddressExtractor_format_result. apply listing_rows.
Qed.

(** ** What [main] leaves alone *)

Lemma keeps_ret {A} (p : string) (x : A) : keeps p (io_ret x).
Proof. intros w. reflexivity. Qed.

Lemma keeps_lift {A} (p : string) (c : outcome A) : keeps p (lift c).
Proof. intros w. reflexivity. Qed.

Lemma keeps_print (p : string) (t : str) : keeps p (print t).
Proof. intros w. reflexivity. Qed.

Lemma keeps_bind {A B} (p : string) (c : io A) (k : A -> io B) :
  keeps p c -> (forall x, keeps p (k x)) -> keeps p (io_bind c k).
Proof.
  intros Hc Hk w. unfold io_bind. specialize (Hc w).
  destruct (c w) as [[x|e] w']; cbn [snd] in *; [|exact Hc].
  rewrite (Hk x w'). exact Hc.
Qed.

Lemma keeps_read_file (p path : string) : keeps p (read_file path).
Proof.
  intros w. unfold read_file.
  destruct (dict_get string_dec path (files w)); reflexivity.
Qed.

Lemma keeps_except {A} (p : string) (c : io A) (cls : string) (handler : io A) :
  keeps p c -> keeps p handler -> keeps p (io_except c cls handler).
Proof.
  intros Hc Hh w. unfold io_except. specialize (Hc w).
  destruct (c w) as [[x|e] w']; cbn [snd] in *; [exact Hc|].
  destruct (string_dec (exn_class e) cls); [|exact Hc].
  rewrite (Hh w'). exact Hc.
Qed.

Lemma keeps_open_w (p path : string) : p <> path -> keeps p (open_w path).
Proof.
  intros Hne w. cbn [open_w snd files].
  apply dict_get_set_other. exact Hne.
Qed.

Lemma keeps_write (p path : string) (t : str) :
  p <> path -> keeps p (write path t).
Proof.
  intros Hne w. unfold write. destruct (encode_utf8 t); [|reflexivity].
  cbn [snd files]. apply dict_get_set_other. exact Hne.
Qed.

Lemma keeps_for_each {A} (p : string) (l : list A) (body : A -> io unit) :
  (forall x, keeps p (body x)) -> keeps p (io_for_each l body).
Proof.
  intros H. induction l as [|x l IH]; [apply keeps_ret|].
  cbn [io_for_each]. apply keeps_bind; [apply H|intros _; exact IH].
Qed.

Lemma keeps_analyze_all (p : string) (self : HTMLReportGenerator) (data : bytes) :
  keeps p (io_analyze_all self data).
Proof.
  intros w. unfold io_analyze_all. destruct (analyze_all self data). reflexivity.
Qed.

Lemma keeps_generate_html (json_dumps : pyval -> outcome str)
  (str_of_object : pyval -> str) (p : string) (self : HTMLReportGenerator)
  (output_file : string) :
  p <> output_file ->
  keeps p (generate_html json_dumps str_of_object self output_file).
Proof.
  intros Hne. unfold generate_html.
  apply keeps_bind; [apply keeps_lift|intros page].
  apply keeps_bind; [apply keeps_open_w; exact Hne|intros _].
  apply keeps_bind; [apply keeps_write; exact Hne|intros _].
  apply keeps_print.
Qed.

(** X20.  [main] changes no file but the reports it is asked for: a path
    that is not the path of the text report (when the format asks for it)
    and not the path of the HTML report (when the format asks for it) holds
    after the run, whether it ends normally or with an error, what it held
    before.  In particular the input file is never changed unless it is
    named as an output, and with [--format txt] or [--format html] the
    file of the other report is left alone. *)
Theorem main_changes_only_its_output_files
  (json_loads : str -> outcome pyval) (json_dumps : pyval -> outcome str)
  (str_of_object : pyval -> str) (seed : hash_seed)
  (args : arguments) (w : world) (p : string) :
  (wants_txt (args_format args) = true -> p <> args_output_txt args) ->
  (wants_html (args_format args) = true -> p <> args_output_html args) ->
  dict_get string_dec p
    (files (snd (main json_loads json_dumps str_of_object seed args w)))
  = dict_get string_dec p (files w).
Proof.
  intros Htxt Hhtml.
  assert (H : keeps p (main json_loads json_dumps str_of_object seed args));
    [|exact (H w)].
  unfold main.
  apply keeps_bind; [apply keeps_print|intros _].
  apply keeps_bind; [apply keeps_print|intros _].
  apply keeps_bind.
  { apply keeps_except.
    - apply keeps_bind; [apply keeps_read_file|intros data; apply keeps_ret].
    - apply keeps_bind; [apply keeps_print|intros _].
      apply keeps_bind; [apply keeps_print|intros _]. apply keeps_ret. }
  intros [data|]; [|apply keeps_ret].
  apply keeps_bind; [apply keeps_print|intros _].
  apply keeps_bind; [apply keeps_analyze_all|intros generator].
  apply keeps_bind.
  { destruct (wants_txt (args_format args)); [|apply keeps_ret].
    specialize (Htxt eq_refl).
    apply keeps_bind; [apply keeps_print|intros _].
    apply keeps_bind; [apply keeps_open_w; exact Htxt|intros _].
    do 3 (apply keeps_bind; [apply keeps_write; exact Htxt|intros _]).
    apply keeps_for_each. intros r.
    do 3 (apply keeps_bind; [apply keeps_write; exact Htxt|intros _]).
    apply keeps_bind; [apply keeps_lift|intros text].
    apply keeps_bind; [apply keeps_write; exact Htxt|intros _].
    apply keeps_write; exact Htxt. }
  intros _. apply keeps_bind.
  { destruct (wants_html (args_format args)); [|apply keeps_ret].
    specialize (Hhtml eq_refl).
    apply keeps_bind; [apply keeps_print|intros _].
    apply keeps_generate_html. exact Hhtml. }
  intros _. apply keeps_bind; [apply keeps_print|intros _]. apply keeps_print.
Qed.

(** A run with [--format txt] on a world with the input file and an older
    HTML report: the older report is still there. *)
Lemma main_changes_only_its_output_files_witness :
  dict_get string_dec "analysis.html"
    (files (snd (main json_rejects json_blank str_blank []
                   (mk_arguments "leaked.bin" "analysis.txt" "analysis.html" txt)
                   (mk_world [("leaked.bin", b "user=admin");
                              ("analysis.html", b "older")] []))))
  = dict_get string_dec "analysis.html"
      (files (mk_world [("leaked.bin", b "user=admin");
                        ("analysis.html", b "older")] [])).
Proof.
  apply (main_changes_only_its_output_files json_rejects json_blank str_blank []
           (mk_arguments "leaked.bin" "analysis.txt" "analysis.html" txt)
           (mk_world [("leaked.bin", b "user=admin");
                      ("analysis.html", b "older")] [])
           "analysis.html").
  - intros _. discriminate.
  - intros H. discriminate H.
Defined.

(** ** A missing input file *)



(** ** Writing a report *)

Lemma utf8_bytes_encode (t : str) :
  forallb scalar t = true -> encode_utf8 t = Returns (utf8_bytes t).
Proof.
  intros H. destruct (encode_utf8_scalar t H) as [bs Hbs].
  unfold utf8_bytes. rewrite Hbs. reflexivity.
Qed.

Lemma utf8_bytes_app (a c : str) :
  forallb scalar a = true -> forallb scalar c = true ->
  utf8_bytes (a ++ c) = utf8_bytes a ++ utf8_bytes c.
Proof.
  intros Ha Hc. unfold utf8_bytes at 1.
  rewrite (encode_utf8_app a c _ _ (utf8_bytes_encode a Ha) (utf8_bytes_encode c Hc)).
  reflexivity.
Qed.

Lemma dict_set_twice {K V} (dec : forall x y : K, {x = y} + {x <> y})
  (k : K) (v v' : V) (d : dict K V) :
  dict_set dec k v (dict_set dec k v' d) = dict_set dec k v d.
Proof.
  induction d as [|[k0 v0] d IH]; cbn [dict_set].
  - destruct (dec k k); [reflexivity|congruence].
  - destruct (dec k k0) as [->|Hne]; cbn [dict_set].
    + destruct (dec k0 k0); [reflexivity|congruence].
    + destruct (dec k k0); [congruence|]. rewrite IH. reflexivity.
Qed.

Lemma appends_write (path : string) (t : str) :
  forallb scalar t = true -> appends path t (write path t).
Proof.
  intros H w held Hheld. unfold write.
  rewrite (utf8_bytes_encode t H), Hheld. reflexivity.
Qed.

Lemma appends_seq (path : string) (a c : str) (first second : io unit) :
  forallb scalar a = true -> forallb scalar c = true ->
  appends path a first -> appends path c second ->
  appends path (a ++ c) (first ;;; second).
Proof.
  intros Ha Hc H1 H2 w held Hheld. unfold io_bind.
  rewrite (H1 w held Hheld).
  rewrite (H2 _ (held ++ utf8_bytes a)) by (cbn [files]; apply dict_get_set_same).
  cbn [files stdout]. rewrite dict_set_twice, utf8_bytes_app, app_assoc by assumption.
  reflexivity.
Qed.

Lemma dict_set_held {K V} (dec : forall x y : K, {x = y} + {x <> y})
  (k : K) (v : V) (d : dict K V) :
  dict_get dec k d = Some v -> dict_set dec k v d = d.
Proof.
  induction d as [|[k0 v0] d IH]; [discriminate|].
  cbn [dict_get dict_set]. destruct (dec k k0) as [->|Hne].
  - intros H. injection H as ->. reflexivity.
  - intros H. rewrite (IH H). reflexivity.
Qed.

Lemma appends_nothing (path : string) : appends path [] (io_ret tt).
Proof.
  intros w held Hheld. unfold io_ret, utf8_bytes. cbn [encode_utf8].
  rewrite app_nil_r. rewrite dict_set_held by exact Hheld. destruct w. reflexivity.
Qed.

Lemma appends_lift {A} (path : string) (t : str) (c : outcome A) (x : A)
  (k : A -> io unit) :
  c = Returns x -> appends path t (k x) -> appends path t (y <~ lift c ;; k y).
Proof. intros -> H w held Hheld. exact (H w held Hheld). Qed.

Section ReportLoop.
Variable f : string.
Variable generator : HTMLReportGenerator.

(** The loop of [main] over its analyzers. *)
Lemma report_loop_appends (reporters : list Reporter) (texts : list str) :
  Forall2 (fun r text =>
             format_result r (result_of generator (get_name (analyzer r)))
             = Returns text
             /\ forallb scalar text = true
             /\ forallb scalar (key_str (get_name (analyzer r))) = true)
          reporters texts ->
  let parts := flat_map (fun part => text_report_part (fst part) (snd part))
                        (combine (map (fun r => get_name (analyzer r)) reporters)
                                 texts) in
  forallb scalar parts = true
  /\ appends f parts
       (io_for_each reporters
          (fun r =>
             write f (nl ++ rule ++ nl) ;;;
             write f (key_str (get_name (analyzer r)) ++ nl) ;;;
             write f (rule ++ nl) ;;;
             let result :=
               match dict_get string_dec (get_name (analyzer r))
                              (results generator) with
               | Some result => result
               | None => VDict []
               end in
             text <~ lift (format_result r result) ;;
             write f text ;;;
             write f nl)).
Proof.
  induction 1 as [|r text reporters texts (Hr & Ht & Hn) _ IH].
  - split; [reflexivity|apply appends_nothing].
  - destruct IH as [IHs IHa].
    assert (Hrule : forallb scalar rule = true) by (vm_compute; reflexivity).
    assert (Hpart : forallb scalar (text_report_part (get_name (analyzer r)) text)
                    = true).
    { unfold text_report_part. scalars. }
    cbn [map combine flat_map fst snd io_for_each]. split.
    + apply scalar_app; assumption.
    + apply appends_seq; [exact Hpart|exact IHs| |exact IHa].
      unfold text_report_part.
      replace (nl ++ rule ++ nl ++ key_str (get_name (analyzer r)) ++ nl ++ rule
               ++ nl ++ text ++ nl)
        with ((nl ++ rule ++ nl)
              ++ (key_str (get_name (analyzer r)) ++ nl)
              ++ (rule ++ nl) ++ text ++ nl)
        by (rewrite <- ?app_assoc; reflexivity).
      apply appends_seq; [scalars|scalars|apply appends_write; scalars|].
      apply appends_seq; [scalars|scalars|apply appends_write; scalars|].
      apply appends_seq; [scalars|scalars|apply appends_write; scalars|].
      apply (appends_lift _ _ _ text); [exact Hr|].
      apply appends_seq; [scalars|scalars|apply appends_write; scalars|].
      apply appends_write. reflexivity.
Qed.
End ReportLoop.

(** ** A run of [main] *)

Lemma main_printed (json_loads : str -> outcome pyval) (seed : hash_seed)
  (data : bytes) :
  snd (run_pipeline (main_analyzers json_loads seed) data)
  = map Running analyzer_names.
Proof.
  rewrite run_pipeline_unfold. cbn [snd]. unfold main_analyzers.
  destruct (layout_value data) as (np & pp & _ & _ & Hl).
  cbn [fold_left]. unfold analyze_one. main_values. rewrite Hl. reflexivity.
Qed.

Lemma main_generator (json_loads : str -> outcome pyval)
  (json_dumps : pyval -> outcome str) (str_of_object : pyval -> str)
  (seed : hash_seed) (data : bytes) (w : world) :
  io_analyze_all
    (fold_left add_analyzer
       (map analyzer (main_reporters json_dumps str_of_object json_loads seed))
       new_generator)
    data w
  = (Returns (fst (run_pipeline (main_analyzers json_loads seed) data)),
     mk_world (files w)
       (stdout w ++ map (fun name => printed_line (Running name)) analyzer_names)).
Proof.
  unfold io_analyze_all.
  change (fold_left add_analyzer
            (map analyzer (main_reporters json_dumps str_of_object json_loads seed))
            new_generator)
    with (register_all (main_analyzers json_loads seed)).
  change (analyze_all (register_all (main_analyzers json_loads seed)) data)
    with (run_pipeline (main_analyzers json_loads seed) data).
  pose proof (main_printed json_loads seed data) as Hp.
  destruct (run_pipeline (main_analyzers json_loads seed) data) as [g out].
  cbn [fst snd] in *. rewrite Hp, map_map. reflexivity.
Qed.

Lemma main_lookups (json_loads : str -> outcome pyval)
  (json_dumps : pyval -> outcome str) (str_of_object : pyval -> str)
  (seed : hash_seed) (data : bytes) :
  Forall (fun r =>
            result_of (fst (run_pipeline (main_analyzers json_loads seed) data))
                      (get_name (analyzer r))
            = entry_of (analyzer r) data)
         (main_reporters json_dumps str_of_object json_loads seed).
Proof.
  unfold result_of. rewrite main_results. unfold main_reporters, main_analyzers.
  repeat (apply Forall_cons; [reflexivity|]). apply Forall_nil.
Qed.

Lemma main_report_loop (json_loads : str -> outcome pyval)
  (json_dumps : pyval -> outcome str) (str_of_object : pyval -> str)
  (seed : hash_seed) (data : bytes) :
  Forall (fun it => exists out, json_dumps (json_data it) = Returns out
                                /\ forallb scalar out = true)
         (found_records json_loads data) ->
  Forall2 (fun r text =>
             format_result r
               (result_of (fst (run_pipeline (main_analyzers json_loads seed) data))
                          (get_name (analyzer r)))
             = Returns text
             /\ forallb scalar text = true
             /\ forallb scalar (key_str (get_name (analyzer r))) = true)
          (main_reporters json_dumps str_of_object json_loads seed)
          (main_texts json_loads json_dumps seed data).
Proof.
  intros Hj.
  assert (Hd : Forall (fun it => exists t, json_dumps (json_data it) = Returns t)
                      (found_records json_loads data)).
  { eapply Forall_impl; [|exact Hj]. intros it (out & Hout & _).
    exists out. exact Hout. }
  pose proof (main_reports json_loads json_dumps str_of_object seed data Hd) as Hr.
  pose proof (main_texts_scalar json_loads json_dumps seed data Hj) as Hs.
  pose proof (main_lookups json_loads json_dumps str_of_object seed data) as Hl.
  assert (Hn : Forall (fun r => forallb scalar (key_str (get_name (analyzer r)))
                                = true)
                      (main_reporters json_dumps str_of_object json_loads seed)).
  { unfold main_reporters.
    repeat (apply Forall_cons; [vm_compute; reflexivity|]). apply Forall_nil. }
  revert Hs Hl Hn.
  induction Hr as [|r text rs ts Hrt _ IH]; intros Hs Hl Hn; [constructor|].
  inversion Hs; subst. inversion Hl; subst. inversion Hn; subst.
  constructor; [|apply IH; assumption].
  split; [|split; assumption].
  match goal with H : result_of _ _ = _ |- _ => rewrite H end. exact Hrt.
Qed.





Lemma io_bind_returns {A B} (c : io A) (k : A -> io B) (w : world) (x : A)
  (w' : world) :
  c w = (Returns x, w') -> io_bind c k w = k x w'.
Proof. intros H. unfold io_bind. rewrite H. reflexivity. Qed.

Lemma print_then {A} (t : str) (k : io A) (w : world) :
  (print t ;;; k) w = k (mk_world (files w) (stdout w ++ [t])).
Proof. reflexivity. Qed.


(** ** The reports of [main] *)





(** ** A record that cannot be written *)

Lemma encode_char_not_scalar (c : N) : scalar c = false -> encode_char c = None.
Proof.
  unfold scalar, encode_char. intros H.
  apply orb_false_iff in H. destruct H as [H1 H2]. apply N.ltb_ge in H1.
  destruct (N.ltb_spec c 128); [lia|]. destruct (N.ltb_spec c 2048); [lia|].
  destruct (N.leb_spec 55296 c); [|lia].
  destruct (N.leb_spec c 57343); [reflexivity|]. cbn [andb].
  destruct (N.ltb_spec 57343 c); [|lia]. cbn [andb] in H2. apply N.ltb_ge in H2.
  destruct (N.ltb_spec c 65536); [lia|]. destruct (N.ltb_spec c 1114112); [lia|].
  reflexivity.
Qed.

Lemma encode_utf8_fails (t : str) :
  forallb scalar t = false ->
  encode_utf8 t = Raises (UnicodeEncodeError "surrogates not allowed").
Proof.
  induction t as [|c t IH]; [discriminate|]. cbn [forallb encode_utf8].
  destruct (scalar c) eqn:E.
  - cbn [andb]. intros H. destruct (encode_char_scalar c E) as [bs ->].
    rewrite (IH H). reflexivity.
  - intros _. rewrite (encode_char_not_scalar c E). reflexivity.
Qed.

Lemma not_scalar_app_r (a c : str) :
  forallb scalar c = false -> forallb scalar (a ++ c) = false.
Proof. intros H. rewrite forallb_app, H. apply andb_false_r. Qed.

Lemma not_scalar_app_l (a c : str) :
  forallb scalar a = false -> forallb scalar (a ++ c) = false.
Proof. intros H. rewrite forallb_app, H. reflexivity. Qed.

Lemma not_scalar_flat_map {A} (f : A -> str) (l : list A) (x : A) :
  In x l -> forallb scalar (f x) = false -> forallb scalar (flat_map f l) = false.
Proof.
  induction l as [|y l IH]; intros Hin Hx; [destruct Hin|].
  cbn [flat_map]. destruct Hin as [->|Hin].
  - apply not_scalar_app_l. exact Hx.
  - apply not_scalar_app_r. exact (IH Hin Hx).
Qed.

Lemma text_records_not_scalar (json_loads : str -> outcome pyval)
  (json_dumps : pyval -> outcome str) (data : bytes) (it : json_item) (out : str) :
  In it (firstn 50 (found_records json_loads data)) ->
  json_dumps (json_data it) = Returns out ->
  forallb scalar out = false ->
  forallb scalar (text_records json_loads json_dumps data) = false.
Proof.
  intros Hin Hout Hs. unfold text_records.
  destruct (found_records json_loads data) as [|r0 rs] eqn:E;
    [destruct Hin|].
  rewrite <- E in *. do 5 apply not_scalar_app_r.
  apply (not_scalar_flat_map _ _ it Hin). unfold record_block.
  do 4 apply not_scalar_app_r. apply not_scalar_app_l.
  rewrite Hout. exact Hs.
Qed.

Lemma stops_write (path : string) (t : str) (e : exn) :
  encode_utf8 t = Raises e -> stops path [] e (write path t).
Proof.
  intros H w held Hheld. unfold write. rewrite H.
  unfold utf8_bytes. cbn [encode_utf8]. rewrite app_nil_r.
  rewrite dict_set_held by exact Hheld. destruct w. reflexivity.
Qed.

Lemma stops_first (path : string) (t : str) (e : exn) (first second : io unit) :
  stops path t e first -> stops path t e (first ;;; second).
Proof.
  intros H w held Hheld. unfold io_bind. rewrite (H w held Hheld). reflexivity.
Qed.

Lemma stops_after (path : string) (a c : str) (e : exn) (first second : io unit) :
  forallb scalar a = true -> forallb scalar c = true ->
  appends path a first -> stops path c e second ->
  stops path (a ++ c) e (first ;;; second).
Proof.
  intros Ha Hc H1 H2 w held Hheld. unfold io_bind.
  rewrite (H1 w held Hheld).
  rewrite (H2 _ (held ++ utf8_bytes a)) by (cbn [files]; apply dict_get_set_same).
  cbn [files stdout]. rewrite dict_set_twice, utf8_bytes_app, app_assoc by assumption.
  reflexivity.
Qed.

Lemma stops_lift {A} (path : string) (t : str) (e : exn) (c : outcome A) (x : A)
  (k : A -> io unit) :
  c = Returns x -> stops path t e (k x) -> stops path t e (y <~ lift c ;; k y).
Proof. intros -> H w held Hheld. exact (H w held Hheld). Qed.

Lemma io_bind_raises {A B} (c : io A) (k : A -> io B) (w : world) (e : exn)
  (w' : world) :
  c w = (Raises e, w') -> io_bind c k w = (Raises e, w').
Proof. intros H. unfold io_bind. rewrite H. reflexivity. Qed.

Lemma io_for_each_app {A} (l1 l2 : list A) (body : A -> io unit) (w : world) :
  io_for_each (l1 ++ l2) body w
  = (io_for_each l1 body ;;; io_for_each l2 body) w.
Proof.
  revert w. induction l1 as [|x l1 IH]; intros w; [reflexivity|].
  cbn [app io_for_each]. unfold io_bind at 1 2 3.
  destruct (body x w) as [[[]|e] w']; [|reflexivity]. apply IH.
Qed.

(** The loop of [main] when the text of the fifth analyzer cannot be
    encoded. *)
Lemma main_loop_stops (json_loads : str -> outcome pyval)
  (json_dumps : pyval -> outcome str) (str_of_object : pyval -> str)
  (seed : hash_seed) (data : bytes) (f : string) :
  Forall (fun it => exists t, json_dumps (json_data it) = Returns t)
         (found_records json_loads data) ->
  forallb scalar (text_records json_loads json_dumps data) = false ->
  stops f
    (flat_map (fun part => text_report_part (fst part) (snd part))
              (combine (firstn 4 analyzer_names)
                       [text_layout data; text_credentials data;
                        text_fields data; text_strings data])
     ++ nl ++ rule ++ nl ++ key_str "JSON数据提取" ++ nl ++ rule ++ nl)
    (UnicodeEncodeError "surrogates not allowed")
    (io_for_each (main_reporters json_dumps str_of_object json_loads seed)
       (fun r =>
          write f (nl ++ rule ++ nl) ;;;
          write f (key_str (get_name (analyzer r)) ++ nl) ;;;
          write f (rule ++ nl) ;;;
          let result :=
            match dict_get string_dec (get_name (analyzer r))
                    (results (fst (run_pipeline (main_analyzers json_loads seed)
                                                data))) with
            | Some result => result
            | None => VDict []
            end in
          text <~ lift (format_result r result) ;;
          write f text ;;;
          write f nl)).
Proof.
  intros Hd Hbad.
  assert (Hblank : Forall (fun it => exists out,
                             json_blank (json_data it) = Returns out
                             /\ forallb scalar out = true)
                          (found_records json_loads data)).
  { apply Forall_forall. intros it _. exists (s "null"). split; reflexivity. }
  pose proof (main_report_loop json_loads json_blank str_of_object seed data
                Hblank) as Hloop.
  pose proof (main_reports json_loads json_dumps str_of_object seed data Hd)
    as Hreports.
  pose proof (main_lookups json_loads json_dumps str_of_object seed data)
    as Hlook.
  unfold main_reporters, main_texts in *.
  inversion Hloop as [|r1 t1 l1 l1' F1 Hloop1]; subst. clear Hloop.
  inversion Hloop1 as [|r2 t2 l2 l2' F2 Hloop2]; subst. clear Hloop1.
  inversion Hloop2 as [|r3 t3 l3 l3' F3 Hloop3]; subst. clear Hloop2.
  inversion Hloop3 as [|r4 t4 l4 l4' F4 _]; subst. clear Hloop3.
  inversion Hreports as [|? ? ? ? _ Hr1]; subst. clear Hreports.
  inversion Hr1 as [|? ? ? ? _ Hr2]; subst. clear Hr1.
  inversion Hr2 as [|? ? ? ? _ Hr3]; subst. clear Hr2.
  inversion Hr3 as [|? ? ? ? _ Hr4]; subst. clear Hr3.
  inversion Hr4 as [|? ? ? ? R5 _]; subst. clear Hr4.
  inversion Hlook as [|? ? _ Hl1]; subst. clear Hlook.
  inversion Hl1 as [|? ? _ Hl2]; subst. clear Hl1.
  inversion Hl2 as [|? ? _ Hl3]; subst. clear Hl2.
  inversion Hl3 as [|? ? _ Hl4]; subst. clear Hl3.
  inversion Hl4 as [|? ? L5 _]; subst. clear Hl4.
  pose proof (report_loop_appends f
                (fst (run_pipeline (main_analyzers json_loads seed) data))
                [mk_reporter HexDumpAnalyzer (HexDumpAnalyzer_format_result str_of_object);
                 mk_reporter CredentialHunter (CredentialHunter_format_result str_of_object);
                 mk_reporter BSONFieldAnalyzer (BSONFieldAnalyzer_format_result str_of_object);
                 mk_reporter StringExtractor (StringExtractor_format_result str_of_object)]
                [text_layout data; text_credentials data; text_fields data;
                 text_strings data]
                (Forall2_cons _ _ F1 (Forall2_cons _ _ F2 (Forall2_cons _ _ F3
                   (Forall2_cons _ _ F4 (Forall2_nil _))))))
    as [Hs Ha].
  cbn [map analyzer get_name HexDumpAnalyzer CredentialHunter BSONFieldAnalyzer
           StringExtractor] in Hs, Ha.
  assert (Hrule : forallb scalar rule = true) by (vm_compute; reflexivity).
  change (firstn 4 analyzer_names)
    with ["内存布局分析"; "凭证搜索"; "BSON字段分析"; "字符串提取"].
  intros w held Hheld.
  match goal with
  | |- io_for_each (?a :: ?b :: ?c :: ?d :: ?rest) ?body _ = _ =>
      change (io_for_each (a :: b :: c :: d :: rest) body w)
        with (io_for_each ([a; b; c; d] ++ rest) body w);
      rewrite (io_for_each_app [a; b; c; d] rest body w)
  end.
  revert w held Hheld.
  apply stops_after; [exact Hs|vm_compute; reflexivity|exact Ha|].
  cbn [io_for_each]. apply stops_first.
  cbn [analyzer get_name JSONExtractor format_result].
  replace (nl ++ rule ++ nl ++ key_str "JSON数据提取" ++ nl ++ rule ++ nl)
    with ((nl ++ rule ++ nl) ++ (key_str "JSON数据提取" ++ nl)
          ++ (rule ++ nl) ++ [])
    by (rewrite app_nil_r, <- ?app_assoc; reflexivity).
  apply stops_after;
    [vm_compute; reflexivity|vm_compute; reflexivity
    |apply appends_write; vm_compute; reflexivity|].
  apply stops_after;
    [vm_compute; reflexivity|vm_compute; reflexivity
    |apply appends_write; vm_compute; reflexivity|].
  apply stops_after;
    [vm_compute; reflexivity|reflexivity
    |apply appends_write; vm_compute; reflexivity|].
  cbn [analyzer format_result get_name JSONExtractor] in R5, L5.
  unfold result_of in L5. cbn [get_name JSONExtractor] in L5.
  apply (stops_lift _ _ _ _ (text_records json_loads json_dumps data)).
  - rewrite L5. exact R5.
  - apply stops_first. apply stops_write. apply encode_utf8_fails. exact Hbad.
Qed.

(** X24.  A parsed record that [json.dumps] writes with a lone surrogate
    stops [main]: when such a record is among the first 50 and the format
    asks for the text report, [main] raises UnicodeEncodeError from the
    [write] of the results of the Structured-Record Extractor.  The text
    report is left with the head, the parts of the four analyzers before
    it and the name of the fifth between its rules; the results of the
    last three analyzers are not written, no HTML report is written and
    the closing lines are not printed. *)
Theorem a_lone_surrogate_stops_main
  (json_loads : str -> outcome pyval) (json_dumps : pyval -> outcome str)
  (str_of_object : pyval -> str) (seed : hash_seed)
  (args : arguments) (w : world) (data : bytes) (it : json_item) (out : str) :
  dict_get string_dec (args_input args) (files w) = Some data ->
  Forall (fun it => exists t, json_dumps (json_data it) = Returns t)
         (found_records json_loads data) ->
  In it (firstn 50 (found_records json_loads data)) ->
  json_dumps (json_data it) = Returns out ->
  forallb scalar out = false ->
  wants_txt (args_format args) = true ->
  main json_loads json_dumps str_of_object seed args w
  = (Raises (UnicodeEncodeError "surrogates not allowed"),
     mk_world
       (dict_set string_dec (args_output_txt args)
                 (utf8_bytes (main_text_before_records data)) (files w))
       (stdout w
        ++ [ s "[*] MongoDB Memory Leak Analyzer";
             u "[*] 读取文件: " ++ key_str (args_input args);
             u "[*] 文件大小: " ++ str_of_nat (length data) ++ u " 字节" ]
        ++ map (fun name => printed_line (Running name)) analyzer_names
        ++ [nl ++ u "[*] 生成文本报告: " ++ key_str (args_output_txt args)])).
Proof.
  intros Hfile Hd Hin Hout Hbad Htxt.
  pose proof (text_records_not_scalar json_loads json_dumps data it out
                Hin Hout Hbad) as Hrecords.
  pose proof (main_loop_stops json_loads json_dumps str_of_object seed data
                (args_output_txt args) Hd Hrecords) as Hloop.
  assert (Hrule : forallb scalar rule = true) by (vm_compute; reflexivity).
  unfold main. rewrite !print_then.
  erewrite (io_bind_returns _ _ _ (Some data));
    [|unfold io_except, io_bind, read_file; cbn [files stdout]; rewrite Hfile;
      reflexivity].
  rewrite print_then.
  erewrite io_bind_returns; [|apply main_generator].
  cbn [files stdout]. rewrite Htxt.
  erewrite io_bind_raises.
  - reflexivity.
  - rewrite print_then. unfold io_bind at 1. cbn [open_w].
    match goal with
    | |- ?c ?w1 = _ =>
        assert (Hstops : stops (args_output_txt args)
                           (main_text_before_records data)
                           (UnicodeEncodeError "surrogates not allowed") c)
    end.
    { unfold main_text_before_records, text_report_head.
      match goal with
      | |- stops _ (_ ++ ?rest) _ _ =>
          replace ((rule ++ nl ++ s "MongoDB Memory Leak Analysis Report" ++ nl
                    ++ rule ++ nl ++ nl) ++ rest)
            with ((rule ++ nl)
                  ++ (s "MongoDB Memory Leak Analysis Report" ++ nl)
                  ++ (rule ++ nl ++ nl) ++ rest)
            by (rewrite <- ?app_assoc; reflexivity)
      end.
      assert (Hrest : forallb scalar
                (flat_map (fun part => text_report_part (fst part) (snd part))
                   (combine (firstn 4 analyzer_names)
                      [text_layout data; text_credentials data;
                       text_fields data; text_strings data])
                 ++ nl ++ rule ++ nl ++ key_str "JSON数据提取" ++ nl ++ rule ++ nl)
                = true).
      { assert (Hblank : Forall (fun it => exists out,
                                   json_blank (json_data it) = Returns out
                                   /\ forallb scalar out = true)
                                (found_records json_loads data)).
        { apply Forall_forall. intros it0 _. exists (s "null").
          split; reflexivity. }
        pose proof (main_texts_scalar json_loads json_blank seed data Hblank)
          as Hs.
        unfold main_texts in Hs.
        inversion Hs as [|? ? S1 Hs1]; subst.
        inversion Hs1 as [|? ? S2 Hs2]; subst.
        inversion Hs2 as [|? ? S3 Hs3]; subst.
        inversion Hs3 as [|? ? S4 _]; subst.
        change (firstn 4 analyzer_names)
          with ["内存布局分析"; "凭证搜索"; "BSON字段分析"; "字符串提取"].
        cbn [combine flat_map fst snd]. unfold text_report_part.
        rewrite app_nil_r. scalars. }
      apply stops_after; [scalars|scalars|apply appends_write; scalars|].
      apply stops_after; [scalars|scalars|apply appends_write; scalars|].
      apply stops_after; [scalars|scalars|apply appends_write; scalars|].
      exact Hloop. }
    rewrite (Hstops _ []) by (cbn [files]; apply dict_get_set_same).
    cbn [files stdout app]. rewrite dict_set_twice, <- !app_assoc. reflexivity.
Qed.

(** A run where the records are dumped as a lone surrogate. *)
Lemma a_lone_surrogate_stops_main_witness :
  main json_echo (fun _ => Returns [55296%N]) str_blank []
       (mk_arguments "leaked.bin" "analysis.txt" "analysis.html" both)
       (mk_world [("leaked.bin", b "user=admin {a@b.cd 10.0.0.1}")] [])
  = (Raises (UnicodeEncodeError "surrogates not allowed"),
     mk_world
       (dict_set string_dec
          (args_output_txt
             (mk_arguments "leaked.bin" "analysis.txt" "analysis.html" both))
          (utf8_bytes
             (main_text_before_records (b "user=admin {a@b.cd 10.0.0.1}")))
          (files (mk_world [("leaked.bin", b "user=admin {a@b.cd 10.0.0.1}")]
                           [])))
       (stdout (mk_world [("leaked.bin", b "user=admin {a@b.cd 10.0.0.1}")] [])
        ++ [ s "[*] MongoDB Memory Leak Analyzer";
             u "[*] 读取文件: "
             ++ key_str (args_input
                           (mk_arguments "leaked.bin" "analysis.txt"
                                         "analysis.html" both));
             u "[*] 文件大小: "
             ++ str_of_nat (length (b "user=admin {a@b.cd 10.0.0.1}"))
             ++ u " 字节" ]
        ++ map (fun name => printed_line (Running name)) analyzer_names
        ++ [nl ++ u "[*] 生成文本报告: "
            ++ key_str (args_output_txt
                          (mk_arguments "leaked.bin" "analysis.txt"
                                        "analysis.html" both))])).
Proof.
  apply (a_lone_surrogate_stops_main json_echo (fun _ => Returns [55296%N])
           str_blank []
           (mk_arguments "leaked.bin" "analysis.txt" "analysis.html" both)
           (mk_world [("leaked.bin", b "user=admin {a@b.cd 10.0.0.1}")] [])
           (b "user=admin {a@b.cd 10.0.0.1}")
           (mk_json_item 11 (VStr (s "{a@b.cd 10.0.0.1}")))
           [55296%N]).
  - reflexivity.
  - apply Forall_forall. intros it _. eexists. reflexivity.
  - vm_compute. left. reflexivity.
  - reflexivity.
  - reflexivity.
  - reflexivity.
Defined.
